(** * The ION buffer/handle lifecycle engine (drivers/gpu/ion/ion.c)

    A shallow embedding of the reference-counting core of the ION memory
    manager: buffers created over pluggable heaps, per-client handles,
    kernel-mapping counts, deferred freeing and the dma-buf export/import
    bridge.

    Conventions of the embedding.

    - Kernel objects live in a store indexed by their address.  A C pointer
      is a [Z]; dereferencing an address that holds no live object of the
      expected type is a [Crash BadPointer].
    - The heap backends ([heap->ops->...]), the slab allocator and the
      dma-buf core are outside this file of the driver.  Their answers are
      given by an [Environment] whose functions see the whole history of
      calls made so far, and every call is recorded in the [trace].
    - The rb-trees ([dev->buffers], [client->handles]) are represented by
      their in-order key sequence, the plist of heaps by its traversal
      order.
    - Mutexes and the rw-semaphore are not represented: every operation is
      run to completion under the locks it takes.
    - [pr_debug]/[pr_err]/[pr_info] and the task-name bookkeeping that only
      feeds them are left out; [WARN]/[WARN_ON] are recorded in the trace.
    - The development follows the build with CONFIG_ION_BCM set and
      CONFIG_ION_OOM_KILLER unset, on a target whose [long] and pointers
      are 32 bits wide. *)

From stdpp Require Import gmap list.

Local Open Scope Z_scope.

(** ** Machine integers, error pointers *)

Definition BITS_PER_LONG : Z := 32.

(** Value of an [unsigned int], [unsigned long], [size_t] or pointer. *)
Definition wrap (x : Z) : Z := x mod 2 ^ BITS_PER_LONG.

Definition INT_MAX : Z := 2 ^ 31 - 1.
Definition INT_MIN : Z := - 2 ^ 31.

(* include/asm-generic/errno-base.h, include/linux/err.h *)
Definition EBADF : Z := 9.
Definition ENOMEM : Z := 12.
Definition ENODEV : Z := 19.
Definition EINVAL : Z := 22.
Definition EMFILE : Z := 24.
Definition MAX_ERRNO : Z := 4095.

Definition ERR_PTR (error : Z) : Z := wrap error.

Definition IS_ERR (ptr : Z) : bool := wrap (- MAX_ERRNO) <=? ptr.

Definition IS_ERR_OR_NULL (ptr : Z) : bool := (ptr =? 0) || IS_ERR ptr.

(** ** Constants of headers that are not part of this file *)

Class Platform := {
  PAGE_SIZE : Z;
  ION_FLAG_CACHED : Z;
  ION_FLAG_CACHED_NEEDS_SYNC : Z;
  ION_HEAP_FLAG_DEFER_FREE : Z
}.

(** ** Data model *)

(** [struct ion_heap], as far as ion.c reads and writes it.  The two
    optional entries of [heap->ops] are recorded by their presence. *)
Record ion_heap := IonHeap {
  hp_id : Z;                 (* unsigned int id *)
  hp_flags : Z;              (* unsigned long flags *)
  hp_used : Z;                  (* used, CONFIG_ION_BCM *)
  hp_ops_phys : bool;        (* ops->phys != NULL *)
  hp_ops_map_kernel : bool;  (* ops->map_kernel != NULL *)
  hp_free_list : list Z      (* free_list, first entry first *)
}.

(** [struct ion_buffer].  [kmap_cnt] and [handle_count] are C [int]s. *)
Record ion_buffer := IonBuffer {
  b_ref : Z;            (* struct kref ref *)
  b_heap : Z;           (* struct ion_heap *heap *)
  b_flags : Z;          (* unsigned long flags *)
  b_size : Z;           (* size_t size *)
  b_kmap_cnt : Z;       (* int kmap_cnt *)
  b_vaddr : Z;          (* void *vaddr *)
  b_sg_table : Z;       (* struct sg_table *sg_table *)
  b_pages : Z;          (* struct page **pages *)
  b_handle_count : Z    (* int handle_count *)
}.

(** [struct ion_handle]. *)
Record ion_handle := IonHandle {
  h_ref : Z;            (* struct kref ref *)
  h_client : Z;         (* struct ion_client *client *)
  h_buffer : Z;         (* struct ion_buffer *buffer *)
  h_linked : bool;      (* !RB_EMPTY_NODE(&node) *)
  h_kmap_cnt : Z        (* unsigned int kmap_cnt *)
}.

(** [struct ion_client]. *)
Record ion_client := IonClient {
  c_handles : list Z;   (* struct rb_root handles, in order *)
  c_ref : Z;            (* struct kref ref, CONFIG_ION_BCM *)
  c_task : Z            (* struct task_struct *task, NULL for kernel threads *)
}.

(** [struct dma_buf] as the bridge sees it: whether [ops] is ion's
    [dma_buf_ops], the [priv] pointer and the reference count of the
    backing file. *)
Record dma_buf := DmaBuf {
  db_ops_ion : bool;
  db_priv : Z;
  db_count : Z
}.

Inductive warn_site :=
  | WarnAllocZeroLen
  | WarnFreeInvalidHandle
  | WarnShareInvalidHandle
  | WarnDestroyMapped
  | WarnHandleCount
  | WarnHandleAlreadyFound.

(** What the driver asks of its surroundings, in the order it asks. *)
Inductive event :=
  | EvKzalloc (p : Z)
  | EvKfree (p : Z)
  | EvVmalloc (p : Z)
  | EvVfree (p : Z)
  | EvAllocate (heap buffer len align flags ret : Z)
  | EvHeapFree (buffer : Z)
  | EvMapDma (heap buffer table : Z)
  | EvUnmapDma (heap buffer : Z)
  | EvMapKernel (heap buffer vaddr : Z)
  | EvUnmapKernel (heap buffer : Z)
  | EvPhys (heap buffer ret : Z)
  | EvWakeUp (heap : Z)
  | EvWarn (site : warn_site)
  | EvExport (buffer dmabuf : Z)
  | EvFdInstall (dmabuf fd : Z).

Global Instance warn_site_eq_dec : EqDecision warn_site.
Proof. solve_decision. Defined.

Global Instance event_eq_dec : EqDecision event.
Proof. solve_decision. Defined.

(** The answers of the surroundings.  Each one may depend on everything
    that has happened before. *)
Class Environment := {
  (* heap->ops->allocate(heap, buffer, len, align, flags) : int *)
  ops_allocate : list event → Z → Z → Z → Z → Z → Z;
  (* heap->ops->map_dma(heap, buffer) : struct sg_table * *)
  ops_map_dma : list event → Z → Z → Z;
  (* heap->ops->map_kernel(heap, buffer) : void * *)
  ops_map_kernel : list event → Z → Z → Z;
  (* heap->ops->phys(heap, buffer, addr, len) : int *)
  ops_phys : list event → Z → Z → Z;
  (* does the next kzalloc / vmalloc / dma_buf_export / dma_buf_fd fail *)
  kzalloc_fails : list event → bool;
  vmalloc_fails : list event → bool;
  dma_buf_export_fails : list event → bool;
  dma_buf_fd_fails : list event → bool;
  (* current->group_leader, and whether its flags have PF_KTHREAD *)
  current_group_leader : list event → Z;
  current_is_kthread : list event → bool
}.

(** The device singleton together with every live object. *)
Record state := State {
  handles : gmap Z ion_handle;
  buffers : gmap Z ion_buffer;
  heaps : gmap Z ion_heap;
  clients : gmap Z ion_client;
  dmabufs : gmap Z dma_buf;
  files : gmap Z Z;          (* descriptor table: fd to struct dma_buf *)
  dev_buffers : list Z;      (* dev->buffers *)
  dev_heaps : list Z;        (* dev->heaps *)
  dev_clients : list Z;      (* dev->clients *)
  brk : Z;                   (* next address handed out by the allocator *)
  trace : list event
}.

Definition set_handles (f : gmap Z ion_handle → gmap Z ion_handle) (s : state) : state :=
  State (f (handles s)) (buffers s) (heaps s) (clients s) (dmabufs s) (files s)
        (dev_buffers s) (dev_heaps s) (dev_clients s) (brk s) (trace s).

Definition set_buffers (f : gmap Z ion_buffer → gmap Z ion_buffer) (s : state) : state :=
  State (handles s) (f (buffers s)) (heaps s) (clients s) (dmabufs s) (files s)
        (dev_buffers s) (dev_heaps s) (dev_clients s) (brk s) (trace s).

Definition set_heaps (f : gmap Z ion_heap → gmap Z ion_heap) (s : state) : state :=
  State (handles s) (buffers s) (f (heaps s)) (clients s) (dmabufs s) (files s)
        (dev_buffers s) (dev_heaps s) (dev_clients s) (brk s) (trace s).

Definition set_clients (f : gmap Z ion_client → gmap Z ion_client) (s : state) : state :=
  State (handles s) (buffers s) (heaps s) (f (clients s)) (dmabufs s) (files s)
        (dev_buffers s) (dev_heaps s) (dev_clients s) (brk s) (trace s).

Definition set_dmabufs (f : gmap Z dma_buf → gmap Z dma_buf) (s : state) : state :=
  State (handles s) (buffers s) (heaps s) (clients s) (f (dmabufs s)) (files s)
        (dev_buffers s) (dev_heaps s) (dev_clients s) (brk s) (trace s).

Definition set_files (f : gmap Z Z → gmap Z Z) (s : state) : state :=
  State (handles s) (buffers s) (heaps s) (clients s) (dmabufs s) (f (files s))
        (dev_buffers s) (dev_heaps s) (dev_clients s) (brk s) (trace s).

Definition set_dev_buffers (f : list Z → list Z) (s : state) : state :=
  State (handles s) (buffers s) (heaps s) (clients s) (dmabufs s) (files s)
        (f (dev_buffers s)) (dev_heaps s) (dev_clients s) (brk s) (trace s).

Definition set_dev_heaps (f : list Z → list Z) (s : state) : state :=
  State (handles s) (buffers s) (heaps s) (clients s) (dmabufs s) (files s)
        (dev_buffers s) (f (dev_heaps s)) (dev_clients s) (brk s) (trace s).

Definition set_dev_clients (f : list Z → list Z) (s : state) : state :=
  State (handles s) (buffers s) (heaps s) (clients s) (dmabufs s) (files s)
        (dev_buffers s) (dev_heaps s) (f (dev_clients s)) (brk s) (trace s).

Definition set_brk (f : Z → Z) (s : state) : state :=
  State (handles s) (buffers s) (heaps s) (clients s) (dmabufs s) (files s)
        (dev_buffers s) (dev_heaps s) (dev_clients s) (f (brk s)) (trace s).

Definition set_trace (f : list event → list event) (s : state) : state :=
  State (handles s) (buffers s) (heaps s) (clients s) (dmabufs s) (files s)
        (dev_buffers s) (dev_heaps s) (dev_clients s) (brk s) (f (trace s)).

(** ** A state monad with crashes *)

Inductive crash :=
  | BadPointer       (* access through a pointer to no live object *)
  | KernelBUG        (* BUG() or BUG_ON(true) *)
  | DivideByZero
  | SignedOverflow   (* overflow of a C int: undefined behaviour *)
  | Livelock         (* a loop that makes no progress *)
  | OutOfFuel.

Inductive result (A : Type) :=
  | Ok (a : A) (s : state)
  | Crash (c : crash).
Arguments Ok {A} a s.
Arguments Crash {A} c.

Definition M (A : Type) : Type := state → result A.

Global Instance M_ret : MRet M := λ A a s, Ok a s.

Global Instance M_bind : MBind M := λ A B f m s,
  match m s with
  | Ok a s' => f a s'
  | Crash c => Crash c
  end.

Definition oops {A} (c : crash) : M A := λ _, Crash c.

Definition get_state : M state := λ s, Ok s s.

Definition modify (f : state → state) : M unit := λ s, Ok () (f s).

Definition emit (e : event) : M unit := modify (set_trace (λ t, t ++ [e])).

Definition history : M (list event) := λ s, Ok (trace s) s.

(** Loads and stores of whole objects.  A store to a field of a live
    object is an [update_...] with one of the [with_...] functions. *)
Definition load {A} (mem : state → gmap Z A) (p : Z) : M A := λ s,
  match mem s !! p with
  | Some x => Ok x s
  | None => Crash BadPointer
  end.

Definition get_handle : Z → M ion_handle := load handles.
Definition get_buffer : Z → M ion_buffer := load buffers.
Definition get_heap : Z → M ion_heap := load heaps.
Definition get_client : Z → M ion_client := load clients.
Definition get_dmabuf : Z → M dma_buf := load dmabufs.

Definition put_handle (p : Z) (x : ion_handle) : M unit := modify (set_handles <[p:=x]>).
Definition put_buffer (p : Z) (x : ion_buffer) : M unit := modify (set_buffers <[p:=x]>).
Definition put_heap (p : Z) (x : ion_heap) : M unit := modify (set_heaps <[p:=x]>).
Definition put_client (p : Z) (x : ion_client) : M unit := modify (set_clients <[p:=x]>).
Definition put_dmabuf (p : Z) (x : dma_buf) : M unit := modify (set_dmabufs <[p:=x]>).

Definition update_handle (p : Z) (f : ion_handle → ion_handle) : M unit :=
  x ← get_handle p; put_handle p (f x).
Definition update_buffer (p : Z) (f : ion_buffer → ion_buffer) : M unit :=
  x ← get_buffer p; put_buffer p (f x).
Definition update_heap (p : Z) (f : ion_heap → ion_heap) : M unit :=
  x ← get_heap p; put_heap p (f x).
Definition update_client (p : Z) (f : ion_client → ion_client) : M unit :=
  x ← get_client p; put_client p (f x).
Definition update_dmabuf (p : Z) (f : dma_buf → dma_buf) : M unit :=
  x ← get_dmabuf p; put_dmabuf p (f x).

(** Field assignments. *)
Definition with_b_ref (v : Z) (b : ion_buffer) : ion_buffer :=
  IonBuffer v (b_heap b) (b_flags b) (b_size b) (b_kmap_cnt b) (b_vaddr b)
            (b_sg_table b) (b_pages b) (b_handle_count b).
Definition with_b_size (v : Z) (b : ion_buffer) : ion_buffer :=
  IonBuffer (b_ref b) (b_heap b) (b_flags b) v (b_kmap_cnt b) (b_vaddr b)
            (b_sg_table b) (b_pages b) (b_handle_count b).
Definition with_b_kmap_cnt (v : Z) (b : ion_buffer) : ion_buffer :=
  IonBuffer (b_ref b) (b_heap b) (b_flags b) (b_size b) v (b_vaddr b)
            (b_sg_table b) (b_pages b) (b_handle_count b).
Definition with_b_vaddr (v : Z) (b : ion_buffer) : ion_buffer :=
  IonBuffer (b_ref b) (b_heap b) (b_flags b) (b_size b) (b_kmap_cnt b) v
            (b_sg_table b) (b_pages b) (b_handle_count b).
Definition with_b_sg_table (v : Z) (b : ion_buffer) : ion_buffer :=
  IonBuffer (b_ref b) (b_heap b) (b_flags b) (b_size b) (b_kmap_cnt b) (b_vaddr b)
            v (b_pages b) (b_handle_count b).
Definition with_b_pages (v : Z) (b : ion_buffer) : ion_buffer :=
  IonBuffer (b_ref b) (b_heap b) (b_flags b) (b_size b) (b_kmap_cnt b) (b_vaddr b)
            (b_sg_table b) v (b_handle_count b).
Definition with_b_handle_count (v : Z) (b : ion_buffer) : ion_buffer :=
  IonBuffer (b_ref b) (b_heap b) (b_flags b) (b_size b) (b_kmap_cnt b) (b_vaddr b)
            (b_sg_table b) (b_pages b) v.

Definition with_h_ref (v : Z) (h : ion_handle) : ion_handle :=
  IonHandle v (h_client h) (h_buffer h) (h_linked h) (h_kmap_cnt h).
Definition with_h_linked (v : bool) (h : ion_handle) : ion_handle :=
  IonHandle (h_ref h) (h_client h) (h_buffer h) v (h_kmap_cnt h).
Definition with_h_kmap_cnt (v : Z) (h : ion_handle) : ion_handle :=
  IonHandle (h_ref h) (h_client h) (h_buffer h) (h_linked h) v.

Definition with_hp_used (v : Z) (h : ion_heap) : ion_heap :=
  IonHeap (hp_id h) (hp_flags h) v (hp_ops_phys h) (hp_ops_map_kernel h)
          (hp_free_list h).
Definition with_hp_free_list (v : list Z) (h : ion_heap) : ion_heap :=
  IonHeap (hp_id h) (hp_flags h) (hp_used h) (hp_ops_phys h)
          (hp_ops_map_kernel h) v.

Definition with_c_handles (v : list Z) (c : ion_client) : ion_client :=
  IonClient v (c_ref c) (c_task c).
Definition with_c_ref (v : Z) (c : ion_client) : ion_client :=
  IonClient (c_handles c) v (c_task c).

Definition with_db_count (v : Z) (d : dma_buf) : dma_buf :=
  DmaBuf (db_ops_ion d) (db_priv d) v.

(** ** Kernel services used by the driver *)

(** A C [int] seen as a number, and [x + d] on [int]s. *)
Definition sint (x : Z) : Z :=
  let y := wrap x in if y <? 2 ^ 31 then y else y - 2 ^ 32.

Definition int_add (x d : Z) : M Z :=
  if (INT_MIN <=? x + d) && (x + d <=? INT_MAX) then mret (x + d)
  else oops SignedOverflow.

(** [(long) ptr] *)
Definition PTR_ERR (ptr : Z) : Z := sint ptr.

(** The slab and vmalloc allocators hand out addresses that were never in
    use before, below the range of error pointers, or fail. *)
Definition KMALLOC_MINALIGN : Z := 8.
Definition ADDRESS_END : Z := wrap (- MAX_ERRNO).

Definition allocate_memory (fails : list event → bool) (ev : Z → event) : M Z :=
  s ← get_state;
  if fails (trace s) || negb (0 <? brk s) || (ADDRESS_END <=? brk s + KMALLOC_MINALIGN)
  then emit (ev 0);; mret 0
  else modify (set_brk (λ p, p + KMALLOC_MINALIGN));; emit (ev (brk s));; mret (brk s).

Section Driver.
Context {P : Platform} {E : Environment}.

Definition kzalloc : M Z := allocate_memory kzalloc_fails EvKzalloc.
Definition vmalloc : M Z := allocate_memory vmalloc_fails EvVmalloc.

Definition kfree_buffer (p : Z) : M unit :=
  emit (EvKfree p);; modify (set_buffers (delete p)).
Definition kfree_handle (p : Z) : M unit :=
  emit (EvKfree p);; modify (set_handles (delete p)).
Definition kfree_client (p : Z) : M unit :=
  emit (EvKfree p);; modify (set_clients (delete p)).
Definition kfree_dmabuf (p : Z) : M unit :=
  emit (EvKfree p);; modify (set_dmabufs (delete p)).

(** [atomic_inc] and [atomic_dec_and_test] on the counter of a kref. *)
Definition atomic_inc (v : Z) : Z := wrap (v + 1).
Definition atomic_dec (v : Z) : Z := wrap (v - 1).

(** rb-trees keyed by address, as their in-order key sequence. *)
Fixpoint rb_insert (k : Z) (t : list Z) : list Z :=
  match t with
  | [] => [k]
  | x :: t' => if k <? x then k :: x :: t' else x :: rb_insert k t'
  end.

Definition rb_erase (k : Z) (t : list Z) : list Z := filter (λ x, x ≠ k) t.

Definition rb_find (k : Z) (t : list Z) : bool := bool_decide (k ∈ t).

Definition PAGE_ALIGN (addr : Z) : Z :=
  wrap (Z.land (addr + PAGE_SIZE - 1) (Z.lnot (PAGE_SIZE - 1))).

(** Calls into the heap backend. *)
Definition call_allocate (heap buffer len align flags : Z) : M Z :=
  tr ← history;
  let ret := sint (ops_allocate tr heap buffer len align flags) in
  emit (EvAllocate heap buffer len align flags ret);; mret ret.

Definition call_free (buffer : Z) : M unit := emit (EvHeapFree buffer).

Definition call_map_dma (heap buffer : Z) : M Z :=
  tr ← history;
  let table := wrap (ops_map_dma tr heap buffer) in
  emit (EvMapDma heap buffer table);; mret table.

Definition call_unmap_dma (heap buffer : Z) : M unit := emit (EvUnmapDma heap buffer).

Definition call_map_kernel (heap buffer : Z) : M Z :=
  tr ← history;
  let vaddr := wrap (ops_map_kernel tr heap buffer) in
  emit (EvMapKernel heap buffer vaddr);; mret vaddr.

Definition call_unmap_kernel (heap buffer : Z) : M unit :=
  emit (EvUnmapKernel heap buffer).

Definition call_phys (heap buffer : Z) : M Z :=
  tr ← history;
  let ret := sint (ops_phys tr heap buffer) in
  emit (EvPhys heap buffer ret);; mret ret.

Definition WARN_ON (site : warn_site) (cond : bool) : M unit :=
  if cond then emit (EvWarn site) else mret ().

Definition BUG_ON (cond : bool) : M unit :=
  if cond then oops KernelBUG else mret ().

(** ** Buffers *)

Definition ion_buffer_fault_user_mappings (flags : Z) : bool :=
  negb (Z.land flags ION_FLAG_CACHED =? 0) &&
  (Z.land flags ION_FLAG_CACHED_NEEDS_SYNC =? 0).

Definition ion_buffer_add (buffer : Z) : M unit :=
  s ← get_state;
  if rb_find buffer (dev_buffers s) then oops KernelBUG
  else modify (set_dev_buffers (rb_insert buffer)).

Definition _ion_buffer_destroy (buffer : Z) : M unit :=
  b ← get_buffer buffer;
  _ ← get_heap (b_heap b);
  (if 0 <? b_kmap_cnt b
   then emit (EvWarn WarnDestroyMapped);; call_unmap_kernel (b_heap b) buffer
   else mret ());;
  call_unmap_dma (b_heap b) buffer;;
  call_free buffer;;
  update_heap (b_heap b) (λ hp, with_hp_used (wrap (hp_used hp - b_size b)) hp);;
  (if b_pages b =? 0 then mret () else emit (EvVfree (b_pages b)));;
  kfree_buffer buffer.

Definition list_del (heap buffer : Z) : M unit :=
  update_heap heap (λ hp, with_hp_free_list (rb_erase buffer (hp_free_list hp)) hp).

Fixpoint drain_entries (heap : Z) (entries : list Z) : M unit :=
  match entries with
  | [] => mret ()
  | buffer :: rest =>
      list_del heap buffer;;
      _ion_buffer_destroy buffer;;
      drain_entries heap rest
  end.

Definition ion_heap_free_list_is_empty (heap : Z) : M bool :=
  hp ← get_heap heap;
  mret (bool_decide (hp_free_list hp = [])).

Definition ion_heap_drain_freelist (heap : Z) : M bool :=
  empty ← ion_heap_free_list_is_empty heap;
  if empty : bool then mret false
  else
    hp ← get_heap heap;
    drain_entries heap (hp_free_list hp);;
    hp' ← get_heap heap;
    BUG_ON (negb (bool_decide (hp_free_list hp' = [])));;
    mret true.

(** One turn of the loop of the worker thread [ion_heap_deferred_free]:
    with an empty list the thread keeps waiting, otherwise it takes the
    first entry and tears it down. *)
Definition ion_heap_deferred_free_turn (heap : Z) : M bool :=
  hp ← get_heap heap;
  match hp_free_list hp with
  | [] => mret false
  | buffer :: _ =>
      list_del heap buffer;;
      _ion_buffer_destroy buffer;;
      mret true
  end.

Definition ion_buffer_create (heap len align flags : Z) : M Z :=
  buffer ← kzalloc;
  if buffer =? 0 then mret (ERR_PTR (- ENOMEM)) else
  put_buffer buffer (IonBuffer 1 heap flags 0 0 0 0 0 0);;
  let err2 (ret : Z) : M Z := kfree_buffer buffer;; mret (ERR_PTR ret) in
  hp ← get_heap heap;
  ret ← call_allocate heap buffer len align flags;
  ret ← (if ret =? 0 then mret (inr ret)
         else if Z.land (hp_flags hp) ION_HEAP_FLAG_DEFER_FREE =? 0
         then mret (inl ret)
         else
           ion_heap_drain_freelist heap;;
           ret ← call_allocate heap buffer len align flags;
           if ret =? 0 then mret (inr ret) else mret (inl ret));
  match ret with
  | inl ret => err2 ret
  | inr ret =>
    update_buffer buffer (with_b_size len);;
    table ← call_map_dma heap buffer;
    if IS_ERR_OR_NULL table then
      call_free buffer;;
      kfree_buffer buffer;;
      mret (ERR_PTR (PTR_ERR table))
    else
      update_buffer buffer (with_b_sg_table table);;
      built ← (if ion_buffer_fault_user_mappings flags then
                 pages ← vmalloc;
                 update_buffer buffer (with_b_pages pages);;
                 if pages =? 0 then mret (inl (- ENOMEM)) (* goto err1 *)
                 else if ret =? 0 then mret (inr ())
                 else (* goto err *)
                   call_unmap_dma heap buffer;;
                   call_free buffer;;
                   emit (EvVfree pages);;
                   mret (inl ret)
               else mret (inr ()));
      match built with
      | inl ret => err2 ret
      | inr _ =>
          update_buffer buffer (with_b_size len);;
          ion_buffer_add buffer;;
          mret buffer
      end
  end.

Definition ion_buffer_destroy (buffer : Z) : M unit :=
  b ← get_buffer buffer;
  let heap := b_heap b in
  modify (set_dev_buffers (rb_erase buffer));;
  hp ← get_heap heap;
  if negb (Z.land (hp_flags hp) ION_HEAP_FLAG_DEFER_FREE =? 0) then
    update_heap heap (λ hp, with_hp_free_list (buffer :: hp_free_list hp) hp);;
    emit (EvWakeUp heap)
  else _ion_buffer_destroy buffer.

Definition ion_buffer_get (buffer : Z) : M unit :=
  update_buffer buffer (λ b, with_b_ref (atomic_inc (b_ref b)) b).

Definition ion_buffer_put (buffer : Z) : M Z :=
  b ← get_buffer buffer;
  let r := atomic_dec (b_ref b) in
  update_buffer buffer (with_b_ref r);;
  if r =? 0 then ion_buffer_destroy buffer;; mret 1 else mret 0.

Definition ion_buffer_add_to_handle (buffer : Z) : M unit :=
  b ← get_buffer buffer;
  n ← int_add (b_handle_count b) 1;
  update_buffer buffer (with_b_handle_count n).

Definition ion_buffer_remove_from_handle (buffer : Z) : M unit :=
  b ← get_buffer buffer;
  WARN_ON WarnHandleCount (b_handle_count b <=? 0);;
  if 0 <? b_handle_count b then
    n ← int_add (b_handle_count b) (-1);
    update_buffer buffer (with_b_handle_count n)
  else mret ().

(** ** Kernel mappings *)

Definition ion_buffer_kmap_get (buffer : Z) : M Z :=
  b ← get_buffer buffer;
  if negb (b_kmap_cnt b =? 0) then
    n ← int_add (b_kmap_cnt b) 1;
    update_buffer buffer (with_b_kmap_cnt n);;
    mret (b_vaddr b)
  else
    _ ← get_heap (b_heap b);
    vaddr ← call_map_kernel (b_heap b) buffer;
    if IS_ERR_OR_NULL vaddr then mret vaddr
    else
      update_buffer buffer (with_b_vaddr vaddr);;
      n ← int_add (b_kmap_cnt b) 1;
      update_buffer buffer (with_b_kmap_cnt n);;
      mret vaddr.

Definition ion_handle_kmap_get (handle : Z) : M Z :=
  hd ← get_handle handle;
  let buffer := h_buffer hd in
  if negb (h_kmap_cnt hd =? 0) then
    update_handle handle (with_h_kmap_cnt (wrap (h_kmap_cnt hd + 1)));;
    b ← get_buffer buffer;
    mret (b_vaddr b)
  else
    vaddr ← ion_buffer_kmap_get buffer;
    if IS_ERR_OR_NULL vaddr then mret vaddr
    else
      update_handle handle (with_h_kmap_cnt (wrap (h_kmap_cnt hd + 1)));;
      mret vaddr.

Definition ion_buffer_kmap_put (buffer : Z) : M unit :=
  b ← get_buffer buffer;
  n ← int_add (b_kmap_cnt b) (-1);
  update_buffer buffer (with_b_kmap_cnt n);;
  if n =? 0 then
    _ ← get_heap (b_heap b);
    call_unmap_kernel (b_heap b) buffer;;
    update_buffer buffer (with_b_vaddr 0)
  else mret ().

Definition ion_handle_kmap_put (handle : Z) : M unit :=
  hd ← get_handle handle;
  let buffer := h_buffer hd in
  let n := wrap (h_kmap_cnt hd - 1) in
  update_handle handle (with_h_kmap_cnt n);;
  if n =? 0 then ion_buffer_kmap_put buffer else mret ().

(** ** Handles *)

Definition ion_handle_create (client buffer : Z) : M Z :=
  handle ← kzalloc;
  if handle =? 0 then mret (ERR_PTR (- ENOMEM)) else
  put_handle handle (IonHandle 1 client buffer false 0);;
  ion_buffer_get buffer;;
  ion_buffer_add_to_handle buffer;;
  mret handle.

(** [while (handle->kmap_cnt) ion_handle_kmap_put(handle);] *)
Fixpoint handle_kmap_drain (fuel : nat) (handle : Z) : M unit :=
  hd ← get_handle handle;
  if h_kmap_cnt hd =? 0 then mret ()
  else match fuel with
       | O => oops OutOfFuel
       | S fuel' => ion_handle_kmap_put handle;; handle_kmap_drain fuel' handle
       end.

Definition ion_handle_destroy (handle : Z) : M unit :=
  hd ← get_handle handle;
  let client := h_client hd in
  let buffer := h_buffer hd in
  _ ← get_client client;
  _ ← get_buffer buffer;
  handle_kmap_drain (Z.to_nat (h_kmap_cnt hd)) handle;;
  (if h_linked hd
   then update_client client (λ cl, with_c_handles (rb_erase handle (c_handles cl)) cl)
   else mret ());;
  ion_buffer_remove_from_handle buffer;;
  ion_buffer_put buffer;;
  kfree_handle handle.

Definition ion_handle_get (handle : Z) : M unit :=
  update_handle handle (λ hd, with_h_ref (atomic_inc (h_ref hd)) hd).

Definition ion_handle_put (handle : Z) : M Z :=
  hd ← get_handle handle;
  let r := atomic_dec (h_ref hd) in
  update_handle handle (with_h_ref r);;
  if r =? 0 then ion_handle_destroy handle;; mret 1 else mret 0.

Fixpoint handle_lookup_from (nodes : list Z) (buffer : Z) : M Z :=
  match nodes with
  | [] => mret 0
  | n :: rest =>
      hd ← get_handle n;
      if h_buffer hd =? buffer then mret n else handle_lookup_from rest buffer
  end.

Definition ion_handle_lookup (client buffer : Z) : M Z :=
  cl ← get_client client;
  handle_lookup_from (c_handles cl) buffer.

Definition ion_handle_validate (client handle : Z) : M bool :=
  cl ← get_client client;
  mret (rb_find handle (c_handles cl)).

Definition ion_handle_add (client handle : Z) : M unit :=
  cl ← get_client client;
  if rb_find handle (c_handles cl) then
    emit (EvWarn WarnHandleAlreadyFound);; oops Livelock
  else
    update_handle handle (with_h_linked true);;
    update_client client (λ cl, with_c_handles (rb_insert handle (c_handles cl)) cl).

(** ** Allocation *)

(** The walk over [dev->heaps].  [buffer] and [heap_used] are the values
    the two variables hold when the walk reaches this point. *)
Fixpoint ion_alloc_walk (hs : list Z) (len align heap_id_mask flags : Z)
    (buffer heap_used : Z) : M (Z * Z) :=
  match hs with
  | [] => mret (buffer, heap_used)
  | heap :: rest =>
      hp ← get_heap heap;
      if Z.land (wrap (Z.shiftl 1 (hp_id hp))) heap_id_mask =? 0 then
        ion_alloc_walk rest len align heap_id_mask flags buffer heap_used
      else
        buffer ← ion_buffer_create heap len align flags;
        if negb (IS_ERR_OR_NULL buffer) then mret (buffer, heap)
        else ion_alloc_walk rest len align heap_id_mask flags buffer heap
  end.

Definition ion_alloc (client len align heap_id_mask flags : Z) : M Z :=
  _ ← get_client client;
  if len =? 0 then emit (EvWarn WarnAllocZeroLen);; mret (ERR_PTR (- EINVAL)) else
  let len := PAGE_ALIGN len in
  s ← get_state;
  '(buffer, heap_used) ← ion_alloc_walk (dev_heaps s) len align heap_id_mask flags 0 0;
  (if buffer =? ERR_PTR (- ENOMEM) then mret ()
   else if negb (IS_ERR_OR_NULL buffer) then
     b ← get_buffer buffer;
     update_heap heap_used (λ hp, with_hp_used (wrap (hp_used hp + b_size b)) hp)
   else mret ());;
  if buffer =? 0 then mret (ERR_PTR (- ENODEV)) else
  if IS_ERR buffer then mret (ERR_PTR (PTR_ERR buffer)) else
  handle ← ion_handle_create client buffer;
  ion_buffer_put buffer;;
  (if negb (IS_ERR handle) then ion_handle_add client handle else mret ());;
  mret handle.

Definition ion_free (client handle : Z) : M unit :=
  hd ← get_handle handle;
  BUG_ON (negb (client =? h_client hd));;
  valid_handle ← ion_handle_validate client handle;
  if negb valid_handle then emit (EvWarn WarnFreeInvalidHandle)
  else ion_handle_put handle;; mret ().

Definition ion_phys (client handle : Z) : M Z :=
  valid ← ion_handle_validate client handle;
  if negb valid then mret (- EINVAL) else
  hd ← get_handle handle;
  let buffer := h_buffer hd in
  b ← get_buffer buffer;
  hp ← get_heap (b_heap b);
  if negb (hp_ops_phys hp) then mret (- ENODEV)
  else call_phys (b_heap b) buffer.

Definition ion_map_kernel (client handle : Z) : M Z :=
  valid ← ion_handle_validate client handle;
  if negb valid then mret (ERR_PTR (- EINVAL)) else
  hd ← get_handle handle;
  let buffer := h_buffer hd in
  b ← get_buffer buffer;
  hp ← get_heap (b_heap b);
  if negb (hp_ops_map_kernel hp) then mret (ERR_PTR (- ENODEV))
  else ion_handle_kmap_get handle.

Definition ion_unmap_kernel (client handle : Z) : M unit :=
  _ ← get_client client;
  hd ← get_handle handle;
  let buffer := h_buffer hd in
  _ ← get_buffer buffer;
  ion_handle_kmap_put handle.

Definition ion_sg_table (client handle : Z) : M Z :=
  valid ← ion_handle_validate client handle;
  if negb valid then mret (ERR_PTR (- EINVAL)) else
  hd ← get_handle handle;
  b ← get_buffer (h_buffer hd);
  mret (b_sg_table b).

(** ** Clients *)

(** The task of the new client is [current->group_leader], or NULL when
    that is a kernel thread. *)
Definition ion_client_create : M Z :=
  tr ← history;
  let task := if current_is_kthread tr then 0 else current_group_leader tr in
  client ← kzalloc;
  if client =? 0 then mret (ERR_PTR (- ENOMEM)) else
  put_client client (IonClient [] 1 task);;
  modify (set_dev_clients (rb_insert client));;
  mret client.

(** [while ((n = rb_first(&client->handles))) ion_handle_put(handle);] *)
Fixpoint client_drop_handles (fuel : nat) (client : Z) : M unit :=
  cl ← get_client client;
  match c_handles cl with
  | [] => mret ()
  | handle :: _ =>
      match fuel with
      | O => oops OutOfFuel
      | S fuel' => ion_handle_put handle;; client_drop_handles fuel' client
      end
  end.

Definition _ion_client_destroy (fuel : nat) (client : Z) : M unit :=
  _ ← get_client client;
  modify (set_dev_clients (rb_erase client));;
  client_drop_handles fuel client;;
  kfree_client client.

Definition ion_client_get (client : Z) : M unit :=
  update_client client (λ cl, with_c_ref (atomic_inc (c_ref cl)) cl).

Definition ion_client_put (fuel : nat) (client : Z) : M unit :=
  cl ← get_client client;
  let r := atomic_dec (c_ref cl) in
  update_client client (with_c_ref r);;
  if r =? 0 then _ion_client_destroy fuel client else mret ().

Definition ion_client_destroy (fuel : nat) (client : Z) : M unit :=
  ion_client_put fuel client.

(** ** The dma-buf bridge *)

Definition ion_dma_buf_release (dmabuf : Z) : M unit :=
  d ← get_dmabuf dmabuf;
  ion_buffer_put (db_priv d);; mret ().

(** [dma_buf_export(buffer, &dma_buf_ops, ...)] *)
Definition dma_buf_export (buffer : Z) : M Z :=
  tr ← history;
  if dma_buf_export_fails tr then mret (ERR_PTR (- ENOMEM)) else
  dmabuf ← kzalloc;
  if dmabuf =? 0 then mret (ERR_PTR (- ENOMEM)) else
  put_dmabuf dmabuf (DmaBuf true buffer 1);;
  emit (EvExport buffer dmabuf);;
  mret dmabuf.

Fixpoint first_unused (tbl : gmap Z Z) (fd : Z) (n : nat) : Z :=
  match n with
  | O => fd
  | S n' => match tbl !! fd with
            | None => fd
            | Some _ => first_unused tbl (fd + 1) n'
            end
  end.

Definition dma_buf_fd (dmabuf : Z) : M Z :=
  s ← get_state;
  if dma_buf_fd_fails (trace s) then mret (- EMFILE) else
  let fd := first_unused (files s) 0 (size (files s)) in
  modify (set_files <[fd:=dmabuf]>);;
  emit (EvFdInstall dmabuf fd);;
  mret fd.

Definition dma_buf_get (fd : Z) : M Z :=
  s ← get_state;
  match files s !! fd with
  | None => mret (ERR_PTR (- EBADF))
  | Some dmabuf =>
      update_dmabuf dmabuf (λ d, with_db_count (db_count d + 1) d);;
      mret dmabuf
  end.

Definition dma_buf_put (dmabuf : Z) : M unit :=
  d ← get_dmabuf dmabuf;
  let n := db_count d - 1 in
  update_dmabuf dmabuf (with_db_count n);;
  if n =? 0 then
    (if db_ops_ion d then ion_dma_buf_release dmabuf else mret ());;
    kfree_dmabuf dmabuf
  else mret ().

(** Closing a descriptor drops the reference the table held. *)
Definition sys_close (fd : Z) : M Z :=
  s ← get_state;
  match files s !! fd with
  | None => mret (- EBADF)
  | Some dmabuf =>
      modify (set_files (delete fd));;
      dma_buf_put dmabuf;;
      mret 0
  end.

Definition ion_share_dma_buf (client handle : Z) : M Z :=
  valid_handle ← ion_handle_validate client handle;
  if negb valid_handle then
    emit (EvWarn WarnShareInvalidHandle);; mret (ERR_PTR (- EINVAL))
  else
    hd ← get_handle handle;
    let buffer := h_buffer hd in
    ion_buffer_get buffer;;
    dmabuf ← dma_buf_export buffer;
    if IS_ERR dmabuf then ion_buffer_put buffer;; mret dmabuf
    else mret dmabuf.

Definition ion_share_dma_buf_fd (client handle : Z) : M Z :=
  dmabuf ← ion_share_dma_buf client handle;
  if IS_ERR dmabuf then mret (PTR_ERR dmabuf) else
  fd ← dma_buf_fd dmabuf;
  (if fd <? 0 then dma_buf_put dmabuf else mret ());;
  mret fd.

(** [get_task_comm(client_name, client->task)] and
    [task_pid_nr(client->task)] read through [client->task]. *)
Definition ion_import_dma_buf (client fd : Z) : M Z :=
  cl ← get_client client;
  (if c_task cl =? 0 then oops BadPointer else mret ());;
  dmabuf ← dma_buf_get fd;
  if IS_ERR_OR_NULL dmabuf then mret (ERR_PTR (PTR_ERR dmabuf)) else
  d ← get_dmabuf dmabuf;
  if negb (db_ops_ion d) then
    dma_buf_put dmabuf;; mret (ERR_PTR (- EINVAL))
  else
    let buffer := db_priv d in
    handle ← ion_handle_lookup client buffer;
    handle ← (if negb (IS_ERR_OR_NULL handle) then
                ion_handle_get handle;; mret handle
              else
                handle ← ion_handle_create client buffer;
                if IS_ERR_OR_NULL handle then mret handle
                else ion_handle_add client handle;; mret handle);
    dma_buf_put dmabuf;;
    mret handle.

Definition ion_dma_buf_begin_cpu_access (dmabuf : Z) : M Z :=
  d ← get_dmabuf dmabuf;
  let buffer := db_priv d in
  b ← get_buffer buffer;
  hp ← get_heap (b_heap b);
  if negb (hp_ops_map_kernel hp) then mret (- ENODEV) else
  vaddr ← ion_buffer_kmap_get buffer;
  if IS_ERR vaddr then mret (PTR_ERR vaddr)
  else if vaddr =? 0 then mret (- ENOMEM)
  else mret 0.

Definition ion_dma_buf_end_cpu_access (dmabuf : Z) : M unit :=
  d ← get_dmabuf dmabuf;
  ion_buffer_kmap_put (db_priv d).

(** ** Registering heaps *)

(** The priority [ion_device_add_heap] gives the node of a heap:
    [-heap->id], computed on the [unsigned int] id and stored in the
    [int prio] of the node. *)
Definition heap_priority (id : Z) : Z := sint (wrap (- id)).

(** [plist_add] of a node of priority [prio]: before the first node whose
    priority is greater. *)
Fixpoint plist_add (heap prio : Z) (hs : list Z) : M (list Z) :=
  match hs with
  | [] => mret [heap]
  | x :: rest =>
      hx ← get_heap x;
      if prio <? heap_priority (hp_id hx) then mret (heap :: x :: rest)
      else rest' ← plist_add heap prio rest; mret (x :: rest')
  end.

Definition ion_device_add_heap (heap : Z) : M unit :=
  hp ← get_heap heap;
  (if negb (Z.land (hp_flags hp) ION_HEAP_FLAG_DEFER_FREE =? 0)
   then put_heap heap (with_hp_free_list [] hp)
   else mret ());;
  s ← get_state;
  hs ← plist_add heap (heap_priority (hp_id hp)) (dev_heaps s);
  modify (set_dev_heaps (λ _, hs)).

(** ** Usage accounting *)

(** The loop of [ion_debug_heap_total]; the accumulator is
    [(size, shared, pss)]. *)
Fixpoint heap_total_from (nodes : list Z) (id : Z) (acc : Z * Z * Z) : M (Z * Z * Z) :=
  match nodes with
  | [] => mret acc
  | n :: rest =>
      let '(size, shared, pss) := acc in
      hd ← get_handle n;
      b ← get_buffer (h_buffer hd);
      hp ← get_heap (b_heap b);
      if hp_id hp =? id then
        let size := wrap (size + b_size b) in
        if wrap (b_handle_count b) =? 0 then oops DivideByZero else
        let pss := wrap (pss + b_size b / wrap (b_handle_count b)) in
        let shared := if 1 <? b_handle_count b then wrap (shared + b_size b) else shared in
        heap_total_from rest id (size, shared, pss)
      else heap_total_from rest id acc
  end.

Definition ion_debug_heap_total (client id : Z) : M (Z * Z * Z) :=
  cl ← get_client client;
  heap_total_from (c_handles cl) id (0, 0, 0).

End Driver.

(** ** Vocabulary of the statements *)

(** The heap mask selects none of the heaps on the list [hs], all of which
    are registered heaps. *)
Definition no_heap_selected (s : state) (hs : list Z) (heap_id_mask : Z) : Prop :=
  Forall (λ heap, ∃ hp, heaps s !! heap = Some hp ∧
                        Z.testbit heap_id_mask (hp_id hp) = false) hs.

(** What tearing a buffer down asks of its heap and of the allocator, in
    order: unmap-DMA, heap free, release of the page array, release of the
    record; preceded by a warning and a forced kernel unmap when the
    buffer is still mapped. *)
Definition teardown_events (buffer : Z) (b : ion_buffer) : list event :=
  (if 0 <? b_kmap_cnt b
   then [EvWarn WarnDestroyMapped; EvUnmapKernel (b_heap b) buffer] else []) ++
  [EvUnmapDma (b_heap b) buffer; EvHeapFree buffer] ++
  (if b_pages b =? 0 then [] else [EvVfree (b_pages b)]) ++
  [EvKfree buffer].

Definition deferred_free `{Platform} (hp : ion_heap) : bool :=
  negb (Z.land (hp_flags hp) ION_HEAP_FLAG_DEFER_FREE =? 0).

(** The allocator can serve the next request. *)
Definition memory_available (fails : list event → bool) (s : state) : Prop :=
  fails (trace s) = false ∧ 0 < brk s ∧ brk s + KMALLOC_MINALIGN < ADDRESS_END.

(** Number of live handles that point to [buffer]. *)
Definition attached (buffer : Z) (hs : gmap Z ion_handle) : Z :=
  Z.of_nat (size (filter (λ kv, kv.2 = buffer) (h_buffer <$> hs))).

(** The relation between the handle trees, the handles and the
    attachment counts of the buffers.  [skew] is zero everywhere between
    two operations; inside [ion_handle_destroy] it is one at the buffer
    whose count has been decremented while the handle is not yet freed. *)
Record consistent (skew : Z → Z) (s : state) : Prop := Consistent {
  (* every entry of a client's tree is a live, linked handle of that client *)
  cons_trees : ∀ c cl h, clients s !! c = Some cl → h ∈ c_handles cl →
    ∃ hd, handles s !! h = Some hd ∧ h_client hd = c ∧ h_linked hd = true;
  (* the count of a buffer is the number of handles attached to it *)
  cons_counts : ∀ b bd, buffers s !! b = Some bd →
    b_handle_count bd + skew b = attached b (handles s);
  (* which, being a C int, has not overflowed *)
  cons_counts_int : ∀ b bd, buffers s !! b = Some bd →
    INT_MIN ≤ b_handle_count bd ≤ INT_MAX;
  (* handles sit at addresses that are neither null nor error codes *)
  cons_handles_valid : ∀ h hd, handles s !! h = Some hd →
    IS_ERR_OR_NULL h = false;
  (* the allocator has not yet reached any address in use *)
  cons_handles_below : ∀ h hd, handles s !! h = Some hd →
    h < brk s ∧ h_buffer hd < brk s;
  cons_buffers_below : ∀ b bd, buffers s !! b = Some bd → b < brk s
}.

Definition tidy (s : state) : Prop := consistent (λ _, 0) s.

(** Changes that [consistent] does not see: other fields of handles and
    buffers, buffers going away, buffers appearing at new addresses with
    a count of zero, and everything outside clients, handles and
    buffers. *)
Record frame (s s' : state) : Prop := Frame {
  fr_clients : c_handles <$> clients s' = c_handles <$> clients s;
  fr_h_buffer : h_buffer <$> handles s' = h_buffer <$> handles s;
  fr_h_client : h_client <$> handles s' = h_client <$> handles s;
  fr_h_linked : h_linked <$> handles s' = h_linked <$> handles s;
  fr_brk : brk s ≤ brk s';
  fr_buffers : ∀ b bd', buffers s' !! b = Some bd' →
    (∃ bd, buffers s !! b = Some bd ∧ b_handle_count bd' = b_handle_count bd) ∨
    (brk s ≤ b < brk s' ∧ b_handle_count bd' = 0)
}.

(** Partial correctness: if [m] returns from [s], the result satisfies
    [Q]. *)
Definition wp {A} (m : M A) (Q : A → state → Prop) (s : state) : Prop :=
  match m s with
  | Ok a s' => Q a s'
  | Crash _ => True
  end.

(** [handle] is in no client's tree. *)
Definition unindexed (handle : Z) (s : state) : Prop :=
  ∀ c cl, clients s !! c = Some cl → handle ∉ c_handles cl.

(** The skew while [buffer] has lost a count that its handle still holds. *)
Definition one_at (buffer : Z) : Z → Z := λ b, if decide (b = buffer) then 1 else 0.

(** The events of tearing down, in order, the buffers [entries] as they
    are in [s]. *)
Definition drain_events (s : state) (entries : list Z) : list event :=
  flat_map (λ b, match buffers s !! b with
                 | Some bd => teardown_events b bd
                 | None => []
                 end) entries.

(** Every entry of a heap's free list is a live buffer of that heap, and
    is listed once. *)
Definition free_list_sound (s : state) (heap : Z) (entries : list Z) : Prop :=
  NoDup entries ∧
  Forall (λ b, ∃ bd, buffers s !! b = Some bd ∧ b_heap bd = heap) entries.

Section Phases.
Context {P : Platform} {E : Environment}.

(** [ion_buffer_create] from the point where the attempts to allocate are
    over: [ret] is [inl] of the error code when they failed and [inr]
    otherwise. *)
Definition ion_buffer_create_rest (heap buffer len flags : Z) (ret : Z + Z) : M Z :=
  let err2 (ret : Z) : M Z := kfree_buffer buffer;; mret (ERR_PTR ret) in
  match ret with
  | inl ret => err2 ret
  | inr ret =>
    update_buffer buffer (with_b_size len);;
    table ← call_map_dma heap buffer;
    if IS_ERR_OR_NULL table then
      call_free buffer;;
      kfree_buffer buffer;;
      mret (ERR_PTR (PTR_ERR table))
    else
      update_buffer buffer (with_b_sg_table table);;
      built ← (if ion_buffer_fault_user_mappings flags then
                 pages ← vmalloc;
                 update_buffer buffer (with_b_pages pages);;
                 if pages =? 0 then mret (inl (- ENOMEM))
                 else if ret =? 0 then mret (inr ())
                 else
                   call_unmap_dma heap buffer;;
                   call_free buffer;;
                   emit (EvVfree pages);;
                   mret (inl ret)
               else mret (inr ()));
      match built with
      | inl ret => err2 ret
      | inr _ =>
          update_buffer buffer (with_b_size len);;
          ion_buffer_add buffer;;
          mret buffer
      end
  end.

End Phases.

(** ** The entry points of the driver *)

Inductive op :=
  | OpAddHeap (heap : Z)
  | OpClientCreate
  | OpClientGet (client : Z)
  | OpClientDestroy (fuel : nat) (client : Z)
  | OpAlloc (client len align heap_id_mask flags : Z)
  | OpFree (client handle : Z)
  | OpPhys (client handle : Z)
  | OpMapKernel (client handle : Z)
  | OpUnmapKernel (client handle : Z)
  | OpSgTable (client handle : Z)
  | OpShareDmaBuf (client handle : Z)
  | OpShareDmaBufFd (client handle : Z)
  | OpImportDmaBuf (client fd : Z)
  | OpDmaBufPut (dmabuf : Z)
  | OpBeginCpuAccess (dmabuf : Z)
  | OpEndCpuAccess (dmabuf : Z)
  | OpClose (fd : Z)
  | OpWorkerTurn (heap : Z).

Section Machine.
Context {P : Platform} {E : Environment}.

Definition run_op (o : op) : M unit :=
  match o with
  | OpAddHeap heap => ion_device_add_heap heap
  | OpClientCreate => ion_client_create;; mret ()
  | OpClientGet client => ion_client_get client
  | OpClientDestroy fuel client => ion_client_destroy fuel client
  | OpAlloc client len align heap_id_mask flags =>
      ion_alloc client len align heap_id_mask flags;; mret ()
  | OpFree client handle => ion_free client handle
  | OpPhys client handle => ion_phys client handle;; mret ()
  | OpMapKernel client handle => ion_map_kernel client handle;; mret ()
  | OpUnmapKernel client handle => ion_unmap_kernel client handle
  | OpSgTable client handle => ion_sg_table client handle;; mret ()
  | OpShareDmaBuf client handle => ion_share_dma_buf client handle;; mret ()
  | OpShareDmaBufFd client handle => ion_share_dma_buf_fd client handle;; mret ()
  | OpImportDmaBuf client fd => ion_import_dma_buf client fd;; mret ()
  | OpDmaBufPut dmabuf => dma_buf_put dmabuf
  | OpBeginCpuAccess dmabuf => ion_dma_buf_begin_cpu_access dmabuf;; mret ()
  | OpEndCpuAccess dmabuf => ion_dma_buf_end_cpu_access dmabuf
  | OpClose fd => sys_close fd;; mret ()
  | OpWorkerTurn heap => ion_heap_deferred_free_turn heap;; mret ()
  end.

(** A device on which no client, handle or buffer exists yet. *)
Definition pristine (s : state) : Prop :=
  handles s = ∅ ∧ buffers s = ∅ ∧ clients s = ∅.

(** The states the driver can be in: those a pristine device reaches by
    entry points that return. *)
Inductive reachable : state → Prop :=
  | reachable_pristine s : pristine s → reachable s
  | reachable_step s o s' : reachable s → run_op o s = Ok () s' → reachable s'.

Fixpoint run_ops (os : list op) : M unit :=
  match os with
  | [] => mret ()
  | o :: rest => run_op o;; run_ops rest
  end.

End Machine.

(** [m] only makes changes of the kind [frame] allows. *)
Definition framed {A} (m : M A) : Prop :=
  ∀ s, wp m (λ _ s', frame s s') s.

(** ** Concrete surroundings and states used to exercise the model *)

Definition bcm_platform : Platform :=
  {| PAGE_SIZE := 4096;
     ION_FLAG_CACHED := 1;
     ION_FLAG_CACHED_NEEDS_SYNC := 2;
     ION_HEAP_FLAG_DEFER_FREE := 1 |}.

(** A backend that never refuses anything. *)
Definition willing_env : Environment :=
  {| ops_allocate := λ _ _ _ _ _ _, 0;
     ops_map_dma := λ _ _ buffer, buffer + 4;
     ops_map_kernel := λ _ _ _, 3221229568;
     ops_phys := λ _ _ _, 0;
     kzalloc_fails := λ _, false;
     vmalloc_fails := λ _, false;
     dma_buf_export_fails := λ _, false;
     dma_buf_fd_fails := λ _, false;
     current_group_leader := λ _, 1024;
     current_is_kthread := λ _, false |}.

(** The same backend on a machine whose vmalloc area is exhausted. *)
Definition no_vmalloc_env : Environment :=
  {| ops_allocate := λ _ _ _ _ _ _, 0;
     ops_map_dma := λ _ _ buffer, buffer + 4;
     ops_map_kernel := λ _ _ _, 3221229568;
     ops_phys := λ _ _ _, 0;
     kzalloc_fails := λ _, false;
     vmalloc_fails := λ _, true;
     dma_buf_export_fails := λ _, false;
     dma_buf_fd_fails := λ _, false;
     current_group_leader := λ _, 1024;
     current_is_kthread := λ _, false |}.

Definition is_allocate (e : event) : bool :=
  match e with EvAllocate _ _ _ _ _ _ => true | _ => false end.

Definition is_allocated (e : event) : bool :=
  match e with EvAllocate _ _ _ _ _ ret => ret =? 0 | _ => false end.

Definition is_heap_free (e : event) : bool :=
  match e with EvHeapFree _ => true | _ => false end.

(** A backend with room for a single buffer: allocate succeeds only when
    everything it has handed out so far has been freed. *)
Definition single_slot_env : Environment :=
  {| ops_allocate := λ tr _ _ _ _ _,
       if (length (List.filter is_allocated tr) <=?
           length (List.filter is_heap_free tr))%nat
       then 0 else - ENOMEM;
     ops_map_dma := λ _ _ buffer, buffer + 4;
     ops_map_kernel := λ _ _ _, 3221229568;
     ops_phys := λ _ _ _, 0;
     kzalloc_fails := λ _, false;
     vmalloc_fails := λ _, false;
     dma_buf_export_fails := λ _, false;
     dma_buf_fd_fails := λ _, false;
     current_group_leader := λ _, 1024;
     current_is_kthread := λ _, false |}.

Definition state_of {A} (fallback : state) (r : result A) : state :=
  match r with Ok _ s => s | Crash _ => fallback end.

(** Two heap descriptors exist, nothing is registered: heap 16 has id 1
    and frees at once, heap 24 has id 2 and defers freeing. *)
Definition power_on : state :=
  {| handles := ∅;
     buffers := ∅;
     heaps := {[ 16 := IonHeap 1 0 0 true true []; 24 := IonHeap 2 1 0 false true [] ]};
     clients := ∅;
     dmabufs := ∅;
     files := ∅;
     dev_buffers := [];
     dev_heaps := [];
     dev_clients := [];
     brk := 4096;
     trace := [] |}.

Definition boot_ops : list op :=
  [OpAddHeap 16; OpAddHeap 24; OpClientCreate; OpClientCreate].

(** Both heaps registered (heap 24 comes first in the plist) and two
    clients open, 4096 and 4104. *)
Definition boot : state :=
  state_of power_on (run_ops (P:=bcm_platform) (E:=willing_env) boot_ops power_on).

(** Client 4096 holds handle 4120 on buffer 4112 of heap 16 ... *)
Definition one_buffer_ops : list op := boot_ops ++ [OpAlloc 4096 100 0 2 0].

Definition one_buffer : state :=
  state_of power_on (run_ops (P:=bcm_platform) (E:=willing_env) one_buffer_ops power_on).

(** ... and has mapped it into the kernel once. *)
Definition one_buffer_mapped_ops : list op := one_buffer_ops ++ [OpMapKernel 4096 4120].

Definition one_buffer_mapped : state :=
  state_of power_on
    (run_ops (P:=bcm_platform) (E:=willing_env) one_buffer_mapped_ops power_on).

(** Client 4096 holds handle 4120 on buffer 4112 of heap 24. *)
Definition one_deferred_buffer_ops : list op := boot_ops ++ [OpAlloc 4096 100 0 4 0].

Definition one_deferred_buffer : state :=
  state_of power_on
    (run_ops (P:=bcm_platform) (E:=willing_env) one_deferred_buffer_ops power_on).

(** Client 4096 has exported that buffer as descriptor 0. *)
Definition one_buffer_shared : state :=
  state_of one_buffer
    (ion_share_dma_buf_fd (P:=bcm_platform) (E:=willing_env) 4096 4120 one_buffer).

(** The willing backend when every caller is a kernel thread, as when
    drivers create their clients while they are probed. *)
Definition kernel_thread_env : Environment :=
  {| ops_allocate := λ _ _ _ _ _ _, 0;
     ops_map_dma := λ _ _ buffer, buffer + 4;
     ops_map_kernel := λ _ _ _, 3221229568;
     ops_phys := λ _ _ _, 0;
     kzalloc_fails := λ _, false;
     vmalloc_fails := λ _, false;
     dma_buf_export_fails := λ _, false;
     dma_buf_fd_fails := λ _, false;
     current_group_leader := λ _, 1024;
     current_is_kthread := λ _, true |}.

Definition kernel_clients_shared_ops : list op :=
  one_buffer_ops ++ [OpShareDmaBufFd 4096 4120].

(** The clients 4096 and 4104 have been created by kernel threads; client
    4096 holds handle 4120 on buffer 4112 of heap 16 and has exported the
    buffer as descriptor 0. *)
Definition kernel_clients_shared : state :=
  state_of power_on
    (run_ops (P:=bcm_platform) (E:=kernel_thread_env) kernel_clients_shared_ops power_on).

(** Over the single-slot backend: client 4096 has allocated a buffer from
    heap 24 and freed it again, so buffer 4112 waits on the free list of
    heap 24 and the heap is still full. *)
Definition one_queued_buffer_ops : list op :=
  boot_ops ++ [OpAlloc 4096 100 0 4 0; OpFree 4096 4120].

Definition one_queued_buffer : state :=
  state_of power_on
    (run_ops (P:=bcm_platform) (E:=single_slot_env) one_queued_buffer_ops power_on).

(** * The rest of the driver *)

Definition EFAULT : Z := 14.
Definition ENOTTY : Z := 25.

(** ** Dirty-page tracking of cached buffers

    Bit 0 of an entry of [buffer->pages] says whether the page has been
    written through a user mapping since the last sync. *)

(* [~(1UL)] *)
Definition PAGE_TAG_MASK : Z := wrap (Z.lnot 1).

Definition ion_buffer_page (page : Z) : Z := Z.land page PAGE_TAG_MASK.

Definition ion_buffer_page_is_dirty (page : Z) : bool := negb (Z.land page 1 =? 0).

(** [ion_buffer_page_dirty] and [ion_buffer_page_clean] store through
    their argument; these are the values they store. *)
Definition ion_buffer_page_dirty (page : Z) : Z := Z.lor page 1.

Definition ion_buffer_page_clean (page : Z) : Z := Z.land page PAGE_TAG_MASK.

(** Calls into the memory-management core. *)
Inductive mm_event :=
  | EvDmaPageCpuToDev (page : Z)            (* __dma_page_cpu_to_dev(page, 0, PAGE_SIZE, dir) *)
  | EvZapPageRange (vma : Z)                (* zap_page_range(vma, vm_start, vm_end - vm_start, NULL) *)
  | EvVmInsertPage (vma address page : Z)   (* vm_insert_page(vma, address, page) *)
  | EvKmallocVmaList (node : Z)
  | EvKfreeVmaList (node : Z).

Global Instance mm_event_eq_dec : EqDecision mm_event.
Proof. solve_decision. Defined.

(** What user mappings add to a buffer: the array [buffer->pages] and the
    list [buffer->vmas] of [struct ion_vma_list] nodes, each with the vma
    it stands for, first entry first. *)
Record user_mappings := UserMappings {
  um_pages : list Z;
  um_vmas : list (Z * Z)
}.

(** A call on the user mappings of a buffer either crashes or returns a
    value, the mappings as it leaves them and the calls it has made. *)
Definition mm_result (A : Type) : Type := crash + (A * user_mappings * list mm_event).

Class MemoryManagement := {
  VM_FAULT_ERROR : Z;
  VM_FAULT_NOPAGE : Z;
  (** the answer of [vm_insert_page(vma, address, page)] *)
  vm_insert_page : Z → Z → Z → Z;
  (** the answer of [kmalloc(sizeof(struct ion_vma_list), GFP_KERNEL)] with
      these nodes allocated *)
  kmalloc_vma_list : list (Z * Z) → Z
}.

Section UserMappings.
Context {P : Platform} {MM : MemoryManagement}.

Definition ion_buffer_cached (flags : Z) : bool :=
  negb (Z.land flags ION_FLAG_CACHED =? 0).

(** The loop [for (i = 0; i < pages; i++)] of
    [ion_buffer_sync_for_device], with [n] turns left. *)
Fixpoint sync_pages (n : nat) (i : nat) (pages : list Z) : crash + (list Z * list mm_event) :=
  match n with
  | O => inr (pages, [])
  | S n' =>
      match pages !! i with
      | None => inl BadPointer
      | Some page =>
          let synced := if ion_buffer_page_is_dirty page
                        then [EvDmaPageCpuToDev page] else [] in
          match sync_pages n' (S i) (<[i := ion_buffer_page_clean page]> pages) with
          | inl c => inl c
          | inr (pages', evs) => inr (pages', synced ++ evs)
          end
      end
  end.

Definition ion_buffer_sync_for_device (b : ion_buffer) (um : user_mappings)
    : mm_result unit :=
  let pages := sint (PAGE_ALIGN (b_size b) / PAGE_SIZE) in
  if negb (ion_buffer_fault_user_mappings (b_flags b)) then inr ((), um, [])
  else if (b_pages b =? 0) && (0 <? pages) then inl BadPointer
  else
    match sync_pages (Z.to_nat pages) 0 (um_pages um) with
    | inl c => inl c
    | inr (pages', evs) =>
        inr ((), UserMappings pages' (um_vmas um),
             evs ++ map (λ entry, EvZapPageRange entry.2) (um_vmas um))
    end.

(** [ion_map_dma_buf] returns [buffer->sg_table] after the sync. *)
Definition ion_map_dma_buf (b : ion_buffer) (um : user_mappings) : mm_result Z :=
  match ion_buffer_sync_for_device b um with
  | inl c => inl c
  | inr (_, um', evs) => inr (b_sg_table b, um', evs)
  end.

Definition ion_vm_fault (b : ion_buffer) (um : user_mappings)
    (vma pgoff virtual_address : Z) : mm_result Z :=
  if b_pages b =? 0 then inl BadPointer else
  match um_pages um !! Z.to_nat pgoff with
  | None => inl BadPointer
  | Some page =>
      let pages := <[Z.to_nat pgoff := ion_buffer_page_dirty page]> (um_pages um) in
      match pages !! Z.to_nat pgoff with
      | None => inl BadPointer
      | Some page' =>
          if (b_pages b =? 0) || (page' =? 0) then inl KernelBUG else
          let ret := vm_insert_page vma virtual_address (ion_buffer_page page') in
          inr (if ret =? 0 then VM_FAULT_NOPAGE else VM_FAULT_ERROR,
               UserMappings pages (um_vmas um),
               [EvVmInsertPage vma virtual_address (ion_buffer_page page')])
      end
  end.

Definition ion_vm_open (um : user_mappings) (vma : Z) : mm_result unit :=
  let vma_list := kmalloc_vma_list (um_vmas um) in
  if vma_list =? 0 then inr ((), um, [EvKmallocVmaList 0])
  else inr ((), UserMappings (um_pages um) ((vma_list, vma) :: um_vmas um),
            [EvKmallocVmaList vma_list]).

(** [list_for_each_entry_safe] up to the [break]. *)
Fixpoint vm_close_from (entries : list (Z * Z)) (vma : Z) : list (Z * Z) * list mm_event :=
  match entries with
  | [] => ([], [])
  | (node, v) :: rest =>
      if v =? vma then (rest, [EvKfreeVmaList node])
      else let '(rest', evs) := vm_close_from rest vma in ((node, v) :: rest', evs)
  end.

Definition ion_vm_close (um : user_mappings) (vma : Z) : mm_result unit :=
  let '(vmas, evs) := vm_close_from (um_vmas um) vma in
  inr ((), UserMappings (um_pages um) vmas, evs).

End UserMappings.

(** ** More entry points *)

(** What [copy_from_user] and [copy_to_user] answer, and the device's
    [custom_ioctl] when it has one. *)
Class UserAccess := {
  copy_from_user_fails : list event → bool;
  copy_to_user_fails : list event → bool;
  custom_ioctl : option (Z → Z → Z → M Z)
}.

(** A request: the command and the structure that [arg] points to in
    user memory, read as the command reads it. *)
Inductive ioctl_request :=
  | ION_IOC_ALLOC (len align heap_id_mask flags handle : Z)  (* struct ion_allocation_data *)
  | ION_IOC_FREE (handle : Z)                                (* struct ion_handle_data *)
  | ION_IOC_SHARE (handle fd : Z)                            (* struct ion_fd_data *)
  | ION_IOC_MAP (handle fd : Z)
  | ION_IOC_IMPORT (handle fd : Z)
  | ION_IOC_SYNC (handle fd : Z)
  | ION_IOC_CUSTOM (cmd arg : Z)                             (* struct ion_custom_data *)
  | ION_IOC_OTHER (cmd : Z).

(** What a request has written back to user memory. *)
Inductive ioctl_reply :=
  | ion_allocation_data (len align heap_id_mask flags handle : Z)
  | ion_fd_data (handle fd : Z).

Section EntryPoints.
Context {P : Platform} {E : Environment} {U : UserAccess}.

Definition ion_handle_buffer (handle : Z) : M Z :=
  hd ← get_handle handle;
  mret (h_buffer hd).

Definition ion_lock_buffer (client handle : Z) : M Z :=
  valid ← ion_handle_validate client handle;
  if negb valid then mret 0 else
  hd ← get_handle handle;
  let buffer := h_buffer hd in
  _ ← get_buffer buffer;
  mret buffer.

(** [total] is a C [int], [buffer->size] a [size_t]. *)
Fixpoint freelist_total_from (entries : list Z) (total : Z) : M Z :=
  match entries with
  | [] => mret total
  | buffer :: rest =>
      b ← get_buffer buffer;
      freelist_total_from rest (sint (total + b_size b))
  end.

Definition ion_debug_heap_freelist (heap : Z) : M Z :=
  hp ← get_heap heap;
  if hp_flags hp =? ION_HEAP_FLAG_DEFER_FREE
  then freelist_total_from (hp_free_list hp) 0
  else mret 0.

Fixpoint freelist_total_heaps (hs : list Z) (total : Z) : M Z :=
  match hs with
  | [] => mret total
  | heap :: rest =>
      t ← ion_debug_heap_freelist heap;
      total ← int_add total t;
      freelist_total_heaps rest total
  end.

Definition ion_freelist_total : M Z :=
  s ← get_state;
  freelist_total_heaps (dev_heaps s) 0.

(** [dma_sync_sg_for_device] does cache maintenance only; of the call,
    the reads of [buffer->sg_table] are kept. *)
Definition ion_sync_for_device (client fd : Z) : M Z :=
  dmabuf ← dma_buf_get fd;
  if IS_ERR_OR_NULL dmabuf then mret (PTR_ERR dmabuf) else
  d ← get_dmabuf dmabuf;
  if negb (db_ops_ion d) then
    dma_buf_put dmabuf;; mret (- EINVAL)
  else
    b ← get_buffer (db_priv d);
    (if b_sg_table b =? 0 then oops BadPointer else mret ());;
    dma_buf_put dmabuf;;
    mret 0.

Definition copy_from_user : M bool := tr ← history; mret (copy_from_user_fails tr).
Definition copy_to_user : M bool := tr ← history; mret (copy_to_user_fails tr).

(** The result is the value returned and what has been copied back to
    user memory. *)
Definition ion_ioctl (client : Z) (req : ioctl_request)
    : M (Z * option ioctl_reply) :=
  match req with
  | ION_IOC_ALLOC len align heap_id_mask flags _ =>
      failed ← copy_from_user;
      if failed : bool then mret (- EFAULT, None) else
      handle ← ion_alloc client len align heap_id_mask flags;
      if IS_ERR handle then mret (PTR_ERR handle, None) else
      failed ← copy_to_user;
      if failed : bool then
        ion_free client handle;;
        mret (- EFAULT, None)
      else mret (0, Some (ion_allocation_data len align heap_id_mask flags handle))
  | ION_IOC_FREE handle =>
      failed ← copy_from_user;
      if failed : bool then mret (- EFAULT, None) else
      valid ← ion_handle_validate client handle;
      if negb valid then mret (- EINVAL, None) else
      ion_free client handle;;
      mret (0, None)
  | ION_IOC_SHARE handle _ | ION_IOC_MAP handle _ =>
      failed ← copy_from_user;
      if failed : bool then mret (- EFAULT, None) else
      fd ← ion_share_dma_buf_fd client handle;
      failed ← copy_to_user;
      if failed : bool then mret (- EFAULT, None) else
      if fd <? 0 then mret (fd, Some (ion_fd_data handle fd))
      else mret (0, Some (ion_fd_data handle fd))
  | ION_IOC_IMPORT _ fd =>
      failed ← copy_from_user;
      if failed : bool then mret (- EFAULT, None) else
      handle ← ion_import_dma_buf client fd;
      let ret := if IS_ERR handle then PTR_ERR handle else 0 in
      let handle := if IS_ERR handle then 0 else handle in
      failed ← copy_to_user;
      if failed : bool then mret (- EFAULT, None) else
      if ret <? 0 then mret (ret, Some (ion_fd_data handle fd))
      else mret (0, Some (ion_fd_data handle fd))
  | ION_IOC_SYNC _ fd =>
      failed ← copy_from_user;
      if failed : bool then mret (- EFAULT, None) else
      ion_sync_for_device client fd;;
      mret (0, None)
  | ION_IOC_CUSTOM cmd arg =>
      _ ← get_client client;
      match custom_ioctl with
      | None => mret (- ENOTTY, None)
      | Some custom =>
          failed ← copy_from_user;
          if failed : bool then mret (- EFAULT, None) else
          ret ← custom client cmd arg;
          mret (ret, None)
      end
  | ION_IOC_OTHER _ => mret (- ENOTTY, None)
  end.

(** The result is the value returned and [file->private_data]. *)
Definition ion_open : M (Z * Z) :=
  client ← ion_client_create;
  if IS_ERR_OR_NULL client then mret (PTR_ERR client, 0)
  else mret (0, client).

Definition ion_release (fuel : nat) (client : Z) : M Z :=
  ion_client_destroy fuel client;;
  mret 0.

End EntryPoints.

(** ** More vocabulary *)


(** Along [hs] the priorities of the heaps do not fall. *)
Definition priority_not_above (s : state) (x y : Z) : Prop :=
  ∀ hx hy, heaps s !! x = Some hx → heaps s !! y = Some hy →
    heap_priority (hp_id hx) ≤ heap_priority (hp_id hy).

Fixpoint by_priority (s : state) (hs : list Z) : Prop :=
  match hs with
  | [] => True
  | x :: rest => Forall (priority_not_above s x) rest ∧ by_priority s rest
  end.

(** The cache maintenance a sync owes: one call for every dirty entry,
    in the order of the array, with the entry as it is stored. *)
Definition dirty_page_syncs (pages : list Z) : list mm_event :=
  flat_map (λ page, if ion_buffer_page_is_dirty page
                    then [EvDmaPageCpuToDev page] else []) pages.

(** The sizes of the buffers [entries], added up. *)
Definition queued_bytes (s : state) (entries : list Z) : Z :=
  foldr (λ buffer total, default 0 (b_size <$> buffers s !! buffer) + total) 0 entries.

(** A handle in the state in which [ion_alloc] or a first import leaves
    it: one reference, no kernel mapping, linked into its client's tree,
    on a live buffer of a live heap whose counts are in range. *)
Definition droppable (s : state) (client handle : Z) : Prop :=
  ∃ hd b, handles s !! handle = Some hd ∧
    h_client hd = client ∧ h_linked hd = true ∧ h_ref hd = 1 ∧ h_kmap_cnt hd = 0 ∧
    buffers s !! h_buffer hd = Some b ∧
    1 ≤ b_ref b < 2 ^ 32 ∧ 1 ≤ b_handle_count b ≤ INT_MAX ∧
    is_Some (heaps s !! b_heap b).

(** No two of the handles [hs] are on the same buffer. *)
Definition buffers_apart (s : state) (hs : list Z) : Prop :=
  ∀ h1 h2 hd1 hd2, h1 ∈ hs → h2 ∈ hs →
    handles s !! h1 = Some hd1 → handles s !! h2 = Some hd2 →
    h_buffer hd1 = h_buffer hd2 → h1 = h2.

(** ** References to buffers *)

(** Number of entries of [m] that point to [target]. *)
Definition pointing (target : Z) (m : gmap Z Z) : Z :=
  Z.of_nat (size (filter (λ kv, kv.2 = target) m)).

(** The buffer behind a dma-buf that ion exported; a dma-buf of another
    exporter has none. *)
Definition exported_buffer (d : dma_buf) : option Z :=
  if db_ops_ion d then Some (db_priv d) else None.

(** Number of live dma-bufs through which [buffer] is exported. *)
Definition exported (buffer : Z) (ds : gmap Z dma_buf) : Z :=
  pointing buffer (omap exported_buffer ds).

(** The reference count of the buffer at [b]; zero where there is none. *)
Definition ref_of (s : state) (b : Z) : Z := default 0 (b_ref <$> buffers s !! b).

(** The part of the address space that the allocator has handed out. *)
Definition handed_out (s : state) : Z := Z.max 0 (Z.min (brk s) ADDRESS_END).

(** The reference count of every buffer is the number of handles attached
    to it plus the number of dma-bufs that export it.  [skew] is zero
    everywhere between two operations; inside one it is the number of
    references that the running code holds itself, or minus one while a
    reference has been dropped whose holder is not yet released.  A
    buffer waiting on a free list has no reference. *)
Record counted (skew : Z → Z) (s : state) : Prop := Counted {
  cnt_refs : ∀ b,
    ref_of s b = attached b (handles s) + exported b (dmabufs s) + skew b;
  cnt_range : ∀ b bd, buffers s !! b = Some bd → 0 ≤ b_ref bd < 2 ^ 32;
  cnt_queued : ∀ heap hp b, heaps s !! heap = Some hp → b ∈ hp_free_list hp →
    ref_of s b = 0 ∧ b < brk s;
  (* the allocator has not yet reached any address in use *)
  cnt_handles_below : ∀ h hd, handles s !! h = Some hd →
    h < brk s ∧ h_buffer hd < brk s;
  cnt_buffers_below : ∀ b bd, buffers s !! b = Some bd → b < brk s;
  cnt_dmabufs_below : ∀ d b, omap exported_buffer (dmabufs s) !! d = Some b →
    d < brk s ∧ b < brk s;
  (* every handle and every exported dma-buf has its own allocation *)
  cnt_room :
    KMALLOC_MINALIGN * (Z.of_nat (size (handles s))
                        + Z.of_nat (size (omap exported_buffer (dmabufs s))))
    ≤ handed_out s
}.

(** A skew of [k] at [buffer] and none elsewhere. *)
Definition skewed (buffer k : Z) : Z → Z := λ b, if decide (b = buffer) then k else 0.

Definition balanced (s : state) : Prop := counted (λ _, 0) s.

(** Changes that [counted] does not see: other fields of handles, buffers
    and dma-bufs, buffers without a reference going away, entries
    leaving the free lists, the allocator moving on, and everything
    else. *)
Record inert (s s' : state) : Prop := Inert {
  in_handles : h_buffer <$> handles s' = h_buffer <$> handles s;
  in_dmabufs : omap exported_buffer (dmabufs s') = omap exported_buffer (dmabufs s);
  in_buffers : ∀ b,
    match buffers s' !! b with
    | Some bd' => ∃ bd, buffers s !! b = Some bd ∧ b_ref bd' = b_ref bd
    | None => ref_of s b = 0
    end;
  in_queues : ∀ heap hp' b, heaps s' !! heap = Some hp' → b ∈ hp_free_list hp' →
    ∃ hp, heaps s !! heap = Some hp ∧ b ∈ hp_free_list hp;
  in_brk : brk s ≤ brk s'
}.

(** [m] only makes changes of the kind [inert] allows. *)
Definition inertly {A} (m : M A) : Prop :=
  ∀ s, wp m (λ _ s', inert s s') s.

(** A device that has just been probed: no client, handle or buffer yet,
    no dma-buf that ion exported, nothing on a free list. *)
Definition fresh (s : state) : Prop :=
  pristine s ∧
  (∀ d dd, dmabufs s !! d = Some dd → db_ops_ion dd = false) ∧
  (∀ heap hp, heaps s !! heap = Some hp → hp_free_list hp = []).

(** The heaps' [allocate] answers 0 or a negative errno, as the heap
    interface asks. *)
Definition allocate_returns_errno `{Environment} : Prop :=
  ∀ tr heap buffer len align flags,
    - MAX_ERRNO ≤ sint (ops_allocate tr heap buffer len align flags) ≤ 0.

(** What [ion_buffer_create] leaves behind: nothing on failure, and on
    success a new buffer whose only reference is the caller's. *)
Definition created (r : Z) (s : state) : Prop :=
  if IS_ERR_OR_NULL r then balanced s
  else counted (skewed r 1) s ∧ ref_of s r = 1.

(** ** More concrete surroundings *)

(** User memory that can always be read and written, on a device without
    a custom handler. *)
Definition plain_user : UserAccess :=
  {| copy_from_user_fails := λ _, false;
     copy_to_user_fails := λ _, false;
     custom_ioctl := None |}.

(** User memory that can be read but not written. *)
Definition read_only_user : UserAccess :=
  {| copy_from_user_fails := λ _, false;
     copy_to_user_fails := λ _, true;
     custom_ioctl := None |}.

(** Page insertion that always succeeds; list nodes are handed out at
    increasing addresses. *)
Definition plain_mm : MemoryManagement :=
  {| VM_FAULT_ERROR := 51;
     VM_FAULT_NOPAGE := 256;
     vm_insert_page := λ _ _ _, 0;
     kmalloc_vma_list := λ nodes, 8192 + 8 * Z.of_nat (length nodes) |}.

(** [boot] with descriptor 7 open on a dma-buf of another exporter. *)
Definition foreign_descriptor : state :=
  set_files <[7 := 8192]> (set_dmabufs <[8192 := DmaBuf false 0 1]> boot).

(** [one_buffer_shared] over a heap that has neither [phys] nor
    [map_kernel]. *)
Definition bare_heap : state :=
  set_heaps <[16 := IonHeap 1 0 4096 false false []]> one_buffer_shared.

(** Heap 16 registered, heap 24 not yet. *)
Definition first_heap_added : state :=
  state_of power_on
    (run_ops (P:=bcm_platform) (E:=willing_env) [OpAddHeap 16] power_on).

(** The same with a third heap descriptor, whose id is the largest an
    [unsigned int] holds. *)
Definition large_id_heap : state :=
  set_heaps <[32 := IonHeap 4294967295 0 0 true true []]> first_heap_added.

(** A cached buffer of two pages, the first of them dirty, mapped twice
    into user space. *)
Definition cached_buffer : ion_buffer := IonBuffer 1 16 1 8192 0 0 4116 4120 0.

Definition two_pages : user_mappings :=
  UserMappings [12289; 16384] [(8192, 100); (8200, 200)].

(** The operations that lead to [one_buffer_shared]. *)
Definition one_buffer_shared_ops : list op :=
  one_buffer_ops ++ [OpShareDmaBufFd 4096 4120].

(** * Properties *)

(** ** Running the model symbolically *)

Ltac mred_once :=
  unfold mbind, mret, M_bind, M_ret, oops, get_state, emit, history,
       get_handle, get_buffer, get_heap, get_client, get_dmabuf,
       put_handle, put_buffer, put_heap, put_client, put_dmabuf,
       update_handle, update_buffer, update_heap, update_client, update_dmabuf,
       kfree_buffer, kfree_handle, kfree_client, kfree_dmabuf,
       WARN_ON, BUG_ON, call_allocate, call_free, call_map_dma, call_unmap_dma,
       call_map_kernel, call_unmap_kernel, call_phys, modify, load;
  cbn [handles buffers heaps clients dmabufs files dev_buffers dev_heaps
       dev_clients brk trace
       set_handles set_buffers set_heaps set_clients set_dmabufs set_files
       set_dev_buffers set_dev_heaps set_dev_clients set_brk set_trace
       b_ref b_heap b_flags b_size b_kmap_cnt b_vaddr b_sg_table b_pages
       b_handle_count h_ref h_client h_buffer h_linked h_kmap_cnt
       hp_id hp_flags hp_used hp_ops_phys hp_ops_map_kernel hp_free_list
       c_handles c_ref db_ops_ion db_priv db_count
       with_b_ref with_b_size with_b_kmap_cnt with_b_vaddr with_b_sg_table
       with_b_pages with_b_handle_count with_h_ref with_h_linked with_h_kmap_cnt
       with_hp_used with_hp_free_list with_c_handles with_c_ref with_db_count
       negb andb orb];
  rewrite ?Z.eqb_refl.

(** Comparisons and wrap-arounds of literals are computed. *)
Ltac closed_pos p :=
  lazymatch p with
  | xH => idtac
  | xO ?q => closed_pos q
  | xI ?q => closed_pos q
  end.

Ltac closed_Z z :=
  lazymatch z with
  | Z0 => idtac
  | Zpos ?p => closed_pos p
  | Zneg ?p => closed_pos p
  end.

Ltac ground_Z z :=
  lazymatch z with
  | Z0 => idtac
  | Zpos ?p => closed_pos p
  | Zneg ?p => closed_pos p
  | ?a + ?b => ground_Z a; ground_Z b
  | ?a - ?b => ground_Z a; ground_Z b
  | ?a * ?b => ground_Z a; ground_Z b
  | ?a ^ ?b => ground_Z a; ground_Z b
  | - ?a => ground_Z a
  | wrap ?a => ground_Z a
  | sint ?a => ground_Z a
  | ERR_PTR ?a => ground_Z a
  | PTR_ERR ?a => ground_Z a
  | INT_MIN => idtac
  | INT_MAX => idtac
  | EBADF => idtac
  | ENOMEM => idtac
  | ENODEV => idtac
  | EINVAL => idtac
  | EMFILE => idtac
  | MAX_ERRNO => idtac
  | KMALLOC_MINALIGN => idtac
  | ADDRESS_END => idtac
  end.

Ltac compute_bool t :=
  let v := eval vm_compute in t in
  lazymatch v with
  | true => change t with true
  | false => change t with false
  end.

Ltac compute_Z t :=
  lazymatch t with
  | Z0 => fail
  | Zpos _ => fail
  | Zneg _ => fail
  | _ => ground_Z t; let v := eval vm_compute in t in change t with v
  end.

Ltac mcalc :=
  repeat match goal with
  | |- context [?a =? ?b] => ground_Z a; ground_Z b; compute_bool (a =? b)
  | |- context [?a <? ?b] => ground_Z a; ground_Z b; compute_bool (a <? b)
  | |- context [?a <=? ?b] => ground_Z a; ground_Z b; compute_bool (a <=? b)
  | |- context [IS_ERR ?a] => ground_Z a; compute_bool (IS_ERR a)
  | |- context [IS_ERR_OR_NULL ?a] => ground_Z a; compute_bool (IS_ERR_OR_NULL a)
  | |- context [wrap ?a] => compute_Z (wrap a)
  | |- context [sint ?a] => compute_Z (sint a)
  | |- context [?a + ?b] => compute_Z (a + b)
  | |- context [?a - ?b] => compute_Z (a - b)
  end.

Ltac mred := mred_once; repeat (progress (mcalc; mred_once)).

(** Lookups are resolved from the hypotheses. *)
Ltac mlook :=
  repeat first
    [ rewrite lookup_insert_eq
    | rewrite lookup_delete_eq
    | rewrite lookup_insert_ne by done
    | match goal with
      | H : ?m !! ?k = Some _ |- context [?m !! ?k] => rewrite H
      | H : ?m !! ?k = None |- context [?m !! ?k] => rewrite H
      end ].

Ltac mrun := repeat (progress (mred; mlook)).

(** Two states with the same components are equal. *)
Lemma state_ext s s' :
  handles s = handles s' → buffers s = buffers s' → heaps s = heaps s' →
  clients s = clients s' → dmabufs s = dmabufs s' → files s = files s' →
  dev_buffers s = dev_buffers s' → dev_heaps s = dev_heaps s' →
  dev_clients s = dev_clients s' → brk s = brk s' → trace s = trace s' →
  s = s'.
Proof. destruct s, s'. cbn. by intros -> -> -> -> -> -> -> -> -> -> ->. Qed.

Ltac state_eq :=
  first
    [ reflexivity
    | lazymatch goal with
      | |- Ok _ _ = Ok _ _ => f_equal; try reflexivity
      | |- _ => idtac
      end;
      apply state_ext; mred; rewrite ?insert_insert_eq;
      rewrite <- ?app_assoc; try done ].

Section Properties.
Context {P : Platform} {E : Environment}.

Lemma wrap_small x : 0 ≤ x < 2 ^ 32 → wrap x = x.
Proof. intros. unfold wrap, BITS_PER_LONG. by apply Z.mod_small. Qed.

Lemma wrap_range x : 0 ≤ wrap x < 2 ^ 32.
Proof. unfold wrap, BITS_PER_LONG. apply Z.mod_pos_bound. lia. Qed.

Lemma validate_spec s client cl handle :
  clients s !! client = Some cl →
  ion_handle_validate client handle s = Ok (bool_decide (handle ∈ c_handles cl)) s.
Proof. intros Hcl. unfold ion_handle_validate. mred. by rewrite Hcl. Qed.

(** *** Allocation requests that are refused *)

(** C8: a request of length zero is refused with -EINVAL whatever the heap
    mask, the alignment and the flags are; nothing but the warning is
    left behind. *)
Theorem ion_alloc_zero_length s client align heap_id_mask flags :
  is_Some (clients s !! client) →
  ion_alloc client 0 align heap_id_mask flags s
  = Ok (ERR_PTR (- EINVAL)) (set_trace (λ t, t ++ [EvWarn WarnAllocZeroLen]) s).
Proof.
  intros [cl Hcl]. unfold ion_alloc. mred. by rewrite Hcl.
Qed.

Lemma land_bit_clear mask id :
  Z.testbit mask id = false → Z.land (wrap (Z.shiftl 1 id)) mask = 0.
Proof.
  intros Hbit. apply Z.bits_inj'. intros n Hn.
  rewrite Z.land_spec, Z.bits_0. unfold wrap, BITS_PER_LONG.
  destruct (Z.testbit (Z.shiftl 1 id mod 2 ^ 32) n) eqn:Hb; [|done]. simpl.
  destruct (Z_lt_dec n 32) as [Hlt|Hge].
  - rewrite Z.mod_pow2_bits_low in Hb by lia.
    rewrite Z.shiftl_spec in Hb by lia.
    destruct (Z.eq_dec n id) as [->|Hne]; [done|].
    destruct (Z_lt_dec (n - id) 0).
    + rewrite Z.testbit_neg_r in Hb by lia. done.
    + rewrite Z.bits_above_log2 in Hb; [done| lia | simpl; lia].
  - rewrite Z.mod_pow2_bits_high in Hb by lia. done.
Qed.

(** The walk creates nothing when no heap on the list is selected. *)
Lemma ion_alloc_walk_none_selected s hs len align heap_id_mask flags buffer heap_used :
  no_heap_selected s hs heap_id_mask →
  ion_alloc_walk hs len align heap_id_mask flags buffer heap_used s
  = Ok (buffer, heap_used) s.
Proof.
  induction hs as [|heap hs IH]; intros Hsel; [done|].
  apply Forall_cons in Hsel as [(hp & Hhp & Hbit) Hrest].
  cbn [ion_alloc_walk]. mred. rewrite Hhp.
  rewrite (land_bit_clear _ _ Hbit). cbn. by apply IH.
Qed.

(** C2, as the code has it: when the mask selects no registered heap (and
    the length is not zero) the request fails with -ENODEV, and the state
    is exactly what it was. *)
Theorem ion_alloc_no_registered_heap s client len align heap_id_mask flags :
  is_Some (clients s !! client) →
  len ≠ 0 →
  no_heap_selected s (dev_heaps s) heap_id_mask →
  ion_alloc client len align heap_id_mask flags s = Ok (ERR_PTR (- ENODEV)) s.
Proof.
  intros [cl Hcl] Hlen Hsel. unfold ion_alloc. mred. rewrite Hcl.
  destruct (len =? 0) eqn:Hz; [lia|].
  rewrite (ion_alloc_walk_none_selected _ _ _ _ _ _ _ _ Hsel).
  reflexivity.
Qed.

End Properties.

Section Mapping.
Context {P : Platform} {E : Environment}.

(** *** Kernel mappings *)

Lemma valid_handle_checked s client cl handle :
  clients s !! client = Some cl → handle ∈ c_handles cl →
  ion_handle_validate client handle s = Ok true s.
Proof.
  intros Hcl Hin. rewrite (validate_spec _ _ _ _ Hcl).
  by rewrite bool_decide_eq_true_2.
Qed.

(** The first mapping of a buffer asks the heap and caches the answer. *)
Lemma ion_buffer_kmap_get_first s buffer b hp :
  buffers s !! buffer = Some b → b_kmap_cnt b = 0 →
  heaps s !! b_heap b = Some hp →
  let vaddr := wrap (ops_map_kernel (trace s) (b_heap b) buffer) in
  IS_ERR_OR_NULL vaddr = false →
  ion_buffer_kmap_get buffer s
  = Ok vaddr (set_buffers <[buffer := with_b_kmap_cnt 1 (with_b_vaddr vaddr b)]>
               (set_trace (λ t, t ++ [EvMapKernel (b_heap b) buffer vaddr]) s)).
Proof.
  intros Hb Hcnt Hhp vaddr Hok. unfold ion_buffer_kmap_get. mrun.
  rewrite Hcnt. mrun. fold vaddr. rewrite Hok.
  unfold int_add. mrun. state_eq.
Qed.

Lemma ion_handle_kmap_get_first s handle hd b hp :
  handles s !! handle = Some hd → h_kmap_cnt hd = 0 →
  buffers s !! h_buffer hd = Some b → b_kmap_cnt b = 0 →
  heaps s !! b_heap b = Some hp →
  let vaddr := wrap (ops_map_kernel (trace s) (b_heap b) (h_buffer hd)) in
  IS_ERR_OR_NULL vaddr = false →
  ion_handle_kmap_get handle s
  = Ok vaddr
      (set_handles <[handle := with_h_kmap_cnt 1 hd]>
        (set_buffers <[h_buffer hd := with_b_kmap_cnt 1 (with_b_vaddr vaddr b)]>
          (set_trace (λ t, t ++ [EvMapKernel (b_heap b) (h_buffer hd) vaddr]) s))).
Proof.
  intros Hh Hhc Hb Hbc Hhp vaddr Hok. unfold ion_handle_kmap_get. mrun.
  rewrite Hhc. mrun.
  rewrite (ion_buffer_kmap_get_first _ _ _ _ Hb Hbc Hhp Hok).
  fold vaddr. rewrite Hok. mrun. state_eq.
Qed.

(** A handle that already holds a mapping only counts. *)
Lemma ion_handle_kmap_get_again s handle hd b :
  handles s !! handle = Some hd → h_kmap_cnt hd ≠ 0 →
  buffers s !! h_buffer hd = Some b →
  ion_handle_kmap_get handle s
  = Ok (b_vaddr b) (set_handles <[handle := with_h_kmap_cnt (wrap (h_kmap_cnt hd + 1)) hd]> s).
Proof.
  intros Hh Hhc Hb. unfold ion_handle_kmap_get. mrun.
  destruct (h_kmap_cnt hd =? 0) eqn:Hz; [lia|]. by mrun.
Qed.

Lemma ion_handle_kmap_put_keep s handle hd :
  handles s !! handle = Some hd → wrap (h_kmap_cnt hd - 1) ≠ 0 →
  ion_handle_kmap_put handle s
  = Ok () (set_handles <[handle := with_h_kmap_cnt (wrap (h_kmap_cnt hd - 1)) hd]> s).
Proof.
  intros Hh Hn. unfold ion_handle_kmap_put. mrun.
  destruct (wrap (h_kmap_cnt hd - 1) =? 0) eqn:Hz; [lia|]. done.
Qed.

Lemma ion_handle_kmap_put_last s handle hd b hp :
  handles s !! handle = Some hd → h_kmap_cnt hd = 1 →
  buffers s !! h_buffer hd = Some b → b_kmap_cnt b = 1 →
  heaps s !! b_heap b = Some hp →
  ion_handle_kmap_put handle s
  = Ok () (set_buffers <[h_buffer hd := with_b_vaddr 0 (with_b_kmap_cnt 0 b)]>
            (set_trace (λ t, t ++ [EvUnmapKernel (b_heap b) (h_buffer hd)])
              (set_handles <[handle := with_h_kmap_cnt 0 hd]> s))).
Proof.
  intros Hh Hhc Hb Hbc Hhp. unfold ion_handle_kmap_put. mrun.
  rewrite Hhc. mrun.
  unfold ion_buffer_kmap_put. mrun. rewrite Hbc. unfold int_add. mrun.
  state_eq.
Qed.

Lemma ion_map_kernel_valid s client cl handle hd b hp :
  clients s !! client = Some cl → handle ∈ c_handles cl →
  handles s !! handle = Some hd →
  buffers s !! h_buffer hd = Some b →
  heaps s !! b_heap b = Some hp → hp_ops_map_kernel hp = true →
  ion_map_kernel client handle s = ion_handle_kmap_get handle s.
Proof.
  intros Hcl Hin Hh Hb Hhp Hop. unfold ion_map_kernel.
  unfold mbind at 1, M_bind. rewrite (valid_handle_checked _ _ _ _ Hcl Hin).
  mrun. by rewrite Hop.
Qed.

Lemma ion_unmap_kernel_live s client cl handle hd b :
  clients s !! client = Some cl →
  handles s !! handle = Some hd →
  buffers s !! h_buffer hd = Some b →
  ion_unmap_kernel client handle s = ion_handle_kmap_put handle s.
Proof.
  intros Hcl Hh Hb. unfold ion_unmap_kernel. by mrun.
Qed.

(** C9: unmapping through a valid handle that holds no mapping is not
    refused.  The call returns normally, the handle's unsigned counter
    wraps to 2^32 - 1, the heap is not asked to unmap anything (the trace
    does not grow) and the buffer is untouched.  The bookkeeping is wrong
    from then on: the next map request finds a non-zero counter, so it
    hands out the buffer's cached address without asking the heap for a
    mapping, and brings the counter back to zero. *)
Theorem ion_unmap_kernel_unbalanced s client cl handle hd b hp :
  clients s !! client = Some cl → handle ∈ c_handles cl →
  handles s !! handle = Some hd → h_kmap_cnt hd = 0 →
  buffers s !! h_buffer hd = Some b →
  heaps s !! b_heap b = Some hp → hp_ops_map_kernel hp = true →
  let s' := set_handles <[handle := with_h_kmap_cnt (2 ^ 32 - 1) hd]> s in
  ion_unmap_kernel client handle s = Ok () s' ∧
  trace s' = trace s ∧ buffers s' = buffers s ∧
  ion_map_kernel client handle s'
  = Ok (b_vaddr b) (set_handles <[handle := with_h_kmap_cnt 0 hd]> s).
Proof.
  intros Hcl Hin Hh Hcnt Hb Hhp Hop s'. split_and!; [|done|done|].
  - rewrite (ion_unmap_kernel_live _ _ _ _ _ _ Hcl Hh Hb).
    rewrite (ion_handle_kmap_put_keep _ _ _ Hh); rewrite Hcnt; done.
  - assert (Hh' : handles s' !! handle = Some (with_h_kmap_cnt (2 ^ 32 - 1) hd)).
    { subst s'. mred. apply lookup_insert_eq. }
    rewrite (ion_map_kernel_valid s' client cl handle _ b hp Hcl Hin Hh' Hb Hhp Hop).
    rewrite (ion_handle_kmap_get_again _ _ _ b Hh'); [|done|done].
    subst s'. mred. mcalc. state_eq.
Qed.

(** C5: two-level counting of kernel mappings.  For a handle and a buffer
    that hold no mapping yet, over a heap whose map_kernel succeeds:
    the first map asks the heap and returns its non-null address; the
    second returns the same address, asks nothing of the heap and brings
    the handle's count to 2 (the buffer's stays 1); the first unmap leaves
    the buffer mapped; the second brings the buffer's count to zero and
    has the heap unmap it; a third map asks the heap again. *)
Theorem kernel_mapping_two_level s client cl handle hd b hp :
  clients s !! client = Some cl → handle ∈ c_handles cl →
  handles s !! handle = Some hd → h_kmap_cnt hd = 0 →
  buffers s !! h_buffer hd = Some b → b_kmap_cnt b = 0 →
  heaps s !! b_heap b = Some hp → hp_ops_map_kernel hp = true →
  (∀ tr, IS_ERR_OR_NULL (wrap (ops_map_kernel tr (b_heap b) (h_buffer hd))) = false) →
  ∃ v1 s1 s2 s3 s4 v3 s5,
    (* first map *)
    ion_map_kernel client handle s = Ok v1 s1 ∧
    IS_ERR_OR_NULL v1 = false ∧
    trace s1 = trace s ++ [EvMapKernel (b_heap b) (h_buffer hd) v1] ∧
    (* second map *)
    ion_map_kernel client handle s1 = Ok v1 s2 ∧
    trace s2 = trace s1 ∧
    h_kmap_cnt <$> handles s2 !! handle = Some 2 ∧
    b_kmap_cnt <$> buffers s2 !! h_buffer hd = Some 1 ∧
    (* first unmap *)
    ion_unmap_kernel client handle s2 = Ok () s3 ∧
    trace s3 = trace s2 ∧
    b_kmap_cnt <$> buffers s3 !! h_buffer hd = Some 1 ∧
    (* second unmap *)
    ion_unmap_kernel client handle s3 = Ok () s4 ∧
    trace s4 = trace s3 ++ [EvUnmapKernel (b_heap b) (h_buffer hd)] ∧
    b_kmap_cnt <$> buffers s4 !! h_buffer hd = Some 0 ∧
    (* third map *)
    ion_map_kernel client handle s4 = Ok v3 s5 ∧
    trace s5 = trace s4 ++ [EvMapKernel (b_heap b) (h_buffer hd) v3].
Proof.
  intros Hcl Hin Hh Hhc Hb Hbc Hhp Hop Henv.
  set (buffer := h_buffer hd) in *. set (heap := b_heap b) in *.
  set (v1 := wrap (ops_map_kernel (trace s) heap buffer)).
  set (b1 := with_b_kmap_cnt 1 (with_b_vaddr v1 b)).
  set (s1 := set_handles <[handle := with_h_kmap_cnt 1 hd]>
               (set_buffers <[buffer := b1]>
                 (set_trace (λ t, t ++ [EvMapKernel heap buffer v1]) s))).
  set (s2 := set_handles <[handle := with_h_kmap_cnt 2 hd]> s1).
  set (s3 := set_handles <[handle := with_h_kmap_cnt 1 hd]> s2).
  set (s4 := set_buffers <[buffer := with_b_vaddr 0 (with_b_kmap_cnt 0 b1)]>
               (set_trace (λ t, t ++ [EvUnmapKernel heap buffer])
                 (set_handles <[handle := with_h_kmap_cnt 0 hd]> s3))).
  set (v3 := wrap (ops_map_kernel (trace s4) heap buffer)).
  exists v1, s1, s2, s3, s4, v3.
  eexists.
  assert (Hs1 : ion_map_kernel client handle s = Ok v1 s1).
  { rewrite (ion_map_kernel_valid _ _ _ _ _ _ _ Hcl Hin Hh Hb Hhp Hop).
    apply (ion_handle_kmap_get_first _ _ _ _ _ Hh Hhc Hb Hbc Hhp), Henv. }
  assert (Hs2 : ion_map_kernel client handle s1 = Ok v1 s2).
  { rewrite (ion_map_kernel_valid s1 client cl handle (with_h_kmap_cnt 1 hd) b1 hp);
      try done; try (subst s1; mred; by rewrite lookup_insert_eq).
    erewrite ion_handle_kmap_get_again;
      [| subst s1; mred; by rewrite lookup_insert_eq | done
       | subst s1; mred; by rewrite lookup_insert_eq].
    done. }
  assert (Hs3 : ion_unmap_kernel client handle s2 = Ok () s3).
  { rewrite (ion_unmap_kernel_live s2 client cl handle (with_h_kmap_cnt 2 hd) b1);
      try done; try (subst s2 s1; mred; by rewrite lookup_insert_eq).
    erewrite ion_handle_kmap_put_keep;
      [| subst s2 s1; mred; by rewrite lookup_insert_eq | done].
    done. }
  assert (Hs4 : ion_unmap_kernel client handle s3 = Ok () s4).
  { rewrite (ion_unmap_kernel_live s3 client cl handle (with_h_kmap_cnt 1 hd) b1);
      try done; try (subst s3 s2 s1; mred; by rewrite lookup_insert_eq).
    rewrite (ion_handle_kmap_put_last s3 handle (with_h_kmap_cnt 1 hd) b1 hp);
      try done; subst s3 s2 s1; mred; by rewrite lookup_insert_eq. }
  split_and!; try done.
  all: try apply Henv.
  all: try (subst s4 s3 s2 s1; mred; by rewrite lookup_insert_eq).
  - rewrite (ion_map_kernel_valid s4 client cl handle (with_h_kmap_cnt 0 hd)
               (with_b_vaddr 0 (with_b_kmap_cnt 0 b1)) hp);
      try done; try (subst s4 s3 s2 s1; mred; by rewrite lookup_insert_eq).
    rewrite (ion_handle_kmap_get_first s4 handle (with_h_kmap_cnt 0 hd)
               (with_b_vaddr 0 (with_b_kmap_cnt 0 b1)) hp);
      try done; try (subst s4 s3 s2 s1; mred; by rewrite lookup_insert_eq).
  - subst s4 s3 s2 s1. mred. reflexivity.
Qed.

End Mapping.

Section Release.
Context {P : Platform} {E : Environment}.

(** *** Releasing buffers *)

Lemma _ion_buffer_destroy_spec s buffer b hp :
  buffers s !! buffer = Some b → heaps s !! b_heap b = Some hp →
  _ion_buffer_destroy buffer s
  = Ok () (set_buffers (delete buffer)
            (set_heaps <[b_heap b := with_hp_used (wrap (hp_used hp - b_size b)) hp]>
              (set_trace (λ t, t ++ teardown_events buffer b) s))).
Proof.
  intros Hb Hhp. unfold _ion_buffer_destroy, teardown_events. mrun.
  destruct (0 <? b_kmap_cnt b); destruct (b_pages b =? 0); mrun; state_eq.
Qed.

Lemma ion_buffer_destroy_deferred s buffer b hp :
  buffers s !! buffer = Some b → heaps s !! b_heap b = Some hp →
  deferred_free hp = true →
  ion_buffer_destroy buffer s
  = Ok () (set_trace (λ t, t ++ [EvWakeUp (b_heap b)])
            (set_heaps <[b_heap b := with_hp_free_list (buffer :: hp_free_list hp) hp]>
              (set_dev_buffers (rb_erase buffer) s))).
Proof.
  intros Hb Hhp Hdef. unfold ion_buffer_destroy. mrun.
  unfold deferred_free in Hdef. rewrite Hdef. by mrun.
Qed.

Lemma ion_buffer_destroy_immediate s buffer b hp :
  buffers s !! buffer = Some b → heaps s !! b_heap b = Some hp →
  deferred_free hp = false →
  ion_buffer_destroy buffer s
  = _ion_buffer_destroy buffer (set_dev_buffers (rb_erase buffer) s).
Proof.
  intros Hb Hhp Hdef. unfold ion_buffer_destroy. mrun.
  unfold deferred_free in Hdef. by rewrite Hdef.
Qed.

Lemma rb_erase_not_elem k t : k ∉ rb_erase k t.
Proof. unfold rb_erase. rewrite list_elem_of_filter. by intros [? _]. Qed.

Lemma rb_erase_elem k x t : x ∈ rb_erase k t ↔ x ≠ k ∧ x ∈ t.
Proof. unfold rb_erase. by rewrite list_elem_of_filter. Qed.

Lemma rb_erase_head k t : rb_erase k (k :: t) = rb_erase k t.
Proof. unfold rb_erase. by rewrite filter_cons_False by naive_solver. Qed.

(** Destroying an entry of the free list of its own heap. *)
Lemma unqueue_and_destroy {A} (k : M A) s heap hp buffer b :
  heaps s !! heap = Some hp → buffers s !! buffer = Some b → b_heap b = heap →
  (list_del heap buffer ;; _ion_buffer_destroy buffer ;; k) s
  = k (set_buffers (delete buffer)
        (set_heaps <[heap := with_hp_used (wrap (hp_used hp - b_size b))
                               (with_hp_free_list (rb_erase buffer (hp_free_list hp)) hp)]>
          (set_trace (λ t, t ++ teardown_events buffer b) s))).
Proof.
  intros Hhp Hb Hheap. unfold list_del. mrun.
  erewrite _ion_buffer_destroy_spec;
    [| mred; apply Hb | mred; rewrite Hheap; apply lookup_insert_eq].
  rewrite Hheap. f_equal. state_eq.
Qed.

Lemma ion_heap_deferred_free_turn_spec s heap hp buffer rest b :
  heaps s !! heap = Some hp → hp_free_list hp = buffer :: rest →
  buffers s !! buffer = Some b → b_heap b = heap →
  ion_heap_deferred_free_turn heap s
  = Ok true (set_buffers (delete buffer)
              (set_heaps <[heap := with_hp_used (wrap (hp_used hp - b_size b))
                                     (with_hp_free_list (rb_erase buffer rest) hp)]>
                (set_trace (λ t, t ++ teardown_events buffer b) s))).
Proof.
  intros Hhp Hl Hb Hheap. unfold ion_heap_deferred_free_turn.
  unfold mbind at 1, M_bind. unfold get_heap, load. rewrite Hhp, Hl.
  rewrite (unqueue_and_destroy _ s heap hp buffer b Hhp Hb Hheap).
  by rewrite Hl, rb_erase_head.
Qed.

(** C4: the last reference to a buffer.  The buffer leaves the device's
    index.  Over a heap with deferred freeing it is put at the head of
    the heap's free list and the worker is woken; nothing is torn down
    yet (the record is still allocated and the only event is the wake-up),
    and the worker's next turn performs the teardown.  Over any other
    heap the whole teardown runs inside the call. *)
Theorem buffer_release s buffer b hp :
  buffers s !! buffer = Some b → b_ref b = 1 →
  heaps s !! b_heap b = Some hp →
  ∃ s', ion_buffer_put buffer s = Ok 1 s' ∧
    (buffer ∉ dev_buffers s') ∧
    if deferred_free hp then
      hp_free_list <$> heaps s' !! b_heap b = Some (buffer :: hp_free_list hp) ∧
      trace s' = trace s ++ [EvWakeUp (b_heap b)] ∧
      is_Some (buffers s' !! buffer) ∧
      ∃ s'', ion_heap_deferred_free_turn (b_heap b) s' = Ok true s'' ∧
        trace s'' = trace s' ++ teardown_events buffer b ∧
        buffers s'' !! buffer = None ∧
        buffer ∉ default [] (hp_free_list <$> heaps s'' !! b_heap b)
    else
      trace s' = trace s ++ teardown_events buffer b ∧
      buffers s' !! buffer = None ∧
      hp_free_list <$> heaps s' !! b_heap b = Some (hp_free_list hp).
Proof.
  intros Hb Href Hhp.
  set (s0 := set_buffers <[buffer := with_b_ref 0 b]> s).
  assert (Hb0 : buffers s0 !! buffer = Some (with_b_ref 0 b))
    by (subst s0; mred; apply lookup_insert_eq).
  assert (Hput : ion_buffer_put buffer s
                 = match ion_buffer_destroy buffer s0 with
                   | Ok _ s' => Ok 1 s'
                   | Crash c => Crash c
                   end).
  { unfold ion_buffer_put. mrun. rewrite Href. unfold atomic_dec. by mrun. }
  rewrite Hput.
  destruct (deferred_free hp) eqn:Hdef.
  - rewrite (ion_buffer_destroy_deferred s0 buffer _ hp Hb0 Hhp Hdef).
    eexists. split; [reflexivity|]. mred.
    split; [apply rb_erase_not_elem|].
    split; [by rewrite lookup_insert_eq|].
    split; [done|].
    split; [by rewrite Hb0|].
    eexists. split.
    + eapply (ion_heap_deferred_free_turn_spec _ _ _ buffer (hp_free_list hp));
        mred; [apply lookup_insert_eq | done | apply Hb0 | done].
    + mred. rewrite lookup_delete_eq, lookup_insert_eq. mred.
      split_and!; try done. apply rb_erase_not_elem.
  - rewrite (ion_buffer_destroy_immediate s0 buffer _ hp Hb0 Hhp Hdef).
    erewrite _ion_buffer_destroy_spec; [| mred; apply Hb0 | done ].
    eexists. split; [reflexivity|]. mred.
    split; [apply rb_erase_not_elem|].
    by rewrite lookup_delete_eq, lookup_insert_eq.
Qed.

End Release.

Section Validation.
Context {P : Platform} {E : Environment}.

(** *** Handles that are not in the client's tree *)

Lemma invalid_handle_checked s client cl handle :
  clients s !! client = Some cl → handle ∉ c_handles cl →
  ion_handle_validate client handle s = Ok false s.
Proof.
  intros Hcl Hin. rewrite (validate_spec _ _ _ _ Hcl).
  by rewrite bool_decide_eq_false_2.
Qed.

(** Five of the six entry points that take a handle check it against the
    client's tree before they look at anything it points to; these hold
    for every value of [handle], a dangling pointer included. *)
Lemma ion_phys_rejects s client cl handle :
  clients s !! client = Some cl → handle ∉ c_handles cl →
  ion_phys client handle s = Ok (- EINVAL) s.
Proof.
  intros Hcl Hin. unfold ion_phys. unfold mbind at 1, M_bind.
  by rewrite (invalid_handle_checked _ _ _ _ Hcl Hin).
Qed.

Lemma ion_map_kernel_rejects s client cl handle :
  clients s !! client = Some cl → handle ∉ c_handles cl →
  ion_map_kernel client handle s = Ok (ERR_PTR (- EINVAL)) s.
Proof.
  intros Hcl Hin. unfold ion_map_kernel. unfold mbind at 1, M_bind.
  by rewrite (invalid_handle_checked _ _ _ _ Hcl Hin).
Qed.

Lemma ion_sg_table_rejects s client cl handle :
  clients s !! client = Some cl → handle ∉ c_handles cl →
  ion_sg_table client handle s = Ok (ERR_PTR (- EINVAL)) s.
Proof.
  intros Hcl Hin. unfold ion_sg_table. unfold mbind at 1, M_bind.
  by rewrite (invalid_handle_checked _ _ _ _ Hcl Hin).
Qed.

Lemma ion_share_dma_buf_rejects s client cl handle :
  clients s !! client = Some cl → handle ∉ c_handles cl →
  ion_share_dma_buf client handle s
  = Ok (ERR_PTR (- EINVAL)) (set_trace (λ t, t ++ [EvWarn WarnShareInvalidHandle]) s).
Proof.
  intros Hcl Hin. unfold ion_share_dma_buf. unfold mbind at 1, M_bind.
  by rewrite (invalid_handle_checked _ _ _ _ Hcl Hin).
Qed.

(** [ion_free] reads [handle->client] for its BUG_ON before it validates,
    so the handle itself has to be a live object; its buffer is not
    touched. *)
Lemma ion_free_rejects s client cl handle hd :
  clients s !! client = Some cl → handle ∉ c_handles cl →
  handles s !! handle = Some hd → h_client hd = client →
  ion_free client handle s
  = Ok () (set_trace (λ t, t ++ [EvWarn WarnFreeInvalidHandle]) s).
Proof.
  intros Hcl Hin Hh Hc. unfold ion_free. mred. rewrite Hh, Hc. mred.
  by rewrite (invalid_handle_checked _ _ _ _ Hcl Hin).
Qed.

(** [ion_unmap_kernel] does not ask whether the handle is the client's. *)
Lemma ion_unmap_kernel_unchecked s client cl handle hd b :
  clients s !! client = Some cl → handle ∉ c_handles cl →
  handles s !! handle = Some hd →
  buffers s !! h_buffer hd = Some b →
  ion_unmap_kernel client handle s = ion_handle_kmap_put handle s.
Proof. intros Hcl _ Hh Hb. by apply (ion_unmap_kernel_live _ _ cl _ hd b). Qed.

End Validation.

Section Creation.
Context {P : Platform} {E : Environment}.

(** *** Creating buffers *)

Lemma allocate_memory_ok fails ev s :
  memory_available fails s →
  allocate_memory fails ev s
  = Ok (brk s) (set_trace (λ t, t ++ [ev (brk s)])
                 (set_brk (λ p, p + KMALLOC_MINALIGN) s)).
Proof.
  intros (Hf & Hlo & Hhi). unfold allocate_memory. mred. rewrite Hf.
  replace (0 <? brk s) with true by lia.
  replace (ADDRESS_END <=? brk s + KMALLOC_MINALIGN) with false by lia.
  by mred.
Qed.

Lemma allocate_memory_fails fails ev s :
  fails (trace s) = true →
  allocate_memory fails ev s = Ok 0 (set_trace (λ t, t ++ [ev 0]) s).
Proof. intros Hf. unfold allocate_memory. mred. by rewrite Hf. Qed.

Lemma allocated_address_valid fails s :
  memory_available fails s → (brk s =? 0) = false ∧ IS_ERR_OR_NULL (brk s) = false.
Proof.
  intros (_ & Hlo & Hhi). unfold IS_ERR_OR_NULL, IS_ERR.
  unfold ADDRESS_END, KMALLOC_MINALIGN in Hhi. split; [lia|].
  apply orb_false_intro; lia.
Qed.

End Creation.

(** ** Partial-correctness reasoning *)

Section WeakestPre.

Lemma wp_ret {A} (a : A) (Q : A → state → Prop) s : Q a s → wp (mret a) Q s.
Proof. done. Qed.

Lemma wp_bind {A B} (m : M A) (f : A → M B) (Q : B → state → Prop) s :
  wp m (λ a s', wp (f a) Q s') s → wp (m ≫= f) Q s.
Proof. unfold wp, mbind, M_bind. by destruct (m s). Qed.

Lemma wp_mono {A} (m : M A) (Q Q' : A → state → Prop) s :
  wp m Q s → (∀ a s', Q a s' → Q' a s') → wp m Q' s.
Proof. unfold wp. destruct (m s); auto. Qed.

Lemma wp_load {A} (mem : state → gmap Z A) p (Q : A → state → Prop) s :
  (∀ x, mem s !! p = Some x → Q x s) → wp (load mem p) Q s.
Proof. unfold wp, load. destruct (mem s !! p); auto. Qed.

Lemma wp_modify f (Q : unit → state → Prop) s : Q () (f s) → wp (modify f) Q s.
Proof. done. Qed.

Lemma wp_get_state (Q : state → state → Prop) s : Q s s → wp get_state Q s.
Proof. done. Qed.

Lemma wp_history (Q : list event → state → Prop) s : Q (trace s) s → wp history Q s.
Proof. done. Qed.

Lemma wp_oops {A} c (Q : A → state → Prop) s : wp (oops c) Q s.
Proof. done. Qed.

Lemma wp_int_add x d (Q : Z → state → Prop) s :
  (INT_MIN ≤ x + d ≤ INT_MAX → Q (x + d) s) → wp (int_add x d) Q s.
Proof.
  intros HQ. unfold int_add.
  destruct ((INT_MIN <=? x + d) && (x + d <=? INT_MAX)) eqn:Hr; [|done].
  apply wp_ret, HQ. apply andb_true_iff in Hr. lia.
Qed.

End WeakestPre.

(** After a load, what is known of the loaded object is simplified; when
    the location has just been written, the object is the written one. *)
Ltac wp_loaded H :=
  cbn [handles buffers heaps clients dmabufs files dev_buffers dev_heaps
       dev_clients brk trace
       set_handles set_buffers set_heaps set_clients set_dmabufs set_files
       set_dev_buffers set_dev_heaps set_dev_clients set_brk set_trace] in H;
  try (rewrite lookup_insert_eq in H; injection H as <-).

Ltac wp_known H :=
  match goal with
  | H' : ?l = Some _ |- _ =>
      lazymatch type of H with
      | l = Some _ => tryif constr_eq H H' then fail else idtac
      end;
      rewrite H' in H; injection H as <-
  end.

Ltac wp_load_step :=
  let x := fresh "x" in
  let H := fresh "Hload" in
  apply wp_load; intros x H; wp_loaded H; try wp_known H.

Ltac wp_step :=
  lazymatch goal with
  | |- wp (mbind _ _) _ _ => apply wp_bind
  | |- wp (mret _) _ _ => apply wp_ret
  | |- wp (load _ _) _ _ => wp_load_step
  | |- wp (get_handle _) _ _ => wp_load_step
  | |- wp (get_buffer _) _ _ => wp_load_step
  | |- wp (get_heap _) _ _ => wp_load_step
  | |- wp (get_client _) _ _ => wp_load_step
  | |- wp (get_dmabuf _) _ _ => wp_load_step
  | |- wp (modify _) _ _ => apply wp_modify
  | |- wp get_state _ _ => apply wp_get_state
  | |- wp history _ _ => apply wp_history
  | |- wp (oops _) _ _ => apply wp_oops
  | |- wp (int_add _ _) _ _ => apply wp_int_add; intros ?
  | |- wp (if ?c then _ else _) _ _ =>
      first [ match goal with H : c = _ |- _ => rewrite H end
            | destruct c eqn:? ]
  | |- wp (match ?x with inl _ => _ | inr _ => _ end) _ _ => destruct x
  | |- wp (let '(_, _) := ?x in _) _ _ => destruct x
  end.

Ltac wp_unfold :=
  unfold emit, put_handle, put_buffer, put_heap, put_client, put_dmabuf,
         update_handle, update_buffer, update_heap, update_client, update_dmabuf,
         kfree_buffer, kfree_handle, kfree_client, kfree_dmabuf,
         WARN_ON, BUG_ON, call_allocate, call_free, call_map_dma, call_unmap_dma,
         call_map_kernel, call_unmap_kernel, call_phys.

Ltac wp_run := repeat (wp_unfold; mcalc; cbv beta iota; wp_step; cbv beta).

(** ** Attachment counts *)

Section Attached.

Lemma attached_nonneg b hs : 0 ≤ attached b hs.
Proof. unfold attached. lia. Qed.

Lemma attached_ext b hs hs' :
  h_buffer <$> hs' = h_buffer <$> hs → attached b hs' = attached b hs.
Proof. unfold attached. by intros ->. Qed.

Lemma attached_insert_fresh b hs h hd :
  hs !! h = None →
  attached b (<[h := hd]> hs)
  = attached b hs + (if decide (h_buffer hd = b) then 1 else 0).
Proof.
  intros Hfresh. unfold attached. rewrite fmap_insert, map_filter_insert. cbn.
  assert (Hnone : filter (λ kv : Z * Z, kv.2 = b) (h_buffer <$> hs) !! h = None).
  { apply map_lookup_filter_None. left. by rewrite lookup_fmap, Hfresh. }
  destruct (decide (h_buffer hd = b)).
  - rewrite map_size_insert_None by done. lia.
  - rewrite map_filter_delete, delete_id by done. lia.
Qed.

Lemma attached_delete b hs h hd :
  hs !! h = Some hd →
  attached b (delete h hs)
  = attached b hs - (if decide (h_buffer hd = b) then 1 else 0).
Proof.
  intros Hh. unfold attached. rewrite fmap_delete, map_filter_delete.
  destruct (decide (h_buffer hd = b)) as [Heq|Hne].
  - rewrite map_size_delete_Some.
    + assert (size (filter (λ kv : Z * Z, kv.2 = b) (h_buffer <$> hs)) ≠ 0%nat); [|lia].
      intros Hz. apply map_size_empty_inv in Hz.
      assert (Hin : filter (λ kv : Z * Z, kv.2 = b) (h_buffer <$> hs) !! h
                    = Some (h_buffer hd)).
      { apply map_lookup_filter_Some. by rewrite lookup_fmap, Hh. }
      by rewrite Hz in Hin.
    + exists (h_buffer hd). apply map_lookup_filter_Some.
      by rewrite lookup_fmap, Hh.
  - rewrite delete_id; [lia|].
    apply map_lookup_filter_None. right. intros x.
    rewrite lookup_fmap, Hh. cbn. congruence.
Qed.

Lemma attached_none b hs :
  (∀ h hd, hs !! h = Some hd → h_buffer hd ≠ b) → attached b hs = 0.
Proof.
  intros Hno. unfold attached.
  replace (filter (λ kv : Z * Z, kv.2 = b) (h_buffer <$> hs)) with (∅ : gmap Z Z);
    [by rewrite map_size_empty|].
  symmetry. apply map_empty. intros h. apply map_lookup_filter_None.
  right. intros x. rewrite lookup_fmap.
  destruct (hs !! h) as [hd|] eqn:Hh; cbn; [|done].
  intros [= <-]. by apply (Hno h).
Qed.

Lemma attached_some b hs h hd :
  hs !! h = Some hd → h_buffer hd = b → 1 ≤ attached b hs.
Proof.
  intros Hh Hb. unfold attached.
  assert (size (filter (λ kv : Z * Z, kv.2 = b) (h_buffer <$> hs)) ≠ 0%nat); [|lia].
  intros Hz. apply map_size_empty_inv in Hz.
  assert (Hin : filter (λ kv : Z * Z, kv.2 = b) (h_buffer <$> hs) !! h = Some b).
  { apply map_lookup_filter_Some. rewrite lookup_fmap, Hh. cbn. by rewrite Hb. }
  by rewrite Hz in Hin.
Qed.

End Attached.

(** ** Changes that keep the state consistent *)

Section Frame.

Lemma frame_refl s : frame s s.
Proof. split; try done. intros b bd Hb. left. by exists bd. Qed.

Lemma frame_trans s1 s2 s3 : frame s1 s2 → frame s2 s3 → frame s1 s3.
Proof.
  intros [Hc1 Hb1 Hcl1 Hl1 Hk1 Hbuf1] [Hc2 Hb2 Hcl2 Hl2 Hk2 Hbuf2].
  split; try congruence; [lia|].
  intros b bd3 H3. destruct (Hbuf2 b bd3 H3) as [(bd2 & H2 & Hcnt)|[Hr Hz]].
  - destruct (Hbuf1 b bd2 H2) as [(bd1 & H1 & Hcnt')|[Hr Hz]].
    + left. exists bd1. split; [done|congruence].
    + right. split; [lia|congruence].
  - right. split; [lia|done].
Qed.

(** Nothing that [frame] looks at has changed. *)
Lemma frame_same s s' :
  clients s' = clients s → handles s' = handles s → buffers s' = buffers s →
  brk s' = brk s → frame s s'.
Proof.
  intros Hc Hh Hb Hk. split; rewrite ?Hc, ?Hh, ?Hk; try done.
  intros b bd. rewrite Hb. intros Hbd. left. by exists bd.
Qed.

Lemma frame_brk s f : brk s ≤ f (brk s) → frame s (set_brk f s).
Proof.
  intros Hle. split; try done. intros b bd Hb. left. by exists bd.
Qed.

Lemma frame_put_buffer s b bd bd' :
  buffers s !! b = Some bd → b_handle_count bd' = b_handle_count bd →
  frame s (set_buffers <[b := bd']> s).
Proof.
  intros Hb Hcnt. split; try done. cbn. intros b0 bd0.
  rewrite lookup_insert. case_decide as Heq.
  - intros [= <-]. subst b0. left. by exists bd.
  - intros Hb0. left. by exists bd0.
Qed.

Lemma frame_new_buffer s0 s b bd' :
  frame s0 s → brk s0 ≤ b < brk s → b_handle_count bd' = 0 →
  frame s0 (set_buffers <[b := bd']> s).
Proof.
  intros [Hc Hb Hcl Hl Hk Hbuf] Hr Hz. split; try done. cbn. intros b0 bd0.
  rewrite lookup_insert. case_decide as Heq.
  - intros [= <-]. subst b0. by right.
  - apply Hbuf.
Qed.

Lemma frame_delete_buffer s b : frame s (set_buffers (delete b) s).
Proof.
  split; try done. cbn. intros b0 bd0. rewrite lookup_delete.
  case_decide; [done|]. intros Hb0. left. by exists bd0.
Qed.

Lemma frame_put_handle s h hd hd' :
  handles s !! h = Some hd →
  h_buffer hd' = h_buffer hd → h_client hd' = h_client hd →
  h_linked hd' = h_linked hd →
  frame s (set_handles <[h := hd']> s).
Proof.
  intros Hh Hb Hc Hl.
  split; try done; cbn;
    try (rewrite fmap_insert; apply insert_id; rewrite lookup_fmap, Hh; cbn; congruence).
  intros b bd Hbd. left. by exists bd.
Qed.

Lemma frame_put_client s c cl cl' :
  clients s !! c = Some cl → c_handles cl' = c_handles cl →
  frame s (set_clients <[c := cl']> s).
Proof.
  intros Hcl Heq. split; try done; cbn.
  - rewrite fmap_insert. apply insert_id. rewrite lookup_fmap, Hcl. cbn. congruence.
  - intros b bd Hbd. left. by exists bd.
Qed.

(** What survives a framed change. *)
Lemma frame_handle s s' h hd :
  frame s s' → handles s !! h = Some hd →
  ∃ hd', handles s' !! h = Some hd' ∧ h_buffer hd' = h_buffer hd ∧
         h_client hd' = h_client hd ∧ h_linked hd' = h_linked hd.
Proof.
  intros [_ Hb Hcl Hl _ _] Hh.
  assert (Hb' := f_equal (λ m, m !! h) Hb).
  assert (Hcl' := f_equal (λ m, m !! h) Hcl).
  assert (Hl' := f_equal (λ m, m !! h) Hl).
  cbn in *. rewrite !lookup_fmap, Hh in *. cbn in *.
  destruct (handles s' !! h) as [hd'|]; [|done]. cbn in *.
  exists hd'. split; [done|]. split_and!; congruence.
Qed.

Lemma frame_handle_back s s' h hd' :
  frame s s' → handles s' !! h = Some hd' →
  ∃ hd, handles s !! h = Some hd ∧ h_buffer hd' = h_buffer hd ∧
        h_client hd' = h_client hd ∧ h_linked hd' = h_linked hd.
Proof.
  intros [_ Hb Hcl Hl _ _] Hh.
  assert (Hb' := f_equal (λ m, m !! h) Hb).
  assert (Hcl' := f_equal (λ m, m !! h) Hcl).
  assert (Hl' := f_equal (λ m, m !! h) Hl).
  cbn in *. rewrite !lookup_fmap, Hh in *. cbn in *.
  destruct (handles s !! h) as [hd|]; [|done]. cbn in *.
  exists hd. split; [done|]. split_and!; congruence.
Qed.

Lemma frame_client s s' c cl :
  frame s s' → clients s !! c = Some cl →
  ∃ cl', clients s' !! c = Some cl' ∧ c_handles cl' = c_handles cl.
Proof.
  intros [Hc _ _ _ _ _] Hcl.
  assert (Hc' := f_equal (λ m, m !! c) Hc). cbn in *.
  rewrite !lookup_fmap, Hcl in *. cbn in *.
  destruct (clients s' !! c) as [cl'|]; [|done]. cbn in *.
  exists cl'. split; [done|congruence].
Qed.

Lemma frame_client_back s s' c cl' :
  frame s s' → clients s' !! c = Some cl' →
  ∃ cl, clients s !! c = Some cl ∧ c_handles cl' = c_handles cl.
Proof.
  intros [Hc _ _ _ _ _] Hcl.
  assert (Hc' := f_equal (λ m, m !! c) Hc). cbn in *.
  rewrite !lookup_fmap, Hcl in *. cbn in *.
  destruct (clients s !! c) as [cl|]; [|done]. cbn in *.
  exists cl. split; [done|congruence].
Qed.

(** A framed change keeps a consistent state consistent, provided the
    skew is confined to addresses that were already handed out. *)
Lemma consistent_frame skew s s' :
  consistent skew s → frame s s' →
  (∀ b, brk s ≤ b → skew b = 0) →
  consistent skew s'.
Proof.
  intros [Htr Hcnt Hint Hhv Hhb Hbb] Hfr Hskew.
  split.
  - intros c cl' h Hcl' Hin.
    destruct (frame_client_back _ _ _ _ Hfr Hcl') as (cl & Hcl & Heq).
    rewrite Heq in Hin.
    destruct (Htr c cl h Hcl Hin) as (hd & Hh & Hc & Hl).
    destruct (frame_handle _ _ _ _ Hfr Hh) as (hd' & Hh' & _ & Hc' & Hl').
    exists hd'. split; [done|]. split; congruence.
  - intros b bd' Hb'.
    rewrite (attached_ext b (handles s) (handles s')) by apply Hfr.
    destruct (fr_buffers _ _ Hfr b bd' Hb') as [(bd & Hb & Heq)|[Hr Hz]].
    + rewrite Heq. by apply Hcnt.
    + rewrite Hz, (Hskew b) by lia.
      symmetry. apply attached_none. intros h hd Hh Hbuf.
      destruct (Hhb h hd Hh). lia.
  - intros b bd' Hb'.
    destruct (fr_buffers _ _ Hfr b bd' Hb') as [(bd & Hb & Heq)|[Hr Hz]].
    + rewrite Heq. by apply (Hint b).
    + rewrite Hz. unfold INT_MIN, INT_MAX. lia.
  - intros h hd' Hh'.
    destruct (frame_handle_back _ _ _ _ Hfr Hh') as (hd & Hh & _).
    by apply (Hhv h hd).
  - intros h hd' Hh'.
    destruct (frame_handle_back _ _ _ _ Hfr Hh') as (hd & Hh & Hb & _).
    destruct (Hhb h hd Hh). pose proof (fr_brk _ _ Hfr). lia.
  - intros b bd' Hb'. pose proof (fr_brk _ _ Hfr).
    destruct (fr_buffers _ _ Hfr b bd' Hb') as [(bd & Hb & Heq)|[Hr Hz]]; [|lia].
    specialize (Hbb b bd Hb). lia.
Qed.

Lemma tidy_frame s s' : tidy s → frame s s' → tidy s'.
Proof. intros Ht Hfr. by apply (consistent_frame _ s). Qed.

End Frame.

(** ** Functions that only make framed changes *)

Ltac lookup_now :=
  mred; rewrite ?lookup_insert_eq; first [eassumption | reflexivity].

(** Proves [frame s0 x] for a state [x] built from [s0] by field updates. *)
Ltac fr :=
  lazymatch goal with
  | H : frame ?s0 ?s |- frame ?s0 ?s => exact H
  | |- frame ?s ?s => apply frame_refl
  | |- frame _ (set_trace _ ?x) =>
      apply (frame_trans _ x); [fr | by apply frame_same]
  | |- frame _ (set_heaps _ ?x) =>
      apply (frame_trans _ x); [fr | by apply frame_same]
  | |- frame _ (set_dmabufs _ ?x) =>
      apply (frame_trans _ x); [fr | by apply frame_same]
  | |- frame _ (set_files _ ?x) =>
      apply (frame_trans _ x); [fr | by apply frame_same]
  | |- frame _ (set_dev_buffers _ ?x) =>
      apply (frame_trans _ x); [fr | by apply frame_same]
  | |- frame _ (set_dev_heaps _ ?x) =>
      apply (frame_trans _ x); [fr | by apply frame_same]
  | |- frame _ (set_dev_clients _ ?x) =>
      apply (frame_trans _ x); [fr | by apply frame_same]
  | |- frame _ (set_brk _ ?x) =>
      apply (frame_trans _ x);
      [fr | apply frame_brk; unfold KMALLOC_MINALIGN; lia]
  | |- frame _ (set_buffers (delete _) ?x) =>
      apply (frame_trans _ x); [fr | apply frame_delete_buffer]
  | |- frame _ (set_buffers (insert _ _) ?x) =>
      apply (frame_trans _ x);
      [fr | eapply frame_put_buffer; [lookup_now | done]]
  | |- frame _ (set_handles (insert _ _) ?x) =>
      apply (frame_trans _ x);
      [fr | eapply frame_put_handle; [lookup_now | done..]]
  | |- frame _ (set_clients (insert _ _) ?x) =>
      apply (frame_trans _ x);
      [fr | eapply frame_put_client; [lookup_now | done]]
  end.

Create HintDb framed discriminated.

Section FramedRules.

Lemma framed_ret {A} (a : A) : framed (mret a).
Proof. intros s. apply wp_ret, frame_refl. Qed.

Lemma framed_bind {A B} (m : M A) (f : A → M B) :
  framed m → (∀ a, framed (f a)) → framed (m ≫= f).
Proof.
  intros Hm Hf s. apply wp_bind. eapply wp_mono; [apply Hm|].
  intros a s' Hfr. eapply wp_mono; [apply Hf|].
  intros b s'' Hfr'. by apply (frame_trans _ s').
Qed.

Lemma framed_oops {A} c : framed (oops (A:=A) c).
Proof. by intros s. Qed.

Lemma framed_load {A} (mem : state → gmap Z A) p : framed (load mem p).
Proof. intros s. apply wp_load. intros. apply frame_refl. Qed.

Lemma framed_get_state : framed get_state.
Proof. intros s. apply frame_refl. Qed.

Lemma framed_history : framed history.
Proof. intros s. apply frame_refl. Qed.

Lemma framed_modify f :
  (∀ s, clients (f s) = clients s ∧ handles (f s) = handles s ∧
        buffers (f s) = buffers s ∧ brk (f s) = brk s) →
  framed (modify f).
Proof. intros Hf s. destruct (Hf s) as (? & ? & ? & ?). by apply frame_same. Qed.

Lemma framed_int_add x d : framed (int_add x d).
Proof. intros s. apply wp_int_add. intros. apply frame_refl. Qed.

Lemma framed_update_buffer p f :
  (∀ b, b_handle_count (f b) = b_handle_count b) → framed (update_buffer p f).
Proof.
  intros Hf s. unfold update_buffer. wp_run. by eapply frame_put_buffer.
Qed.

Lemma framed_update_handle p f :
  (∀ hd, h_buffer (f hd) = h_buffer hd ∧ h_client (f hd) = h_client hd ∧
         h_linked (f hd) = h_linked hd) →
  framed (update_handle p f).
Proof.
  intros Hf s. unfold update_handle. wp_run.
  destruct (Hf x) as (? & ? & ?). by eapply frame_put_handle.
Qed.

Lemma framed_update_client p f :
  (∀ cl, c_handles (f cl) = c_handles cl) → framed (update_client p f).
Proof.
  intros Hf s. unfold update_client. wp_run. by eapply frame_put_client.
Qed.

Lemma framed_kfree_buffer p : framed (kfree_buffer p).
Proof.
  intros s. unfold kfree_buffer. wp_run.
  apply (frame_trans _ (set_trace (λ t, t ++ [EvKfree p]) s));
    [by apply frame_same | apply frame_delete_buffer].
Qed.

Lemma wp_allocate_memory fails ev (Q : Z → state → Prop) s :
  Q 0 (set_trace (λ t, t ++ [ev 0]) s) →
  (0 < brk s → brk s + KMALLOC_MINALIGN < ADDRESS_END →
   Q (brk s) (set_trace (λ t, t ++ [ev (brk s)])
               (set_brk (λ p, p + KMALLOC_MINALIGN) s))) →
  wp (allocate_memory fails ev) Q s.
Proof.
  intros H0 H1. unfold allocate_memory. wp_run; [done|].
  apply orb_false_iff in Heqb as [Hb Hend].
  apply orb_false_iff in Hb as [_ Hb]. apply negb_false_iff in Hb.
  apply H1; lia.
Qed.

Lemma framed_allocate_memory fails ev : framed (allocate_memory fails ev).
Proof.
  intros s. unfold allocate_memory. wp_run.
  - by apply frame_same.
  - apply (frame_trans _ (set_brk (λ p, p + KMALLOC_MINALIGN) s)).
    + apply frame_brk. unfold KMALLOC_MINALIGN. lia.
    + by apply frame_same.
Qed.

Lemma framed_emit e : framed (emit e).
Proof. apply framed_modify. by intros []. Qed.

Lemma framed_put_heap p x : framed (put_heap p x).
Proof. apply framed_modify. by intros []. Qed.

Lemma framed_update_heap p f : framed (update_heap p f).
Proof.
  apply framed_bind; [apply framed_load|]. intros x. apply framed_put_heap.
Qed.

Lemma framed_put_dmabuf p x : framed (put_dmabuf p x).
Proof. apply framed_modify. by intros []. Qed.

Lemma framed_update_dmabuf p f : framed (update_dmabuf p f).
Proof.
  apply framed_bind; [apply framed_load|]. intros x. apply framed_put_dmabuf.
Qed.

Lemma framed_kfree_dmabuf p : framed (kfree_dmabuf p).
Proof.
  apply framed_bind; [apply framed_emit|]. intros _.
  apply framed_modify. by intros [].
Qed.

End FramedRules.

#[local] Hint Resolve framed_ret framed_oops framed_load framed_get_state
  framed_history framed_int_add framed_kfree_buffer framed_allocate_memory
  framed_emit framed_put_heap framed_update_heap framed_put_dmabuf
  framed_update_dmabuf framed_kfree_dmabuf : framed.

Ltac framed_step :=
  lazymatch goal with
  | |- framed (mbind _ _) => apply framed_bind; [|intros ?]
  | |- framed (if ?c then _ else _) => destruct c
  | |- framed (match ?x with inl _ => _ | inr _ => _ end) => destruct x
  | |- framed (match ?x with [] => _ | _ :: _ => _ end) => destruct x
  | |- framed (match ?x with Some _ => _ | None => _ end) => destruct x
  | |- framed (let '(_, _) := ?x in _) => destruct x
  | |- framed (modify _) => apply framed_modify; by intros []
  | |- framed (update_buffer _ _) => apply framed_update_buffer; by intros []
  | |- framed (update_handle _ _) => apply framed_update_handle; by intros []
  | |- framed (update_client _ _) => apply framed_update_client; by intros []
  | |- framed _ => solve [auto with framed]
  end.

Ltac framed_auto :=
  repeat (unfold get_handle, get_buffer, get_heap, get_client, get_dmabuf,
                 WARN_ON, BUG_ON, call_allocate, call_free, call_map_dma,
                 call_unmap_dma, call_map_kernel, call_unmap_kernel, call_phys,
                 kzalloc, vmalloc;
          framed_step).

Section Framed.
Context {P : Platform} {E : Environment}.

Lemma framed_ion_buffer_kmap_get buffer : framed (ion_buffer_kmap_get buffer).
Proof. unfold ion_buffer_kmap_get. framed_auto. Qed.
Hint Resolve framed_ion_buffer_kmap_get : framed.

Lemma framed_ion_handle_kmap_get handle : framed (ion_handle_kmap_get handle).
Proof. unfold ion_handle_kmap_get. framed_auto. Qed.

Lemma framed_ion_buffer_kmap_put buffer : framed (ion_buffer_kmap_put buffer).
Proof. unfold ion_buffer_kmap_put. framed_auto. Qed.
Hint Resolve framed_ion_buffer_kmap_put : framed.

Lemma framed_ion_handle_kmap_put handle : framed (ion_handle_kmap_put handle).
Proof. unfold ion_handle_kmap_put. framed_auto. Qed.
Hint Resolve framed_ion_handle_kmap_get framed_ion_handle_kmap_put : framed.

Lemma framed_handle_kmap_drain fuel handle : framed (handle_kmap_drain fuel handle).
Proof.
  induction fuel as [|fuel IH]; cbn [handle_kmap_drain]; framed_auto.
Qed.
Hint Resolve framed_handle_kmap_drain : framed.

Lemma framed__ion_buffer_destroy buffer : framed (_ion_buffer_destroy buffer).
Proof. unfold _ion_buffer_destroy. framed_auto. Qed.
Hint Resolve framed__ion_buffer_destroy : framed.

Lemma framed_list_del heap buffer : framed (list_del heap buffer).
Proof. unfold list_del. framed_auto. Qed.
Hint Resolve framed_list_del : framed.

Lemma framed_drain_entries heap entries : framed (drain_entries heap entries).
Proof.
  induction entries as [|b entries IH]; cbn [drain_entries]; framed_auto.
Qed.
Hint Resolve framed_drain_entries : framed.

Lemma framed_ion_heap_drain_freelist heap : framed (ion_heap_drain_freelist heap).
Proof.
  unfold ion_heap_drain_freelist, ion_heap_free_list_is_empty. framed_auto.
Qed.
Hint Resolve framed_ion_heap_drain_freelist : framed.

Lemma framed_ion_heap_deferred_free_turn heap :
  framed (ion_heap_deferred_free_turn heap).
Proof. unfold ion_heap_deferred_free_turn. framed_auto. Qed.

Lemma framed_ion_buffer_destroy buffer : framed (ion_buffer_destroy buffer).
Proof. unfold ion_buffer_destroy. framed_auto. Qed.
Hint Resolve framed_ion_buffer_destroy : framed.

Lemma framed_ion_buffer_get buffer : framed (ion_buffer_get buffer).
Proof. unfold ion_buffer_get. framed_auto. Qed.

Lemma framed_ion_buffer_put buffer : framed (ion_buffer_put buffer).
Proof. unfold ion_buffer_put. framed_auto. Qed.
Hint Resolve framed_ion_buffer_get framed_ion_buffer_put : framed.

Lemma framed_ion_buffer_add buffer : framed (ion_buffer_add buffer).
Proof. unfold ion_buffer_add. framed_auto. Qed.
Hint Resolve framed_ion_buffer_add : framed.

End Framed.

#[local] Hint Resolve framed_ion_buffer_kmap_get framed_ion_buffer_kmap_put
  framed_ion_handle_kmap_get framed_ion_handle_kmap_put framed_handle_kmap_drain
  framed__ion_buffer_destroy framed_list_del framed_drain_entries
  framed_ion_heap_drain_freelist framed_ion_heap_deferred_free_turn
  framed_ion_buffer_destroy framed_ion_buffer_get framed_ion_buffer_put
  framed_ion_buffer_add : framed.

Section FramedEntryPoints.
Context {P : Platform} {E : Environment}.

Lemma framed_ion_buffer_create heap len align flags :
  framed (ion_buffer_create heap len align flags).
Proof.
  intros s. unfold ion_buffer_create. apply wp_bind.
  apply wp_allocate_memory.
  - apply wp_ret. by apply frame_same.
  - intros Hpos _. destruct (brk s =? 0) eqn:Hz; [lia|].
    apply wp_bind, wp_modify.
    match goal with |- wp ?m _ ?s1 => assert (Hrest : framed m) by framed_auto end.
    eapply wp_mono; [apply Hrest|]. intros a s' Hfr.
    eapply frame_trans; [|exact Hfr].
    apply frame_new_buffer; [ | cbn; unfold KMALLOC_MINALIGN; lia | done].
    apply (frame_trans _ (set_brk (λ p, p + KMALLOC_MINALIGN) s)).
    + apply frame_brk. unfold KMALLOC_MINALIGN. lia.
    + by apply frame_same.
Qed.
Hint Resolve framed_ion_buffer_create : framed.

Lemma framed_ion_alloc_walk hs len align heap_id_mask flags buffer heap_used :
  framed (ion_alloc_walk hs len align heap_id_mask flags buffer heap_used).
Proof.
  revert buffer heap_used.
  induction hs as [|heap hs IH]; intros buffer heap_used; cbn [ion_alloc_walk];
    framed_auto.
Qed.

Lemma framed_ion_handle_validate client handle :
  framed (ion_handle_validate client handle).
Proof. unfold ion_handle_validate. framed_auto. Qed.
Hint Resolve framed_ion_handle_validate : framed.

Lemma framed_handle_lookup_from nodes buffer : framed (handle_lookup_from nodes buffer).
Proof. induction nodes as [|n nodes IH]; cbn [handle_lookup_from]; framed_auto. Qed.
Hint Resolve framed_handle_lookup_from : framed.

Lemma framed_ion_handle_lookup client buffer : framed (ion_handle_lookup client buffer).
Proof. unfold ion_handle_lookup. framed_auto. Qed.

Lemma framed_ion_handle_get handle : framed (ion_handle_get handle).
Proof. unfold ion_handle_get. framed_auto. Qed.

Lemma framed_ion_phys client handle : framed (ion_phys client handle).
Proof. unfold ion_phys. framed_auto. Qed.

Lemma framed_ion_map_kernel client handle : framed (ion_map_kernel client handle).
Proof. unfold ion_map_kernel. framed_auto. Qed.

Lemma framed_ion_unmap_kernel client handle : framed (ion_unmap_kernel client handle).
Proof. unfold ion_unmap_kernel. framed_auto. Qed.

Lemma framed_ion_sg_table client handle : framed (ion_sg_table client handle).
Proof. unfold ion_sg_table. framed_auto. Qed.

Lemma framed_ion_client_get client : framed (ion_client_get client).
Proof. unfold ion_client_get. framed_auto. Qed.

Lemma framed_ion_dma_buf_release dmabuf : framed (ion_dma_buf_release dmabuf).
Proof. unfold ion_dma_buf_release. framed_auto. Qed.
Hint Resolve framed_ion_dma_buf_release : framed.

Lemma framed_dma_buf_export buffer : framed (dma_buf_export buffer).
Proof. unfold dma_buf_export. framed_auto. Qed.
Hint Resolve framed_dma_buf_export : framed.

Lemma framed_dma_buf_fd dmabuf : framed (dma_buf_fd dmabuf).
Proof. unfold dma_buf_fd. framed_auto. Qed.
Hint Resolve framed_dma_buf_fd : framed.

Lemma framed_dma_buf_get fd : framed (dma_buf_get fd).
Proof. unfold dma_buf_get. framed_auto. Qed.

Lemma framed_dma_buf_put dmabuf : framed (dma_buf_put dmabuf).
Proof. unfold dma_buf_put. framed_auto. Qed.
Hint Resolve framed_dma_buf_put : framed.

Lemma framed_sys_close fd : framed (sys_close fd).
Proof. unfold sys_close. framed_auto. Qed.

Lemma framed_ion_share_dma_buf client handle :
  framed (ion_share_dma_buf client handle).
Proof. unfold ion_share_dma_buf. framed_auto. Qed.
Hint Resolve framed_ion_share_dma_buf : framed.

Lemma framed_ion_share_dma_buf_fd client handle :
  framed (ion_share_dma_buf_fd client handle).
Proof. unfold ion_share_dma_buf_fd. framed_auto. Qed.

Lemma framed_ion_dma_buf_begin_cpu_access dmabuf :
  framed (ion_dma_buf_begin_cpu_access dmabuf).
Proof. unfold ion_dma_buf_begin_cpu_access. framed_auto. Qed.

Lemma framed_ion_dma_buf_end_cpu_access dmabuf :
  framed (ion_dma_buf_end_cpu_access dmabuf).
Proof. unfold ion_dma_buf_end_cpu_access. framed_auto. Qed.

Lemma framed_plist_add heap id hs : framed (plist_add heap id hs).
Proof. induction hs as [|x hs IH]; cbn [plist_add]; framed_auto. Qed.
Hint Resolve framed_plist_add : framed.

Lemma framed_ion_device_add_heap heap : framed (ion_device_add_heap heap).
Proof. unfold ion_device_add_heap. framed_auto. Qed.

End FramedEntryPoints.

#[local] Hint Resolve framed_ion_buffer_create framed_ion_alloc_walk
  framed_ion_handle_validate framed_handle_lookup_from framed_ion_handle_lookup
  framed_ion_handle_get framed_ion_phys framed_ion_map_kernel
  framed_ion_unmap_kernel framed_ion_sg_table framed_ion_client_get
  framed_ion_dma_buf_release framed_dma_buf_export framed_dma_buf_fd
  framed_dma_buf_get framed_dma_buf_put framed_sys_close
  framed_ion_share_dma_buf framed_ion_share_dma_buf_fd
  framed_ion_dma_buf_begin_cpu_access framed_ion_dma_buf_end_cpu_access
  framed_plist_add framed_ion_device_add_heap : framed.

(** ** Handles and the attachment counts *)

Section Consistency.
Context {P : Platform} {E : Environment}.

Lemma rb_insert_elem x k t : x ∈ rb_insert k t ↔ x = k ∨ x ∈ t.
Proof.
  induction t as [|y t IH]; cbn [rb_insert].
  - rewrite list_elem_of_singleton, elem_of_nil. tauto.
  - destruct (k <? y); rewrite !elem_of_cons; [tauto|]. rewrite IH. tauto.
Qed.

(** A handle in a tree is attached to its buffer. *)
Lemma indexed_handle_counted skew s c cl h hd b :
  consistent skew s → clients s !! c = Some cl → h ∈ c_handles cl →
  handles s !! h = Some hd → buffers s !! h_buffer hd = Some b →
  1 ≤ b_handle_count b + skew (h_buffer hd).
Proof.
  intros Hc _ _ Hh Hb. rewrite (cons_counts _ _ Hc _ _ Hb).
  by apply (attached_some _ _ h hd).
Qed.

Lemma tidy_counts s b bd :
  tidy s → buffers s !! b = Some bd → b_handle_count bd = attached b (handles s).
Proof. intros Ht Hb. pose proof (cons_counts _ _ Ht _ _ Hb) as Hc. cbn in Hc. lia. Qed.

(** Creating a handle keeps the state tidy; the new handle is a live
    object of the client, not yet in any tree. *)
Lemma tidy_ion_handle_create client buffer s :
  tidy s →
  wp (ion_handle_create client buffer)
     (λ h s', tidy s' ∧
        c_handles <$> clients s' = c_handles <$> clients s ∧
        (h = ERR_PTR (- ENOMEM) ∨
         handles s !! h = None ∧
         ∃ hd, handles s' !! h = Some hd ∧ h_client hd = client ∧
               h_buffer hd = buffer)) s.
Proof.
  intros Ht. unfold ion_handle_create, kzalloc. apply wp_bind.
  apply wp_allocate_memory.
  - apply wp_ret. split_and!; [|done|by left].
    eapply tidy_frame; [done|]. by apply frame_same.
  - intros Hpos Hend. destruct (brk s =? 0) eqn:Hz; [lia|].
    set (h := brk s).
    assert (Hfresh : handles s !! h = None).
    { destruct (handles s !! h) as [hd|] eqn:Hh; [|done].
      destruct (cons_handles_below _ _ Ht h hd Hh). lia. }
    unfold ion_buffer_get, ion_buffer_add_to_handle. wp_run.
    lazymatch goal with H : buffers s !! buffer = Some ?x |- _ =>
      rename H into Hb; rename x into b end.
    cbn [b_handle_count with_b_ref] in *.
    split_and!; [|done|].
    + split; cbn.
      * intros c cl h' Hcl Hin.
        destruct (cons_trees _ _ Ht c cl h' Hcl Hin) as (hd & Hh & Hrest).
        exists hd. split; [|done]. rewrite lookup_insert_ne; [done|].
        intros <-. congruence.
      * intros b0 bd0. rewrite insert_insert_eq, lookup_insert.
        rewrite attached_insert_fresh by done. cbn.
        case_decide as Hb0.
        -- intros [= <-]. subst b0. cbn.
           pose proof (tidy_counts _ _ _ Ht Hb). lia.
        -- intros Hbd0. pose proof (tidy_counts _ _ _ Ht Hbd0). lia.
      * intros b0 bd0. rewrite insert_insert_eq, lookup_insert.
        case_decide as Hb0; [by intros [= <-]|].
        apply (cons_counts_int _ _ Ht).
      * intros h' hd'. rewrite lookup_insert. case_decide as Hh'.
        -- intros _. subst h' h. unfold IS_ERR_OR_NULL, IS_ERR.
           unfold ADDRESS_END, KMALLOC_MINALIGN in Hend.
           apply orb_false_intro; lia.
        -- apply (cons_handles_valid _ _ Ht).
      * intros h' hd'. rewrite lookup_insert. unfold KMALLOC_MINALIGN.
        case_decide as Hh'.
        -- intros [= <-]. subst h'. cbn.
           pose proof (cons_buffers_below _ _ Ht _ _ Hb). subst h. lia.
        -- intros Hhd'. destruct (cons_handles_below _ _ Ht _ _ Hhd'). lia.
      * intros b0 bd0. rewrite insert_insert_eq, lookup_insert.
        unfold KMALLOC_MINALIGN. case_decide as Hb0.
        -- intros _. subst b0. pose proof (cons_buffers_below _ _ Ht _ _ Hb). lia.
        -- intros Hbd0. pose proof (cons_buffers_below _ _ Ht _ _ Hbd0). lia.
    + right. split; [done|]. cbn. rewrite lookup_insert_eq. by eexists.
Qed.


(** Putting a live handle of the client into the client's tree. *)
Lemma tidy_ion_handle_add client handle s hd :
  tidy s → handles s !! handle = Some hd → h_client hd = client →
  wp (ion_handle_add client handle) (λ _ s', tidy s') s.
Proof.
  intros Ht Hh Hc. unfold ion_handle_add. wp_run.
  rename x into cl, Hload into Hcl.
  split; cbn.
  - intros c cl' h Hcl' Hin. rewrite lookup_insert in Hcl'.
    assert (Hold : h = handle ∨ ∃ cl0, clients s !! c = Some cl0 ∧ h ∈ c_handles cl0).
    { case_decide as Hcc.
      - injection Hcl' as <-. cbn in Hin. apply rb_insert_elem in Hin as [->|Hin];
          [by left|]. right. subst c. by exists cl.
      - right. by exists cl'. }
    destruct (decide (h = handle)) as [->|Hne].
    + rewrite lookup_insert_eq. eexists. split; [done|]. cbn. split; [|done].
      destruct Hold as [_|(cl0 & Hcl0 & Hin0)].
      * case_decide as Hcc; [congruence|].
        destruct (cons_trees _ _ Ht c cl' handle Hcl' Hin) as (hd' & Hh' & Hc' & _).
        congruence.
      * destruct (cons_trees _ _ Ht c cl0 handle Hcl0 Hin0) as (hd' & Hh' & Hc' & _).
        congruence.
    + rewrite lookup_insert_ne by done.
      destruct Hold as [?|(cl0 & Hcl0 & Hin0)]; [done|].
      apply (cons_trees _ _ Ht c cl0 h Hcl0 Hin0).
  - intros b bd Hb. rewrite (attached_ext b (handles s)).
    + apply (cons_counts _ _ Ht _ _ Hb).
    + rewrite fmap_insert. apply insert_id. by rewrite lookup_fmap, Hh.
  - apply (cons_counts_int _ _ Ht).
  - intros h hd'. rewrite lookup_insert. case_decide.
    + intros _. subst h. apply (cons_handles_valid _ _ Ht _ _ Hh).
    + apply (cons_handles_valid _ _ Ht).
  - intros h hd'. rewrite lookup_insert. case_decide.
    + intros [= <-]. subst h. apply (cons_handles_below _ _ Ht _ _ Hh).
    + apply (cons_handles_below _ _ Ht).
  - apply (cons_buffers_below _ _ Ht).
Qed.

(** Taking a handle out of its client's tree. *)
Lemma tidy_unlink handle hd s :
  tidy s → handles s !! handle = Some hd →
  wp (if h_linked hd
      then update_client (h_client hd)
             (λ cl, with_c_handles (rb_erase handle (c_handles cl)) cl)
      else mret ())
     (λ _ s', tidy s' ∧ unindexed handle s' ∧ handles s' = handles s ∧
              buffers s' = buffers s ∧ brk s' = brk s) s.
Proof.
  intros Ht Hh. destruct (h_linked hd) eqn:Hl; wp_run.
  - rename x into cl, Hload into Hcl. split_and!; try done.
    + split; cbn; try apply Ht.
      intros c cl' h Hcl' Hin. rewrite lookup_insert in Hcl'.
      case_decide as Hcc.
      * injection Hcl' as <-. cbn in Hin. apply rb_erase_elem in Hin as [_ Hin].
        subst c. apply (cons_trees _ _ Ht _ _ _ Hcl Hin).
      * apply (cons_trees _ _ Ht _ _ _ Hcl' Hin).
    + intros c cl' Hcl' Hin. cbn in Hcl'. rewrite lookup_insert in Hcl'.
      case_decide as Hcc.
      * injection Hcl' as <-. cbn in Hin. by apply rb_erase_not_elem in Hin.
      * destruct (cons_trees _ _ Ht _ _ _ Hcl' Hin) as (hd' & Hh' & Hc' & _).
        congruence.
  - split_and!; try done. intros c cl Hcl Hin.
    destruct (cons_trees _ _ Ht _ _ _ Hcl Hin) as (hd' & Hh' & _ & Hl').
    congruence.
Qed.

(** Dropping the count of the buffer of a live handle leaves the count
    one short of the number of handles. *)
Lemma skewed_ion_buffer_remove_from_handle handle hd s :
  tidy s → handles s !! handle = Some hd →
  wp (ion_buffer_remove_from_handle (h_buffer hd))
     (λ _ s', consistent (one_at (h_buffer hd)) s' ∧ handles s' = handles s ∧
              clients s' = clients s ∧ h_buffer hd < brk s') s.
Proof.
  intros Ht Hh. unfold ion_buffer_remove_from_handle. wp_run.
  all: rename x into b, Hload into Hb.
  all: pose proof (tidy_counts _ _ _ Ht Hb) as Hcnt.
  all: pose proof (attached_some _ _ _ _ Hh eq_refl) as Hpos.
  all: try lia.
  all: split_and!; try done; [|apply (cons_buffers_below _ _ Ht _ _ Hb)].
  all: split; cbn; try apply Ht.
  all: intros b0 bd0; rewrite lookup_insert; unfold one_at.
  all: repeat case_decide; try congruence.
  all: try (intros [= <-]; cbn; subst b0;
            first [lia | apply (cons_buffers_below _ _ Ht _ _ Hb)]).
  all: intros Hbd0.
  all: first [ pose proof (tidy_counts _ _ _ Ht Hbd0); lia
             | apply (cons_counts_int _ _ Ht _ _ Hbd0)
             | apply (cons_buffers_below _ _ Ht _ _ Hbd0) ].
Qed.

(** Freeing a handle that is in no tree and whose buffer has already lost
    its count. *)
Lemma tidy_kfree_handle handle hd s :
  consistent (one_at (h_buffer hd)) s → unindexed handle s →
  handles s !! handle = Some hd →
  wp (kfree_handle handle) (λ _ s', tidy s') s.
Proof.
  intros Hc Hun Hh. unfold kfree_handle. wp_run. split; cbn.
  - intros c cl h Hcl Hin.
    destruct (cons_trees _ _ Hc _ _ _ Hcl Hin) as (hd' & Hh' & Hrest).
    exists hd'. split; [|done]. rewrite lookup_delete_ne; [done|].
    intros <-. by apply (Hun c cl).
  - intros b bd Hb. rewrite (attached_delete _ _ _ _ Hh).
    pose proof (cons_counts _ _ Hc _ _ Hb) as Hcnt. unfold one_at in Hcnt.
    repeat case_decide; try congruence; lia.
  - apply (cons_counts_int _ _ Hc).
  - intros h hd'. rewrite lookup_delete. case_decide; [done|].
    apply (cons_handles_valid _ _ Hc).
  - intros h hd'. rewrite lookup_delete. case_decide; [done|].
    apply (cons_handles_below _ _ Hc).
  - apply (cons_buffers_below _ _ Hc).
Qed.

Lemma unindexed_frame handle s s' :
  unindexed handle s → frame s s' → unindexed handle s'.
Proof.
  intros Hun Hfr c cl' Hcl'.
  destruct (frame_client_back _ _ _ _ Hfr Hcl') as (cl & Hcl & ->).
  by apply (Hun c cl).
Qed.

Lemma tidy_ion_handle_destroy handle s :
  tidy s → wp (ion_handle_destroy handle) (λ _ s', tidy s') s.
Proof.
  intros Ht. unfold ion_handle_destroy. wp_run.
  rename x into hd, Hload into Hh.
  eapply wp_mono; [apply framed_handle_kmap_drain|]. cbv beta. intros _ s1 Hfr1.
  destruct (frame_handle _ _ _ _ Hfr1 Hh) as (hd1 & Hh1 & Hb1 & Hc1 & Hl1).
  pose proof (tidy_frame _ _ Ht Hfr1) as Ht1.
  apply wp_bind. rewrite <- Hl1, <- Hc1.
  eapply wp_mono; [apply (tidy_unlink handle hd1 s1 Ht1 Hh1)|]. cbv beta.
  intros _ s2 (Ht2 & Hun2 & Hhs2 & Hbs2 & Hk2).
  apply wp_bind. rewrite <- Hb1.
  assert (Hh2 : handles s2 !! handle = Some hd1) by congruence.
  eapply wp_mono;
    [apply (skewed_ion_buffer_remove_from_handle handle hd1 s2 Ht2 Hh2)|].
  cbv beta. intros _ s3 (Hc3 & Hhs3 & Hcl3 & Hlt3).
  apply wp_bind.
  eapply wp_mono; [apply framed_ion_buffer_put|]. cbv beta. intros _ s4 Hfr4.
  assert (Hh3 : handles s3 !! handle = Some hd1) by congruence.
  destruct (frame_handle _ _ _ _ Hfr4 Hh3) as (hd4 & Hh4 & Hb4 & _).
  apply (tidy_kfree_handle handle hd4).
  - rewrite Hb4. apply (consistent_frame _ s3); [done|done|].
    intros b Hb. unfold one_at. rewrite decide_False; [done|lia].
  - apply (unindexed_frame _ s3); [|done].
    intros c cl Hcl. apply (Hun2 c cl). congruence.
  - done.
Qed.

Lemma tidy_ion_handle_put handle s :
  tidy s → wp (ion_handle_put handle) (λ _ s', tidy s') s.
Proof.
  intros Ht. unfold ion_handle_put. wp_run.
  all: rename x into hd, Hload into Hh.
  all: assert (Ht' : tidy (set_handles
                             <[handle := with_h_ref (atomic_dec (h_ref hd)) hd]> s))
         by (apply (tidy_frame s); [done|by eapply frame_put_handle]).
  - eapply wp_mono; [by apply tidy_ion_handle_destroy|]. done.
  - done.
Qed.

Lemma tidy_ion_free client handle s :
  tidy s → wp (ion_free client handle) (λ _ s', tidy s') s.
Proof.
  intros Ht. unfold ion_free. wp_run.
  eapply wp_mono; [apply framed_ion_handle_validate|]. cbv beta.
  intros valid s1 Hfr1. pose proof (tidy_frame _ _ Ht Hfr1) as Ht1.
  destruct valid; cbn [negb]; wp_run.
  - eapply wp_mono; [by apply tidy_ion_handle_put|]. done.
  - apply (tidy_frame s1); [done|by apply frame_same].
Qed.

End Consistency.

Section Reachable.
Context {P : Platform} {E : Environment}.

Lemma tidy_framed {A} (m : M A) s :
  framed m → tidy s → wp m (λ _ s', tidy s') s.
Proof.
  intros Hm Ht. eapply wp_mono; [apply Hm|]. intros a s' Hfr.
  by apply (tidy_frame s).
Qed.

Lemma tidy_client_drop_handles fuel client s :
  tidy s → wp (client_drop_handles fuel client) (λ _ s', tidy s') s.
Proof.
  revert s. induction fuel as [|fuel IH]; intros s Ht; cbn [client_drop_handles];
    wp_run; destruct (c_handles x) as [|handle rest]; wp_run; try done.
  eapply wp_mono; [by apply tidy_ion_handle_put|]. cbv beta. intros _ s' Ht'.
  by apply IH.
Qed.

Lemma tidy_kfree_client client s :
  tidy s → wp (kfree_client client) (λ _ s', tidy s') s.
Proof.
  intros Ht. unfold kfree_client. wp_run. split; cbn; try apply Ht.
  intros c cl h. rewrite lookup_delete. case_decide; [done|].
  apply (cons_trees _ _ Ht).
Qed.

Lemma tidy__ion_client_destroy fuel client s :
  tidy s → wp (_ion_client_destroy fuel client) (λ _ s', tidy s') s.
Proof.
  intros Ht. unfold _ion_client_destroy. wp_run.
  eapply wp_mono; [apply tidy_client_drop_handles|].
  - apply (tidy_frame s); [done|by apply frame_same].
  - cbv beta. intros _ s' Ht'. by apply tidy_kfree_client.
Qed.

Lemma tidy_ion_client_put fuel client s :
  tidy s → wp (ion_client_put fuel client) (λ _ s', tidy s') s.
Proof.
  intros Ht. unfold ion_client_put. wp_run.
  all: rename x into cl, Hload into Hcl.
  all: assert (Ht' : tidy (set_clients
                             <[client := with_c_ref (atomic_dec (c_ref cl)) cl]> s))
         by (apply (tidy_frame s); [done|by eapply frame_put_client]).
  - by apply tidy__ion_client_destroy.
  - done.
Qed.

Lemma tidy_ion_client_create s :
  tidy s → wp ion_client_create (λ _ s', tidy s') s.
Proof.
  intros Ht. unfold ion_client_create, kzalloc.
  apply wp_bind, wp_history. cbv beta zeta. apply wp_bind.
  apply wp_allocate_memory.
  - apply wp_ret. apply (tidy_frame s); [done|by apply frame_same].
  - intros Hpos _. destruct (brk s =? 0) eqn:Hz; [lia|]. wp_run.
    split; cbn.
    + intros c cl h. rewrite lookup_insert. case_decide.
      * intros [= <-]. cbn. by rewrite elem_of_nil.
      * apply (cons_trees _ _ Ht).
    + apply (cons_counts _ _ Ht).
    + apply (cons_counts_int _ _ Ht).
    + apply (cons_handles_valid _ _ Ht).
    + intros h hd Hh. destruct (cons_handles_below _ _ Ht _ _ Hh).
      unfold KMALLOC_MINALIGN. lia.
    + intros b bd Hb. pose proof (cons_buffers_below _ _ Ht _ _ Hb).
      unfold KMALLOC_MINALIGN. lia.
Qed.

Lemma tidy_ion_alloc client len align heap_id_mask flags s :
  tidy s →
  wp (ion_alloc client len align heap_id_mask flags) (λ _ s', tidy s') s.
Proof.
  intros Ht. unfold ion_alloc. wp_run.
  { apply (tidy_frame s); [done|by apply frame_same]. }
  eapply wp_mono; [apply framed_ion_alloc_walk|]. cbv beta.
  intros [buffer heap_used] s1 Hfr1. pose proof (tidy_frame _ _ Ht Hfr1) as Ht1.
  apply wp_bind.
  match goal with |- wp ?m _ _ => assert (Hm : framed m) by framed_auto end.
  eapply wp_mono; [apply Hm|]. cbv beta. intros _ s2 Hfr2.
  pose proof (tidy_frame _ _ Ht1 Hfr2) as Ht2. wp_run; try done.
  eapply wp_mono; [by apply tidy_ion_handle_create|]. cbv beta.
  intros handle s3 (Ht3 & _ & Hnew). apply wp_bind.
  eapply wp_mono; [apply framed_ion_buffer_put|]. cbv beta. intros _ s4 Hfr4.
  pose proof (tidy_frame _ _ Ht3 Hfr4) as Ht4. wp_run; [|done].
  destruct Hnew as [->|(_ & hd & Hh3 & Hc3 & _)]; [done|].
  destruct (frame_handle _ _ _ _ Hfr4 Hh3) as (hd4 & Hh4 & _ & Hc4 & _).
  eapply wp_mono; [apply (tidy_ion_handle_add client handle s4 hd4)|];
    [done|done|congruence|done].
Qed.


Lemma tidy_ion_import_dma_buf client fd s :
  tidy s → wp (ion_import_dma_buf client fd) (λ _ s', tidy s') s.
Proof.
  intros Ht. unfold ion_import_dma_buf. wp_run.
  eapply wp_mono; [apply framed_dma_buf_get|]. cbv beta. intros dmabuf s1 Hfr1.
  pose proof (tidy_frame _ _ Ht Hfr1) as Ht1. wp_run; [done| |].
  { eapply wp_mono; [by apply tidy_framed; [apply framed_dma_buf_put|]|].
    cbv beta. intros _ s2 Ht2. by wp_run. }
  eapply wp_mono; [apply framed_ion_handle_lookup|]. cbv beta.
  intros handle s2 Hfr2. pose proof (tidy_frame _ _ Ht1 Hfr2) as Ht2.
  apply wp_bind.
  apply (wp_mono _ (λ _ s', tidy s')).
  - destruct (negb (IS_ERR_OR_NULL handle)); wp_run.
    + eapply wp_mono; [by apply tidy_framed; [apply framed_ion_handle_get|]|].
      cbv beta. intros _ s3 Ht3. by wp_run.
    + eapply wp_mono; [by apply tidy_ion_handle_create|]. cbv beta.
      intros h s3 (Ht3 & _ & Hnew). wp_run; [done|].
      destruct Hnew as [->|(_ & hd & Hh3 & Hc3 & _)]; [done|].
      eapply wp_mono; [by apply (tidy_ion_handle_add client h s3 hd)|].
      cbv beta. intros _ s4 Ht4. by wp_run.
  - cbv beta. intros h s3 Ht3. wp_run.
    eapply wp_mono; [by apply tidy_framed; [apply framed_dma_buf_put|]|].
    cbv beta. intros _ s4 Ht4. by wp_run.
Qed.

Lemma tidy_run_op o s : tidy s → wp (run_op o) (λ _ s', tidy s') s.
Proof.
  intros Ht. destruct o; cbn [run_op].
  - by apply tidy_framed; [apply framed_ion_device_add_heap|].
  - apply wp_bind. eapply wp_mono; [by apply tidy_ion_client_create|]. done.
  - by apply tidy_framed; [apply framed_ion_client_get|].
  - by apply tidy_ion_client_put.
  - apply wp_bind. eapply wp_mono; [by apply tidy_ion_alloc|]. done.
  - by apply tidy_ion_free.
  - apply wp_bind. eapply wp_mono;
      [by apply tidy_framed; [apply framed_ion_phys|]|]. done.
  - apply wp_bind. eapply wp_mono;
      [by apply tidy_framed; [apply framed_ion_map_kernel|]|]. done.
  - by apply tidy_framed; [apply framed_ion_unmap_kernel|].
  - apply wp_bind. eapply wp_mono;
      [by apply tidy_framed; [apply framed_ion_sg_table|]|]. done.
  - apply wp_bind. eapply wp_mono;
      [by apply tidy_framed; [apply framed_ion_share_dma_buf|]|]. done.
  - apply wp_bind. eapply wp_mono;
      [by apply tidy_framed; [apply framed_ion_share_dma_buf_fd|]|]. done.
  - apply wp_bind. eapply wp_mono; [by apply tidy_ion_import_dma_buf|]. done.
  - by apply tidy_framed; [apply framed_dma_buf_put|].
  - apply wp_bind. eapply wp_mono;
      [by apply tidy_framed; [apply framed_ion_dma_buf_begin_cpu_access|]|]. done.
  - by apply tidy_framed; [apply framed_ion_dma_buf_end_cpu_access|].
  - apply wp_bind. eapply wp_mono;
      [by apply tidy_framed; [apply framed_sys_close|]|]. done.
  - apply wp_bind. eapply wp_mono;
      [by apply tidy_framed; [apply framed_ion_heap_deferred_free_turn|]|]. done.
Qed.

Lemma pristine_tidy s : pristine s → tidy s.
Proof.
  intros (Hh & Hb & Hc). split.
  - intros c cl h. by rewrite Hc, lookup_empty.
  - intros b bd. by rewrite Hb, lookup_empty.
  - intros b bd. by rewrite Hb, lookup_empty.
  - intros h hd. by rewrite Hh, lookup_empty.
  - intros h hd. by rewrite Hh, lookup_empty.
  - intros b bd. by rewrite Hb, lookup_empty.
Qed.

(** Every state the driver can reach is tidy. *)
Lemma reachable_tidy s : reachable s → tidy s.
Proof.
  induction 1 as [s Hp|s o s' _ IH Hrun]; [by apply pristine_tidy|].
  pose proof (tidy_run_op o s IH) as Hwp. unfold wp in Hwp.
  by rewrite Hrun in Hwp.
Qed.

Lemma run_ops_reachable os s s' :
  reachable s → run_ops os s = Ok () s' → reachable s'.
Proof.
  revert s. induction os as [|o os IH]; intros s Hr; cbn [run_ops].
  - by intros [= <-].
  - unfold mbind, M_bind. destruct (run_op o s) as [[] s1|] eqn:Hrun; [|done].
    intros Hrest. apply (IH s1); [|done]. by apply (reachable_step s o).
Qed.

(** The loop of [ion_debug_heap_total] never divides by zero over a tree
    whose handles are attached to their buffers. *)
Lemma heap_total_from_no_division_by_zero s nodes id acc :
  (∀ h hd b, h ∈ nodes → handles s !! h = Some hd →
             buffers s !! h_buffer hd = Some b →
             1 ≤ b_handle_count b ≤ INT_MAX) →
  heap_total_from nodes id acc s ≠ Crash DivideByZero.
Proof.
  revert acc. induction nodes as [|n nodes IH]; intros acc Hpos; [done|].
  destruct acc as [[size shared] pss]. cbn [heap_total_from].
  unfold mbind, M_bind, get_handle, get_buffer, get_heap, load.
  destruct (handles s !! n) as [hd|] eqn:Hh; [|done].
  destruct (buffers s !! h_buffer hd) as [b|] eqn:Hb; [|done].
  destruct (heaps s !! b_heap b) as [hp|]; [|done].
  assert (Hrest : ∀ h hd b, h ∈ nodes → handles s !! h = Some hd →
                     buffers s !! h_buffer hd = Some b →
                     1 ≤ b_handle_count b ≤ INT_MAX).
  { intros h hd' b' Hin. apply Hpos. by apply list_elem_of_further. }
  destruct (hp_id hp =? id); [|by apply IH].
  assert (Hn : 1 ≤ b_handle_count b ≤ INT_MAX).
  { apply (Hpos n hd b); [apply list_elem_of_here|done|done]. }
  rewrite wrap_small by (unfold INT_MAX in Hn; lia).
  destruct (b_handle_count b =? 0) eqn:Hz; [lia|]. by apply IH.
Qed.

End Reachable.

Section Accounting.
Context {P : Platform} {E : Environment}.

(** C10: in every state the driver can reach, the attachment count of a
    live buffer is the number of live handles that point to it (one is
    added when a handle is created, one is taken away, never below zero,
    when a handle is destroyed).  Hence a buffer found through some
    client's tree has a count of at least one, and the division by
    [handle_count] in [ion_debug_heap_total] never divides by zero. *)
Theorem handle_count_positive s :
  reachable s →
  (∀ b bd, buffers s !! b = Some bd →
     b_handle_count bd = attached b (handles s)) ∧
  (∀ client cl handle hd bd,
     clients s !! client = Some cl → handle ∈ c_handles cl →
     handles s !! handle = Some hd → buffers s !! h_buffer hd = Some bd →
     1 ≤ b_handle_count bd) ∧
  (∀ client id, ion_debug_heap_total client id s ≠ Crash DivideByZero).
Proof.
  intros Hr. pose proof (reachable_tidy s Hr) as Ht.
  assert (Hpos : ∀ client cl handle hd bd,
     clients s !! client = Some cl → handle ∈ c_handles cl →
     handles s !! handle = Some hd → buffers s !! h_buffer hd = Some bd →
     1 ≤ b_handle_count bd).
  { intros client cl handle hd bd Hcl Hin Hh Hb.
    pose proof (indexed_handle_counted _ _ _ _ _ _ _ Ht Hcl Hin Hh Hb). lia. }
  split_and!; [intros b bd Hb; by apply tidy_counts|done|].
  intros client id. unfold ion_debug_heap_total, mbind, M_bind, get_client, load.
  destruct (clients s !! client) as [cl|] eqn:Hcl; [|done].
  apply heap_total_from_no_division_by_zero.
  intros h hd b Hin Hh Hb. split; [by apply (Hpos client cl h hd)|].
  apply (cons_counts_int _ _ Ht _ _ Hb).
Qed.

End Accounting.

(** ** The dma-buf bridge *)

Section Bridge.
Context {P : Platform} {E : Environment}.

Lemma wp_eq {A} (m : M A) (Q : A → state → Prop) s a s' :
  m s = Ok a s' → Q a s' → wp m Q s.
Proof. intros Hm HQ. unfold wp. by rewrite Hm. Qed.

(** What a successful export leaves behind: a descriptor for a dma-buf
    that carries ion's operations and points to the buffer of the handle,
    whose reference count has been raised by one. *)
Lemma ion_share_dma_buf_fd_post client cl handle hd bd s :
  clients s !! client = Some cl → handle ∈ c_handles cl →
  handles s !! handle = Some hd → buffers s !! h_buffer hd = Some bd →
  wp (ion_share_dma_buf_fd client handle)
     (λ fd s1, 0 ≤ fd →
        frame s s1 ∧ trace s1 = trace s ++ [EvKzalloc (brk s);
                                             EvExport (h_buffer hd) (brk s);
                                             EvFdInstall (brk s) fd] ∧
        ∃ dmabuf, files s1 !! fd = Some dmabuf ∧
          IS_ERR_OR_NULL dmabuf = false ∧
          dmabufs s1 !! dmabuf = Some (DmaBuf true (h_buffer hd) 1) ∧
          buffers s1 !! h_buffer hd
          = Some (with_b_ref (atomic_inc (b_ref bd)) bd)) s.
Proof.
  intros Hcl Hin Hh Hb. unfold ion_share_dma_buf_fd, ion_share_dma_buf.
  apply wp_bind, wp_bind.
  eapply wp_eq; [by apply (valid_handle_checked _ _ cl)|]. cbn [negb].
  unfold ion_buffer_get, dma_buf_export, kzalloc. wp_run.
  - (* dma_buf_export refuses *)
    eapply wp_mono; [apply framed_ion_buffer_put|]. cbv beta. intros _ s1 _.
    wp_run. done.
  - apply wp_allocate_memory.
    + (* no memory for the dma_buf *)
      wp_run. eapply wp_mono; [apply framed_ion_buffer_put|]. cbv beta.
      intros _ s1 _. wp_run. done.
    + intros Hpos Hend. cbn [brk set_buffers] in *.
      assert (Hvalid : IS_ERR_OR_NULL (brk s) = false).
      { unfold IS_ERR_OR_NULL, IS_ERR.
        unfold ADDRESS_END, KMALLOC_MINALIGN in Hend. apply orb_false_intro; lia. }
      assert (Hvalid' : IS_ERR (brk s) = false).
      { unfold IS_ERR_OR_NULL in Hvalid. by apply orb_false_iff in Hvalid as [_ ?]. }
      assert (Hz : (brk s =? 0) = false) by lia.
      unfold dma_buf_fd. wp_run.
      * (* no descriptor left *)
        eapply wp_mono; [apply framed_dma_buf_put|]. cbv beta. intros _ s1 _.
        wp_run. unfold EMFILE. lia.
      * eapply wp_mono; [apply framed_dma_buf_put|]. cbv beta. intros _ s1 _.
        wp_run. lia.
      * intros Hfd. split; [fr|]. mred. rewrite <- !app_assoc.
        split; [done|]. exists (brk s). rewrite !lookup_insert_eq. done.
Qed.


(** The search of a client's tree reads the handles and nothing else. *)
Lemma handle_lookup_from_found s nodes b :
  (∀ n, n ∈ nodes → is_Some (handles s !! n)) →
  ∃ r, handle_lookup_from nodes b s = Ok r s ∧
    ((r = 0 ∧ ∀ n hd, n ∈ nodes → handles s !! n = Some hd → h_buffer hd ≠ b) ∨
     (r ∈ nodes ∧ ∃ hd, handles s !! r = Some hd ∧ h_buffer hd = b)).
Proof.
  induction nodes as [|n nodes IH]; intros Hlive; cbn [handle_lookup_from].
  - exists 0. split; [done|]. left. split; [done|]. intros n hd Hin.
    by apply elem_of_nil in Hin.
  - destruct (Hlive n) as [hd Hh]; [apply list_elem_of_here|]. mrun.
    destruct (h_buffer hd =? b) eqn:Hb.
    + exists n. split; [done|]. right. split; [apply list_elem_of_here|].
      exists hd. split; [done|lia].
    + destruct IH as (r & Hr & Hcases).
      { intros n' Hin. apply Hlive. by apply list_elem_of_further. }
      exists r. split; [done|]. destruct Hcases as [[-> Hnone]|[Hin Hex]].
      * left. split; [done|]. intros n' hd' Hin' Hh'.
        apply elem_of_cons in Hin' as [->|Hin']; [|by eapply Hnone].
        assert (hd' = hd) as -> by congruence. lia.
      * right. split; [by apply list_elem_of_further|done].
Qed.

Lemma handle_lookup_from_indep s s' nodes b r :
  handles s' = handles s →
  handle_lookup_from nodes b s = Ok r s →
  handle_lookup_from nodes b s' = Ok r s'.
Proof.
  intros Heq. induction nodes as [|n nodes IH]; cbn [handle_lookup_from].
  - by intros [= <-].
  - mred. rewrite Heq. destruct (handles s !! n) as [hd|]; [|done].
    destruct (h_buffer hd =? b); [by intros [= <-]|]. apply IH.
Qed.

(** Importing into a client that holds a handle for the buffer. *)
Lemma ion_import_existing s client cl fd dmabuf b n r hd :
  clients s !! client = Some cl → c_task cl ≠ 0 →
  files s !! fd = Some dmabuf →
  IS_ERR_OR_NULL dmabuf = false →
  dmabufs s !! dmabuf = Some (DmaBuf true b n) → n ≠ 0 →
  handle_lookup_from (c_handles cl) b s = Ok r s →
  IS_ERR_OR_NULL r = false → handles s !! r = Some hd →
  ∃ s', ion_import_dma_buf client fd s = Ok r s' ∧
    handles s' = <[r := IonHandle (wrap (h_ref hd + 1)) (h_client hd) (h_buffer hd)
                                   (h_linked hd) (h_kmap_cnt hd)]> (handles s) ∧
    clients s' = clients s ∧ buffers s' = buffers s ∧ trace s' = trace s.
Proof.
  intros Hcl Htask Hfd Hvalid Hd Hn Hlook Hr Hh.
  assert (Htz : (c_task cl =? 0) = false) by lia.
  unfold ion_import_dma_buf, dma_buf_get, ion_handle_lookup. mrun.
  rewrite Htz. mrun.
  rewrite Hvalid. mrun.
  rewrite (handle_lookup_from_indep s (set_dmabufs _ s) _ _ _ eq_refl Hlook). mrun.
  rewrite Hr. unfold ion_handle_get, dma_buf_put. mrun.
  replace (n + 1 - 1) with n by lia.
  destruct (n =? 0) eqn:Hz; [lia|]. eexists. split; [reflexivity|]. by mred.
Qed.

(** Importing into a client that holds no handle for the buffer. *)
Lemma ion_import_new s client cl fd dmabuf b n bd :
  clients s !! client = Some cl → c_task cl ≠ 0 →
  files s !! fd = Some dmabuf →
  IS_ERR_OR_NULL dmabuf = false →
  dmabufs s !! dmabuf = Some (DmaBuf true b n) → n ≠ 0 →
  handle_lookup_from (c_handles cl) b s = Ok 0 s →
  memory_available kzalloc_fails s →
  brk s ∉ c_handles cl → handles s !! brk s = None →
  buffers s !! b = Some bd → INT_MIN ≤ b_handle_count bd + 1 ≤ INT_MAX →
  ∃ s', ion_import_dma_buf client fd s = Ok (brk s) s' ∧
    handles s' = <[brk s := IonHandle 1 client b true 0]> (handles s) ∧
    clients s' = <[client := IonClient (rb_insert (brk s) (c_handles cl))
                                        (c_ref cl) (c_task cl)]> (clients s) ∧
    trace s' = trace s ++ [EvKzalloc (brk s)].
Proof.
  intros Hcl Htask Hfd Hvalid Hd Hn Hlook Hmem Hfresh Hnone Hb Hcnt.
  assert (Htz : (c_task cl =? 0) = false) by lia.
  destruct (allocated_address_valid _ _ Hmem) as [Hnz Hok].
  unfold ion_import_dma_buf, dma_buf_get, ion_handle_lookup. mrun.
  rewrite Htz. mrun.
  rewrite Hvalid. mrun.
  rewrite (handle_lookup_from_indep s (set_dmabufs _ s) _ _ _ eq_refl Hlook). mrun.
  unfold ion_handle_create, kzalloc.
  unfold mbind at 1 2, M_bind.
  rewrite allocate_memory_ok by done. mrun. rewrite Hnz.
  unfold ion_buffer_get, ion_buffer_add_to_handle. mrun.
  unfold int_add. mred.
  replace ((INT_MIN <=? b_handle_count bd + 1) && (b_handle_count bd + 1 <=? INT_MAX))
    with true by (symmetry; apply andb_true_iff; lia).
  mrun. rewrite Hok. unfold ion_handle_add. mrun.
  unfold rb_find. rewrite bool_decide_eq_false_2 by done.
  unfold dma_buf_put. mrun.
  replace (n + 1 - 1) with n by lia.
  destruct (n =? 0) eqn:Hz; [lia|]. eexists. split; [reflexivity|]. mred.
  by rewrite insert_insert_eq.
Qed.

End Bridge.

Section RoundTrip.
Context {P : Platform} {E : Environment}.

(** Importing a descriptor of this bridge into a client [B] that has a
    task, in any state in which the descriptor is open: straight after
    the export, or after any number of imports.  The handle that comes
    back is in [B]'s tree and points to the buffer behind the descriptor.
    When [B] already holds a handle on that buffer, the handle that comes
    back is one [B] already had, its reference count has gone up by one,
    and no handle has been created or indexed; otherwise a new handle
    with one reference is created and put into [B]'s tree. *)
Lemma ion_import_dma_buf_bridge s B clB fd dmabuf b n bd :
  tidy s →
  clients s !! B = Some clB → c_task clB ≠ 0 →
  files s !! fd = Some dmabuf → IS_ERR_OR_NULL dmabuf = false →
  dmabufs s !! dmabuf = Some (DmaBuf true b n) → n ≠ 0 →
  buffers s !! b = Some bd → b_handle_count bd < INT_MAX →
  memory_available kzalloc_fails s →
  ∃ h' s2 clB2 hd',
    ion_import_dma_buf B fd s = Ok h' s2 ∧
    IS_ERR_OR_NULL h' = false ∧
    clients s2 !! B = Some clB2 ∧ h' ∈ c_handles clB2 ∧
    handles s2 !! h' = Some hd' ∧ h_client hd' = B ∧ h_buffer hd' = b ∧
    ((∃ hb hdb, hb ∈ c_handles clB ∧ handles s !! hb = Some hdb ∧ h_buffer hdb = b) →
     ∃ hd1, h' ∈ c_handles clB ∧ handles s !! h' = Some hd1 ∧
       h_ref hd' = wrap (h_ref hd1 + 1) ∧
       handles s2 = <[h' := IonHandle (wrap (h_ref hd1 + 1)) B b (h_linked hd1)
                                       (h_kmap_cnt hd1)]> (handles s) ∧
       clients s2 = clients s) ∧
    ((∀ hb hdb, hb ∈ c_handles clB → handles s !! hb = Some hdb → h_buffer hdb ≠ b) →
     handles s !! h' = None ∧ h_ref hd' = 1 ∧
     handles s2 = <[h' := IonHandle 1 B b true 0]> (handles s) ∧
     c_handles clB2 = rb_insert h' (c_handles clB)).
Proof.
  intros Ht HclB Htask Hfile Hvalid Hd Hn Hb Hcnt Hmem.
  destruct (handle_lookup_from_found s (c_handles clB) b) as (r & Hlook & Hcases).
  { intros x Hx. destruct (cons_trees _ _ Ht _ _ _ HclB Hx) as (hdx & Hhx & _).
    by exists hdx. }
  destruct Hcases as [[-> Hnone]|[Hrin (hdr & Hhr & Hbr)]].
  - (* B holds no handle on the buffer *)
    assert (Hfresh : handles s !! brk s = None).
    { destruct (handles s !! brk s) as [hdx|] eqn:Hx; [|done].
      destruct (cons_handles_below _ _ Ht _ _ Hx). lia. }
    assert (Hnotin : brk s ∉ c_handles clB).
    { intros Hx. destruct (cons_trees _ _ Ht _ _ _ HclB Hx) as (hdx & Hhx & _).
      congruence. }
    pose proof (cons_counts_int _ _ Ht _ _ Hb) as Hint.
    destruct (ion_import_new s B clB fd dmabuf b n bd
                HclB Htask Hfile Hvalid Hd Hn Hlook Hmem Hnotin Hfresh Hb)
      as (s2 & Himp & Hhs & Hcls & _); [lia|].
    exists (brk s), s2,
      (IonClient (rb_insert (brk s) (c_handles clB)) (c_ref clB) (c_task clB)),
      (IonHandle 1 B b true 0).
    split_and!; try done.
    + by destruct (allocated_address_valid _ _ Hmem).
    + rewrite Hcls. apply lookup_insert_eq.
    + cbn. apply rb_insert_elem. by left.
    + rewrite Hhs. apply lookup_insert_eq.
    + intros (hb & hdb & Hbin & Hhb & Hbb). by destruct (Hnone hb hdb).
  - (* B holds a handle on the buffer *)
    destruct (cons_trees _ _ Ht _ _ _ HclB Hrin) as (hdr' & Hhr' & Hcr & _).
    assert (hdr' = hdr) as -> by congruence.
    pose proof (cons_handles_valid _ _ Ht _ _ Hhr) as Hrvalid.
    destruct (ion_import_existing s B clB fd dmabuf b n r hdr
                HclB Htask Hfile Hvalid Hd Hn Hlook Hrvalid Hhr)
      as (s2 & Himp & Hhs & Hcls & _).
    rewrite Hcr, Hbr in Hhs.
    exists r, s2, clB, (IonHandle (wrap (h_ref hdr + 1)) B b (h_linked hdr) (h_kmap_cnt hdr)).
    split_and!; try done.
    + by rewrite Hcls.
    + rewrite Hhs. apply lookup_insert_eq.
    + intros _. by exists hdr.
    + intros Hnone. by destruct (Hnone r hdr).
Qed.

(** Export, then import: the descriptor comes from
    [ion_share_dma_buf_fd] on a handle of client [A] and is imported into
    a client [B] that has a task (a different one in particular). *)
Lemma export_import_roundtrip s A clA handle hd bd B clB1 fd s1 :
  reachable s →
  clients s !! A = Some clA → handle ∈ c_handles clA →
  handles s !! handle = Some hd → buffers s !! h_buffer hd = Some bd →
  b_handle_count bd < INT_MAX →
  ion_share_dma_buf_fd A handle s = Ok fd s1 → 0 ≤ fd →
  clients s1 !! B = Some clB1 → c_task clB1 ≠ 0 →
  memory_available kzalloc_fails s1 →
  ∃ h' s2 clB2 hd',
    ion_import_dma_buf B fd s1 = Ok h' s2 ∧
    IS_ERR_OR_NULL h' = false ∧
    clients s2 !! B = Some clB2 ∧
    h' ∈ c_handles clB2 ∧
    handles s2 !! h' = Some hd' ∧ h_client hd' = B ∧
    h_buffer hd' = h_buffer hd ∧
    ((∃ hb hdb, hb ∈ c_handles clB1 ∧ handles s1 !! hb = Some hdb ∧
                h_buffer hdb = h_buffer hd) →
     ∃ hd1, h' ∈ c_handles clB1 ∧ handles s1 !! h' = Some hd1 ∧
       h_ref hd' = wrap (h_ref hd1 + 1) ∧
       handles s2 = <[h' := IonHandle (wrap (h_ref hd1 + 1)) B (h_buffer hd)
                                       (h_linked hd1) (h_kmap_cnt hd1)]> (handles s1) ∧
       clients s2 = clients s1) ∧
    ((∀ hb hdb, hb ∈ c_handles clB1 → handles s1 !! hb = Some hdb →
                h_buffer hdb ≠ h_buffer hd) →
     handles s1 !! h' = None ∧ h_ref hd' = 1 ∧
     handles s2 = <[h' := IonHandle 1 B (h_buffer hd) true 0]> (handles s1) ∧
     c_handles clB2 = rb_insert h' (c_handles clB1)).
Proof.
  intros Hr HclA Hin Hh Hb Hcnt Hshare Hfd HclB1 Htask Hmem.
  pose proof (reachable_tidy s Hr) as Ht.
  pose proof (ion_share_dma_buf_fd_post A clA handle hd bd s HclA Hin Hh Hb) as Hpost.
  unfold wp in Hpost. rewrite Hshare in Hpost.
  destruct (Hpost Hfd) as (Hfr & _ & dmabuf & Hfile & Hvalid & Hd & Hb1).
  pose proof (tidy_frame _ _ Ht Hfr) as Ht1.
  apply (ion_import_dma_buf_bridge s1 B clB1 fd dmabuf (h_buffer hd) 1
           (with_b_ref (atomic_inc (b_ref bd)) bd)); try done.
Qed.

End RoundTrip.

(** ** Allocation attempts and failures inside [ion_buffer_create] *)

Section Attempts.
Context {P : Platform} {E : Environment}.

Lemma teardown_events_no_allocate buffer b :
  Forall (λ e, is_allocate e = false) (teardown_events buffer b).
Proof.
  unfold teardown_events.
  destruct (0 <? b_kmap_cnt b); destruct (b_pages b =? 0); cbn;
    repeat constructor.
Qed.

Lemma drain_events_no_allocate s entries :
  Forall (λ e, is_allocate e = false) (drain_events s entries).
Proof.
  unfold drain_events. induction entries as [|b entries IH]; cbn; [constructor|].
  apply Forall_app. split; [|done].
  destruct (buffers s !! b); [apply teardown_events_no_allocate|constructor].
Qed.

Lemma flat_map_ext_elem {A B} (f g : A → list B) l :
  (∀ x, x ∈ l → f x = g x) → flat_map f l = flat_map g l.
Proof.
  induction l as [|y l IH]; intros Hfg; cbn; [done|].
  rewrite (Hfg y) by apply list_elem_of_here. f_equal. apply IH.
  intros x Hx. apply Hfg. by apply list_elem_of_further.
Qed.

(** Draining tears down every entry, in order, and takes it off the
    list. *)
Lemma drain_entries_spec s heap hp entries :
  heaps s !! heap = Some hp → free_list_sound s heap entries →
  ∃ s' hp',
    drain_entries heap entries s = Ok () s' ∧
    trace s' = trace s ++ drain_events s entries ∧
    heaps s' !! heap = Some hp' ∧
    (∀ x, x ∈ hp_free_list hp' ↔ x ∈ hp_free_list hp ∧ x ∉ entries) ∧
    hp_flags hp' = hp_flags hp ∧
    (∀ b, b ∈ entries → buffers s' !! b = None) ∧
    (∀ b, b ∉ entries → buffers s' !! b = buffers s !! b) ∧
    dev_buffers s' = dev_buffers s ∧ brk s' = brk s.
Proof.
  revert s hp. induction entries as [|b entries IH]; intros s hp Hhp [Hnd Hall].
  - exists s, hp. cbn. rewrite app_nil_r. split_and!; try done.
    + intros x. rewrite elem_of_nil. tauto.
    + intros b Hb. by apply elem_of_nil in Hb.
  - apply NoDup_cons in Hnd as [Hnotin Hnd].
    apply Forall_cons in Hall as [(bd & Hb & Hheap) Hall].
    cbn [drain_entries].
    rewrite (unqueue_and_destroy _ s heap hp b bd Hhp Hb Hheap).
    set (hp1 := with_hp_used (wrap (hp_used hp - b_size bd))
                  (with_hp_free_list (rb_erase b (hp_free_list hp)) hp)).
    set (s1 := set_buffers (delete b)
                 (set_heaps <[heap := hp1]>
                   (set_trace (λ t, t ++ teardown_events b bd) s))).
    assert (Hkeep : ∀ x, x ∈ entries → buffers s1 !! x = buffers s !! x).
    { intros x Hx. subst s1. mred. apply lookup_delete_ne. by intros <-. }
    destruct (IH s1 hp1) as (s' & hp' & Hrun & Htr & Hhp' & Hfl & Hflags & Hgone
                             & Hkept & Hdev & Hbrk).
    { subst s1. mred. apply lookup_insert_eq. }
    { split; [done|]. apply Forall_forall. intros x Hx.
      rewrite (Hkeep x Hx). by apply (proj1 (Forall_forall _ _) Hall). }
    exists s', hp'. split_and!; try done.
    + rewrite Htr. subst s1. mred. rewrite <- app_assoc. f_equal.
      unfold drain_events. cbn [flat_map]. rewrite Hb. f_equal.
      apply flat_map_ext_elem. intros x Hx. by rewrite <- (Hkeep x Hx).
    + intros x. rewrite Hfl. subst hp1. cbn. rewrite rb_erase_elem, not_elem_of_cons.
      tauto.
    + intros x Hx. apply elem_of_cons in Hx as [->|Hx]; [|by apply Hgone].
      rewrite (Hkept b Hnotin). subst s1. mred. apply lookup_delete_eq.
    + intros x Hx. apply not_elem_of_cons in Hx as [Hne Hx].
      rewrite (Hkept x Hx). subst s1. mred. by apply lookup_delete_ne.
Qed.


Lemma ion_heap_drain_freelist_spec s heap hp :
  heaps s !! heap = Some hp → free_list_sound s heap (hp_free_list hp) →
  ∃ drained s' hp',
    ion_heap_drain_freelist heap s = Ok drained s' ∧
    trace s' = trace s ++ drain_events s (hp_free_list hp) ∧
    heaps s' !! heap = Some hp' ∧ hp_free_list hp' = [] ∧
    hp_flags hp' = hp_flags hp ∧
    (∀ b, b ∈ hp_free_list hp → buffers s' !! b = None) ∧
    (∀ b, b ∉ hp_free_list hp → buffers s' !! b = buffers s !! b) ∧
    dev_buffers s' = dev_buffers s ∧ brk s' = brk s.
Proof.
  intros Hhp Hsound. unfold ion_heap_drain_freelist, ion_heap_free_list_is_empty.
  mrun. destruct (decide (hp_free_list hp = [])) as [Hl|Hl].
  - rewrite bool_decide_eq_true_2 by done. exists false, s, hp. mred.
    rewrite Hl. cbn. rewrite app_nil_r. split_and!; try done. intros b Hb.
    by apply elem_of_nil in Hb.
  - rewrite bool_decide_eq_false_2 by done. mred.
    destruct (drain_entries_spec s heap hp (hp_free_list hp) Hhp Hsound)
      as (s' & hp' & Hrun & Htr & Hhp' & Hfl & Hflags & Hgone & Hkept & Hdev & Hbrk).
    rewrite Hhp. mred. rewrite Hrun. mred. rewrite Hhp'. mred.
    assert (Hempty : hp_free_list hp' = []).
    { apply elem_of_nil_inv. intros x Hx. apply Hfl in Hx as [Hx Hnx]. done. }
    rewrite Hempty. unfold BUG_ON. rewrite bool_decide_eq_true_2 by done. mred.
    exists true, s', hp'. split_and!; done.
Qed.

(** After the attempts: the function returns, asks nothing more of the
    heap's allocate operation, and leaves the heaps and all other buffers
    alone. *)
Lemma ion_buffer_create_rest_spec s heap hp buffer bd len flags ret :
  heaps s !! heap = Some hp → buffers s !! buffer = Some bd →
  buffer ∉ dev_buffers s →
  ∃ r s' rest,
    ion_buffer_create_rest heap buffer len flags ret s = Ok r s' ∧
    trace s' = trace s ++ rest ∧
    Forall (λ e, is_allocate e = false) rest ∧
    heaps s' = heaps s ∧
    (∀ b, b ≠ buffer → buffers s' !! b = buffers s !! b).
Proof.
  intros Hhp Hb Hnew. unfold ion_buffer_create_rest.
  assert (Hother : ∀ (m : gmap Z ion_buffer) b, b ≠ buffer →
            delete buffer m !! b = m !! b)
    by (intros; by apply lookup_delete_ne).
  assert (Hother' : ∀ (m : gmap Z ion_buffer) x b, b ≠ buffer →
            <[buffer := x]> m !! b = m !! b)
    by (intros; by apply lookup_insert_ne).
  destruct ret as [ret|ret]; mrun.
  { eexists _, _, _. split; [reflexivity|]. mred.
    split_and!; [reflexivity|repeat constructor|done|].
    intros b Hne. by rewrite Hother. }
  destruct (IS_ERR_OR_NULL _) eqn:Htable; mrun.
  { eexists _, _, _. split; [reflexivity|]. mred. rewrite <- !app_assoc.
    split_and!; [reflexivity|repeat constructor|done|].
    intros b Hne. by rewrite Hother, Hother'. }
  assert (Hadd : rb_find buffer (dev_buffers s) = false)
    by (unfold rb_find; by apply bool_decide_eq_false_2).
  destruct (ion_buffer_fault_user_mappings flags); mrun.
  - unfold vmalloc, allocate_memory. mrun.
    destruct (_ || _); mrun.
    + eexists _, _, _. split; [reflexivity|]. mred. rewrite <- !app_assoc.
      split_and!; [reflexivity|repeat constructor|done|].
      intros b Hne. by rewrite Hother, !Hother'.
    + destruct (brk s =? 0) eqn:Hz; mrun.
      * eexists _, _, _. split; [reflexivity|]. mred. rewrite <- !app_assoc.
        split_and!; [reflexivity|repeat constructor|done|].
        intros b Hne. by rewrite Hother, !Hother'.
      * destruct (ret =? 0); mrun.
        -- unfold ion_buffer_add. mrun. rewrite Hadd. mrun.
           eexists _, _, _. split; [reflexivity|]. mred. rewrite <- !app_assoc.
           split_and!; [reflexivity|repeat constructor|done|].
           intros b Hne. by rewrite !Hother'.
        -- eexists _, _, _. split; [reflexivity|]. mred. rewrite <- !app_assoc.
           split_and!; [reflexivity|repeat constructor|done|].
           intros b Hne. by rewrite Hother, !Hother'.
  - unfold ion_buffer_add. mrun. rewrite Hadd. mrun.
    eexists _, _, _. split; [reflexivity|]. mred. rewrite <- ?app_assoc.
    split_and!; [reflexivity|repeat constructor|done|].
    intros b Hne. by rewrite !Hother'.
Qed.

End Attempts.

Section Retry.
Context {P : Platform} {E : Environment}.

Lemma ion_buffer_create_phases heap len align flags :
  ion_buffer_create heap len align flags =
  (buffer ← kzalloc;
   if buffer =? 0 then mret (ERR_PTR (- ENOMEM)) else
   put_buffer buffer (IonBuffer 1 heap flags 0 0 0 0 0 0);;
   hp ← get_heap heap;
   ret ← call_allocate heap buffer len align flags;
   ret ← (if ret =? 0 then mret (inr ret)
          else if Z.land (hp_flags hp) ION_HEAP_FLAG_DEFER_FREE =? 0
          then mret (inl ret)
          else
            ion_heap_drain_freelist heap;;
            ret ← call_allocate heap buffer len align flags;
            if ret =? 0 then mret (inr ret) else mret (inl ret));
   ion_buffer_create_rest heap buffer len flags ret).
Proof. reflexivity. Qed.

Lemma drain_events_fresh s s' entries :
  (∀ b, b ∈ entries → buffers s' !! b = buffers s !! b) →
  drain_events s' entries = drain_events s entries.
Proof.
  intros Hsame. unfold drain_events. apply flat_map_ext_elem.
  intros b Hb. by rewrite Hsame.
Qed.

(** C7: an eligible heap whose allocate operation fails on the first
    attempt.  The walk of [ion_alloc] makes one call of
    [ion_buffer_create] for the heap and goes on to the next heap only
    with what that call returns.  Inside the call, over a heap with
    deferred freeing, everything queued on the heap's free list is torn
    down at once, in order, then allocate is asked a second time, and
    nothing after that asks it again: the call makes exactly two attempts
    and leaves the free list empty.  Over a heap without deferred freeing
    the first attempt is the only one: the record is released and the
    error code of the attempt is returned. *)
Theorem allocate_retried_once_after_drain
    s heap hp hs len align heap_id_mask flags buffer0 heap_used0 :
  heaps s !! heap = Some hp →
  (Z.land (wrap (Z.shiftl 1 (hp_id hp))) heap_id_mask =? 0) = false →
  memory_available kzalloc_fails s →
  buffers s !! brk s = None →
  brk s ∉ dev_buffers s →
  free_list_sound s heap (hp_free_list hp) →
  let buffer := brk s in
  let queued := hp_free_list hp in
  let t1 := trace s ++ [EvKzalloc buffer] in
  let r1 := sint (ops_allocate t1 heap buffer len align flags) in
  r1 ≠ 0 →
  ∃ r s',
    ion_buffer_create heap len align flags s = Ok r s' ∧
    ion_alloc_walk (heap :: hs) len align heap_id_mask flags buffer0 heap_used0 s =
      (if IS_ERR_OR_NULL r
       then ion_alloc_walk hs len align heap_id_mask flags r heap s'
       else Ok (r, heap) s') ∧
    if deferred_free hp then
      let t2 := t1 ++ [EvAllocate heap buffer len align flags r1] ++ drain_events s queued in
      let r2 := sint (ops_allocate t2 heap buffer len align flags) in
      ∃ rest hp',
        trace s' = t2 ++ [EvAllocate heap buffer len align flags r2] ++ rest ∧
        Forall (λ e, is_allocate e = false) (drain_events s queued ++ rest) ∧
        heaps s' !! heap = Some hp' ∧ hp_free_list hp' = [] ∧
        (∀ b, b ∈ queued → buffers s' !! b = None)
    else
      r = ERR_PTR r1 ∧ heaps s' = heaps s ∧
      trace s' = t1 ++ [EvAllocate heap buffer len align flags r1; EvKfree buffer].
Proof.
  intros Hhp Helig Hmem Hfresh Hnew Hsound buffer queued t1 r1 Hr1.
  destruct (allocated_address_valid _ _ Hmem) as [Hnz Hvalid].
  assert (Hr1' : (r1 =? 0) = false) by lia.
  cut (∃ r s', ion_buffer_create heap len align flags s = Ok r s' ∧
    if deferred_free hp then
      let t2 := t1 ++ [EvAllocate heap buffer len align flags r1] ++ drain_events s queued in
      let r2 := sint (ops_allocate t2 heap buffer len align flags) in
      ∃ rest hp',
        trace s' = t2 ++ [EvAllocate heap buffer len align flags r2] ++ rest ∧
        Forall (λ e, is_allocate e = false) (drain_events s queued ++ rest) ∧
        heaps s' !! heap = Some hp' ∧ hp_free_list hp' = [] ∧
        (∀ b, b ∈ queued → buffers s' !! b = None)
    else
      r = ERR_PTR r1 ∧ heaps s' = heaps s ∧
      trace s' = t1 ++ [EvAllocate heap buffer len align flags r1; EvKfree buffer]).
  { intros (r & s' & Hrun & Hrest). exists r, s'. split_and!; [done| |done].
    cbn [ion_alloc_walk]. mred. rewrite Hhp. mred. rewrite Helig. mred.
    rewrite Hrun. mred. by destruct (IS_ERR_OR_NULL r). }
  subst buffer queued t1 r1. cbv zeta.
  rewrite ion_buffer_create_phases. unfold kzalloc. mred.
  rewrite (allocate_memory_ok _ _ _ Hmem). mred. rewrite Hnz. mred.
  rewrite Hhp. mred. unfold call_allocate. mred.
  rewrite Hr1'.
  unfold deferred_free.
  destruct (Z.land (hp_flags hp) ION_HEAP_FLAG_DEFER_FREE =? 0) eqn:Hdefer; mred.
  - unfold ion_buffer_create_rest. mrun.
    eexists _, _. split; [reflexivity|]. mred. split_and!; [done|done|].
    by rewrite <- !app_assoc.
  - match goal with |- context [ion_heap_drain_freelist heap ?st] => set (s1 := st) end.
    assert (Hlive : ∀ b, b ∈ hp_free_list hp → b ≠ brk s).
    { intros b Hb ->. destruct Hsound as [_ Hall].
      rewrite Forall_forall in Hall. destruct (Hall _ Hb) as (bd & Hbd & _).
      congruence. }
    assert (Hsame : ∀ b, b ∈ hp_free_list hp → buffers s1 !! b = buffers s !! b).
    { intros b Hb. subst s1. cbn. apply lookup_insert_ne. intros Heq.
      by apply (Hlive b). }
    assert (Hsound1 : free_list_sound s1 heap (hp_free_list hp)).
    { destruct Hsound as [Hnd Hall]. split; [done|].
      rewrite Forall_forall in Hall |- *. intros b Hb. rewrite Hsame by done.
      by apply Hall. }
    destruct (ion_heap_drain_freelist_spec s1 heap hp Hhp Hsound1)
      as (drained & s2 & hp2 & Hrun & Htr & Hhp2 & Hfl & Hflags & Hgone & Hkept
          & Hdev & Hbrk).
    rewrite Hrun. rewrite (drain_events_fresh s s1) in Htr by done.
    assert (Htr2 : trace s2 = (trace s ++ [EvKzalloc (brk s)]) ++
              [EvAllocate heap (brk s) len align flags
                 (sint (ops_allocate (trace s ++ [EvKzalloc (brk s)]) heap
                          (brk s) len align flags))] ++
              drain_events s (hp_free_list hp)).
    { rewrite Htr. subst s1. cbn. by rewrite <- !app_assoc. }
    rewrite Htr2.
    match goal with |- context [set_trace ?f s2] => set (s3 := set_trace f s2) end.
    assert (Hbuf : buffers s3 !! brk s = Some (IonBuffer 1 heap flags 0 0 0 0 0 0)).
    { subst s3. cbn. rewrite Hkept.
      - subst s1. cbn. apply lookup_insert_eq.
      - intros Hin. by apply (Hlive _ Hin). }
    assert (Hdev3 : brk s ∉ dev_buffers s3) by (subst s3; cbn; by rewrite Hdev).
    match goal with |- context [ion_buffer_create_rest _ _ _ _ _ _] => idtac end.
    assert (Hrest : ∀ ret, ∃ r s' rest,
              ion_buffer_create_rest heap (brk s) len flags ret s3 = Ok r s' ∧
              trace s' = trace s3 ++ rest ∧
              Forall (λ e, is_allocate e = false) rest ∧
              heaps s' = heaps s3 ∧
              (∀ b, b ≠ brk s → buffers s' !! b = buffers s3 !! b)).
    { intros ret. by eapply ion_buffer_create_rest_spec. }
    match goal with |- context [if ?c then _ else _] =>
      destruct c;
      match goal with |- context [ion_buffer_create_rest _ _ _ _ ?ret _] =>
        destruct (Hrest ret) as (r & s' & rest & Hrun' & Htr' & Hno & Hheaps & Hbufs)
      end
    end.
    all: exists r, s'; split; [exact Hrun'|]; exists rest, hp2;
      (split_and!;
       [ rewrite Htr'; subst s3; cbn; rewrite Htr2; by rewrite <- !app_assoc
       | apply Forall_app; split; [apply drain_events_no_allocate|done]
       | by rewrite Hheaps
       | done
       | intros b Hb; rewrite Hbufs by (by apply Hlive); by apply Hgone ]).
Qed.
End Retry.

Section Divergences.
Context {P : Platform} {E : Environment}.

(** *** Failures of [ion_buffer_create] after the heap has allocated *)

(** When map_dma fails, the heap's free operation gives the allocation
    back, the record is released and the buffer index is not touched. *)
Lemma ion_buffer_create_map_dma_failure s heap hp len align flags :
  heaps s !! heap = Some hp →
  memory_available kzalloc_fails s →
  let buffer := brk s in
  let t1 := trace s ++ [EvKzalloc buffer] in
  sint (ops_allocate t1 heap buffer len align flags) = 0 →
  let t2 := t1 ++ [EvAllocate heap buffer len align flags 0] in
  let table := wrap (ops_map_dma t2 heap buffer) in
  IS_ERR_OR_NULL table = true →
  ∃ s', ion_buffer_create heap len align flags s = Ok (ERR_PTR (PTR_ERR table)) s' ∧
    trace s' = t2 ++ [EvMapDma heap buffer table; EvHeapFree buffer; EvKfree buffer] ∧
    buffers s' = delete buffer (buffers s) ∧
    dev_buffers s' = dev_buffers s.
Proof.
  intros Hhp Hmem buffer t1 Hr1 t2 table Htable. subst buffer t1 t2 table.
  destruct (allocated_address_valid _ _ Hmem) as [Hnz Hvalid].
  unfold ion_buffer_create, kzalloc. mred.
  rewrite (allocate_memory_ok _ _ _ Hmem). mred. rewrite Hnz. mred.
  rewrite Hhp. mred. unfold call_allocate. mred. rewrite Hr1. mrun.
  rewrite <- ?app_assoc in Htable; rewrite <- ?app_assoc;
  cbn [app] in Htable |- *.
  rewrite Htable. mrun.
  eexists. split; [reflexivity|]. mred. rewrite <- !app_assoc.
  split_and!; [done| |done].
  by rewrite !delete_insert_eq.
Qed.

(** C3: the claim fails for the second kind of failure.  When the heap
    has allocated, map_dma has succeeded, the flags ask for a page array
    and vmalloc fails, [ion_buffer_create] jumps to [err1], past the two
    calls under [err]: the record is released and nothing is indexed, but
    neither the heap's free nor its unmap_dma operation is called, so what
    the heap allocated for the buffer is never given back. *)
Theorem page_array_failure_skips_heap_free s heap hp len align flags :
  heaps s !! heap = Some hp →
  memory_available kzalloc_fails s →
  let buffer := brk s in
  let t1 := trace s ++ [EvKzalloc buffer] in
  sint (ops_allocate t1 heap buffer len align flags) = 0 →
  let t2 := t1 ++ [EvAllocate heap buffer len align flags 0] in
  let table := wrap (ops_map_dma t2 heap buffer) in
  IS_ERR_OR_NULL table = false →
  ion_buffer_fault_user_mappings flags = true →
  let t3 := t2 ++ [EvMapDma heap buffer table] in
  vmalloc_fails t3 = true →
  let done := [EvKzalloc buffer; EvAllocate heap buffer len align flags 0;
               EvMapDma heap buffer table; EvVmalloc 0; EvKfree buffer] in
  ∃ s', ion_buffer_create heap len align flags s = Ok (ERR_PTR (- ENOMEM)) s' ∧
    trace s' = trace s ++ done ∧
    (EvHeapFree buffer ∉ done) ∧ (EvUnmapDma heap buffer ∉ done) ∧
    buffers s' = delete buffer (buffers s) ∧
    dev_buffers s' = dev_buffers s.
Proof.
  intros Hhp Hmem buffer t1 Hr1 t2 table Htable Hfault t3 Hvm done.
  subst buffer t1 t2 table t3 done.
  destruct (allocated_address_valid _ _ Hmem) as [Hnz Hvalid].
  unfold ion_buffer_create, kzalloc. mred.
  rewrite (allocate_memory_ok _ _ _ Hmem). mred. rewrite Hnz. mred.
  rewrite Hhp. mred. unfold call_allocate. mred. rewrite Hr1. mrun.
  rewrite <- ?app_assoc in Htable; rewrite <- ?app_assoc in Hvm;
  rewrite <- ?app_assoc; cbn [app] in Htable, Hvm |- *.
  rewrite Htable. mrun. rewrite Hfault. mred.
  unfold vmalloc. rewrite allocate_memory_fails
    by (mred; rewrite <- ?app_assoc; exact Hvm).
  mrun.
  eexists. split; [reflexivity|]. mred. rewrite <- !app_assoc.
  split_and!; [done| | | |done].
  - intros Hin. repeat (apply elem_of_cons in Hin as [Hin|Hin]; [discriminate Hin|]).
    by apply elem_of_nil in Hin.
  - intros Hin. repeat (apply elem_of_cons in Hin as [Hin|Hin]; [discriminate Hin|]).
    by apply elem_of_nil in Hin.
  - by rewrite !delete_insert_eq.
Qed.

(** *** Entry points and handles of other clients *)

(** [ion_unmap_kernel] on a dangling handle reads freed memory. *)
Lemma ion_unmap_kernel_dangling s client cl handle :
  clients s !! client = Some cl → handles s !! handle = None →
  ion_unmap_kernel client handle s = Crash BadPointer.
Proof. intros Hcl Hh. unfold ion_unmap_kernel. mred. rewrite Hcl. mred. by rewrite Hh. Qed.

(** [ion_free] on another client's handle stops the kernel: the BUG_ON
    comes before the validation. *)
Lemma ion_free_foreign_handle s client handle hd :
  handles s !! handle = Some hd → h_client hd ≠ client →
  ion_free client handle s = Crash KernelBUG.
Proof.
  intros Hh Hc. unfold ion_free. mred. rewrite Hh. mred. unfold BUG_ON.
  replace (client =? h_client hd) with false by lia. done.
Qed.

(** C1: the claim fails for kernel unmap.  [ion_unmap_kernel] never
    looks the handle up in the client's tree: called by a client on a
    handle that [ion_handle_validate] rejects for it, it does not fail, it
    reads the handle's buffer, drops the mapping that the handle's owner
    holds and has the heap unmap the buffer. *)
Theorem ion_unmap_kernel_skips_validation s client cl handle hd b hp :
  clients s !! client = Some cl → handle ∉ c_handles cl →
  handles s !! handle = Some hd → h_kmap_cnt hd = 1 →
  buffers s !! h_buffer hd = Some b → b_kmap_cnt b = 1 →
  heaps s !! b_heap b = Some hp →
  ion_handle_validate client handle s = Ok false s ∧
  ∃ s', ion_unmap_kernel client handle s = Ok () s' ∧
    trace s' = trace s ++ [EvUnmapKernel (b_heap b) (h_buffer hd)] ∧
    handles s' !! handle = Some (with_h_kmap_cnt 0 hd) ∧
    buffers s' !! h_buffer hd = Some (with_b_vaddr 0 (with_b_kmap_cnt 0 b)).
Proof.
  intros Hcl Hin Hh Hhc Hb Hbc Hhp. split.
  - by apply (invalid_handle_checked _ _ cl).
  - rewrite (ion_unmap_kernel_live _ _ _ _ _ _ Hcl Hh Hb).
    rewrite (ion_handle_kmap_put_last _ _ _ _ _ Hh Hhc Hb Hbc Hhp).
    eexists. split; [reflexivity|]. mred.
    split_and!; [done|apply lookup_insert_eq|apply lookup_insert_eq].
Qed.

(** *** Importing into a client of a kernel thread *)

(** A client created by a kernel thread has no task. *)
Lemma ion_client_create_kernel_thread s :
  current_is_kthread (trace s) = true →
  memory_available kzalloc_fails s →
  ∃ s', ion_client_create s = Ok (brk s) s' ∧
    clients s' = <[brk s := IonClient [] 1 0]> (clients s).
Proof.
  intros Hk Hmem. destruct (allocated_address_valid _ _ Hmem) as [Hnz _].
  unfold ion_client_create, kzalloc. mred. rewrite Hk.
  rewrite allocate_memory_ok by done. rewrite Hnz.
  eexists. split; [reflexivity|]. by mred.
Qed.

(** C6: the claim fails for the clients of kernel threads.
    [ion_client_create] stores a null task for a client that a kernel
    thread creates, and [ion_import_dma_buf] reads the name and the pid
    through [client->task] before it looks at the descriptor.  So for
    such a client the import yields no handle, whatever the descriptor
    is, one that this bridge has produced included: the kernel faults on
    the null pointer. *)
Theorem ion_import_dma_buf_null_task s client cl fd :
  clients s !! client = Some cl → c_task cl = 0 →
  ion_import_dma_buf client fd s = Crash BadPointer.
Proof.
  intros Hcl Htask. unfold ion_import_dma_buf. mred. rewrite Hcl. mred.
  by rewrite Htask.
Qed.

End Divergences.

(** ** The theorems at work on concrete devices *)

Ltac evaluate := vm_compute; first [reflexivity | by eauto | lia].
Ltac decide_now := apply (bool_decide_unpack _); vm_compute; exact I.

Section Examples.
#[local] Existing Instance bcm_platform.
#[local] Existing Instance willing_env.

Lemma power_on_pristine : pristine power_on.
Proof. by repeat split. Qed.

Lemma one_buffer_reachable : reachable one_buffer.
Proof.
  apply (run_ops_reachable one_buffer_ops power_on).
  - apply reachable_pristine, power_on_pristine.
  - evaluate.
Qed.

Lemma ion_alloc_zero_length_witness :
  is_Some (clients boot !! 4096) ∧
  ion_alloc 4096 0 64 6 1 boot
  = Ok (ERR_PTR (- EINVAL)) (set_trace (λ t, t ++ [EvWarn WarnAllocZeroLen]) boot).
Proof.
  assert (H : is_Some (clients boot !! 4096)) by evaluate.
  split; [exact H|]. exact (ion_alloc_zero_length boot 4096 64 6 1 H).
Defined.

Lemma boot_mask_8_selects_nothing : no_heap_selected boot (dev_heaps boot) 8.
Proof.
  unfold no_heap_selected. replace (dev_heaps boot) with [24; 16] by evaluate.
  repeat constructor.
  - exists (IonHeap 2 1 0 false true []). split; evaluate.
  - exists (IonHeap 1 0 0 true true []). split; evaluate.
Qed.

Lemma ion_alloc_no_registered_heap_witness :
  is_Some (clients boot !! 4096) ∧ 4096 ≠ 0 ∧
  no_heap_selected boot (dev_heaps boot) 8 ∧
  ion_alloc 4096 4096 0 8 0 boot = Ok (ERR_PTR (- ENODEV)) boot.
Proof.
  assert (H1 : is_Some (clients boot !! 4096)) by evaluate.
  assert (H2 : 4096 ≠ 0) by lia.
  pose proof boot_mask_8_selects_nothing as H3.
  split_and!; [exact H1|exact H2|exact H3|].
  exact (ion_alloc_no_registered_heap boot 4096 4096 0 8 0 H1 H2 H3).
Defined.

(** C2, as the specification words it, does not hold: a mask that names
    no registered heap is answered with -ENODEV, not with -EINVAL. *)
Lemma unregistered_mask_is_not_einval :
  ¬ (∀ s client len align heap_id_mask flags,
       is_Some (clients s !! client) →
       no_heap_selected s (dev_heaps s) heap_id_mask →
       ∃ s', ion_alloc client len align heap_id_mask flags s
             = Ok (ERR_PTR (- EINVAL)) s').
Proof.
  intros Hclaim.
  destruct (Hclaim boot 4096 4096 0 8 0) as (s' & Hrun).
  - evaluate.
  - apply boot_mask_8_selects_nothing.
  - assert (Hcode : ion_alloc 4096 4096 0 8 0 boot = Ok (ERR_PTR (- ENODEV)) boot)
      by evaluate.
    rewrite Hcode in Hrun. injection Hrun as Hret _. vm_compute in Hret. lia.
Qed.


Lemma buffer_release_witness :
  buffers one_deferred_buffer !! 4112 = Some (IonBuffer 1 24 0 4096 0 0 4116 0 1) ∧
  heaps one_deferred_buffer !! 24 = Some (IonHeap 2 1 4096 false true []) ∧
  ∃ s', ion_buffer_put 4112 one_deferred_buffer = Ok 1 s' ∧
    (4112 ∉ dev_buffers s') ∧
    hp_free_list <$> heaps s' !! 24 = Some [4112] ∧
    trace s' = trace one_deferred_buffer ++ [EvWakeUp 24] ∧
    ∃ s'', ion_heap_deferred_free_turn 24 s' = Ok true s'' ∧
      trace s'' = trace s' ++ [EvUnmapDma 24 4112; EvHeapFree 4112; EvKfree 4112] ∧
      buffers s'' !! 4112 = None.
Proof.
  assert (Hb : buffers one_deferred_buffer !! 4112
               = Some (IonBuffer 1 24 0 4096 0 0 4116 0 1)) by evaluate.
  assert (Hhp : heaps one_deferred_buffer !! 24
                = Some (IonHeap 2 1 4096 false true [])) by evaluate.
  split_and!; [exact Hb|exact Hhp|].
  destruct (buffer_release one_deferred_buffer 4112 _ _ Hb eq_refl Hhp)
    as (s' & Hput & Hindex & Hlist & Htrace & _ & s'' & Hturn & Htrace' & Hgone & _).
  exists s'. split_and!; [exact Hput|exact Hindex|exact Hlist|exact Htrace|].
  exists s''. split_and!; [exact Hturn|exact Htrace'|exact Hgone].
Defined.

Lemma kernel_mapping_two_level_witness :
  clients one_buffer !! 4096 = Some (IonClient [4120] 1 1024) ∧
  handles one_buffer !! 4120 = Some (IonHandle 1 4096 4112 true 0) ∧
  buffers one_buffer !! 4112 = Some (IonBuffer 1 16 0 4096 0 0 4116 0 1) ∧
  heaps one_buffer !! 16 = Some (IonHeap 1 0 4096 true true []) ∧
  ∃ v1 s1 s2 s3 s4 v3 s5,
    ion_map_kernel 4096 4120 one_buffer = Ok v1 s1 ∧
    IS_ERR_OR_NULL v1 = false ∧
    trace s1 = trace one_buffer ++ [EvMapKernel 16 4112 v1] ∧
    ion_map_kernel 4096 4120 s1 = Ok v1 s2 ∧
    trace s2 = trace s1 ∧
    h_kmap_cnt <$> handles s2 !! 4120 = Some 2 ∧
    b_kmap_cnt <$> buffers s2 !! 4112 = Some 1 ∧
    ion_unmap_kernel 4096 4120 s2 = Ok () s3 ∧
    trace s3 = trace s2 ∧
    b_kmap_cnt <$> buffers s3 !! 4112 = Some 1 ∧
    ion_unmap_kernel 4096 4120 s3 = Ok () s4 ∧
    trace s4 = trace s3 ++ [EvUnmapKernel 16 4112] ∧
    b_kmap_cnt <$> buffers s4 !! 4112 = Some 0 ∧
    ion_map_kernel 4096 4120 s4 = Ok v3 s5 ∧
    trace s5 = trace s4 ++ [EvMapKernel 16 4112 v3].
Proof.
  assert (Hcl : clients one_buffer !! 4096 = Some (IonClient [4120] 1 1024)) by evaluate.
  assert (Hh : handles one_buffer !! 4120 = Some (IonHandle 1 4096 4112 true 0))
    by evaluate.
  assert (Hb : buffers one_buffer !! 4112 = Some (IonBuffer 1 16 0 4096 0 0 4116 0 1))
    by evaluate.
  assert (Hhp : heaps one_buffer !! 16 = Some (IonHeap 1 0 4096 true true []))
    by evaluate.
  split_and!; [exact Hcl|exact Hh|exact Hb|exact Hhp|].
  assert (Hin : 4120 ∈ [4120]) by decide_now.
  exact (kernel_mapping_two_level one_buffer 4096 _ 4120 _ _ _
           Hcl Hin Hh eq_refl Hb eq_refl Hhp eq_refl (λ _, eq_refl)).
Defined.

Lemma ion_unmap_kernel_unbalanced_witness :
  clients one_buffer !! 4096 = Some (IonClient [4120] 1 1024) ∧
  handles one_buffer !! 4120 = Some (IonHandle 1 4096 4112 true 0) ∧
  ion_unmap_kernel 4096 4120 one_buffer
  = Ok () (set_handles <[4120 := IonHandle 1 4096 4112 true (2 ^ 32 - 1)]> one_buffer).
Proof.
  assert (Hcl : clients one_buffer !! 4096 = Some (IonClient [4120] 1 1024)) by evaluate.
  assert (Hh : handles one_buffer !! 4120 = Some (IonHandle 1 4096 4112 true 0))
    by evaluate.
  assert (Hb : buffers one_buffer !! 4112 = Some (IonBuffer 1 16 0 4096 0 0 4116 0 1))
    by evaluate.
  assert (Hhp : heaps one_buffer !! 16 = Some (IonHeap 1 0 4096 true true []))
    by evaluate.
  split_and!; [exact Hcl|exact Hh|].
  assert (Hin : 4120 ∈ [4120]) by decide_now.
  exact (proj1 (ion_unmap_kernel_unbalanced one_buffer 4096 _ 4120 _ _ _
                  Hcl Hin Hh eq_refl Hb Hhp eq_refl)).
Defined.

Lemma handle_count_positive_witness :
  reachable one_buffer ∧
  (∀ b bd, buffers one_buffer !! b = Some bd →
     b_handle_count bd = attached b (handles one_buffer)) ∧
  (∀ client cl handle hd bd,
     clients one_buffer !! client = Some cl → handle ∈ c_handles cl →
     handles one_buffer !! handle = Some hd →
     buffers one_buffer !! h_buffer hd = Some bd →
     1 ≤ b_handle_count bd) ∧
  (∀ client id, ion_debug_heap_total client id one_buffer ≠ Crash DivideByZero).
Proof.
  split; [exact one_buffer_reachable|].
  exact (handle_count_positive one_buffer one_buffer_reachable).
Defined.

Lemma kernel_clients_shared_reachable :
  reachable (E:=kernel_thread_env) kernel_clients_shared.
Proof.
  apply (run_ops_reachable kernel_clients_shared_ops power_on).
  - apply reachable_pristine, power_on_pristine.
  - evaluate.
Qed.

Lemma ion_import_dma_buf_null_task_witness :
  reachable (E:=kernel_thread_env) kernel_clients_shared ∧
  clients kernel_clients_shared !! 4104 = Some (IonClient [] 1 0) ∧
  files kernel_clients_shared !! 0 = Some 4128 ∧
  dmabufs kernel_clients_shared !! 4128 = Some (DmaBuf true 4112 1) ∧
  ion_import_dma_buf (E:=kernel_thread_env) 4104 0 kernel_clients_shared
  = Crash BadPointer.
Proof.
  assert (Hcl : clients kernel_clients_shared !! 4104 = Some (IonClient [] 1 0))
    by evaluate.
  assert (Hfd : files kernel_clients_shared !! 0 = Some 4128) by evaluate.
  assert (Hd : dmabufs kernel_clients_shared !! 4128 = Some (DmaBuf true 4112 1))
    by evaluate.
  split_and!; [exact kernel_clients_shared_reachable|exact Hcl|exact Hfd|exact Hd|].
  revert Hcl. generalize kernel_clients_shared. intros s Hcl.
  exact (ion_import_dma_buf_null_task (E:=kernel_thread_env) s 4104 _ 0 Hcl eq_refl).
Defined.

(** On the device whose clients belong to user processes the round trip
    succeeds. *)
Lemma export_import_roundtrip_example :
  reachable one_buffer ∧
  ion_share_dma_buf_fd 4096 4120 one_buffer = Ok 0 one_buffer_shared ∧
  ∃ h' s2 hd',
    ion_import_dma_buf 4104 0 one_buffer_shared = Ok h' s2 ∧
    IS_ERR_OR_NULL h' = false ∧
    handles s2 !! h' = Some hd' ∧ h_client hd' = 4104 ∧ h_buffer hd' = 4112.
Proof.
  assert (Hcl : clients one_buffer !! 4096 = Some (IonClient [4120] 1 1024)) by evaluate.
  assert (Hh : handles one_buffer !! 4120 = Some (IonHandle 1 4096 4112 true 0))
    by evaluate.
  assert (Hb : buffers one_buffer !! 4112 = Some (IonBuffer 1 16 0 4096 0 0 4116 0 1))
    by evaluate.
  assert (Hshare : ion_share_dma_buf_fd 4096 4120 one_buffer = Ok 0 one_buffer_shared)
    by evaluate.
  assert (Hin : 4120 ∈ [4120]) by decide_now.
  assert (HB : clients one_buffer_shared !! 4104 = Some (IonClient [] 1 1024))
    by evaluate.
  assert (Hmem : memory_available kzalloc_fails one_buffer_shared)
    by (split_and!; evaluate).
  split_and!; [exact one_buffer_reachable|exact Hshare|].
  destruct (export_import_roundtrip one_buffer 4096 _ 4120 _ _ 4104
              (IonClient [] 1 1024) 0 one_buffer_shared
              one_buffer_reachable Hcl Hin Hh Hb) as
    (h' & s2 & clB2 & hd' & Hrun & Hvalid & _ & _ & Hh' & Hc' & Hb' & _);
    [evaluate|exact Hshare|lia|exact HB|cbn; lia|exact Hmem|].
  exists h', s2, hd'. split_and!; [exact Hrun|exact Hvalid|exact Hh'|exact Hc'|exact Hb'].
Qed.

(** On the device whose clients belong to user processes the same
    descriptor is imported: client 4104 gets a new handle on buffer 4112,
    and a second import raises the reference count of that handle. *)
Lemma import_twice_example :
  ∃ s2 s3,
    ion_import_dma_buf 4104 0 one_buffer_shared = Ok 4136 s2 ∧
    handles s2 !! 4136 = Some (IonHandle 1 4104 4112 true 0) ∧
    ion_import_dma_buf 4104 0 s2 = Ok 4136 s3 ∧
    handles s3 !! 4136 = Some (IonHandle 2 4104 4112 true 0) ∧
    clients s3 !! 4104 = Some (IonClient [4136] 1 1024) ∧
    size (handles s3) = 2%nat.
Proof.
  exists (state_of one_buffer_shared (ion_import_dma_buf 4104 0 one_buffer_shared)).
  exists (state_of one_buffer_shared
            (ion_import_dma_buf 4104 0
               (state_of one_buffer_shared
                  (ion_import_dma_buf 4104 0 one_buffer_shared)))).
  split_and!; evaluate.
Qed.

Lemma ion_unmap_kernel_skips_validation_witness :
  clients one_buffer_mapped !! 4104 = Some (IonClient [] 1 1024) ∧
  handles one_buffer_mapped !! 4120 = Some (IonHandle 1 4096 4112 true 1) ∧
  ion_handle_validate 4104 4120 one_buffer_mapped = Ok false one_buffer_mapped ∧
  ∃ s', ion_unmap_kernel 4104 4120 one_buffer_mapped = Ok () s' ∧
    trace s' = trace one_buffer_mapped ++ [EvUnmapKernel 16 4112] ∧
    handles s' !! 4120 = Some (IonHandle 1 4096 4112 true 0) ∧
    buffers s' !! 4112 = Some (IonBuffer 1 16 0 4096 0 0 4116 0 1).
Proof.
  assert (Hcl : clients one_buffer_mapped !! 4104 = Some (IonClient [] 1 1024)) by evaluate.
  assert (Hh : handles one_buffer_mapped !! 4120 = Some (IonHandle 1 4096 4112 true 1))
    by evaluate.
  assert (Hb : buffers one_buffer_mapped !! 4112
               = Some (IonBuffer 1 16 0 4096 1 3221229568 4116 0 1)) by evaluate.
  assert (Hhp : heaps one_buffer_mapped !! 16 = Some (IonHeap 1 0 4096 true true []))
    by evaluate.
  assert (Hin : 4120 ∉ @nil Z) by decide_now.
  split_and!; [exact Hcl|exact Hh|..];
    apply (ion_unmap_kernel_skips_validation one_buffer_mapped 4104 _ 4120 _ _ _
             Hcl Hin Hh eq_refl Hb eq_refl Hhp).
Defined.

Lemma page_array_failure_skips_heap_free_witness :
  heaps boot !! 16 = Some (IonHeap 1 0 0 true true []) ∧
  ion_buffer_fault_user_mappings 1 = true ∧
  ∃ s', ion_buffer_create (E:=no_vmalloc_env) 16 4096 0 1 boot
        = Ok (ERR_PTR (- ENOMEM)) s' ∧
    trace s' = trace boot ++
      [EvKzalloc 4112; EvAllocate 16 4112 4096 0 1 0; EvMapDma 16 4112 4116;
       EvVmalloc 0; EvKfree 4112].
Proof.
  assert (Hhp : heaps boot !! 16 = Some (IonHeap 1 0 0 true true [])) by evaluate.
  assert (Hfault : ion_buffer_fault_user_mappings 1 = true) by evaluate.
  assert (Hmem : memory_available (kzalloc_fails (Environment:=no_vmalloc_env)) boot)
    by (split_and!; evaluate).
  split_and!; [exact Hhp|exact Hfault|].
  destruct (page_array_failure_skips_heap_free (E:=no_vmalloc_env)
              boot 16 _ 4096 0 1 Hhp Hmem) as (s' & Hrun & Htrace & _);
    [evaluate|evaluate|exact Hfault|evaluate|].
  exists s'. split; [exact Hrun|exact Htrace].
Defined.

Lemma allocate_retried_once_after_drain_witness :
  heaps one_queued_buffer !! 24 = Some (IonHeap 2 1 4096 false true [4112]) ∧
  free_list_sound one_queued_buffer 24 [4112] ∧
  ∃ r s' rest,
    ion_buffer_create (E:=single_slot_env) 24 4096 0 0 one_queued_buffer = Ok r s' ∧
    trace s' = trace one_queued_buffer ++
      [EvKzalloc 4128; EvAllocate 24 4128 4096 0 0 (- ENOMEM);
       EvUnmapDma 24 4112; EvHeapFree 4112; EvKfree 4112;
       EvAllocate 24 4128 4096 0 0 0] ++ rest ∧
    Forall (λ e, is_allocate e = false) rest ∧
    buffers s' !! 4112 = None.
Proof.
  assert (Hhp : heaps one_queued_buffer !! 24
                = Some (IonHeap 2 1 4096 false true [4112])) by evaluate.
  assert (Hsound : free_list_sound one_queued_buffer 24 [4112]).
  { split; [decide_now|]. repeat constructor.
    exists (IonBuffer 0 24 0 4096 0 0 4116 0 0). split; evaluate. }
  assert (Hmem : memory_available (kzalloc_fails (Environment:=single_slot_env))
                   one_queued_buffer) by (split_and!; evaluate).
  split_and!; [exact Hhp|exact Hsound|].
  destruct (allocate_retried_once_after_drain (E:=single_slot_env)
              one_queued_buffer 24 _ [] 4096 0 4 0 0 0 Hhp)
    as (r & s' & Hrun & _ & rest & hp' & Htrace & Hno & _ & _ & Hgone);
    [evaluate|exact Hmem|evaluate|decide_now|exact Hsound|evaluate|].
  exists r, s', rest. split_and!; [exact Hrun| | |].
  - rewrite Htrace. evaluate.
  - apply Forall_app in Hno. apply Hno.
  - apply Hgone. decide_now.
Defined.

End Examples.

(** * Further properties *)

(** ** Handles and their owners *)

Section HandleOwnership.
Context {P : Platform} {E : Environment} {U : UserAccess}.

(** X1: on whatever the driver can have done since the device was
    pristine, a handle found in a client's tree is a live handle object
    whose [client] field is that client and whose node is linked, it sits
    at an address that is neither null nor an error code, and it is in no
    other client's tree.  So it passes validation, and the BUG_ON of
    [ion_free] does not fire on it: freeing it is [ion_handle_put]. *)
Theorem handle_trees_sound s client cl handle :
  reachable s → clients s !! client = Some cl → handle ∈ c_handles cl →
  ∃ hd, handles s !! handle = Some hd ∧
    h_client hd = client ∧ h_linked hd = true ∧
    IS_ERR_OR_NULL handle = false ∧
    (∀ other cl', clients s !! other = Some cl' → handle ∈ c_handles cl' →
       other = client) ∧
    ion_handle_validate client handle s = Ok true s ∧
    ion_free client handle s = (ion_handle_put handle ;; mret ()) s.
Proof.
  intros Hr Hcl Hin. pose proof (reachable_tidy s Hr) as Ht.
  destruct (cons_trees _ _ Ht _ _ _ Hcl Hin) as (hd & Hh & Hc & Hl).
  exists hd. split_and!; try done.
  - apply (cons_handles_valid _ _ Ht _ _ Hh).
  - intros other cl' Hcl' Hin'.
    destruct (cons_trees _ _ Ht _ _ _ Hcl' Hin') as (hd' & Hh' & Hc' & _).
    congruence.
  - rewrite (validate_spec _ _ _ _ Hcl). by rewrite bool_decide_eq_true_2.
  - unfold ion_free. mred. rewrite Hh, Hc. mred.
    rewrite (validate_spec _ _ _ _ Hcl). rewrite bool_decide_eq_true_2 by done.
    mred. by destruct (ion_handle_put handle s).
Qed.

(** X2: a handle that is not in the caller's tree, dangling or another
    client's, is refused by the entry points that validate, before
    anything it points to is read: the state is what it was, but for the
    warning that sharing logs. *)
Theorem unowned_handle_refused s client cl handle :
  clients s !! client = Some cl → handle ∉ c_handles cl →
  ion_phys client handle s = Ok (- EINVAL) s ∧
  ion_map_kernel client handle s = Ok (ERR_PTR (- EINVAL)) s ∧
  ion_sg_table client handle s = Ok (ERR_PTR (- EINVAL)) s ∧
  ion_lock_buffer client handle s = Ok 0 s ∧
  ion_share_dma_buf client handle s
  = Ok (ERR_PTR (- EINVAL)) (set_trace (λ t, t ++ [EvWarn WarnShareInvalidHandle]) s) ∧
  ion_share_dma_buf_fd client handle s
  = Ok (- EINVAL) (set_trace (λ t, t ++ [EvWarn WarnShareInvalidHandle]) s) ∧
  (copy_from_user_fails (trace s) = false →
   ion_ioctl client (ION_IOC_FREE handle) s = Ok (- EINVAL, None) s).
Proof.
  intros Hcl Hin.
  pose proof (invalid_handle_checked _ _ _ _ Hcl Hin) as Hv.
  split_and!.
  - by apply (ion_phys_rejects _ _ cl).
  - by apply (ion_map_kernel_rejects _ _ cl).
  - by apply (ion_sg_table_rejects _ _ cl).
  - unfold ion_lock_buffer. unfold mbind at 1, M_bind. by rewrite Hv.
  - by apply (ion_share_dma_buf_rejects _ _ cl).
  - unfold ion_share_dma_buf_fd. unfold mbind at 1, M_bind.
    rewrite (ion_share_dma_buf_rejects _ _ cl) by done. by mred.
  - intros Hcopy. unfold ion_ioctl, copy_from_user. mred. rewrite Hcopy. mred.
    by rewrite Hv.
Qed.

End HandleOwnership.

(** ** Freeing handles *)

Section Freeing.
Context {P : Platform} {E : Environment}.




End Freeing.

(** ** Heap operations behind the entry points *)

Section HeapOperations.
Context {P : Platform} {E : Environment}.

(** X4: [phys] and [map_kernel] are optional in a heap's operations.
    Through a handle of the caller, [ion_phys] hands on the answer of the
    heap's [phys] when the heap has one; over a heap without it the call
    fails with -ENODEV and changes nothing.  Likewise [ion_map_kernel],
    and [begin_cpu_access] on a descriptor of the buffer, fail with
    -ENODEV over a heap without [map_kernel], the counts untouched. *)
Theorem optional_heap_operations s client cl handle hd b hp :
  clients s !! client = Some cl → handle ∈ c_handles cl →
  handles s !! handle = Some hd → buffers s !! h_buffer hd = Some b →
  heaps s !! b_heap b = Some hp →
  ion_phys client handle s
  = (if hp_ops_phys hp
     then let ret := sint (ops_phys (trace s) (b_heap b) (h_buffer hd)) in
          Ok ret (set_trace (λ t, t ++ [EvPhys (b_heap b) (h_buffer hd) ret]) s)
     else Ok (- ENODEV) s) ∧
  (hp_ops_map_kernel hp = false →
   ion_map_kernel client handle s = Ok (ERR_PTR (- ENODEV)) s ∧
   ∀ dmabuf d, dmabufs s !! dmabuf = Some d → db_priv d = h_buffer hd →
     ion_dma_buf_begin_cpu_access dmabuf s = Ok (- ENODEV) s).
Proof.
  intros Hcl Hin Hh Hb Hhp.
  pose proof (valid_handle_checked _ _ _ _ Hcl Hin) as Hv.
  split; [|intros Hop; split].
  - unfold ion_phys. unfold mbind at 1, M_bind. rewrite Hv. mrun.
    destruct (hp_ops_phys hp); by mrun.
  - unfold ion_map_kernel. unfold mbind at 1, M_bind. rewrite Hv. mrun.
    rewrite Hop. by mrun.
  - intros dmabuf d Hd Hpriv. unfold ion_dma_buf_begin_cpu_access. mrun.
    rewrite Hpriv. mrun. rewrite Hop. by mrun.
Qed.

(** X5: [begin_cpu_access] and [end_cpu_access] on a descriptor bracket a
    kernel mapping of its buffer.  On a buffer that is mapped already,
    the pair leaves the state as it found it and asks nothing of the
    heap.  On an unmapped buffer [begin] has the heap map it and [end] has
    the heap unmap it again.  When the heap fails to map, [begin] reports
    the heap's error code, or -ENOMEM for a null address, and the count
    stays zero. *)
Theorem cpu_access_brackets s dmabuf d b hp :
  dmabufs s !! dmabuf = Some d → buffers s !! db_priv d = Some b →
  heaps s !! b_heap b = Some hp → hp_ops_map_kernel hp = true →
  let buffer := db_priv d in
  let heap := b_heap b in
  let v := wrap (ops_map_kernel (trace s) heap buffer) in
  (1 ≤ b_kmap_cnt b < INT_MAX → IS_ERR_OR_NULL (b_vaddr b) = false →
   (ion_dma_buf_begin_cpu_access dmabuf ;; ion_dma_buf_end_cpu_access dmabuf) s
   = Ok () s) ∧
  (b_kmap_cnt b = 0 → IS_ERR_OR_NULL v = false →
   let s1 := set_buffers <[buffer := with_b_kmap_cnt 1 (with_b_vaddr v b)]>
               (set_trace (λ t, t ++ [EvMapKernel heap buffer v]) s) in
   ion_dma_buf_begin_cpu_access dmabuf s = Ok 0 s1 ∧
   ion_dma_buf_end_cpu_access dmabuf s1
   = Ok () (set_buffers <[buffer := with_b_vaddr 0 b]>
             (set_trace (λ t, t ++ [EvMapKernel heap buffer v;
                                    EvUnmapKernel heap buffer]) s))) ∧
  (b_kmap_cnt b = 0 → IS_ERR_OR_NULL v = true →
   ion_dma_buf_begin_cpu_access dmabuf s
   = Ok (if v =? 0 then - ENOMEM else PTR_ERR v)
        (set_trace (λ t, t ++ [EvMapKernel heap buffer v]) s)).
Proof.
  intros Hd Hb Hhp Hop buffer heap v. subst buffer heap v. split_and!.
  - intros Hk Hv. unfold IS_ERR_OR_NULL in Hv. apply orb_false_elim in Hv as [Hnz Hne].
    unfold ion_dma_buf_begin_cpu_access. mrun. rewrite Hop. mrun.
    unfold ion_buffer_kmap_get, int_add. mrun.
    rewrite (proj2 (Z.eqb_neq (b_kmap_cnt b) 0)) by lia. mrun.
    replace (INT_MIN <=? b_kmap_cnt b + 1) with true by (unfold INT_MIN; lia).
    replace (b_kmap_cnt b + 1 <=? INT_MAX) with true by lia. mrun.
    rewrite Hne, Hnz. mrun.
    unfold ion_dma_buf_end_cpu_access, ion_buffer_kmap_put, int_add. mrun.
    replace (INT_MIN <=? b_kmap_cnt b + 1 + -1) with true by (unfold INT_MIN; lia).
    replace (b_kmap_cnt b + 1 + -1 <=? INT_MAX) with true by lia. mrun.
    replace (b_kmap_cnt b + 1 + -1) with (b_kmap_cnt b) by lia.
    rewrite (proj2 (Z.eqb_neq (b_kmap_cnt b) 0)) by lia. mrun.
    state_eq. rewrite insert_id; [done|]. rewrite Hb. f_equal. by destruct b.
  - intros Hk Hv. pose proof Hv as Hv'.
    unfold IS_ERR_OR_NULL in Hv'. apply orb_false_elim in Hv' as [Hnz Hne].
    split.
    + unfold ion_dma_buf_begin_cpu_access. mrun. rewrite Hop. mrun.
      unfold ion_buffer_kmap_get, int_add. mrun. rewrite Hk. mrun.
      rewrite Hv. mrun. rewrite ?Hk. mrun. rewrite Hne, Hnz. mrun. state_eq.
    + unfold ion_dma_buf_end_cpu_access, ion_buffer_kmap_put, int_add. mrun.
      state_eq. f_equal. destruct b. cbn in *. by subst.
  - intros Hk Hv.
    unfold ion_dma_buf_begin_cpu_access. mrun. rewrite Hop. mrun.
    unfold ion_buffer_kmap_get, int_add. mrun. rewrite Hk. mrun.
    rewrite Hv. mrun. unfold IS_ERR_OR_NULL in Hv.
    destruct (IS_ERR _) eqn:Herr; mrun.
    + assert (Hnz : (wrap (ops_map_kernel (trace s) (b_heap b) (db_priv d)) =? 0) = false).
      { unfold IS_ERR in Herr. apply Z.eqb_neq. intros Hz. rewrite Hz in Herr.
        vm_compute in Herr. done. }
      by rewrite Hnz.
    + rewrite orb_false_r in Hv. by rewrite Hv.
Qed.

End HeapOperations.

(** ** Descriptors *)

Section Descriptors.
Context {P : Platform} {E : Environment} {U : UserAccess}.

Lemma first_unused_lower tbl n : ∀ fd, fd ≤ first_unused tbl fd n.
Proof.
  induction n as [|n IH]; intros fd; cbn [first_unused]; [lia|].
  destruct (tbl !! fd); [|lia]. specialize (IH (fd + 1)). lia.
Qed.

(** Among [n + 1] consecutive numbers one is not a key of a table of [n]
    entries, and the search stops at the first. *)
Lemma first_unused_fresh_from (tbl : gmap Z Z) n : ∀ (m : gmap Z Z) fd,
  (size m ≤ n)%nat → (∀ k, fd ≤ k → tbl !! k = m !! k) →
  tbl !! first_unused tbl fd n = None.
Proof.
  induction n as [|n IH]; intros m fd Hsize Hsame; cbn [first_unused].
  - assert (Hm : m = ∅) by (apply map_size_empty_iff; lia).
    rewrite (Hsame fd) by lia. by rewrite Hm, lookup_empty.
  - destruct (tbl !! fd) as [x|] eqn:Hfd; [|done].
    apply (IH (delete fd m)).
    + assert (Hmfd : m !! fd = Some x) by (rewrite <- Hsame by lia; done).
      rewrite map_size_delete, Hmfd. destruct (size m); cbn; lia.
    + intros k Hk. rewrite lookup_delete_ne by lia. apply Hsame. lia.
Qed.

Lemma first_unused_fresh (tbl : gmap Z Z) :
  tbl !! first_unused tbl 0 (size tbl) = None.
Proof. by apply (first_unused_fresh_from tbl (size tbl) tbl 0). Qed.

(** X6: sharing a buffer as a descriptor and closing the descriptor.
    [ion_share_dma_buf_fd] on a handle of the caller takes a reference on
    the buffer for the new dma-buf and installs it under a descriptor that
    was not in use; closing that descriptor drops the dma-buf, whose
    release gives the buffer's reference back.  Afterwards the handles,
    the buffers with their counts, the clients and the descriptor table
    are what they were. *)
Theorem share_close_roundtrip s client cl handle hd b :
  clients s !! client = Some cl → handle ∈ c_handles cl →
  handles s !! handle = Some hd → buffers s !! h_buffer hd = Some b →
  1 ≤ b_ref b < 2 ^ 32 - 1 →
  dma_buf_export_fails (trace s) = false →
  memory_available kzalloc_fails s →
  let buffer := h_buffer hd in
  let dmabuf := brk s in
  dma_buf_fd_fails (trace s ++ [EvKzalloc dmabuf; EvExport buffer dmabuf]) = false →
  ∃ fd s1,
    ion_share_dma_buf_fd client handle s = Ok fd s1 ∧
    0 ≤ fd ∧ files s !! fd = None ∧ files s1 !! fd = Some dmabuf ∧
    dmabufs s1 !! dmabuf = Some (DmaBuf true buffer 1) ∧
    buffers s1 !! buffer = Some (with_b_ref (b_ref b + 1) b) ∧
    sys_close fd s1
    = Ok 0 (set_dmabufs (delete dmabuf)
             (set_brk (λ p, p + KMALLOC_MINALIGN)
               (set_trace (λ t, t ++ [EvKzalloc dmabuf; EvExport buffer dmabuf;
                                      EvFdInstall dmabuf fd; EvKfree dmabuf]) s))).
Proof.
  intros Hcl Hin Hh Hb Href Hexp Hmem buffer dmabuf Hfd. subst buffer dmabuf.
  destruct (allocated_address_valid _ _ Hmem) as [Hnz Hvalid].
  pose proof (valid_handle_checked _ _ _ _ Hcl Hin) as Hv.
  set (fd := first_unused (files s) 0 (size (files s))).
  assert (Hfresh : files s !! fd = None) by apply first_unused_fresh.
  assert (Hpos : 0 ≤ fd) by apply first_unused_lower.
  assert (Herr : IS_ERR (brk s) = false).
  { unfold IS_ERR_OR_NULL in Hvalid. by apply orb_false_elim in Hvalid as [_ ?]. }
  assert (Hshare : ion_share_dma_buf_fd client handle s
    = Ok fd (set_files <[fd := brk s]>
              (set_dmabufs <[brk s := DmaBuf true (h_buffer hd) 1]>
                (set_buffers <[h_buffer hd := with_b_ref (b_ref b + 1) b]>
                  (set_brk (λ p, p + KMALLOC_MINALIGN)
                    (set_trace (λ t, t ++ [EvKzalloc (brk s);
                                           EvExport (h_buffer hd) (brk s);
                                           EvFdInstall (brk s) fd]) s)))))).
  { unfold ion_share_dma_buf_fd, ion_share_dma_buf.
    mred. rewrite Hv. mrun.
    unfold ion_buffer_get, atomic_inc. mrun.
    rewrite (wrap_small (b_ref b + 1)) by lia.
    unfold dma_buf_export. mrun. rewrite Hexp. mred.
    unfold kzalloc. rewrite allocate_memory_ok by exact Hmem.
    mred. rewrite Hnz. mrun. repeat (rewrite Herr; mrun).
    unfold dma_buf_fd. mrun. rewrite <- ?app_assoc. cbn [app]. rewrite Hfd.
    fold fd. mrun. replace (fd <? 0) with false by lia. mrun. state_eq. }
  eexists fd, _. split; [exact Hshare|].
  split_and!; [done|done|by mrun|by mrun|by mrun|].
  unfold sys_close. mrun. unfold dma_buf_put. mrun.
  unfold ion_dma_buf_release. mrun.
  unfold ion_buffer_put, atomic_dec. mrun.
  replace (b_ref b + 1 - 1) with (b_ref b) by lia.
  rewrite (wrap_small (b_ref b)) by lia.
  rewrite (proj2 (Z.eqb_neq (b_ref b) 0)) by lia. mrun.
  state_eq.
  - rewrite insert_id; [done|]. rewrite Hb. f_equal. by destruct b.
  - by rewrite !delete_insert_eq.
  - by rewrite delete_insert_id.
Qed.


(** X7: importing a descriptor that cannot be imported.  For a client
    that has a task, a number that is not an open descriptor is answered
    with -EBADF and a dma-buf of another exporter with -EINVAL; in both
    cases no handle is created and the state is what it was, the
    reference taken on the foreign dma-buf having been given back.  For
    a client without a task (one that a kernel thread has created) there
    is no answer: the name and the pid are read through the null
    [client->task] before the descriptor is looked at. *)
Theorem import_refuses_other_descriptors s client cl fd :
  clients s !! client = Some cl →
  (c_task cl ≠ 0 → files s !! fd = None →
   ion_import_dma_buf client fd s = Ok (ERR_PTR (- EBADF)) s) ∧
  (c_task cl ≠ 0 →
   ∀ dmabuf d, files s !! fd = Some dmabuf → IS_ERR_OR_NULL dmabuf = false →
     dmabufs s !! dmabuf = Some d → db_ops_ion d = false → db_count d ≠ 0 →
     ion_import_dma_buf client fd s = Ok (ERR_PTR (- EINVAL)) s) ∧
  (c_task cl = 0 → ion_import_dma_buf client fd s = Crash BadPointer).
Proof.
  intros Hcl. split_and!.
  - intros Htask Hfd. unfold ion_import_dma_buf, dma_buf_get. mrun.
    rewrite (proj2 (Z.eqb_neq (c_task cl) 0)) by done. by mrun.
  - intros Htask dmabuf d Hfd Hvalid Hd Hops Hcount.
    unfold ion_import_dma_buf, dma_buf_get, dma_buf_put. mrun.
    rewrite (proj2 (Z.eqb_neq (c_task cl) 0)) by done. mrun.
    rewrite Hvalid. mrun. rewrite Hops. mrun.
    replace (db_count d + 1 - 1) with (db_count d) by lia.
    rewrite (proj2 (Z.eqb_neq (db_count d) 0)) by done. mrun.
    state_eq. rewrite insert_id; [done|]. rewrite Hd. f_equal. by destruct d.
  - intros Htask. unfold ion_import_dma_buf. mred. rewrite Hcl. mred.
    by rewrite Htask.
Qed.

(** X8: the sync request.  [ion_sync_for_device] answers -EBADF for a
    number that is not an open descriptor and -EINVAL for a dma-buf of
    another exporter, and returns 0 for one of its own; it never changes
    the state.  [ion_ioctl] drops that answer: once the argument has been
    copied in, ION_IOC_SYNC returns 0 in all three cases. *)
Theorem sync_request_always_succeeds s client handle fd :
  copy_from_user_fails (trace s) = false →
  (files s !! fd = None →
   ion_sync_for_device client fd s = Ok (- EBADF) s ∧
   ion_ioctl client (ION_IOC_SYNC handle fd) s = Ok (0, None) s) ∧
  (∀ dmabuf d, files s !! fd = Some dmabuf → IS_ERR_OR_NULL dmabuf = false →
     dmabufs s !! dmabuf = Some d → db_count d ≠ 0 →
     (db_ops_ion d = false →
      ion_sync_for_device client fd s = Ok (- EINVAL) s ∧
      ion_ioctl client (ION_IOC_SYNC handle fd) s = Ok (0, None) s) ∧
     (db_ops_ion d = true →
      ∀ b, buffers s !! db_priv d = Some b → b_sg_table b ≠ 0 →
      ion_sync_for_device client fd s = Ok 0 s ∧
      ion_ioctl client (ION_IOC_SYNC handle fd) s = Ok (0, None) s)).
Proof.
  intros Hcopy.
  assert (Hioctl : ∀ r, ion_sync_for_device client fd s = Ok r s →
            ion_ioctl client (ION_IOC_SYNC handle fd) s = Ok (0, None) s).
  { intros r Hr. unfold ion_ioctl, copy_from_user. mred. rewrite Hcopy. mred.
    by rewrite Hr. }
  assert (Hbad : files s !! fd = None → ion_sync_for_device client fd s = Ok (- EBADF) s).
  { intros Hfd. unfold ion_sync_for_device, dma_buf_get. by mrun. }
  split; [intros Hfd; split; [by apply Hbad|by apply (Hioctl (- EBADF)), Hbad]|].
  intros dmabuf d Hfd Hvalid Hd Hcount.
  assert (Hid : <[dmabuf := with_db_count (db_count d)
                               (with_db_count (db_count d + 1) d)]> (dmabufs s)
                = dmabufs s).
  { rewrite insert_id; [done|]. rewrite Hd. f_equal. by destruct d. }
  split.
  - intros Hops.
    assert (Hrun : ion_sync_for_device client fd s = Ok (- EINVAL) s).
    { unfold ion_sync_for_device, dma_buf_get, dma_buf_put. mrun.
      rewrite Hvalid. mrun. rewrite Hops. mrun.
      replace (db_count d + 1 - 1) with (db_count d) by lia.
      rewrite (proj2 (Z.eqb_neq (db_count d) 0)) by done. mrun. state_eq. }
    split; [done|by apply (Hioctl (- EINVAL))].
  - intros Hops b Hb Htable.
    assert (Hrun : ion_sync_for_device client fd s = Ok 0 s).
    { unfold ion_sync_for_device, dma_buf_get, dma_buf_put. mrun.
      rewrite Hvalid. mrun. rewrite Hops. mrun.
      rewrite (proj2 (Z.eqb_neq (b_sg_table b) 0)) by done. mrun.
      replace (db_count d + 1 - 1) with (db_count d) by lia.
      rewrite (proj2 (Z.eqb_neq (db_count d) 0)) by done. mrun. state_eq. }
    split; [done|by apply (Hioctl 0)].
Qed.

(** X9: requests that are turned away at the door.  An unknown command
    is answered with -ENOTTY, and so is ION_IOC_CUSTOM on a device
    without a custom handler; every other request whose argument cannot
    be copied in is answered with -EFAULT.  None of them changes the
    state or writes anything back. *)
Theorem ioctl_bad_requests s client :
  (∀ cmd, ion_ioctl client (ION_IOC_OTHER cmd) s = Ok (- ENOTTY, None) s) ∧
  (is_Some (clients s !! client) → custom_ioctl = None →
   ∀ cmd arg, ion_ioctl client (ION_IOC_CUSTOM cmd arg) s = Ok (- ENOTTY, None) s) ∧
  (copy_from_user_fails (trace s) = true →
   ∀ req, (∀ cmd, req ≠ ION_IOC_OTHER cmd) →
     (∀ cmd arg, req = ION_IOC_CUSTOM cmd arg →
                 is_Some (clients s !! client) ∧ is_Some custom_ioctl) →
     ion_ioctl client req s = Ok (- EFAULT, None) s).
Proof.
  split_and!.
  - done.
  - intros [cl Hcl] Hnone cmd arg. unfold ion_ioctl. mrun. by rewrite Hnone.
  - intros Hcopy req Hother Hcustom.
    destruct req; unfold ion_ioctl, copy_from_user; mred; rewrite ?Hcopy; try done.
    + destruct (Hcustom cmd arg eq_refl) as [[cl Hcl] [custom Hc]].
      rewrite Hcl. mred. rewrite Hc. mred. by rewrite Hcopy.
    + by destruct (Hother cmd).
Qed.

End Descriptors.

(** ** The order of the heaps *)

Section HeapOrder.
Context {P : Platform} {E : Environment}.

(** For an id up to 2^31 the priority is the id negated; above, it is
    positive. *)
Lemma heap_priority_small id : 0 ≤ id ≤ 2 ^ 31 → heap_priority id = - id.
Proof.
  intros Hid. unfold heap_priority, sint, wrap, BITS_PER_LONG.
  destruct (decide (id = 0)) as [->|Hnz]; [done|].
  rewrite Z.mod_mod by lia.
  assert (Hw : (- id) mod 2 ^ 32 = 2 ^ 32 - id)
    by (symmetry; apply (Z.mod_unique _ _ (-1)); lia).
  rewrite Hw.
  destruct (2 ^ 32 - id <? 2 ^ 31) eqn:Hlt; lia.
Qed.

Lemma heap_priority_large id :
  2 ^ 31 < id < 2 ^ 32 → heap_priority id = 2 ^ 32 - id.
Proof.
  intros Hid. unfold heap_priority, sint, wrap, BITS_PER_LONG.
  rewrite Z.mod_mod by lia.
  assert (Hw : (- id) mod 2 ^ 32 = 2 ^ 32 - id)
    by (symmetry; apply (Z.mod_unique _ _ (-1)); lia).
  rewrite Hw.
  destruct (2 ^ 32 - id <? 2 ^ 31) eqn:Hlt; lia.
Qed.

Lemma by_priority_app s l1 l2 :
  by_priority s (l1 ++ l2) ↔
  by_priority s l1 ∧ by_priority s l2 ∧
  ∀ x y, x ∈ l1 → y ∈ l2 → priority_not_above s x y.
Proof.
  induction l1 as [|a l1 IH]; cbn [app by_priority].
  - split; [intros H; split_and!; [done|done|]|tauto].
    intros x y Hx. by apply elem_of_nil in Hx.
  - rewrite IH, Forall_app. split.
    + intros ([Ha1 Ha2] & Hl1 & Hl2 & Hcross). split_and!; try done.
      intros x y Hx Hy. apply elem_of_cons in Hx as [->|Hx]; [|by apply Hcross].
      rewrite Forall_forall in Ha2. by apply Ha2.
    + intros ([Ha1 Hl1] & Hl2 & Hcross). split_and!; try done.
      * apply Forall_forall. intros y Hy. apply Hcross; [apply list_elem_of_here|done].
      * intros x y Hx Hy. apply Hcross; [by apply list_elem_of_further|done].
Qed.

Lemma by_priority_same_ids s s' hs :
  (∀ x, hp_id <$> heaps s' !! x = hp_id <$> heaps s !! x) →
  by_priority s hs → by_priority s' hs.
Proof.
  intros Hids. induction hs as [|a hs IH]; cbn [by_priority]; [done|].
  intros [Ha Hhs]. split; [|by apply IH].
  eapply Forall_impl; [exact Ha|]. intros y Hay hx hy Hx Hy.
  pose proof (Hids a) as Hida. pose proof (Hids y) as Hidy.
  rewrite Hx in Hida. rewrite Hy in Hidy. cbn in Hida, Hidy.
  destruct (heaps s !! a) as [hx'|] eqn:Hx'; [|done].
  destruct (heaps s !! y) as [hy'|] eqn:Hy'; [|done].
  cbn in Hida, Hidy. injection Hida as Hida. injection Hidy as Hidy.
  rewrite Hida, Hidy. by apply Hay.
Qed.

(** [plist_add] puts the node behind every node whose priority is not
    greater and in front of every node whose priority is greater. *)
Lemma plist_add_spec s heap prio hs :
  Forall (λ x, is_Some (heaps s !! x)) hs → by_priority s hs →
  ∃ before after,
    hs = before ++ after ∧
    plist_add heap prio hs s = Ok (before ++ heap :: after) s ∧
    Forall (λ x, ∀ hx, heaps s !! x = Some hx → heap_priority (hp_id hx) ≤ prio)
           before ∧
    Forall (λ x, ∀ hx, heaps s !! x = Some hx → prio < heap_priority (hp_id hx))
           after.
Proof.
  induction hs as [|a hs IH]; intros Hlive Hsorted.
  - exists [], []. by split_and!.
  - apply Forall_cons in Hlive as [[ha Ha] Hlive]. destruct Hsorted as [Hbelow Hsorted].
    cbn [plist_add]. mrun. destruct (prio <? heap_priority (hp_id ha)) eqn:Hlt.
    + exists [], (a :: hs). split_and!; [done|by mred|constructor|].
      apply Forall_cons. split.
      * intros hx Hx. assert (hx = ha) by congruence. subst. lia.
      * eapply Forall_impl; [exact Hbelow|]. intros y Hay hy Hy.
        specialize (Hay ha hy Ha Hy). lia.
    + destruct (IH Hlive Hsorted) as (before & after & -> & Hrun & Hb & Haf).
      exists (a :: before), after. split_and!; [done| |  |done].
      * rewrite Hrun. by mred.
      * apply Forall_cons. split; [|done].
        intros hx Hx. assert (hx = ha) by congruence. subst. lia.
Qed.

(** X10: registering a heap keeps the list of heaps in the order of the
    priorities of their nodes, lowest first, which is the order in which
    [ion_alloc] tries them.  The priority is [-heap->id], computed on
    the [unsigned int] id and stored in an [int]: the new heap goes
    behind the heaps whose priority is at most its own and in front of
    those whose priority is greater.  Among heaps whose ids are at most
    2^31 this is the order of the ids, highest first: the new heap goes
    behind those whose id is at least its own and in front of those with
    a smaller id.  (An id above 2^31 has a positive priority, and such a
    heap goes behind all those.)  A heap that defers freeing starts with
    an empty free list; nothing else changes. *)
Theorem ion_device_add_heap_keeps_order s heap hp :
  heaps s !! heap = Some hp →
  Forall (λ x, is_Some (heaps s !! x)) (dev_heaps s) →
  by_priority s (dev_heaps s) →
  ∃ before after,
    dev_heaps s = before ++ after ∧
    let hp' := if deferred_free hp then with_hp_free_list [] hp else hp in
    let s' := set_dev_heaps (λ _, before ++ heap :: after)
                (set_heaps <[heap := hp']> s) in
    ion_device_add_heap heap s = Ok () s' ∧
    Forall (λ x, ∀ hx, heaps s !! x = Some hx →
              heap_priority (hp_id hx) ≤ heap_priority (hp_id hp)) before ∧
    Forall (λ x, ∀ hx, heaps s !! x = Some hx →
              heap_priority (hp_id hp) < heap_priority (hp_id hx)) after ∧
    by_priority s' (dev_heaps s') ∧
    (0 ≤ hp_id hp ≤ 2 ^ 31 →
     Forall (λ x, ∀ hx, heaps s !! x = Some hx → 0 ≤ hp_id hx ≤ 2 ^ 31 →
               hp_id hp ≤ hp_id hx) before ∧
     Forall (λ x, ∀ hx, heaps s !! x = Some hx → 0 ≤ hp_id hx ≤ 2 ^ 31 →
               hp_id hx < hp_id hp) after).
Proof.
  intros Hhp Hlive Hsorted.
  set (hp' := if deferred_free hp then with_hp_free_list [] hp else hp).
  set (s1 := set_heaps <[heap := hp']> s).
  assert (Hids : ∀ x, hp_id <$> heaps s1 !! x = hp_id <$> heaps s !! x).
  { intros x. subst s1. cbn. destruct (decide (x = heap)) as [->|Hne].
    - rewrite lookup_insert_eq, Hhp. subst hp'. by destruct (deferred_free hp).
    - by rewrite lookup_insert_ne. }
  assert (Hlive1 : Forall (λ x, is_Some (heaps s1 !! x)) (dev_heaps s)).
  { eapply Forall_impl; [exact Hlive|]. intros x [hx Hx]. pose proof (Hids x) as Hi.
    rewrite Hx in Hi. destruct (heaps s1 !! x); [eauto|done]. }
  pose proof (by_priority_same_ids s s1 _ Hids Hsorted) as Hsorted1.
  destruct (plist_add_spec s1 heap (heap_priority (hp_id hp)) (dev_heaps s)
              Hlive1 Hsorted1)
    as (before & after & Hsplit & Hrun & Hb & Haf).
  assert (Hsame : ∀ x hx, heaps s !! x = Some hx →
            ∃ hx1, heaps s1 !! x = Some hx1 ∧ hp_id hx1 = hp_id hx).
  { intros x hx Hx. pose proof (Hids x) as Hi. rewrite Hx in Hi.
    destruct (heaps s1 !! x) as [hx1|]; [|done]. exists hx1. split; [done|].
    cbn in Hi. congruence. }
  assert (Hb' : Forall (λ x, ∀ hx, heaps s !! x = Some hx →
                   heap_priority (hp_id hx) ≤ heap_priority (hp_id hp)) before).
  { eapply Forall_impl; [exact Hb|]. intros x Hx hx Hhx.
    destruct (Hsame x hx Hhx) as (hx1 & Hx1 & <-). by apply Hx. }
  assert (Haf' : Forall (λ x, ∀ hx, heaps s !! x = Some hx →
                    heap_priority (hp_id hp) < heap_priority (hp_id hx)) after).
  { eapply Forall_impl; [exact Haf|]. intros x Hx hx Hhx.
    destruct (Hsame x hx Hhx) as (hx1 & Hx1 & <-). by apply Hx. }
  exists before, after. split; [done|]. cbv zeta. fold hp'. fold s1.
  split_and!; [|done|done| |].
  - assert (Hnd : deferred_free hp = false → s1 = s).
    { intros Hdf. subst s1 hp'. rewrite Hdf. apply state_ext; try done.
      cbn. by apply insert_id. }
    assert (Hdf : deferred_free hp = true → hp' = with_hp_free_list [] hp).
    { intros Hdf. subst hp'. by rewrite Hdf. }
    unfold ion_device_add_heap. mrun. fold (deferred_free hp).
    destruct (deferred_free hp) eqn:Hd; mrun.
    + rewrite <- (Hdf eq_refl). fold s1. rewrite Hrun. by mred.
    + rewrite (Hnd eq_refl) in Hrun |- *. rewrite Hrun. by mred.
  - cbn. rewrite Hsplit in Hsorted1.
    apply by_priority_app in Hsorted1 as (Hs_b & Hs_a & Hcross).
    assert (Hheap1 : heaps s1 !! heap = Some hp') by (subst s1; cbn; apply lookup_insert_eq).
    assert (Hid' : hp_id hp' = hp_id hp) by (subst hp'; by destruct (deferred_free hp)).
    assert (Hdesc : by_priority s1 (before ++ heap :: after)).
    { apply by_priority_app. split_and!; [done| |].
      - cbn [by_priority]. split; [|done].
        eapply Forall_impl; [exact Haf|]. intros y Hy hx hy Hx Hyy.
        assert (hx = hp') by congruence. subst hx. rewrite Hid'.
        specialize (Hy hy Hyy). lia.
      - intros x y Hx Hy. apply elem_of_cons in Hy as [->|Hy]; [|by apply Hcross].
        intros hx hy Hhx Hhy. assert (hy = hp') by congruence. subst hy.
        rewrite Hid'. rewrite Forall_forall in Hb. by apply (Hb x Hx). }
    eapply by_priority_same_ids; [|exact Hdesc]. done.
  - intros Hid. split.
    + eapply Forall_impl; [exact Hb'|]. intros x Hx hx Hhx Hidx.
      specialize (Hx hx Hhx).
      rewrite (heap_priority_small _ Hid), (heap_priority_small _ Hidx) in Hx. lia.
    + eapply Forall_impl; [exact Haf'|]. intros x Hx hx Hhx Hidx.
      specialize (Hx hx Hhx).
      rewrite (heap_priority_small _ Hid), (heap_priority_small _ Hidx) in Hx. lia.
Qed.

End HeapOrder.

(** ** Allocation *)

Section Allocation.
Context {P : Platform} {E : Environment} {U : UserAccess}.

Lemma land_bit_set mask id :
  0 ≤ id < 32 → Z.testbit mask id = true →
  (Z.land (wrap (Z.shiftl 1 id)) mask =? 0) = false.
Proof.
  intros Hid Hbit. apply Z.eqb_neq. intros Hz.
  assert (Hb : Z.testbit (Z.land (wrap (Z.shiftl 1 id)) mask) id = true).
  { rewrite Z.land_spec, Hbit, andb_true_r. unfold wrap, BITS_PER_LONG.
    rewrite Z.mod_pow2_bits_low by lia. rewrite Z.shiftl_spec by lia.
    by rewrite Z.sub_diag. }
  rewrite Hz, Z.bits_0 in Hb. done.
Qed.

Lemma ion_alloc_walk_skip s skipped hs len align heap_id_mask flags buffer heap_used :
  no_heap_selected s skipped heap_id_mask →
  ion_alloc_walk (skipped ++ hs) len align heap_id_mask flags buffer heap_used s
  = ion_alloc_walk hs len align heap_id_mask flags buffer heap_used s.
Proof.
  induction skipped as [|heap skipped IH]; intros Hsel; [done|].
  apply Forall_cons in Hsel as [(hp & Hhp & Hbit) Hrest].
  cbn [app ion_alloc_walk]. mred. rewrite Hhp.
  rewrite (land_bit_clear _ _ Hbit). cbn. by apply IH.
Qed.

Lemma rb_erase_insert k t : k ∉ t → rb_erase k (rb_insert k t) = t.
Proof.
  unfold rb_erase. induction t as [|x t IH]; intros Hk; cbn [rb_insert].
  - by rewrite filter_cons_False, filter_nil by naive_solver.
  - apply not_elem_of_cons in Hk as [Hne Hk]. destruct (k <? x).
    + rewrite filter_cons_False by naive_solver.
      rewrite filter_cons_True by naive_solver. f_equal.
      clear IH. induction t as [|y t IH]; [done|].
      apply not_elem_of_cons in Hk as [Hne' Hk].
      rewrite filter_cons_True by naive_solver. f_equal. by apply IH.
    + rewrite filter_cons_True by naive_solver. f_equal. by apply IH.
Qed.

(** The buffer that [ion_buffer_create] builds when the heap allocates at
    the first attempt, the buffer can be mapped for DMA and, where the
    flags ask for a page array, vmalloc has room for it. *)
Lemma ion_buffer_create_success s heap hp len align flags :
  heaps s !! heap = Some hp →
  memory_available kzalloc_fails s →
  let buffer := brk s in
  let t1 := trace s ++ [EvKzalloc buffer] in
  sint (ops_allocate t1 heap buffer len align flags) = 0 →
  let t2 := t1 ++ [EvAllocate heap buffer len align flags 0] in
  let table := wrap (ops_map_dma t2 heap buffer) in
  IS_ERR_OR_NULL table = false →
  let t3 := t2 ++ [EvMapDma heap buffer table] in
  let fault := ion_buffer_fault_user_mappings flags in
  let pages := if fault then buffer + KMALLOC_MINALIGN else 0 in
  let t4 := if fault then t3 ++ [EvVmalloc pages] else t3 in
  let top := if fault then buffer + 2 * KMALLOC_MINALIGN else buffer + KMALLOC_MINALIGN in
  (fault = true → vmalloc_fails t3 = false) →
  top < ADDRESS_END →
  buffer ∉ dev_buffers s →
  ion_buffer_create heap len align flags s
  = Ok buffer (set_buffers <[buffer := IonBuffer 1 heap flags len 0 0 table pages 0]>
                (set_dev_buffers (rb_insert buffer)
                  (set_brk (λ _, top) (set_trace (λ _, t4) s)))).
Proof.
  intros Hhp Hmem buffer t1 Hr1 t2 table Htable t3 fault pages t4 top Hvm Htop Hnew.
  subst buffer t1 t2 table t3 pages t4 top.
  destruct (allocated_address_valid _ _ Hmem) as [Hnz Hvalid].
  destruct Hmem as (Hkz & Hlo & Hhi).
  assert (Hadd : rb_find (brk s) (dev_buffers s) = false)
    by (unfold rb_find; by apply bool_decide_eq_false_2).
  unfold ion_buffer_create, kzalloc. mred.
  rewrite (allocate_memory_ok _ _ s) by done. mred. rewrite Hnz. mred.
  rewrite Hhp. mred. unfold call_allocate. mred. rewrite Hr1. mrun.
  rewrite <- ?app_assoc in Htable; cbn [app] in Htable.
  rewrite <- ?app_assoc; cbn [app]. rewrite Htable. mrun.
  destruct fault eqn:Hfault; subst fault; rewrite Hfault; mrun.
  - specialize (Hvm eq_refl). rewrite <- ?app_assoc in Hvm; cbn [app] in Hvm.
    unfold vmalloc, allocate_memory. mrun. rewrite <- ?app_assoc; cbn [app].
    rewrite Hvm. unfold KMALLOC_MINALIGN in *.
    replace (0 <? brk s + 8) with true by lia.
    replace (ADDRESS_END <=? brk s + 8 + 8) with false by lia. mrun.
    replace (brk s + 8 =? 0) with false by lia. mrun.
    unfold ion_buffer_add. mrun. rewrite Hadd. mrun. state_eq.
    lia.
  - unfold ion_buffer_add. mrun. rewrite Hadd. mrun. state_eq.
Qed.

End Allocation.

(** *** A request served by the first heap it selects *)

Section FirstHeap.
Context {P : Platform} {E : Environment} {U : UserAccess}.
Variables (s : state) (client : Z) (cl : ion_client).
Variables (skipped : list Z) (heap : Z) (rest : list Z) (hp : ion_heap).
Variables (len align heap_id_mask flags : Z).

Let size := PAGE_ALIGN len.
Let buffer := brk s.
Let t1 := trace s ++ [EvKzalloc buffer].
Let t2 := t1 ++ [EvAllocate heap buffer size align flags 0].
Let table := wrap (ops_map_dma t2 heap buffer).
Let t3 := t2 ++ [EvMapDma heap buffer table].
Let fault := ion_buffer_fault_user_mappings flags.
Let pages := if fault then buffer + KMALLOC_MINALIGN else 0.
Let t4 := if fault then t3 ++ [EvVmalloc pages] else t3.
Let handle := if fault then buffer + 2 * KMALLOC_MINALIGN else buffer + KMALLOC_MINALIGN.

(** The state the request leaves behind. *)
Let served : state :=
  set_handles <[handle := IonHandle 1 client buffer true 0]>
    (set_buffers <[buffer := IonBuffer 1 heap flags size 0 0 table pages 1]>
      (set_heaps <[heap := with_hp_used (wrap (hp_used hp + size)) hp]>
        (set_clients <[client := with_c_handles (rb_insert handle (c_handles cl)) cl]>
          (set_dev_buffers (rb_insert buffer)
            (set_brk (λ _, handle + KMALLOC_MINALIGN)
              (set_trace (λ _, t4 ++ [EvKzalloc handle]) s)))))).

Hypothesis client_live : clients s !! client = Some cl.
Hypothesis length_given : len ≠ 0.
Hypothesis heap_list : dev_heaps s = skipped ++ heap :: rest.
Hypothesis earlier_heaps_not_selected : no_heap_selected s skipped heap_id_mask.
Hypothesis heap_live : heaps s !! heap = Some hp.
Hypothesis heap_id_small : 0 ≤ hp_id hp < 32.
Hypothesis heap_selected : Z.testbit heap_id_mask (hp_id hp) = true.
Hypothesis room_for_buffer : memory_available kzalloc_fails s.
Hypothesis heap_allocates : sint (ops_allocate t1 heap buffer size align flags) = 0.
Hypothesis heap_maps : IS_ERR_OR_NULL table = false.
Hypothesis room_for_pages : fault = true → vmalloc_fails t3 = false.
Hypothesis room_for_handle : kzalloc_fails t4 = false.
Hypothesis address_space_left : handle + KMALLOC_MINALIGN < ADDRESS_END.
Hypothesis buffer_address_fresh : buffer ∉ dev_buffers s.
Hypothesis handle_address_fresh : handle ∉ c_handles cl.

Lemma ion_alloc_first_heap :
  ion_alloc client len align heap_id_mask flags s = Ok handle served.
Proof.
  destruct (allocated_address_valid _ _ room_for_buffer) as [Hnz Hvalid].
  pose proof room_for_buffer as (Hkz & Hlo & Hhi).
  pose proof address_space_left as Hspace.
  pose proof room_for_handle as Hroom.
  pose proof handle_address_fresh as Hfresh.
  assert (Htop : (if fault then buffer + 2 * KMALLOC_MINALIGN
                  else buffer + KMALLOC_MINALIGN) < ADDRESS_END).
  { fold handle. unfold KMALLOC_MINALIGN in *. lia. }
  pose proof (ion_buffer_create_success s heap hp size align flags heap_live
                room_for_buffer heap_allocates heap_maps room_for_pages Htop
                buffer_address_fresh) as Hcreate.
  assert (Herr : IS_ERR (brk s) = false).
  { unfold IS_ERR_OR_NULL in Hvalid. by apply orb_false_elim in Hvalid as [_ ?]. }
  assert (Hend : ADDRESS_END = 4294963201) by reflexivity.
  unfold ion_alloc. mred. rewrite client_live.
  rewrite (proj2 (Z.eqb_neq len 0)) by done.
  rewrite heap_list, (ion_alloc_walk_skip _ _ _ _ _ _ _ _ _ earlier_heaps_not_selected).
  cbn [ion_alloc_walk]. mred. rewrite heap_live.
  rewrite (land_bit_set _ _ heap_id_small heap_selected). mred.
  unfold size in Hcreate. rewrite Hcreate. clear Hcreate.
  unfold served, handle, t4, pages, t3, table, t2, t1, buffer, size, fault,
    KMALLOC_MINALIGN in Hspace, Hroom, Hfresh, Hhi |- *.
  change (ERR_PTR (- ENOMEM)) with 4294967284.
  destruct (ion_buffer_fault_user_mappings flags) eqn:Hf.
  all: rewrite Hvalid; mrun;
    replace (brk s =? 4294967284) with false by lia;
    rewrite ?Hvalid; mrun; rewrite ?Hnz; rewrite ?Herr; mrun;
    unfold ion_handle_create, kzalloc, allocate_memory; mrun;
    unfold KMALLOC_MINALIGN;
    rewrite Hroom.
  all: match goal with
       | |- context [0 <? ?top] =>
           replace (0 <? top) with true by lia;
           replace (ADDRESS_END <=? top + 8) with false by lia;
           mrun; rewrite (proj2 (Z.eqb_neq top 0)) by lia; mrun;
           unfold ion_buffer_get, atomic_inc, ion_buffer_add_to_handle, int_add; mrun;
           unfold ion_buffer_put, atomic_dec; mrun;
           assert (Hherr : IS_ERR top = false)
             by (unfold IS_ERR; change (wrap (- MAX_ERRNO)) with ADDRESS_END;
                 apply Z.leb_gt; lia);
           rewrite Hherr; mrun
       end.
  all: unfold ion_handle_add; mrun; unfold rb_find;
    rewrite (proj2 (bool_decide_eq_false _)) by exact Hfresh; mrun;
    state_eq.
Qed.

(** X11: a request that the first selected heap can serve.  Heaps in
    front of it that the mask does not select are passed over.  The
    buffer is created on the heap with the page-aligned length, a
    reference count of one and one attached handle, and is put into the
    device's index; the heap's [used] counter grows by the aligned length;
    a handle with one reference is created for it and put into the
    caller's tree, where validation finds it. *)
Theorem ion_alloc_serves_request :
  ion_alloc client len align heap_id_mask flags s = Ok handle served ∧
  IS_ERR_OR_NULL handle = false ∧
  handles served !! handle = Some (IonHandle 1 client buffer true 0) ∧
  buffers served !! buffer = Some (IonBuffer 1 heap flags size 0 0 table pages 1) ∧
  (buffer ∈ dev_buffers served) ∧
  hp_used <$> heaps served !! heap = Some (wrap (hp_used hp + size)) ∧
  ion_handle_validate client handle served = Ok true served.
Proof.
  split; [exact ion_alloc_first_heap|].
  pose proof room_for_buffer as (Hkz & Hlo & Hhi).
  pose proof address_space_left as Hspace.
  assert (Hend : ADDRESS_END = 4294963201) by reflexivity.
  assert (Hne : handle ≠ buffer ∧ 0 < handle < ADDRESS_END).
  { unfold handle, buffer, KMALLOC_MINALIGN in *. destruct fault; lia. }
  split_and!.
  - unfold IS_ERR_OR_NULL, IS_ERR. change (wrap (- MAX_ERRNO)) with ADDRESS_END.
    apply orb_false_intro; lia.
  - unfold served. cbn. apply lookup_insert_eq.
  - unfold served. cbn. apply lookup_insert_eq.
  - unfold served. cbn. apply rb_insert_elem. by left.
  - unfold served. cbn. by rewrite lookup_insert_eq.
  - apply (valid_handle_checked _ _ (with_c_handles (rb_insert handle (c_handles cl)) cl)).
    + unfold served. cbn. apply lookup_insert_eq.
    + cbn. apply rb_insert_elem. by left.
Qed.

Hypothesis handle_address_unused : handles s !! handle = None.
Hypothesis buffer_address_unused : buffers s !! buffer = None.
Hypothesis used_in_range : 0 ≤ hp_used hp < 2 ^ 32.
Hypothesis buffer_not_queued : buffer ∉ hp_free_list hp.

(** What tearing the new buffer down asks of the heap and the allocator. *)
Let teardown : list event :=
  [EvUnmapDma heap buffer; EvHeapFree buffer] ++
  (if fault then [EvVfree pages] else []) ++ [EvKfree buffer].

Lemma used_restored : wrap (wrap (hp_used hp + size) - size) = hp_used hp.
Proof.
  unfold wrap, BITS_PER_LONG. rewrite Zminus_mod_idemp_l.
  replace (hp_used hp + size - size) with (hp_used hp) by lia.
  apply Z.mod_small. exact used_in_range.
Qed.

Lemma ion_free_of_served :
  ion_free client handle served
  = if deferred_free hp then
      Ok () (set_buffers <[buffer := IonBuffer 0 heap flags size 0 0 table pages 0]>
              (set_heaps <[heap := with_hp_free_list (buffer :: hp_free_list hp)
                                     (with_hp_used (wrap (hp_used hp + size)) hp)]>
                (set_brk (λ _, handle + KMALLOC_MINALIGN)
                  (set_trace (λ _, t4 ++ [EvKzalloc handle; EvWakeUp heap;
                                          EvKfree handle]) s))))
    else
      Ok () (set_brk (λ _, handle + KMALLOC_MINALIGN)
              (set_trace (λ _, t4 ++ [EvKzalloc handle] ++ teardown ++
                                [EvKfree handle]) s)).
Proof.
  pose proof room_for_buffer as (Hkz & Hlo & Hhi).
  pose proof address_space_left as Hspace.
  assert (Hne : handle ≠ buffer ∧ 0 < handle).
  { unfold handle, buffer, KMALLOC_MINALIGN in *. destruct fault; lia. }
  destruct Hne as [Hne Hpos].
  assert (Hin : handle ∈ rb_insert handle (c_handles cl))
    by (apply rb_insert_elem; by left).
  pose proof used_restored as Hused.
  pose proof (rb_erase_insert handle (c_handles cl) handle_address_fresh) as Htree.
  pose proof (rb_erase_insert buffer (dev_buffers s) buffer_address_fresh) as Hindex.
  unfold ion_free, served. mrun.
  unfold ion_handle_validate. mrun. unfold rb_find.
  rewrite bool_decide_eq_true_2 by done. mrun.
  unfold ion_handle_put, atomic_dec. mrun.
  unfold ion_handle_destroy. mrun. change (Z.to_nat 0) with O.
  cbn [handle_kmap_drain]. mrun.
  unfold ion_buffer_remove_from_handle, int_add. mrun.
  unfold ion_buffer_put, atomic_dec. mrun.
  unfold ion_buffer_destroy. mrun. fold (deferred_free hp).
  destruct (deferred_free hp) eqn:Hd; mrun.
  - state_eq; rewrite ?Htree, ?Hindex; try done.
    + by rewrite delete_insert_id.
    + rewrite insert_id; [done|]. rewrite client_live. f_equal. by destruct cl.
  - unfold _ion_buffer_destroy. mrun.
    unfold teardown, pages. destruct fault eqn:Hf.
    + rewrite (proj2 (Z.eqb_neq (buffer + KMALLOC_MINALIGN) 0))
        by (unfold buffer, KMALLOC_MINALIGN; lia).
      mrun. state_eq; rewrite ?Htree, ?Hindex, ?Hused; try done.
      * by rewrite delete_insert_id.
      * by rewrite delete_insert_id.
      * rewrite insert_id; [done|]. rewrite heap_live. f_equal. by destruct hp.
      * rewrite insert_id; [done|]. rewrite client_live. f_equal. by destruct cl.
    + mrun. state_eq; rewrite ?Htree, ?Hindex, ?Hused; try done.
      * by rewrite delete_insert_id.
      * by rewrite delete_insert_id.
      * rewrite insert_id; [done|]. rewrite heap_live. f_equal. by destruct hp.
      * rewrite insert_id; [done|]. rewrite client_live. f_equal. by destruct cl.
Qed.

Lemma rb_erase_absent k t : k ∉ t → rb_erase k t = t.
Proof.
  unfold rb_erase. induction t as [|x t IH]; intros Hk; [done|].
  apply not_elem_of_cons in Hk as [Hne Hk].
  rewrite filter_cons_True by naive_solver. f_equal. by apply IH.
Qed.

(** Everything as it was before the request, but for the allocator's
    cursor and the trace. *)
Let restored (evs : list event) : state :=
  set_brk (λ _, handle + KMALLOC_MINALIGN)
    (set_trace (λ _, t4 ++ [EvKzalloc handle] ++ evs) s).

(** X12: allocating and freeing again.  After [ion_alloc] has been
    served by a heap that frees at once, [ion_free] on the new handle
    tears the buffer down (unmap_dma, free, the page array, the record)
    and leaves the handles, the buffers, the heaps with their [used]
    counters, the client's tree and the device's index exactly as they
    were before the request.  Over a heap that defers freeing the same
    holds after the worker's next turn. *)
Theorem alloc_free_roundtrip :
  ∃ s1, ion_alloc client len align heap_id_mask flags s = Ok handle s1 ∧
    if deferred_free hp then
      (ion_free client handle ;; ion_heap_deferred_free_turn heap) s1
      = Ok true (restored ([EvWakeUp heap; EvKfree handle] ++ teardown))
    else
      ion_free client handle s1 = Ok () (restored (teardown ++ [EvKfree handle])).
Proof.
  exists served. split; [exact ion_alloc_first_heap|].
  pose proof ion_free_of_served as Hfree.
  destruct (deferred_free hp) eqn:Hd; [|exact Hfree].
  unfold mbind, M_bind. rewrite Hfree.
  pose proof room_for_buffer as (Hkz & Hlo & Hhi).
  rewrite (ion_heap_deferred_free_turn_spec _ heap
             (with_hp_free_list (buffer :: hp_free_list hp)
                (with_hp_used (wrap (hp_used hp + size)) hp))
             buffer (hp_free_list hp)
             (IonBuffer 0 heap flags size 0 0 table pages 0));
    [|by mrun|done|by mrun|done].
  unfold restored, teardown, teardown_events. mred. rewrite used_restored.
  rewrite (rb_erase_absent _ _ buffer_not_queued).
  unfold pages. destruct fault eqn:Hf.
  - rewrite (proj2 (Z.eqb_neq (buffer + KMALLOC_MINALIGN) 0))
      by (unfold buffer, KMALLOC_MINALIGN; lia).
    state_eq.
    + by rewrite delete_insert_id.
    + rewrite insert_id; [done|]. rewrite heap_live. f_equal. by destruct hp.
  - mred. state_eq.
    + by rewrite delete_insert_id.
    + rewrite insert_id; [done|]. rewrite heap_live. f_equal. by destruct hp.
Qed.

(** X13: the allocation request of [ion_ioctl].  When the new handle
    can be written back to the caller the request returns 0 and the
    handle.  When it cannot, the request frees the handle again before it
    returns -EFAULT: over a heap that frees at once nothing of the
    allocation is left. *)
Theorem ioctl_alloc_undone_when_reply_fails handle0 :
  copy_from_user_fails (trace s) = false →
  deferred_free hp = false →
  ion_ioctl client (ION_IOC_ALLOC len align heap_id_mask flags handle0) s
  = if copy_to_user_fails (t4 ++ [EvKzalloc handle])
    then Ok (- EFAULT, None) (restored (teardown ++ [EvKfree handle]))
    else Ok (0, Some (ion_allocation_data len align heap_id_mask flags handle)) served.
Proof.
  intros Hfrom Hd.
  pose proof room_for_buffer as (Hkz & Hlo & Hhi).
  pose proof address_space_left as Hspace.
  assert (Hend : ADDRESS_END = 4294963201) by reflexivity.
  assert (Herr : IS_ERR handle = false).
  { unfold IS_ERR. change (wrap (- MAX_ERRNO)) with ADDRESS_END. apply Z.leb_gt.
    unfold KMALLOC_MINALIGN in *. lia. }
  pose proof ion_free_of_served as Hfree. rewrite Hd in Hfree.
  unfold ion_ioctl, copy_from_user, copy_to_user. mred. rewrite Hfrom. mred.
  rewrite ion_alloc_first_heap. rewrite Herr. mred.
  replace (trace served) with (t4 ++ [EvKzalloc handle]) by done.
  destruct (copy_to_user_fails _); mred; [|done].
  by rewrite Hfree.
Qed.

(** X14: a length within a page of the top of the address space.  The
    request is refused only when the length is zero; a length above
    2^32 - PAGE_SIZE passes that test and is then page-aligned to zero, so
    the heap is asked for a buffer of zero bytes and the caller receives a
    valid handle on a buffer whose size is zero. *)
Theorem ion_alloc_length_wraps_to_zero :
  PAGE_SIZE = 4096 → 2 ^ 32 - 4096 < len < 2 ^ 32 →
  PAGE_ALIGN len = 0 ∧
  ion_alloc client len align heap_id_mask flags s = Ok handle served ∧
  IS_ERR_OR_NULL handle = false ∧
  buffers served !! buffer = Some (IonBuffer 1 heap flags 0 0 0 table pages 1) ∧
  EvAllocate heap buffer 0 align flags 0 ∈ trace served.
Proof.
  intros Hpage Hlen.
  assert (Hzero : PAGE_ALIGN len = 0).
  { unfold PAGE_ALIGN. rewrite Hpage.
    change (Z.land (len + 4096 - 1) (Z.lnot (4096 - 1)))
      with (Z.ldiff (len + 4096 - 1) (Z.ones 12)).
    rewrite Z.ldiff_ones_r by lia. rewrite Z.shiftr_div_pow2, Z.shiftl_mul_pow2 by lia.
    replace ((len + 4096 - 1) / 2 ^ 12) with (2 ^ 20).
    - reflexivity.
    - apply (Z.div_unique _ _ _ (len + 4096 - 1 - 2 ^ 32)); lia. }
  pose proof room_for_buffer as (Hkz & Hlo & Hhi).
  pose proof address_space_left as Hspace.
  assert (Hend : ADDRESS_END = 4294963201) by reflexivity.
  split_and!; [done|exact ion_alloc_first_heap| | |].
  - unfold IS_ERR_OR_NULL, IS_ERR. change (wrap (- MAX_ERRNO)) with ADDRESS_END.
    unfold handle, buffer, KMALLOC_MINALIGN in *.
    apply orb_false_intro; destruct fault; lia.
  - unfold served. cbn. rewrite lookup_insert_eq. unfold size. by rewrite Hzero.
  - unfold served. cbn. unfold t4, t3, t2, size. rewrite Hzero.
    destruct fault; rewrite !elem_of_app, !list_elem_of_singleton; tauto.
Qed.

End FirstHeap.

(** ** Dirty pages of cached buffers *)

Section PageTracking.
Context {P : Platform} {MM : MemoryManagement}.

Lemma tag_mask_bits n :
  0 ≤ n → Z.testbit PAGE_TAG_MASK n = (0 <? n) && (n <? 32).
Proof.
  intros Hn. change PAGE_TAG_MASK with (Z.ldiff (Z.ones 32) (Z.ones 1)).
  rewrite Z.ldiff_spec, !Z.testbit_ones_nonneg by lia.
  destruct (n <? 32) eqn:H1, (n <? 1) eqn:H2, (0 <? n) eqn:H3; try done; lia.
Qed.

Lemma one_bits n : 0 ≤ n → Z.testbit 1 n = (n =? 0).
Proof.
  intros Hn. change 1 with (Z.ones 1) at 1. rewrite Z.testbit_ones_nonneg by lia.
  destruct (n <? 1) eqn:H1, (n =? 0) eqn:H2; try done; lia.
Qed.

Lemma pointer_bits page n : 0 ≤ page < 2 ^ 32 → 32 ≤ n → Z.testbit page n = false.
Proof.
  intros Hp Hn. rewrite <- (Z.mod_small page (2 ^ 32)) by done.
  apply Z.mod_pow2_bits_high. lia.
Qed.

Lemma dirty_never_null page : (ion_buffer_page_dirty page =? 0) = false.
Proof.
  apply Z.eqb_neq. intros Hz.
  assert (Hb : Z.testbit (ion_buffer_page_dirty page) 0 = true).
  { unfold ion_buffer_page_dirty. rewrite Z.lor_spec, (one_bits 0) by lia.
    by rewrite orb_true_r. }
  rewrite Hz in Hb. done.
Qed.

(** X15: the dirty bit of an entry of [buffer->pages].  Marking an
    entry dirty and cleaning it change bit 0 and nothing else: the page
    that [ion_buffer_page] reads from the entry is the same before and
    after, an entry marked dirty tests dirty and is never null, a cleaned
    one tests clean, and cleaning a dirty mark on a page pointer gives
    the pointer back. *)
Theorem page_dirty_bit page :
  0 ≤ page < 2 ^ 32 →
  ion_buffer_page_is_dirty (ion_buffer_page_dirty page) = true ∧
  ion_buffer_page_is_dirty (ion_buffer_page_clean page) = false ∧
  ion_buffer_page (ion_buffer_page_dirty page) = ion_buffer_page page ∧
  ion_buffer_page (ion_buffer_page_clean page) = ion_buffer_page page ∧
  ion_buffer_page_dirty page ≠ 0 ∧
  (ion_buffer_page_is_dirty page = false →
   ion_buffer_page page = page ∧
   ion_buffer_page_clean (ion_buffer_page_dirty page) = page).
Proof.
  intros Hp.
  assert (Hbit0 : ∀ x, Z.land x 1 = 0 ↔ Z.testbit x 0 = false).
  { intros x. split.
    - intros Hz. pose proof (Z.land_spec x 1 0) as Hs.
      rewrite Hz, Z.bits_0, (one_bits 0), andb_true_r in Hs by lia. done.
    - intros Hb. apply Z.bits_inj'. intros n Hn.
      rewrite Z.land_spec, Z.bits_0, one_bits by lia.
      destruct (n =? 0) eqn:Hn0; [|by rewrite andb_false_r].
      assert (n = 0) by lia. subst. by rewrite Hb. }
  assert (Hdirty0 : Z.testbit (ion_buffer_page_dirty page) 0 = true).
  { unfold ion_buffer_page_dirty. rewrite Z.lor_spec, (one_bits 0) by lia.
    by rewrite orb_true_r. }
  assert (Hclean0 : Z.testbit (ion_buffer_page_clean page) 0 = false).
  { unfold ion_buffer_page_clean. rewrite Z.land_spec, tag_mask_bits by lia.
    by rewrite andb_false_r. }
  assert (Hsame : ion_buffer_page (ion_buffer_page_dirty page) = ion_buffer_page page).
  { unfold ion_buffer_page, ion_buffer_page_dirty. apply Z.bits_inj'. intros n Hn.
    rewrite !Z.land_spec, Z.lor_spec, tag_mask_bits, one_bits by lia.
    destruct (n =? 0) eqn:Hn0.
    - replace (0 <? n) with false by lia. by rewrite !andb_false_r.
    - by rewrite orb_false_r. }
  assert (Hclean : ∀ x, 0 ≤ x < 2 ^ 32 → Z.testbit x 0 = false →
            Z.land x PAGE_TAG_MASK = x).
  { intros x Hx Hb. apply Z.bits_inj'. intros n Hn.
    rewrite Z.land_spec, tag_mask_bits by lia.
    destruct (0 <? n) eqn:Hn0, (n <? 32) eqn:Hn32; cbn; rewrite ?andb_true_r,
      ?andb_false_r; try done.
    - symmetry. apply pointer_bits; [done|lia].
    - assert (n = 0) by lia. subst. by rewrite Hb.
    - assert (n = 0) by lia. subst. by rewrite Hb. }
  split_and!.
  - unfold ion_buffer_page_is_dirty. apply negb_true_iff, Z.eqb_neq.
    intros Hz. apply Hbit0 in Hz. congruence.
  - unfold ion_buffer_page_is_dirty. apply negb_false_iff, Z.eqb_eq.
    by apply Hbit0.
  - done.
  - unfold ion_buffer_page, ion_buffer_page_clean.
    by rewrite <- Z.land_assoc, Z.land_diag.
  - apply Z.eqb_neq, dirty_never_null.
  - intros Hnd. unfold ion_buffer_page_is_dirty in Hnd.
    apply negb_false_iff, Z.eqb_eq, Hbit0 in Hnd.
    split; [by apply Hclean|].
    change (ion_buffer_page_clean ?x) with (ion_buffer_page x).
    rewrite Hsame. by apply Hclean.
Qed.

Lemma clean_not_dirty page : ion_buffer_page_is_dirty (ion_buffer_page_clean page) = false.
Proof.
  unfold ion_buffer_page_is_dirty, ion_buffer_page_clean.
  apply negb_false_iff, Z.eqb_eq. apply Z.bits_inj'. intros n Hn.
  rewrite !Z.land_spec, Z.bits_0, tag_mask_bits, one_bits by lia.
  destruct (n =? 0) eqn:Hn0; [|by rewrite andb_false_r].
  replace (0 <? n) with false by lia. by rewrite !andb_false_r.
Qed.

Lemma dirty_page_syncs_clean pages :
  dirty_page_syncs (ion_buffer_page_clean <$> pages) = [].
Proof.
  unfold dirty_page_syncs. induction pages as [|p pages IH]; [done|].
  cbn. by rewrite clean_not_dirty, IH.
Qed.

(** The loop over the array, entry by entry. *)
Lemma sync_pages_spec todo : ∀ done,
  sync_pages (length todo) (length done) (done ++ todo)
  = inr (done ++ (ion_buffer_page_clean <$> todo), dirty_page_syncs todo).
Proof.
  induction todo as [|p todo IH]; intros done; cbn [length sync_pages].
  - by rewrite fmap_nil.
  - rewrite list_lookup_middle by done.
    replace (<[length done := ion_buffer_page_clean p]> (done ++ p :: todo))
      with ((done ++ [ion_buffer_page_clean p]) ++ todo).
    + replace (S (length done)) with (length (done ++ [ion_buffer_page_clean p]))
        by (rewrite length_app; cbn; lia).
      rewrite IH. rewrite <- app_assoc. by cbn.
    + rewrite <- app_assoc. cbn.
      rewrite insert_app_r_alt by lia. by rewrite Nat.sub_diag.
Qed.

(** X16: syncing a cached buffer for a device.  Over the whole array
    of the buffer, every dirty entry is handed to the cache maintenance
    once, in order and as it is stored (with its dirty bit set), every
    entry is left clean, and every user mapping of the buffer is zapped
    so that the next access faults again.  A second sync finds nothing to
    maintain.  A buffer whose flags do not ask for this tracking is left
    alone. *)
Theorem sync_for_device_cleans_pages b um :
  Z.to_nat (sint (PAGE_ALIGN (b_size b) / PAGE_SIZE)) = length (um_pages um) →
  b_pages b ≠ 0 →
  let zaps := map (λ entry, EvZapPageRange entry.2) (um_vmas um) in
  let um' := UserMappings (ion_buffer_page_clean <$> um_pages um) (um_vmas um) in
  if ion_buffer_fault_user_mappings (b_flags b) then
    ion_buffer_sync_for_device b um
    = inr ((), um', dirty_page_syncs (um_pages um) ++ zaps) ∧
    Forall (λ page, ion_buffer_page_is_dirty page = false) (um_pages um') ∧
    ion_buffer_sync_for_device b um' = inr ((), um', zaps)
  else ion_buffer_sync_for_device b um = inr ((), um, []).
Proof.
  intros Hlen Hpages zaps um'. unfold ion_buffer_sync_for_device.
  destruct (ion_buffer_fault_user_mappings (b_flags b)); cbn [negb]; [|done].
  rewrite (proj2 (Z.eqb_neq (b_pages b) 0)) by done. cbn [andb].
  rewrite Hlen.
  pose proof (sync_pages_spec (um_pages um) []) as Hrun. cbn in Hrun.
  rewrite Hrun. split_and!.
  - done.
  - subst um'. cbn. apply Forall_fmap, Forall_forall. intros p _. cbn.
    apply clean_not_dirty.
  - subst um'. cbn [um_pages um_vmas].
    pose proof (sync_pages_spec (ion_buffer_page_clean <$> um_pages um) []) as Hrun2.
    cbn in Hrun2. rewrite length_fmap in Hrun2. rewrite Hrun2.
    rewrite dirty_page_syncs_clean. cbn. do 3 f_equal.
    rewrite <- list_fmap_compose. f_equal. apply list_fmap_ext. intros i p _. cbn.
    unfold ion_buffer_page_clean. by rewrite <- Z.land_assoc, Z.land_diag.
Qed.

(** X17: a fault on a user mapping of a cached buffer.  The entry of
    the faulting page is marked dirty first, so the BUG_ON that follows
    can no longer see a null entry: whatever the arguments, the fault
    never stops the kernel there.  With an array and an offset inside it
    the fault inserts the page that the entry names, without its dirty
    bit, and leaves the entry dirty; a null entry makes it insert the
    null page. *)
Theorem vm_fault_marks_page_dirty b um vma pgoff address :
  ion_vm_fault b um vma pgoff address ≠ inl KernelBUG ∧
  (b_pages b ≠ 0 → ∀ page, um_pages um !! Z.to_nat pgoff = Some page →
   let inserted := ion_buffer_page (ion_buffer_page_dirty page) in
   ion_vm_fault b um vma pgoff address
   = inr (if vm_insert_page vma address inserted =? 0
          then VM_FAULT_NOPAGE else VM_FAULT_ERROR,
          UserMappings (<[Z.to_nat pgoff := ion_buffer_page_dirty page]> (um_pages um))
                       (um_vmas um),
          [EvVmInsertPage vma address inserted]) ∧
   (page = 0 → inserted = 0)).
Proof.
  split.
  - unfold ion_vm_fault. destruct (b_pages b =? 0) eqn:Hp; [done|].
    destruct (um_pages um !! Z.to_nat pgoff) as [page|] eqn:Hpage; [|done].
    rewrite list_lookup_insert_eq by (by apply lookup_lt_Some in Hpage).
    rewrite dirty_never_null. done.
  - intros Hp page Hpage inserted. subst inserted. split; [|by intros ->].
    unfold ion_vm_fault. rewrite (proj2 (Z.eqb_neq (b_pages b) 0)) by done.
    rewrite Hpage.
    rewrite list_lookup_insert_eq by (by apply lookup_lt_Some in Hpage).
    rewrite dirty_never_null. done.
Qed.

Lemma vm_close_absent entries vma :
  vma ∉ entries.*2 → vm_close_from entries vma = (entries, []).
Proof.
  induction entries as [|[node v] entries IH]; intros Hnot; [done|].
  cbn in Hnot. apply not_elem_of_cons in Hnot as [Hne Hnot].
  cbn [vm_close_from]. rewrite (proj2 (Z.eqb_neq v vma)) by done.
  by rewrite IH.
Qed.

(** X18: the list of user mappings of a buffer.  [ion_vm_open] puts the
    mapping at the head of the list, and [ion_vm_close] of the same
    mapping takes exactly that entry off again and releases its node, so
    the pair leaves the list as it was.  Closing a mapping that is not on
    the list changes nothing.  When no node can be allocated, opening
    changes nothing either: the mapping is not on the list, and a later
    sync does not zap it. *)
Theorem vm_open_close um vma :
  let node := kmalloc_vma_list (um_vmas um) in
  (node ≠ 0 →
   ion_vm_open um vma
   = inr ((), UserMappings (um_pages um) ((node, vma) :: um_vmas um),
          [EvKmallocVmaList node]) ∧
   ion_vm_close (UserMappings (um_pages um) ((node, vma) :: um_vmas um)) vma
   = inr ((), um, [EvKfreeVmaList node])) ∧
  (node = 0 → ion_vm_open um vma = inr ((), um, [EvKmallocVmaList 0])) ∧
  (vma ∉ (um_vmas um).*2 → ion_vm_close um vma = inr ((), um, [])).
Proof.
  intros node. subst node. split_and!.
  - intros Hnode. unfold ion_vm_open, ion_vm_close.
    rewrite (proj2 (Z.eqb_neq _ 0)) by done. split; [done|].
    cbn. rewrite Z.eqb_refl. by destruct um.
  - intros Hnode. unfold ion_vm_open. by rewrite Hnode.
  - intros Hnot. unfold ion_vm_close. rewrite vm_close_absent by done.
    by destruct um.
Qed.

End PageTracking.

(** ** Memory waiting on the free lists *)

Section FreeListTotals.
Context {P : Platform} {E : Environment}.

Lemma queued_bytes_cons s b bd entries :
  buffers s !! b = Some bd →
  queued_bytes s (b :: entries) = b_size bd + queued_bytes s entries.
Proof. intros Hb. unfold queued_bytes. cbn. by rewrite Hb. Qed.

Lemma queued_bytes_nonneg s entries :
  Forall (λ b, ∃ bd, buffers s !! b = Some bd ∧ 0 ≤ b_size bd) entries →
  0 ≤ queued_bytes s entries.
Proof.
  induction entries as [|b entries IH]; intros Hall; [done|].
  apply Forall_cons in Hall as [(bd & Hb & Hsize) Hall].
  rewrite (queued_bytes_cons _ _ bd) by done. specialize (IH Hall). lia.
Qed.

Lemma freelist_total_from_spec s entries : ∀ total,
  Forall (λ b, ∃ bd, buffers s !! b = Some bd ∧ 0 ≤ b_size bd) entries →
  0 ≤ total → total + queued_bytes s entries ≤ INT_MAX →
  freelist_total_from entries total s = Ok (total + queued_bytes s entries) s.
Proof.
  induction entries as [|b entries IH]; intros total Hall Hpos Hmax.
  - cbn. by rewrite Z.add_0_r.
  - pose proof Hall as Hall'.
    apply Forall_cons in Hall as [(bd & Hb & Hsize) Hall].
    pose proof (queued_bytes_nonneg s entries Hall) as Hq.
    rewrite (queued_bytes_cons _ _ bd) in Hmax |- * by done.
    cbn [freelist_total_from]. mrun.
    assert (Hs : sint (total + b_size bd) = total + b_size bd).
    { unfold sint, wrap, BITS_PER_LONG. unfold INT_MAX in Hmax.
      rewrite Z.mod_small by lia.
      replace (total + b_size bd <? 2 ^ 31) with true by lia. done. }
    rewrite Hs. rewrite IH; [|done|lia|lia]. f_equal. lia.
Qed.

(** X19: the memory waiting on a heap's free list, as the debug
    interface reports it.  For a heap whose flags are exactly the
    deferred-free flag, [ion_debug_heap_freelist] returns the sum of the
    sizes of the queued buffers, and zero again once the list has been
    drained.  For any other value of the flags it returns zero without
    looking at the list: a heap that defers freeing and has any other
    flag set as well is reported as holding nothing. *)
Theorem freelist_total_counts_queue s heap hp :
  heaps s !! heap = Some hp →
  free_list_sound s heap (hp_free_list hp) →
  Forall (λ b, ∃ bd, buffers s !! b = Some bd ∧ 0 ≤ b_size bd) (hp_free_list hp) →
  queued_bytes s (hp_free_list hp) ≤ INT_MAX →
  (hp_flags hp ≠ ION_HEAP_FLAG_DEFER_FREE → ion_debug_heap_freelist heap s = Ok 0 s) ∧
  (hp_flags hp = ION_HEAP_FLAG_DEFER_FREE →
   ion_debug_heap_freelist heap s = Ok (queued_bytes s (hp_free_list hp)) s ∧
   ∃ drained s', ion_heap_drain_freelist heap s = Ok drained s' ∧
     ion_debug_heap_freelist heap s' = Ok 0 s').
Proof.
  intros Hhp Hsound Hsizes Hmax. split.
  - intros Hflags. unfold ion_debug_heap_freelist. mrun.
    by rewrite (proj2 (Z.eqb_neq _ _)) by done.
  - intros Hflags. split.
    + unfold ion_debug_heap_freelist. mrun. rewrite Hflags, Z.eqb_refl.
      by rewrite (freelist_total_from_spec s _ 0) by (done || lia).
    + destruct (ion_heap_drain_freelist_spec s heap hp Hhp Hsound)
        as (drained & s' & hp' & Hrun & _ & Hhp' & Hempty & Hfl & _).
      exists drained, s'. split; [done|].
      unfold ion_debug_heap_freelist. mrun. rewrite Hfl, Hflags, Z.eqb_refl.
      by rewrite Hempty.
Qed.

End FreeListTotals.

(** ** Closing a client *)

Section ClosingClients.
Context {P : Platform} {E : Environment}.

Lemma rb_erase_first k t : k ∉ t → rb_erase k (k :: t) = t.
Proof.
  intros Hk. unfold rb_erase. rewrite filter_cons_False by naive_solver.
  induction t as [|x t IH]; [done|].
  apply not_elem_of_cons in Hk as [Hne Hk].
  rewrite filter_cons_True by naive_solver. f_equal. by apply IH.
Qed.

(** Dropping the only reference to the first handle of a client's tree. *)
Lemma drop_first_handle s client cl h rest :
  clients s !! client = Some cl → c_handles cl = h :: rest → h ∉ rest →
  droppable s client h →
  ∃ s' hd, handles s !! h = Some hd ∧
    ion_handle_put h s = Ok 1 s' ∧
    handles s' = delete h (handles s) ∧
    clients s' = <[client := with_c_handles rest cl]> (clients s) ∧
    dev_clients s' = dev_clients s ∧
    (∀ b', b' ≠ h_buffer hd → buffers s' !! b' = buffers s !! b') ∧
    (∀ x, is_Some (heaps s !! x) → is_Some (heaps s' !! x)).
Proof.
  intros Hcl Htree Hfresh (hd & b & Hh & Hc & Hl & Href & Hk & Hb & Hbref & Hcount & [hp Hhp]).
  pose proof (rb_erase_first h rest Hfresh) as Herase.
  assert (Hlive : ∀ (m : gmap Z ion_heap) x y v, is_Some (m !! x) → m !! y = Some hp →
            is_Some (<[y := v]> m !! x)).
  { intros m x y v Hx Hy. destruct (decide (x = y)) as [->|Hne].
    - rewrite lookup_insert_eq. eauto.
    - by rewrite lookup_insert_ne. }
  exists (state_of s (ion_handle_put h s)), hd. split; [done|].
  unfold ion_handle_put, atomic_dec. mrun. rewrite Href. mrun.
  unfold ion_handle_destroy. mrun. rewrite Hc. mrun. rewrite Hk.
  change (Z.to_nat 0) with O. cbn [handle_kmap_drain]. mrun. rewrite Hk, Hl. mrun.
  rewrite Htree, Herase.
  unfold ion_buffer_remove_from_handle, int_add. mrun.
  replace (b_handle_count b <=? 0) with false by lia.
  replace (0 <? b_handle_count b) with true by lia. mrun.
  replace (INT_MIN <=? b_handle_count b + -1) with true by (unfold INT_MIN; lia).
  replace (b_handle_count b + -1 <=? INT_MAX) with true by lia. mrun.
  unfold ion_buffer_put, atomic_dec. mrun.
  rewrite (wrap_small (b_ref b - 1)) by lia.
  destruct (b_ref b - 1 =? 0) eqn:Hlast; mrun.
  - unfold ion_buffer_destroy. mrun.
    destruct (Z.land (hp_flags hp) ION_HEAP_FLAG_DEFER_FREE =? 0) eqn:Hd; mrun.
    + unfold _ion_buffer_destroy. mrun.
      destruct (0 <? b_kmap_cnt b); destruct (b_pages b =? 0); mrun;
        (cbn [state_of]; mred;
         split_and!; [reflexivity|by rewrite ?delete_insert_eq|done|done| |];
         [intros b' Hne; by rewrite lookup_delete_ne, ?lookup_insert_ne by done
         |intros x Hx; by apply Hlive]).
    + cbn [state_of]; mred.
      split_and!; [reflexivity|by rewrite ?delete_insert_eq|done|done| |].
      * intros b' Hne. by rewrite ?lookup_insert_ne by done.
      * intros x Hx. by apply Hlive.
  - cbn [state_of]; mred.
    split_and!; [reflexivity|by rewrite ?delete_insert_eq|done|done| |done].
    intros b' Hne. by rewrite ?lookup_insert_ne by done.
Qed.

Lemma client_drop_handles_spec client tree : ∀ s cl fuel,
  clients s !! client = Some cl → c_handles cl = tree → NoDup tree →
  Forall (droppable s client) tree → buffers_apart s tree →
  (length tree ≤ fuel)%nat →
  ∃ s', client_drop_handles fuel client s = Ok () s' ∧
    clients s' = <[client := with_c_handles [] cl]> (clients s) ∧
    dev_clients s' = dev_clients s ∧
    (∀ h, h ∈ tree → handles s' !! h = None) ∧
    (∀ h, h ∉ tree → handles s' !! h = handles s !! h).
Proof.
  induction tree as [|h rest IH]; intros s cl fuel Hcl Htree Hnd Hall Hapart Hfuel.
  - exists s. split_and!; try done.
    + destruct fuel; cbn [client_drop_handles]; mrun; by rewrite Htree.
    + rewrite insert_id; [done|]. rewrite Hcl. f_equal. destruct cl. cbn in *. by subst.
    + intros h Hh. by apply elem_of_nil in Hh.
  - destruct fuel as [|fuel]; [cbn in Hfuel; lia|].
    apply NoDup_cons in Hnd as [Hfresh Hnd].
    apply Forall_cons in Hall as [Hdrop Hall].
    destruct (drop_first_handle s client cl h rest Hcl Htree Hfresh Hdrop)
      as (s1 & hd & Hh & Hput & Hhandles & Hclients & Hdev & Hbufs & Hheaps).
    assert (Hcl1 : clients s1 !! client = Some (with_c_handles rest cl))
      by (rewrite Hclients; apply lookup_insert_eq).
    assert (Hsame : ∀ h', h' ∈ rest → handles s1 !! h' = handles s !! h').
    { intros h' Hin. rewrite Hhandles. apply lookup_delete_ne. by intros ->. }
    assert (Hall1 : Forall (droppable s1 client) rest).
    { apply Forall_forall. intros h' Hin. rewrite Forall_forall in Hall.
      destruct (Hall h' Hin) as (hd' & b' & Hh' & Hc' & Hl' & Hr' & Hk' & Hb' & Hrest).
      exists hd', b'. rewrite (Hsame h' Hin). split_and!; try done; try apply Hrest.
      - rewrite Hbufs; [done|]. intros Heq.
        assert (h' = h); [|by subst].
        apply (Hapart h' h hd' hd); try done.
        + by apply list_elem_of_further.
        + apply list_elem_of_here.
      - apply Hheaps. apply Hrest. }
    assert (Hapart1 : buffers_apart s1 rest).
    { intros h1 h2 hd1 hd2 H1 H2. rewrite (Hsame h1 H1), (Hsame h2 H2).
      intros Hh1 Hh2. apply (Hapart h1 h2 hd1 hd2); try done;
        by apply list_elem_of_further. }
    destruct (IH s1 (with_c_handles rest cl) fuel Hcl1 eq_refl Hnd Hall1 Hapart1)
      as (s' & Hrun & Hclients' & Hdev' & Hgone & Hkept); [cbn in Hfuel; lia|].
    exists s'. split_and!.
    + cbn [client_drop_handles]. mrun. rewrite Htree. mred. rewrite Hput. by mred.
    + rewrite Hclients', Hclients. by rewrite insert_insert_eq.
    + by rewrite Hdev'.
    + intros h' Hin. apply elem_of_cons in Hin as [->|Hin]; [|by apply Hgone].
      rewrite (Hkept h Hfresh), Hhandles. apply lookup_delete_eq.
    + intros h' Hnot. apply not_elem_of_cons in Hnot as [Hne Hnot].
      rewrite (Hkept h' Hnot), Hhandles. by apply lookup_delete_ne.
Qed.

(** X20: closing a client.  While other references to the client
    remain, [ion_client_destroy] only drops one.  The last reference
    takes the client out of the device's tree, drops every handle of the
    client's tree (handles in the state in which [ion_alloc] leaves them,
    each on a buffer of its own), releases the record and leaves every
    other handle alone; the loop over the tree needs one turn for each
    handle.  [ion_release], the file operation behind close(2), does
    exactly this and returns 0. *)
Theorem ion_client_destroy_releases_handles s client cl fuel :
  clients s !! client = Some cl →
  (2 ≤ c_ref cl < 2 ^ 32 →
   ion_client_destroy fuel client s
   = Ok () (set_clients <[client := with_c_ref (c_ref cl - 1) cl]> s)) ∧
  (c_ref cl = 1 →
   NoDup (c_handles cl) → Forall (droppable s client) (c_handles cl) →
   buffers_apart s (c_handles cl) → (length (c_handles cl) ≤ fuel)%nat →
   ∃ s', ion_client_destroy fuel client s = Ok () s' ∧
     ion_release fuel client s = Ok 0 s' ∧
     clients s' = delete client (clients s) ∧
     dev_clients s' = rb_erase client (dev_clients s) ∧
     (∀ h, h ∈ c_handles cl → handles s' !! h = None) ∧
     (∀ h, h ∉ c_handles cl → handles s' !! h = handles s !! h)).
Proof.
  intros Hcl. split.
  - intros Href. unfold ion_client_destroy, ion_client_put, atomic_dec. mrun.
    rewrite (wrap_small (c_ref cl - 1)) by lia.
    by rewrite (proj2 (Z.eqb_neq (c_ref cl - 1) 0)) by lia.
  - intros Href Hnd Hall Hapart Hfuel.
    set (s0 := set_dev_clients (rb_erase client)
                 (set_clients <[client := with_c_ref 0 cl]> s)).
    assert (Hcl0 : clients s0 !! client = Some (with_c_ref 0 cl))
      by (subst s0; cbn; apply lookup_insert_eq).
    assert (Hall0 : Forall (droppable s0 client) (c_handles cl)).
    { eapply Forall_impl; [exact Hall|]. intros h Hd. exact Hd. }
    destruct (client_drop_handles_spec client (c_handles cl) s0 (with_c_ref 0 cl) fuel
                Hcl0 eq_refl Hnd Hall0 Hapart Hfuel)
      as (s1 & Hrun & Hclients & Hdev & Hgone & Hkept).
    assert (Hdestroy : ion_client_destroy fuel client s
              = Ok () (set_clients (delete client)
                        (set_trace (λ t, t ++ [EvKfree client]) s1))).
    { unfold ion_client_destroy, ion_client_put, atomic_dec. mrun. rewrite Href. mrun.
      unfold _ion_client_destroy. mrun. fold s0. rewrite Hrun. by mred. }
    eexists. split; [exact Hdestroy|]. split_and!.
    + unfold ion_release. mred. by rewrite Hdestroy.
    + cbn. rewrite Hclients. subst s0. cbn.
      by rewrite !delete_insert_eq.
    + cbn. by rewrite Hdev.
    + intros h Hin. cbn. by apply Hgone.
    + intros h Hnot. cbn. by rewrite (Hkept h Hnot).
Qed.

(** X21: opening and closing the device.  [ion_open] creates a client
    with an empty tree, one reference and the opener's group leader as
    its task (none for a kernel thread), puts it into the device's tree
    and hands it to the file; [ion_release] on that client takes it out
    and releases it again, so the pair leaves the clients and the device's
    tree as they were.  When no memory can be had, [ion_open] fails with
    -ENOMEM and registers nothing. *)
Theorem open_release_roundtrip s fuel :
  clients s !! brk s = None → brk s ∉ dev_clients s →
  (memory_available kzalloc_fails s →
   let client := brk s in
   let task := if current_is_kthread (trace s) then 0
               else current_group_leader (trace s) in
   let s1 := set_clients <[client := IonClient [] 1 task]>
               (set_dev_clients (rb_insert client)
                 (set_brk (λ p, p + KMALLOC_MINALIGN)
                   (set_trace (λ t, t ++ [EvKzalloc client]) s))) in
   ion_open s = Ok (0, client) s1 ∧
   ion_release fuel client s1
   = Ok 0 (set_brk (λ p, p + KMALLOC_MINALIGN)
            (set_trace (λ t, t ++ [EvKzalloc client; EvKfree client]) s))) ∧
  (kzalloc_fails (trace s) = true →
   ion_open s = Ok (- ENOMEM, 0) (set_trace (λ t, t ++ [EvKzalloc 0]) s)).
Proof.
  intros Hfresh Hnew. split.
  - intros Hmem client task s1. subst client task s1.
    destruct (allocated_address_valid _ _ Hmem) as [Hnz Hvalid].
    split.
    + unfold ion_open, ion_client_create, kzalloc. mred.
      rewrite (allocate_memory_ok _ _ s) by done. mred. rewrite Hnz. mred.
      rewrite Hvalid. mred. state_eq.
    + unfold ion_release, ion_client_destroy, ion_client_put, atomic_dec. mrun.
      unfold _ion_client_destroy. mrun.
      destruct fuel; cbn [client_drop_handles]; mrun; state_eq;
        rewrite ?delete_insert_id, ?(rb_erase_insert (brk s)) by done; done.
  - intros Hfail. unfold ion_open, ion_client_create, kzalloc. mred.
    rewrite allocate_memory_fails by done. by mred.
Qed.

End ClosingClients.

(** ** The further properties at work on concrete devices *)

Section MoreExamples.
#[local] Existing Instance bcm_platform.
#[local] Existing Instance willing_env.
#[local] Existing Instance plain_user.
#[local] Existing Instance plain_mm.

Lemma one_buffer_is_reachable : reachable one_buffer.
Proof.
  apply (run_ops_reachable one_buffer_ops power_on).
  - apply reachable_pristine. by repeat split.
  - evaluate.
Qed.

Lemma handle_trees_sound_witness :
  reachable one_buffer ∧
  clients one_buffer !! 4096 = Some (IonClient [4120] 1 1024) ∧
  4120 ∈ c_handles (IonClient [4120] 1 1024) ∧
  ∃ hd, handles one_buffer !! 4120 = Some hd ∧
    h_client hd = 4096 ∧ h_linked hd = true ∧
    IS_ERR_OR_NULL 4120 = false ∧
    (∀ other cl', clients one_buffer !! other = Some cl' → 4120 ∈ c_handles cl' →
       other = 4096) ∧
    ion_handle_validate 4096 4120 one_buffer = Ok true one_buffer ∧
    ion_free 4096 4120 one_buffer = (ion_handle_put 4120 ;; mret ()) one_buffer.
Proof.
  assert (Hcl : clients one_buffer !! 4096 = Some (IonClient [4120] 1 1024)) by evaluate.
  assert (Hin : 4120 ∈ c_handles (IonClient [4120] 1 1024)) by decide_now.
  split_and!; [exact one_buffer_is_reachable|exact Hcl|exact Hin|].
  exact (handle_trees_sound one_buffer 4096 _ 4120 one_buffer_is_reachable Hcl Hin).
Defined.

Lemma unowned_handle_refused_witness :
  clients one_buffer !! 4104 = Some (IonClient [] 1 1024) ∧
  (4120 ∉ c_handles (IonClient [] 1 1024)) ∧
  ion_phys 4104 4120 one_buffer = Ok (- EINVAL) one_buffer ∧
  ion_map_kernel 4104 4120 one_buffer = Ok (ERR_PTR (- EINVAL)) one_buffer ∧
  ion_sg_table 4104 4120 one_buffer = Ok (ERR_PTR (- EINVAL)) one_buffer ∧
  ion_lock_buffer 4104 4120 one_buffer = Ok 0 one_buffer ∧
  ion_ioctl 4104 (ION_IOC_FREE 4120) one_buffer = Ok (- EINVAL, None) one_buffer.
Proof.
  assert (Hcl : clients one_buffer !! 4104 = Some (IonClient [] 1 1024)) by evaluate.
  assert (Hout : 4120 ∉ c_handles (IonClient [] 1 1024)) by decide_now.
  destruct (unowned_handle_refused one_buffer 4104 _ 4120 Hcl Hout)
    as (H1 & H2 & H3 & H4 & _ & _ & H7).
  split_and!; [exact Hcl|exact Hout|exact H1|exact H2|exact H3|exact H4|].
  exact (H7 eq_refl).
Defined.


Lemma optional_heap_operations_witness :
  clients bare_heap !! 4096 = Some (IonClient [4120] 1 1024) ∧
  handles bare_heap !! 4120 = Some (IonHandle 1 4096 4112 true 0) ∧
  buffers bare_heap !! 4112 = Some (IonBuffer 2 16 0 4096 0 0 4116 0 1) ∧
  heaps bare_heap !! 16 = Some (IonHeap 1 0 4096 false false []) ∧
  dmabufs bare_heap !! 4128 = Some (DmaBuf true 4112 1) ∧
  ion_phys 4096 4120 bare_heap = Ok (- ENODEV) bare_heap ∧
  ion_map_kernel 4096 4120 bare_heap = Ok (ERR_PTR (- ENODEV)) bare_heap ∧
  ion_dma_buf_begin_cpu_access 4128 bare_heap = Ok (- ENODEV) bare_heap.
Proof.
  assert (Hcl : clients bare_heap !! 4096 = Some (IonClient [4120] 1 1024)) by evaluate.
  assert (Hh : handles bare_heap !! 4120 = Some (IonHandle 1 4096 4112 true 0))
    by evaluate.
  assert (Hb : buffers bare_heap !! 4112 = Some (IonBuffer 2 16 0 4096 0 0 4116 0 1))
    by evaluate.
  assert (Hhp : heaps bare_heap !! 16 = Some (IonHeap 1 0 4096 false false []))
    by evaluate.
  assert (Hd : dmabufs bare_heap !! 4128 = Some (DmaBuf true 4112 1)) by evaluate.
  assert (Hin : 4120 ∈ c_handles (IonClient [4120] 1 1024)) by decide_now.
  destruct (optional_heap_operations bare_heap 4096 _ 4120 _ _ _ Hcl Hin Hh Hb Hhp)
    as (Hphys & Hrest).
  destruct (Hrest eq_refl) as (Hmap & Hbegin).
  split_and!; [exact Hcl|exact Hh|exact Hb|exact Hhp|exact Hd|exact Hphys|exact Hmap|].
  exact (Hbegin 4128 _ Hd eq_refl).
Defined.

Lemma cpu_access_brackets_witness :
  dmabufs one_buffer_shared !! 4128 = Some (DmaBuf true 4112 1) ∧
  buffers one_buffer_shared !! 4112 = Some (IonBuffer 2 16 0 4096 0 0 4116 0 1) ∧
  heaps one_buffer_shared !! 16 = Some (IonHeap 1 0 4096 true true []) ∧
  ∃ s1, ion_dma_buf_begin_cpu_access 4128 one_buffer_shared = Ok 0 s1 ∧
    buffers s1 !! 4112 = Some (IonBuffer 2 16 0 4096 1 3221229568 4116 0 1) ∧
    ion_dma_buf_end_cpu_access 4128 s1
    = Ok () (set_buffers <[4112 := IonBuffer 2 16 0 4096 0 0 4116 0 1]>
              (set_trace (λ t, t ++ [EvMapKernel 16 4112 3221229568;
                                     EvUnmapKernel 16 4112]) one_buffer_shared)).
Proof.
  assert (Hd : dmabufs one_buffer_shared !! 4128 = Some (DmaBuf true 4112 1))
    by evaluate.
  assert (Hb : buffers one_buffer_shared !! 4112
               = Some (IonBuffer 2 16 0 4096 0 0 4116 0 1)) by evaluate.
  assert (Hhp : heaps one_buffer_shared !! 16 = Some (IonHeap 1 0 4096 true true []))
    by evaluate.
  split_and!; [exact Hd|exact Hb|exact Hhp|].
  destruct (cpu_access_brackets one_buffer_shared 4128 _ _ _ Hd Hb Hhp eq_refl)
    as (_ & Hfresh & _).
  destruct (Hfresh eq_refl eq_refl) as (Hbegin & Hend).
  eexists. split_and!; [exact Hbegin|evaluate|exact Hend].
Defined.

Lemma share_close_roundtrip_witness :
  clients one_buffer !! 4096 = Some (IonClient [4120] 1 1024) ∧
  handles one_buffer !! 4120 = Some (IonHandle 1 4096 4112 true 0) ∧
  buffers one_buffer !! 4112 = Some (IonBuffer 1 16 0 4096 0 0 4116 0 1) ∧
  memory_available kzalloc_fails one_buffer ∧
  ∃ fd s1,
    ion_share_dma_buf_fd 4096 4120 one_buffer = Ok fd s1 ∧
    files s1 !! fd = Some 4128 ∧
    dmabufs s1 !! 4128 = Some (DmaBuf true 4112 1) ∧
    buffers s1 !! 4112 = Some (IonBuffer 2 16 0 4096 0 0 4116 0 1) ∧
    sys_close fd s1
    = Ok 0 (set_dmabufs (delete 4128)
             (set_brk (λ p, p + KMALLOC_MINALIGN)
               (set_trace (λ t, t ++ [EvKzalloc 4128; EvExport 4112 4128;
                                      EvFdInstall 4128 fd; EvKfree 4128]) one_buffer))).
Proof.
  assert (Hcl : clients one_buffer !! 4096 = Some (IonClient [4120] 1 1024)) by evaluate.
  assert (Hh : handles one_buffer !! 4120 = Some (IonHandle 1 4096 4112 true 0))
    by evaluate.
  assert (Hb : buffers one_buffer !! 4112 = Some (IonBuffer 1 16 0 4096 0 0 4116 0 1))
    by evaluate.
  assert (Hmem : memory_available kzalloc_fails one_buffer) by (split_and!; evaluate).
  assert (Hin : 4120 ∈ c_handles (IonClient [4120] 1 1024)) by decide_now.
  assert (Hbrk : brk one_buffer = 4128) by evaluate.
  assert (Href : 1 ≤ 1 < 2 ^ 32 - 1) by lia.
  split_and!; [exact Hcl|exact Hh|exact Hb|exact Hmem|].
  revert Hcl Hh Hb Hmem Hbrk. generalize one_buffer. intros s Hcl Hh Hb Hmem Hbrk.
  destruct (share_close_roundtrip (E:=willing_env) s 4096 _ 4120 _ _ Hcl Hin Hh Hb Href eq_refl Hmem
              eq_refl)
    as (fd & s1 & Hshare & _ & _ & Hfile & Hdmabuf & Hbuf & Hclose).
  cbn [h_buffer] in Hshare, Hfile, Hdmabuf, Hbuf, Hclose.
  rewrite Hbrk in Hfile, Hdmabuf, Hclose.
  exists fd, s1. split_and!; [exact Hshare|exact Hfile|exact Hdmabuf|exact Hbuf|].
  exact Hclose.
Defined.

Lemma import_refuses_other_descriptors_witness :
  clients foreign_descriptor !! 4096 = Some (IonClient [] 1 1024) ∧
  files foreign_descriptor !! 9 = None ∧
  files foreign_descriptor !! 7 = Some 8192 ∧
  dmabufs foreign_descriptor !! 8192 = Some (DmaBuf false 0 1) ∧
  ion_import_dma_buf 4096 9 foreign_descriptor
  = Ok (ERR_PTR (- EBADF)) foreign_descriptor ∧
  ion_import_dma_buf 4096 7 foreign_descriptor
  = Ok (ERR_PTR (- EINVAL)) foreign_descriptor ∧
  clients kernel_clients_shared !! 4104 = Some (IonClient [] 1 0) ∧
  files kernel_clients_shared !! 9 = None ∧
  ion_import_dma_buf (E:=kernel_thread_env) 4104 9 kernel_clients_shared
  = Crash BadPointer.
Proof.
  assert (Hcl : clients foreign_descriptor !! 4096 = Some (IonClient [] 1 1024))
    by evaluate.
  assert (Hnone : files foreign_descriptor !! 9 = None) by evaluate.
  assert (Hfile : files foreign_descriptor !! 7 = Some 8192) by evaluate.
  assert (Hd : dmabufs foreign_descriptor !! 8192 = Some (DmaBuf false 0 1))
    by evaluate.
  assert (Hk : clients kernel_clients_shared !! 4104 = Some (IonClient [] 1 0))
    by evaluate.
  assert (Hknone : files kernel_clients_shared !! 9 = None) by evaluate.
  assert (Htask : 1024 ≠ 0) by lia.
  assert (Htask_count : 1 ≠ 0) by lia.
  split_and!; [exact Hcl|exact Hnone|exact Hfile|exact Hd| | |exact Hk|exact Hknone|].
  - revert Hcl Hnone. generalize foreign_descriptor. intros s Hcl Hnone.
    exact (proj1 (import_refuses_other_descriptors s 4096 _ 9 Hcl) Htask Hnone).
  - revert Hcl Hfile Hd. generalize foreign_descriptor. intros s Hcl Hfile Hd.
    exact (proj1 (proj2 (import_refuses_other_descriptors s 4096 _ 7 Hcl)) Htask
             8192 _ Hfile eq_refl Hd eq_refl Htask_count).
  - revert Hk. generalize kernel_clients_shared. intros s Hk.
    exact (proj2 (proj2 (import_refuses_other_descriptors (E:=kernel_thread_env)
                           s 4104 _ 9 Hk)) eq_refl).
Defined.

Lemma sync_request_always_succeeds_witness :
  copy_from_user_fails (trace foreign_descriptor) = false ∧
  files foreign_descriptor !! 9 = None ∧
  files foreign_descriptor !! 7 = Some 8192 ∧
  ion_sync_for_device 4096 9 foreign_descriptor = Ok (- EBADF) foreign_descriptor ∧
  ion_ioctl 4096 (ION_IOC_SYNC 0 9) foreign_descriptor = Ok (0, None) foreign_descriptor ∧
  ion_sync_for_device 4096 7 foreign_descriptor = Ok (- EINVAL) foreign_descriptor ∧
  ion_ioctl 4096 (ION_IOC_SYNC 0 7) foreign_descriptor = Ok (0, None) foreign_descriptor.
Proof.
  assert (Hcopy : copy_from_user_fails (trace foreign_descriptor) = false) by reflexivity.
  assert (Hnone : files foreign_descriptor !! 9 = None) by evaluate.
  assert (Hfile : files foreign_descriptor !! 7 = Some 8192) by evaluate.
  assert (Hd : dmabufs foreign_descriptor !! 8192 = Some (DmaBuf false 0 1))
    by evaluate.
  destruct (proj1 (sync_request_always_succeeds foreign_descriptor 4096 0 9 Hcopy) Hnone)
    as (H1 & H2).
  destruct (proj1 (proj2 (sync_request_always_succeeds foreign_descriptor 4096 0 7 Hcopy)
                     8192 _ Hfile eq_refl Hd ltac:(evaluate)) eq_refl) as (H3 & H4).
  split_and!; [exact Hcopy|exact Hnone|exact Hfile|exact H1|exact H2|exact H3|exact H4].
Defined.

Lemma ion_device_add_heap_keeps_order_witness :
  heaps first_heap_added !! 24 = Some (IonHeap 2 1 0 false true []) ∧
  dev_heaps first_heap_added = [16] ∧
  by_priority first_heap_added (dev_heaps first_heap_added) ∧
  (∃ s', ion_device_add_heap 24 first_heap_added = Ok () s' ∧
     dev_heaps s' = [24; 16] ∧ by_priority s' (dev_heaps s')) ∧
  heaps large_id_heap !! 32 = Some (IonHeap 4294967295 0 0 true true []) ∧
  dev_heaps large_id_heap = [16] ∧
  (∃ s', ion_device_add_heap 32 large_id_heap = Ok () s' ∧
     dev_heaps s' = [16; 32] ∧ by_priority s' (dev_heaps s')).
Proof.
  assert (Hhp : heaps first_heap_added !! 24 = Some (IonHeap 2 1 0 false true []))
    by evaluate.
  assert (Hlist : dev_heaps first_heap_added = [16]) by evaluate.
  assert (H16 : heaps first_heap_added !! 16 = Some (IonHeap 1 0 0 true true []))
    by evaluate.
  assert (Hhp' : heaps large_id_heap !! 32 = Some (IonHeap 4294967295 0 0 true true []))
    by evaluate.
  assert (Hlist' : dev_heaps large_id_heap = [16]) by evaluate.
  assert (H16' : heaps large_id_heap !! 16 = Some (IonHeap 1 0 0 true true []))
    by evaluate.
  assert (Hord : by_priority first_heap_added (dev_heaps first_heap_added)).
  { rewrite Hlist. repeat constructor. }
  split_and!; [exact Hhp|exact Hlist|exact Hord| |exact Hhp'|exact Hlist'|].
  - clear Hord Hhp' Hlist' H16'. revert Hhp Hlist H16. generalize first_heap_added.
    intros s Hhp Hlist H16.
    assert (Hlive : Forall (λ x, is_Some (heaps s !! x)) (dev_heaps s)).
    { rewrite Hlist. repeat constructor. by rewrite H16. }
    assert (Hord : by_priority s (dev_heaps s)).
    { rewrite Hlist. repeat constructor. }
    destruct (ion_device_add_heap_keeps_order s 24 _ Hhp Hlive Hord)
      as (before & after & Hsplit & Hrun & Hbefore & Hafter & Hsorted & _).
    eexists. split_and!; [exact Hrun| |exact Hsorted].
    destruct before as [|x before].
    + cbn in Hsplit |- *. by rewrite <- Hsplit, Hlist.
    + exfalso. rewrite Hlist in Hsplit. injection Hsplit as <- Hnil.
      apply Forall_cons_1 in Hbefore as [Hbefore _].
      specialize (Hbefore _ H16). vm_compute in Hbefore. by apply Hbefore.
  - clear Hord Hhp Hlist H16. revert Hhp' Hlist' H16'. generalize large_id_heap.
    intros s Hhp Hlist H16.
    assert (Hlive : Forall (λ x, is_Some (heaps s !! x)) (dev_heaps s)).
    { rewrite Hlist. repeat constructor. by rewrite H16. }
    assert (Hord : by_priority s (dev_heaps s)).
    { rewrite Hlist. repeat constructor. }
    destruct (ion_device_add_heap_keeps_order s 32 _ Hhp Hlive Hord)
      as (before & after & Hsplit & Hrun & Hbefore & Hafter & Hsorted & _).
    eexists. split_and!; [exact Hrun| |exact Hsorted].
    destruct after as [|x after].
    + cbn. rewrite app_nil_r in Hsplit. by rewrite <- Hsplit, Hlist.
    + exfalso. rewrite Hlist in Hsplit.
      destruct before as [|y before]; [|by destruct before].
      injection Hsplit as <- Hnil.
      apply Forall_cons_1 in Hafter as [Hafter _].
      specialize (Hafter _ H16). vm_compute in Hafter. discriminate Hafter.
Defined.

End MoreExamples.

Section FirstHeapExamples.
#[local] Existing Instance bcm_platform.
#[local] Existing Instance willing_env.

(** What the requests below rely on in [boot]. *)
Lemma boot_summary :
  clients boot !! 4096 = Some (IonClient [] 1 1024) ∧
  dev_heaps boot = [24] ++ 16 :: [] ∧
  heaps boot !! 24 = Some (IonHeap 2 1 0 false true []) ∧
  heaps boot !! 16 = Some (IonHeap 1 0 0 true true []) ∧
  brk boot = 4112 ∧ dev_buffers boot = [] ∧ handles boot = ∅ ∧ buffers boot = ∅.
Proof. split_and!; evaluate. Qed.

Ltac premise Hbrk Hindex Hhandles Hbuffers :=
  first
    [ eassumption
    | lia
    | reflexivity
    | (unfold memory_available; rewrite ?Hbrk, ?Hindex, ?Hhandles, ?Hbuffers;
       first [ evaluate | decide_now | (split_and!; evaluate) | (intros; evaluate) ])
    | (repeat constructor; eexists; split; [eassumption | evaluate]) ].

Ltac feed H Hbrk Hindex Hhandles Hbuffers :=
  repeat lazymatch type of H with
         | ?A → _ =>
           let X := fresh in
           assert (X : A) by premise Hbrk Hindex Hhandles Hbuffers;
           specialize (H X); clear X
         end.

Lemma ion_alloc_serves_request_witness :
  clients boot !! 4096 = Some (IonClient [] 1 1024) ∧
  dev_heaps boot = [24] ++ 16 :: [] ∧
  heaps boot !! 24 = Some (IonHeap 2 1 0 false true []) ∧
  heaps boot !! 16 = Some (IonHeap 1 0 0 true true []) ∧
  brk boot = 4112 ∧ dev_buffers boot = [] ∧ handles boot = ∅ ∧ buffers boot = ∅ ∧
  ∃ s1, ion_alloc 4096 100 0 2 0 boot = Ok 4120 s1 ∧
    handles s1 !! 4120 = Some (IonHandle 1 4096 4112 true 0) ∧
    buffers s1 !! 4112 = Some (IonBuffer 1 16 0 4096 0 0 4116 0 1) ∧
    (4112 ∈ dev_buffers s1) ∧
    hp_used <$> heaps s1 !! 16 = Some 4096 ∧
    ion_handle_validate 4096 4120 s1 = Ok true s1.
Proof.
  destruct boot_summary as (Hcl & Hlist & H24 & H16 & Hbrk & Hindex & Hhandles & Hbuffers).
  split_and!; [done..|].
  revert Hcl Hlist H24 H16 Hbrk Hindex Hhandles Hbuffers. generalize boot.
  intros s Hcl Hlist H24 H16 Hbrk Hindex Hhandles Hbuffers.
  assert (H := ion_alloc_serves_request (P:=bcm_platform) (E:=willing_env)
                 s 4096 (IonClient [] 1 1024) [24] 16 [] (IonHeap 1 0 0 true true [])
                 100 0 2 0).
  feed H Hbrk Hindex Hhandles Hbuffers.
  rewrite Hbrk in H.
  destruct H as (Halloc & _ & Hhandle & Hbuffer & Hin & Hused & Hvalid).
  eexists. split_and!;
    [exact Halloc|exact Hhandle|exact Hbuffer|exact Hin|exact Hused|exact Hvalid].
Defined.

Lemma alloc_free_roundtrip_witness :
  clients boot !! 4096 = Some (IonClient [] 1 1024) ∧
  dev_heaps boot = [24] ++ 16 :: [] ∧
  heaps boot !! 24 = Some (IonHeap 2 1 0 false true []) ∧
  heaps boot !! 16 = Some (IonHeap 1 0 0 true true []) ∧
  brk boot = 4112 ∧ dev_buffers boot = [] ∧ handles boot = ∅ ∧ buffers boot = ∅ ∧
  ∃ s1, ion_alloc 4096 100 0 2 0 boot = Ok 4120 s1 ∧
    ion_free 4096 4120 s1
    = Ok () (set_brk (λ _, 4128)
              (set_trace
                 (λ _, (((trace boot ++ [EvKzalloc 4112])
                          ++ [EvAllocate 16 4112 4096 0 0 0])
                          ++ [EvMapDma 16 4112 4116])
                       ++ [EvKzalloc 4120; EvUnmapDma 16 4112; EvHeapFree 4112;
                           EvKfree 4112; EvKfree 4120]) boot)).
Proof.
  destruct boot_summary as (Hcl & Hlist & H24 & H16 & Hbrk & Hindex & Hhandles & Hbuffers).
  split_and!; [done..|].
  revert Hcl Hlist H24 H16 Hbrk Hindex Hhandles Hbuffers. generalize boot.
  intros s Hcl Hlist H24 H16 Hbrk Hindex Hhandles Hbuffers.
  assert (H := alloc_free_roundtrip (P:=bcm_platform) (E:=willing_env)
                 s 4096 (IonClient [] 1 1024) [24] 16 [] (IonHeap 1 0 0 true true [])
                 100 0 2 0).
  feed H Hbrk Hindex Hhandles Hbuffers.
  rewrite Hbrk in H.
  destruct H as (s1 & Halloc & Hfree).
  exists s1. split; [exact Halloc|exact Hfree].
Defined.

Lemma ioctl_alloc_undone_when_reply_fails_witness :
  clients boot !! 4096 = Some (IonClient [] 1 1024) ∧
  dev_heaps boot = [24] ++ 16 :: [] ∧
  heaps boot !! 24 = Some (IonHeap 2 1 0 false true []) ∧
  heaps boot !! 16 = Some (IonHeap 1 0 0 true true []) ∧
  brk boot = 4112 ∧ dev_buffers boot = [] ∧ handles boot = ∅ ∧ buffers boot = ∅ ∧
  ion_ioctl (U:=read_only_user) 4096 (ION_IOC_ALLOC 100 0 2 0 0) boot
  = Ok (- EFAULT, None)
       (set_brk (λ _, 4128)
          (set_trace
             (λ _, (((trace boot ++ [EvKzalloc 4112])
                      ++ [EvAllocate 16 4112 4096 0 0 0])
                      ++ [EvMapDma 16 4112 4116])
                   ++ [EvKzalloc 4120; EvUnmapDma 16 4112; EvHeapFree 4112;
                       EvKfree 4112; EvKfree 4120]) boot)).
Proof.
  destruct boot_summary as (Hcl & Hlist & H24 & H16 & Hbrk & Hindex & Hhandles & Hbuffers).
  split_and!; [done..|].
  revert Hcl Hlist H24 H16 Hbrk Hindex Hhandles Hbuffers. generalize boot.
  intros s Hcl Hlist H24 H16 Hbrk Hindex Hhandles Hbuffers.
  assert (H := ioctl_alloc_undone_when_reply_fails (P:=bcm_platform) (E:=willing_env)
                 (U:=read_only_user)
                 s 4096 (IonClient [] 1 1024) [24] 16 [] (IonHeap 1 0 0 true true [])
                 100 0 2 0).
  feed H Hbrk Hindex Hhandles Hbuffers.
  specialize (H 0 eq_refl eq_refl).
  rewrite Hbrk in H. exact H.
Defined.

Lemma ion_alloc_length_wraps_to_zero_witness :
  clients boot !! 4096 = Some (IonClient [] 1 1024) ∧
  dev_heaps boot = [24] ++ 16 :: [] ∧
  heaps boot !! 24 = Some (IonHeap 2 1 0 false true []) ∧
  heaps boot !! 16 = Some (IonHeap 1 0 0 true true []) ∧
  brk boot = 4112 ∧ dev_buffers boot = [] ∧ handles boot = ∅ ∧ buffers boot = ∅ ∧
  PAGE_ALIGN (2 ^ 32 - 1) = 0 ∧
  ∃ s1, ion_alloc 4096 (2 ^ 32 - 1) 0 2 0 boot = Ok 4120 s1 ∧
    buffers s1 !! 4112 = Some (IonBuffer 1 16 0 0 0 0 4116 0 1) ∧
    EvAllocate 16 4112 0 0 0 0 ∈ trace s1.
Proof.
  destruct boot_summary as (Hcl & Hlist & H24 & H16 & Hbrk & Hindex & Hhandles & Hbuffers).
  split_and!; [done..|].
  revert Hcl Hlist H24 H16 Hbrk Hindex Hhandles Hbuffers. generalize boot.
  intros s Hcl Hlist H24 H16 Hbrk Hindex Hhandles Hbuffers.
  assert (H := ion_alloc_length_wraps_to_zero (P:=bcm_platform) (E:=willing_env)
                 s 4096 (IonClient [] 1 1024) [24] 16 [] (IonHeap 1 0 0 true true [])
                 (2 ^ 32 - 1) 0 2 0).
  feed H Hbrk Hindex Hhandles Hbuffers.
  rewrite Hbrk in H.
  destruct H as (_ & Halloc & _ & Hbuffer & Hevent).
  eexists. split_and!; [exact Halloc|exact Hbuffer|exact Hevent].
Defined.

End FirstHeapExamples.

Section LaterExamples.
#[local] Existing Instance bcm_platform.
#[local] Existing Instance willing_env.
#[local] Existing Instance plain_user.
#[local] Existing Instance plain_mm.

Lemma page_dirty_bit_witness :
  0 ≤ 12288 < 2 ^ 32 ∧
  ion_buffer_page_dirty 12288 = 12289 ∧
  ion_buffer_page_is_dirty (ion_buffer_page_dirty 12288) = true ∧
  ion_buffer_page_is_dirty (ion_buffer_page_clean 12288) = false ∧
  ion_buffer_page (ion_buffer_page_dirty 12288) = ion_buffer_page 12288 ∧
  ion_buffer_page_clean (ion_buffer_page_dirty 12288) = 12288.
Proof.
  assert (Hpage : 0 ≤ 12288 < 2 ^ 32) by lia.
  destruct (page_dirty_bit 12288 Hpage) as (H1 & H2 & H3 & _ & _ & H6).
  split; [exact Hpage|].
  split_and!; [reflexivity|exact H1|exact H2|exact H3|].
  exact (proj2 (H6 eq_refl)).
Defined.

Lemma sync_for_device_cleans_pages_witness :
  Z.to_nat (sint (PAGE_ALIGN (b_size cached_buffer) / PAGE_SIZE))
  = length (um_pages two_pages) ∧
  b_pages cached_buffer ≠ 0 ∧
  ion_buffer_sync_for_device cached_buffer two_pages
  = inr ((), UserMappings [12288; 16384] [(8192, 100); (8200, 200)],
         [EvDmaPageCpuToDev 12289; EvZapPageRange 100; EvZapPageRange 200]) ∧
  ion_buffer_sync_for_device cached_buffer
    (UserMappings [12288; 16384] [(8192, 100); (8200, 200)])
  = inr ((), UserMappings [12288; 16384] [(8192, 100); (8200, 200)],
         [EvZapPageRange 100; EvZapPageRange 200]).
Proof.
  assert (Hlen : Z.to_nat (sint (PAGE_ALIGN (b_size cached_buffer) / PAGE_SIZE))
                 = length (um_pages two_pages)) by reflexivity.
  assert (Hpages : b_pages cached_buffer ≠ 0) by (cbn; lia).
  destruct (sync_for_device_cleans_pages cached_buffer two_pages Hlen Hpages)
    as (Hsync & _ & Hagain).
  split_and!; [exact Hlen|exact Hpages|exact Hsync|exact Hagain].
Defined.

Lemma freelist_total_counts_queue_witness :
  heaps one_queued_buffer !! 24 = Some (IonHeap 2 1 4096 false true [4112]) ∧
  buffers one_queued_buffer !! 4112 = Some (IonBuffer 0 24 0 4096 0 0 4116 0 0) ∧
  ion_debug_heap_freelist 24 one_queued_buffer = Ok 4096 one_queued_buffer ∧
  ∃ drained s', ion_heap_drain_freelist 24 one_queued_buffer = Ok drained s' ∧
    ion_debug_heap_freelist 24 s' = Ok 0 s'.
Proof.
  assert (Hhp : heaps one_queued_buffer !! 24 = Some (IonHeap 2 1 4096 false true [4112]))
    by evaluate.
  assert (Hb : buffers one_queued_buffer !! 4112
               = Some (IonBuffer 0 24 0 4096 0 0 4116 0 0)) by evaluate.
  split_and!; [exact Hhp|exact Hb|..].
  all: revert Hhp Hb; generalize one_queued_buffer; intros s Hhp Hb.
  all: assert (Hqueued : queued_bytes s [4112] = 4096)
         by (unfold queued_bytes; cbn [foldr]; rewrite Hb; reflexivity).
  all: assert (Hsound : free_list_sound s 24 [4112])
         by (split; repeat constructor;
             [by intros ?%elem_of_nil | eexists; split; [exact Hb|reflexivity]]).
  all: assert (Hsizes : Forall (λ b, ∃ bd, buffers s !! b = Some bd ∧ 0 ≤ b_size bd)
                          [4112])
         by (repeat constructor; eexists; split; [exact Hb|cbn; lia]).
  all: assert (Hmax : queued_bytes s [4112] ≤ INT_MAX)
         by (rewrite Hqueued; unfold INT_MAX; lia).
  all: destruct (freelist_total_counts_queue s 24 _ Hhp Hsound Hsizes Hmax) as (_ & H).
  all: cbn [hp_free_list hp_flags] in H.
  all: rewrite Hqueued in H.
  - destruct (H eq_refl) as (Htotal & _). exact Htotal.
  - destruct (H eq_refl) as (_ & Hdrain). exact Hdrain.
Defined.

Lemma ion_client_destroy_releases_handles_witness :
  clients one_buffer !! 4096 = Some (IonClient [4120] 1 1024) ∧
  handles one_buffer !! 4120 = Some (IonHandle 1 4096 4112 true 0) ∧
  buffers one_buffer !! 4112 = Some (IonBuffer 1 16 0 4096 0 0 4116 0 1) ∧
  heaps one_buffer !! 16 = Some (IonHeap 1 0 4096 true true []) ∧
  dev_clients one_buffer = [4096; 4104] ∧
  ∃ s', ion_client_destroy 1 4096 one_buffer = Ok () s' ∧
    ion_release 1 4096 one_buffer = Ok 0 s' ∧
    clients s' !! 4096 = None ∧
    dev_clients s' = [4104] ∧
    handles s' !! 4120 = None.
Proof.
  assert (Hcl : clients one_buffer !! 4096 = Some (IonClient [4120] 1 1024)) by evaluate.
  assert (Hh : handles one_buffer !! 4120 = Some (IonHandle 1 4096 4112 true 0))
    by evaluate.
  assert (Hb : buffers one_buffer !! 4112 = Some (IonBuffer 1 16 0 4096 0 0 4116 0 1))
    by evaluate.
  assert (Hhp : heaps one_buffer !! 16 = Some (IonHeap 1 0 4096 true true []))
    by evaluate.
  assert (Htree : dev_clients one_buffer = [4096; 4104]) by evaluate.
  split_and!; [exact Hcl|exact Hh|exact Hb|exact Hhp|exact Htree|].
  revert Hcl Hh Hb Hhp Htree. generalize one_buffer. intros s Hcl Hh Hb Hhp Htree.
  assert (Hnodup : NoDup [4120]) by (repeat constructor; by intros ?%elem_of_nil).
  assert (Hdrop : Forall (droppable s 4096) [4120]).
  { repeat constructor. eexists _, _. split_and!; [exact Hh|done..|exact Hb| | | | |].
    all: cbn; unfold INT_MAX; try lia. rewrite Hhp. by eexists. }
  assert (Hapart : buffers_apart s [4120]).
  { intros h1 h2 ? ? ->%list_elem_of_singleton ->%list_elem_of_singleton. done. }
  destruct (proj2 (ion_client_destroy_releases_handles s 4096 _ 1%nat Hcl)
              eq_refl Hnodup Hdrop Hapart (le_n 1))
    as (s' & Hdestroy & Hrelease & Hclients & Hdev & Hgone & _).
  exists s'. split_and!; [exact Hdestroy|exact Hrelease| | |].
  - rewrite Hclients. apply lookup_delete_eq.
  - rewrite Hdev, Htree. reflexivity.
  - apply Hgone. cbn. apply list_elem_of_singleton. reflexivity.
Defined.

Lemma open_release_roundtrip_witness :
  brk boot = 4112 ∧ clients boot !! 4112 = None ∧ dev_clients boot = [4096; 4104] ∧
  memory_available kzalloc_fails boot ∧
  ∃ s1, ion_open boot = Ok (0, 4112) s1 ∧
    clients s1 !! 4112 = Some (IonClient [] 1 1024) ∧
    ion_release 0 4112 s1
    = Ok 0 (set_brk (λ p, p + KMALLOC_MINALIGN)
             (set_trace (λ t, t ++ [EvKzalloc 4112; EvKfree 4112]) boot)).
Proof.
  assert (Hbrk : brk boot = 4112) by evaluate.
  assert (Hfree : clients boot !! 4112 = None) by evaluate.
  assert (Htree : dev_clients boot = [4096; 4104]) by evaluate.
  assert (Hmem : memory_available kzalloc_fails boot) by (split_and!; evaluate).
  split_and!; [exact Hbrk|exact Hfree|exact Htree|exact Hmem|].
  revert Hbrk Hfree Htree Hmem. generalize boot. intros s Hbrk Hfree Htree Hmem.
  assert (Hout : brk s ∉ dev_clients s) by (rewrite Hbrk, Htree; decide_now).
  rewrite <- Hbrk in Hfree.
  destruct (proj1 (open_release_roundtrip (E:=willing_env) s 0%nat Hfree Hout) Hmem)
    as (Hopen & Hrelease).
  rewrite Hbrk in Hopen, Hrelease.
  eexists. split_and!; [exact Hopen| |exact Hrelease].
  cbn. apply lookup_insert_eq.
Defined.

End LaterExamples.

(** ** Reference counts of buffers *)

Section Pointing.

Lemma pointing_nonneg b m : 0 ≤ pointing b m.
Proof. unfold pointing. lia. Qed.

Lemma pointing_le_size b m : pointing b m ≤ Z.of_nat (size m).
Proof.
  unfold pointing. apply inj_le, map_subseteq_size, map_filter_subseteq.
Qed.

Lemma pointing_insert_fresh b m k v :
  m !! k = None →
  pointing b (<[k := v]> m) = pointing b m + (if decide (v = b) then 1 else 0).
Proof.
  intros Hfresh. unfold pointing. rewrite map_filter_insert. cbn.
  assert (Hnone : filter (λ kv : Z * Z, kv.2 = b) m !! k = None).
  { apply map_lookup_filter_None. by left. }
  destruct (decide (v = b)).
  - rewrite map_size_insert_None by done. lia.
  - rewrite map_filter_delete, delete_id by done. lia.
Qed.

Lemma pointing_some b m k : m !! k = Some b → 1 ≤ pointing b m.
Proof.
  intros Hk. unfold pointing.
  assert (size (filter (λ kv : Z * Z, kv.2 = b) m) ≠ 0%nat); [|lia].
  intros Hz. apply map_size_empty_inv in Hz.
  assert (Hin : filter (λ kv : Z * Z, kv.2 = b) m !! k = Some b)
    by by apply map_lookup_filter_Some.
  by rewrite Hz in Hin.
Qed.

Lemma pointing_delete b m k v :
  m !! k = Some v →
  pointing b (delete k m) = pointing b m - (if decide (v = b) then 1 else 0).
Proof.
  intros Hk. destruct (decide (v = b)) as [->|Hne].
  - pose proof (pointing_some b m k Hk). unfold pointing in *.
    rewrite map_filter_delete, map_size_delete_Some; [lia|].
    exists b. by apply map_lookup_filter_Some.
  - unfold pointing. rewrite map_filter_delete, delete_id; [lia|].
    apply map_lookup_filter_None. right. intros x. rewrite Hk. cbn. congruence.
Qed.

Lemma pointing_none b m : (∀ k v, m !! k = Some v → v ≠ b) → pointing b m = 0.
Proof.
  intros Hno. unfold pointing.
  replace (filter (λ kv : Z * Z, kv.2 = b) m) with (∅ : gmap Z Z);
    [by rewrite map_size_empty|].
  symmetry. apply map_empty. intros k. apply map_lookup_filter_None.
  right. intros x Hk. cbn. by apply (Hno k).
Qed.

Lemma attached_pointing b hs : attached b hs = pointing b (h_buffer <$> hs).
Proof. reflexivity. Qed.

Lemma attached_le_size b hs : attached b hs ≤ Z.of_nat (size hs).
Proof.
  rewrite attached_pointing, <- (map_size_fmap h_buffer hs). apply pointing_le_size.
Qed.

Lemma exported_nonneg b ds : 0 ≤ exported b ds.
Proof. apply pointing_nonneg. Qed.

Lemma exported_some b ds d dd :
  ds !! d = Some dd → db_ops_ion dd = true → db_priv dd = b → 1 ≤ exported b ds.
Proof.
  intros Hd Hion Hb. apply (pointing_some _ _ d).
  rewrite lookup_omap, Hd. cbn. unfold exported_buffer. by rewrite Hion, Hb.
Qed.

End Pointing.

Section Inert.

Lemma inert_refl s : inert s s.
Proof.
  split; try done.
  - intros b. unfold ref_of. destruct (buffers s !! b) as [bd|]; [by exists bd|done].
  - intros heap hp b Hhp Hin. by exists hp.
Qed.

Lemma inert_ref_of s s' b : inert s s' → ref_of s' b = ref_of s b.
Proof.
  intros Hin. pose proof (in_buffers _ _ Hin b) as Hb. unfold ref_of in *.
  destruct (buffers s' !! b) as [bd'|]; cbn.
  - destruct Hb as (bd & -> & ->). done.
  - by rewrite Hb.
Qed.

Lemma inert_trans s1 s2 s3 : inert s1 s2 → inert s2 s3 → inert s1 s3.
Proof.
  intros H12 H23. split.
  - rewrite (in_handles _ _ H23). apply H12.
  - rewrite (in_dmabufs _ _ H23). apply H12.
  - intros b. pose proof (in_buffers _ _ H23 b) as H3.
    destruct (buffers s3 !! b) as [bd3|].
    + destruct H3 as (bd2 & H2 & Href).
      pose proof (in_buffers _ _ H12 b) as H1. rewrite H2 in H1.
      destruct H1 as (bd1 & H1 & Href'). exists bd1. split; [done|congruence].
    + by rewrite <- (inert_ref_of _ _ _ H12).
  - intros heap hp3 b Hhp Hb.
    destruct (in_queues _ _ H23 heap hp3 b Hhp Hb) as (hp2 & Hhp2 & Hb2).
    apply (in_queues _ _ H12 heap hp2 b Hhp2 Hb2).
  - pose proof (in_brk _ _ H12). pose proof (in_brk _ _ H23). lia.
Qed.

(** Nothing that [inert] looks at has changed. *)
Lemma inert_same s s' :
  handles s' = handles s → dmabufs s' = dmabufs s → buffers s' = buffers s →
  heaps s' = heaps s → brk s ≤ brk s' → inert s s'.
Proof.
  intros Hh Hd Hb Hp Hk. split; rewrite ?Hh, ?Hd, ?Hp; try done.
  - intros b. rewrite Hb. unfold ref_of.
    destruct (buffers s !! b) as [bd|]; [by exists bd|done].
  - intros heap hp b Hhp Hin. by exists hp.
Qed.

Lemma inert_put_buffer s b bd bd' :
  buffers s !! b = Some bd → b_ref bd' = b_ref bd →
  inert s (set_buffers <[b := bd']> s).
Proof.
  intros Hb Href. split; try done; cbn.
  - intros b0. rewrite lookup_insert. case_decide as Heq.
    + subst b0. by exists bd.
    + unfold ref_of. destruct (buffers s !! b0) as [bd0|]; [by exists bd0|done].
  - intros heap hp x Hhp Hin. by exists hp.
Qed.

Lemma inert_delete_buffer s b :
  ref_of s b = 0 → inert s (set_buffers (delete b) s).
Proof.
  intros Href. split; try done; cbn.
  - intros b0. rewrite lookup_delete. case_decide as Heq.
    + by subst b0.
    + unfold ref_of. destruct (buffers s !! b0) as [bd0|]; [by exists bd0|done].
  - intros heap hp x Hhp Hin. by exists hp.
Qed.

Lemma inert_put_handle s h hd hd' :
  handles s !! h = Some hd → h_buffer hd' = h_buffer hd →
  inert s (set_handles <[h := hd']> s).
Proof.
  intros Hh Hb.
  apply (inert_trans _ s); [apply inert_refl|].
  pose proof (inert_refl s) as [_ Hd Hbuf Hq Hk]. split; try done. cbn.
  rewrite fmap_insert. apply insert_id. rewrite lookup_fmap, Hh. cbn. congruence.
Qed.

Lemma inert_put_dmabuf s d dd dd' :
  dmabufs s !! d = Some dd → exported_buffer dd' = exported_buffer dd →
  inert s (set_dmabufs <[d := dd']> s).
Proof.
  intros Hd Hb.
  pose proof (inert_refl s) as [Hh _ Hbuf Hq Hk]. split; try done. cbn.
  apply map_eq. intros k. rewrite !lookup_omap, lookup_insert.
  case_decide as Heq; [|done]. subst k. rewrite Hd. cbn. done.
Qed.

(** Releasing a dma-buf of another exporter. *)
Lemma inert_delete_dmabuf s d :
  omap exported_buffer (dmabufs s) !! d = None →
  inert s (set_dmabufs (delete d) s).
Proof.
  intros Hd.
  pose proof (inert_refl s) as [Hh _ Hbuf Hq Hk]. split; try done. cbn.
  rewrite omap_delete. by apply delete_id.
Qed.

Lemma inert_put_heap s p hp' :
  (∀ b, b ∈ hp_free_list hp' →
        ∃ hp, heaps s !! p = Some hp ∧ b ∈ hp_free_list hp) →
  inert s (set_heaps <[p := hp']> s).
Proof.
  intros Hsub.
  pose proof (inert_refl s) as [Hh Hd Hbuf _ Hk]. split; try done. cbn.
  intros heap hp0 b. rewrite lookup_insert. case_decide as Heq.
  - intros [= <-] Hin. subst heap. by apply Hsub.
  - intros Hhp Hin. by exists hp0.
Qed.

Lemma inert_handle s s' h hd :
  inert s s' → handles s !! h = Some hd →
  ∃ hd', handles s' !! h = Some hd' ∧ h_buffer hd' = h_buffer hd.
Proof.
  intros Hin Hh. assert (Hb := f_equal (λ m, m !! h) (in_handles _ _ Hin)).
  cbn in Hb. rewrite !lookup_fmap, Hh in Hb.
  destruct (handles s' !! h) as [hd'|]; [|done]. cbn in Hb.
  exists hd'. split; [done|congruence].
Qed.

Lemma inert_handle_back s s' h hd' :
  inert s s' → handles s' !! h = Some hd' →
  ∃ hd, handles s !! h = Some hd ∧ h_buffer hd' = h_buffer hd.
Proof.
  intros Hin Hh. assert (Hb := f_equal (λ m, m !! h) (in_handles _ _ Hin)).
  cbn in Hb. rewrite !lookup_fmap, Hh in Hb.
  destruct (handles s !! h) as [hd|]; [|done]. cbn in Hb.
  exists hd. split; [done|congruence].
Qed.

Lemma handed_out_mono s s' : brk s ≤ brk s' → handed_out s ≤ handed_out s'.
Proof. unfold handed_out. lia. Qed.

(** An inert change keeps the counts right. *)
Lemma counted_inert skew s s' : counted skew s → inert s s' → counted skew s'.
Proof.
  intros [Hrefs Hrange Hq Hhb Hbb Hdb Hroom] Hin.
  pose proof (in_brk _ _ Hin) as Hbrk.
  split.
  - intros b. rewrite (inert_ref_of _ _ _ Hin).
    rewrite (attached_ext b (handles s) (handles s')) by apply Hin.
    unfold exported. rewrite (in_dmabufs _ _ Hin). apply Hrefs.
  - intros b bd' Hb'. pose proof (in_buffers _ _ Hin b) as Hb. rewrite Hb' in Hb.
    destruct Hb as (bd & Hb & ->). by apply (Hrange b).
  - intros heap hp' b Hhp' Hb.
    destruct (in_queues _ _ Hin heap hp' b Hhp' Hb) as (hp & Hhp & Hb0).
    destruct (Hq heap hp b Hhp Hb0) as [Hz Hlt].
    rewrite (inert_ref_of _ _ _ Hin). split; [done|lia].
  - intros h hd' Hh'.
    destruct (inert_handle_back _ _ _ _ Hin Hh') as (hd & Hh & ->).
    destruct (Hhb h hd Hh). lia.
  - intros b bd' Hb'. pose proof (in_buffers _ _ Hin b) as Hb. rewrite Hb' in Hb.
    destruct Hb as (bd & Hb & _). specialize (Hbb b bd Hb). lia.
  - intros d b. rewrite (in_dmabufs _ _ Hin). intros Hd.
    destruct (Hdb d b Hd). lia.
  - rewrite (in_dmabufs _ _ Hin).
    rewrite <- (map_size_fmap h_buffer (handles s')), (in_handles _ _ Hin),
      map_size_fmap.
    pose proof (handed_out_mono s s' Hbrk). lia.
Qed.

Lemma counted_ext skew skew' s :
  (∀ b, skew b = skew' b) → counted skew s → counted skew' s.
Proof.
  intros Heq [Hrefs Hrange Hq Hhb Hbb Hdb Hroom]. split; try done.
  intros b. rewrite <- Heq. apply Hrefs.
Qed.

End Inert.

(** ** Functions that only make inert changes *)

(** Proves [inert s0 x] for a state [x] built from [s0] by updates of
    fields that [inert] does not look at. *)
Ltac inert_same_now := apply inert_same; cbn; first [done | unfold KMALLOC_MINALIGN; lia].

Create HintDb inert discriminated.

Section InertRules.

Lemma inertly_ret {A} (a : A) : inertly (mret a).
Proof. intros s. apply wp_ret, inert_refl. Qed.

Lemma inertly_bind {A B} (m : M A) (f : A → M B) :
  inertly m → (∀ a, inertly (f a)) → inertly (m ≫= f).
Proof.
  intros Hm Hf s. apply wp_bind. eapply wp_mono; [apply Hm|].
  intros a s' Hin. eapply wp_mono; [apply Hf|].
  intros b s'' Hin'. by apply (inert_trans _ s').
Qed.

Lemma inertly_oops {A} c : inertly (oops (A:=A) c).
Proof. by intros s. Qed.

Lemma inertly_load {A} (mem : state → gmap Z A) p : inertly (load mem p).
Proof. intros s. apply wp_load. intros. apply inert_refl. Qed.

Lemma inertly_get_state : inertly get_state.
Proof. intros s. apply inert_refl. Qed.

Lemma inertly_history : inertly history.
Proof. intros s. apply inert_refl. Qed.

Lemma inertly_modify f :
  (∀ s, handles (f s) = handles s ∧ dmabufs (f s) = dmabufs s ∧
        buffers (f s) = buffers s ∧ heaps (f s) = heaps s ∧ brk (f s) = brk s) →
  inertly (modify f).
Proof.
  intros Hf s. destruct (Hf s) as (? & ? & ? & ? & Hk).
  apply wp_modify, inert_same; try done. lia.
Qed.

Lemma inertly_int_add x d : inertly (int_add x d).
Proof. intros s. apply wp_int_add. intros. apply inert_refl. Qed.

Lemma inertly_emit e : inertly (emit e).
Proof. apply inertly_modify. by intros []. Qed.

Lemma inertly_update_buffer p f :
  (∀ b, b_ref (f b) = b_ref b) → inertly (update_buffer p f).
Proof. intros Hf s. unfold update_buffer. wp_run. by eapply inert_put_buffer. Qed.

Lemma inertly_update_handle p f :
  (∀ hd, h_buffer (f hd) = h_buffer hd) → inertly (update_handle p f).
Proof. intros Hf s. unfold update_handle. wp_run. by eapply inert_put_handle. Qed.

Lemma inertly_update_dmabuf p f :
  (∀ d, exported_buffer (f d) = exported_buffer d) → inertly (update_dmabuf p f).
Proof. intros Hf s. unfold update_dmabuf. wp_run. by eapply inert_put_dmabuf. Qed.

Lemma inertly_update_heap p f :
  (∀ hp b, b ∈ hp_free_list (f hp) → b ∈ hp_free_list hp) →
  inertly (update_heap p f).
Proof.
  intros Hf s. unfold update_heap. wp_run. apply inert_put_heap.
  intros b Hb. exists x. split; [done|]. by apply Hf.
Qed.

(** [INIT_LIST_HEAD(&heap->free_list)] *)
Lemma inertly_put_heap p x : hp_free_list x = [] → inertly (put_heap p x).
Proof.
  intros Hx s. unfold put_heap. wp_run. apply inert_put_heap.
  intros b. rewrite Hx. by intros ?%elem_of_nil.
Qed.

Lemma inertly_put_client p x : inertly (put_client p x).
Proof. apply inertly_modify. by intros []. Qed.

Lemma inertly_update_client p f : inertly (update_client p f).
Proof.
  apply inertly_bind; [apply inertly_load|]. intros x. apply inertly_put_client.
Qed.

Lemma inertly_kfree_client p : inertly (kfree_client p).
Proof.
  apply inertly_bind; [apply inertly_emit|]. intros _.
  apply inertly_modify. by intros [].
Qed.

Lemma inertly_allocate_memory fails ev : inertly (allocate_memory fails ev).
Proof.
  intros s. apply wp_allocate_memory; [inert_same_now|]. intros _ _. inert_same_now.
Qed.

End InertRules.

#[local] Hint Resolve inertly_ret inertly_oops inertly_load inertly_get_state
  inertly_history inertly_int_add inertly_emit inertly_put_client
  inertly_update_client inertly_kfree_client inertly_allocate_memory : inert.

Ltac inert_step :=
  lazymatch goal with
  | |- inertly (mbind _ _) => apply inertly_bind; [|intros ?]
  | |- inertly (if ?c then _ else _) => destruct c
  | |- inertly (match ?x with inl _ => _ | inr _ => _ end) => destruct x
  | |- inertly (match ?x with [] => _ | _ :: _ => _ end) => destruct x
  | |- inertly (match ?x with Some _ => _ | None => _ end) => destruct x
  | |- inertly (let '(_, _) := ?x in _) => destruct x
  | |- inertly (modify _) => apply inertly_modify; by intros []
  | |- inertly (update_buffer _ _) => apply inertly_update_buffer; by intros []
  | |- inertly (update_handle _ _) => apply inertly_update_handle; by intros []
  | |- inertly (update_dmabuf _ _) => apply inertly_update_dmabuf; by intros []
  | |- inertly (update_heap _ _) =>
      apply inertly_update_heap; intros [] ?; cbn;
      first [done | by intros [_ ?]%list_elem_of_filter]
  | |- inertly (put_heap _ _) => by apply inertly_put_heap
  | |- inertly _ => solve [auto with inert]
  end.

Ltac inert_auto :=
  repeat (unfold get_handle, get_buffer, get_heap, get_client, get_dmabuf,
                 WARN_ON, BUG_ON, call_allocate, call_free, call_map_dma,
                 call_unmap_dma, call_map_kernel, call_unmap_kernel, call_phys,
                 kzalloc, vmalloc;
          inert_step).

Section InertFunctions.
Context {P : Platform} {E : Environment}.

Lemma inertly_ion_buffer_kmap_get buffer : inertly (ion_buffer_kmap_get buffer).
Proof. unfold ion_buffer_kmap_get. inert_auto. Qed.
Hint Resolve inertly_ion_buffer_kmap_get : inert.

Lemma inertly_ion_handle_kmap_get handle : inertly (ion_handle_kmap_get handle).
Proof. unfold ion_handle_kmap_get. inert_auto. Qed.

Lemma inertly_ion_buffer_kmap_put buffer : inertly (ion_buffer_kmap_put buffer).
Proof. unfold ion_buffer_kmap_put. inert_auto. Qed.
Hint Resolve inertly_ion_buffer_kmap_put : inert.

Lemma inertly_ion_handle_kmap_put handle : inertly (ion_handle_kmap_put handle).
Proof. unfold ion_handle_kmap_put. inert_auto. Qed.
Hint Resolve inertly_ion_handle_kmap_get inertly_ion_handle_kmap_put : inert.

Lemma inertly_handle_kmap_drain fuel handle : inertly (handle_kmap_drain fuel handle).
Proof. induction fuel as [|fuel IH]; cbn [handle_kmap_drain]; inert_auto. Qed.

Lemma inertly_list_del heap buffer : inertly (list_del heap buffer).
Proof. unfold list_del. inert_auto. Qed.

Lemma inertly_ion_buffer_add buffer : inertly (ion_buffer_add buffer).
Proof. unfold ion_buffer_add. inert_auto. Qed.

Lemma inertly_ion_buffer_add_to_handle buffer :
  inertly (ion_buffer_add_to_handle buffer).
Proof. unfold ion_buffer_add_to_handle. inert_auto. Qed.

Lemma inertly_ion_buffer_remove_from_handle buffer :
  inertly (ion_buffer_remove_from_handle buffer).
Proof. unfold ion_buffer_remove_from_handle. inert_auto. Qed.

Lemma inertly_ion_handle_validate client handle :
  inertly (ion_handle_validate client handle).
Proof. unfold ion_handle_validate. inert_auto. Qed.
Hint Resolve inertly_ion_handle_validate : inert.

Lemma inertly_handle_lookup_from nodes buffer : inertly (handle_lookup_from nodes buffer).
Proof. induction nodes as [|n nodes IH]; cbn [handle_lookup_from]; inert_auto. Qed.
Hint Resolve inertly_handle_lookup_from : inert.

Lemma inertly_ion_handle_lookup client buffer : inertly (ion_handle_lookup client buffer).
Proof. unfold ion_handle_lookup. inert_auto. Qed.

Lemma inertly_ion_handle_get handle : inertly (ion_handle_get handle).
Proof. unfold ion_handle_get. inert_auto. Qed.

Lemma inertly_ion_handle_add client handle : inertly (ion_handle_add client handle).
Proof. unfold ion_handle_add. inert_auto. Qed.

Lemma inertly_ion_phys client handle : inertly (ion_phys client handle).
Proof. unfold ion_phys. inert_auto. Qed.

Lemma inertly_ion_map_kernel client handle : inertly (ion_map_kernel client handle).
Proof. unfold ion_map_kernel. inert_auto. Qed.

Lemma inertly_ion_unmap_kernel client handle : inertly (ion_unmap_kernel client handle).
Proof. unfold ion_unmap_kernel. inert_auto. Qed.

Lemma inertly_ion_sg_table client handle : inertly (ion_sg_table client handle).
Proof. unfold ion_sg_table. inert_auto. Qed.

Lemma inertly_ion_client_create : inertly ion_client_create.
Proof. unfold ion_client_create. inert_auto. Qed.

Lemma inertly_ion_client_get client : inertly (ion_client_get client).
Proof. unfold ion_client_get. inert_auto. Qed.

Lemma inertly_dma_buf_fd dmabuf : inertly (dma_buf_fd dmabuf).
Proof. unfold dma_buf_fd. inert_auto. Qed.

Lemma inertly_dma_buf_get fd : inertly (dma_buf_get fd).
Proof. unfold dma_buf_get. inert_auto. Qed.

Lemma inertly_ion_dma_buf_begin_cpu_access dmabuf :
  inertly (ion_dma_buf_begin_cpu_access dmabuf).
Proof. unfold ion_dma_buf_begin_cpu_access. inert_auto. Qed.

Lemma inertly_ion_dma_buf_end_cpu_access dmabuf :
  inertly (ion_dma_buf_end_cpu_access dmabuf).
Proof. unfold ion_dma_buf_end_cpu_access. inert_auto. Qed.

Lemma inertly_plist_add heap id hs : inertly (plist_add heap id hs).
Proof. induction hs as [|x hs IH]; cbn [plist_add]; inert_auto. Qed.
Hint Resolve inertly_plist_add : inert.

Lemma inertly_ion_device_add_heap heap : inertly (ion_device_add_heap heap).
Proof. unfold ion_device_add_heap. inert_auto. Qed.

End InertFunctions.

#[local] Hint Resolve inertly_ion_buffer_kmap_get inertly_ion_buffer_kmap_put
  inertly_ion_handle_kmap_get inertly_ion_handle_kmap_put inertly_handle_kmap_drain
  inertly_list_del inertly_ion_buffer_add inertly_ion_buffer_add_to_handle
  inertly_ion_buffer_remove_from_handle inertly_ion_handle_validate
  inertly_handle_lookup_from inertly_ion_handle_lookup inertly_ion_handle_get
  inertly_ion_handle_add inertly_ion_phys inertly_ion_map_kernel
  inertly_ion_unmap_kernel inertly_ion_sg_table inertly_ion_client_create
  inertly_ion_client_get inertly_dma_buf_fd inertly_dma_buf_get
  inertly_ion_dma_buf_begin_cpu_access inertly_ion_dma_buf_end_cpu_access
  inertly_plist_add inertly_ion_device_add_heap : inert.

(** ** How the operations on references change the counts *)

Section Counting.

Lemma ref_of_live s b :
  ref_of s b ≠ 0 → ∃ bd, buffers s !! b = Some bd ∧ b_ref bd = ref_of s b.
Proof.
  unfold ref_of. destruct (buffers s !! b) as [bd|]; cbn; [|done].
  intros _. by exists bd.
Qed.

Lemma ref_of_lookup s b bd : buffers s !! b = Some bd → ref_of s b = b_ref bd.
Proof. unfold ref_of. by intros ->. Qed.

Lemma handed_out_end s : handed_out s ≤ ADDRESS_END.
Proof.
  unfold handed_out. assert (0 ≤ ADDRESS_END) by (by vm_compute). lia.
Qed.

Lemma handed_out_grows s s' :
  0 < brk s → brk s + KMALLOC_MINALIGN < ADDRESS_END →
  brk s' = brk s + KMALLOC_MINALIGN →
  handed_out s' = handed_out s + KMALLOC_MINALIGN.
Proof. unfold handed_out, KMALLOC_MINALIGN. lia. Qed.

(** The counts stay far away from the range of a kref. *)
Lemma counted_bound skew s b : counted skew s → ref_of s b ≤ 2 ^ 29 + skew b.
Proof.
  intros Hc. rewrite (cnt_refs _ _ Hc b).
  pose proof (attached_le_size b (handles s)).
  pose proof (pointing_le_size b (omap exported_buffer (dmabufs s))).
  pose proof (cnt_room _ _ Hc) as Hroom. pose proof (handed_out_end s) as Hend.
  assert (Hvalue : ADDRESS_END = 4294963201) by reflexivity.
  unfold exported, KMALLOC_MINALIGN in *. lia.
Qed.

(** A buffer with a reference is on no free list. *)
Lemma counted_not_queued skew s b heap hp :
  counted skew s → ref_of s b ≠ 0 → heaps s !! heap = Some hp →
  b ∉ hp_free_list hp.
Proof.
  intros Hc Href Hhp Hin. by destruct (cnt_queued _ _ Hc heap hp b Hhp Hin).
Qed.

Lemma ref_of_insert s s' b bd' x :
  buffers s' = <[b := bd']> (buffers s) →
  ref_of s' x = if decide (x = b) then b_ref bd' else ref_of s x.
Proof.
  intros Hb. unfold ref_of. rewrite Hb, lookup_insert.
  case_decide; case_decide; try congruence; done.
Qed.

Lemma ref_of_delete s s' b x :
  buffers s' = delete b (buffers s) →
  ref_of s' x = if decide (x = b) then 0 else ref_of s x.
Proof.
  intros Hb. unfold ref_of. rewrite Hb, lookup_delete.
  case_decide; case_decide; try congruence; done.
Qed.

(** [kref_get] and [kref_put] on a buffer that has a reference. *)
Lemma counted_set_ref skew s s' b bd bd' :
  counted skew s → buffers s !! b = Some bd → 1 ≤ b_ref bd →
  0 ≤ b_ref bd' < 2 ^ 32 →
  buffers s' = <[b := bd']> (buffers s) →
  handles s' = handles s → dmabufs s' = dmabufs s → heaps s' = heaps s →
  brk s' = brk s →
  counted (λ x, skew x + skewed b (b_ref bd' - b_ref bd) x) s'.
Proof.
  intros Hc Hb Hpos Hr Hbs Hhs Hds Hps Hk.
  pose proof Hc as [Hrefs Hrange Hq Hhb Hbb Hdb Hroom].
  split; rewrite ?Hhs, ?Hds, ?Hps, ?Hk; try done.
  - intros x. rewrite (ref_of_insert s s' b bd' x Hbs).
    pose proof (Hrefs x) as Hx. unfold skewed.
    case_decide as Hxb; [rewrite Hxb in Hx |- *; rewrite (ref_of_lookup s b bd Hb) in Hx|]; lia.
  - intros x bdx. rewrite Hbs, lookup_insert. case_decide.
    + by intros [= <-].
    + apply Hrange.
  - intros heap hp x Hhp Hin. destruct (Hq heap hp x Hhp Hin) as [Hz Hlt].
    split; [|done]. rewrite (ref_of_insert s s' b bd' x Hbs).
    case_decide as Hxb; [|done]. rewrite Hxb, (ref_of_lookup s b bd Hb) in Hz. lia.
  - intros x bdx. rewrite Hbs, lookup_insert. case_decide as Hxb.
    + intros _. rewrite <- Hxb. by apply (Hbb b bd).
    + apply Hbb.
  - unfold handed_out in *. by rewrite Hk.
Qed.

(** A new buffer, with the reference of the code that creates it. *)
Lemma counted_new_buffer skew s s' b bd' :
  counted skew s → brk s ≤ b < brk s' → b_ref bd' = 1 →
  buffers s' = <[b := bd']> (buffers s) →
  handles s' = handles s → dmabufs s' = dmabufs s → heaps s' = heaps s →
  counted (λ x, skew x + skewed b 1 x) s'.
Proof.
  intros Hc Hfresh Hone Hbs Hhs Hds Hps.
  pose proof Hc as [Hrefs Hrange Hq Hhb Hbb Hdb Hroom].
  assert (Hnew : ref_of s b = 0).
  { unfold ref_of. destruct (buffers s !! b) as [bd|] eqn:Hb; [|done].
    specialize (Hbb b bd Hb). lia. }
  split; rewrite ?Hhs, ?Hds, ?Hps; try done.
  - intros x. rewrite (ref_of_insert s s' b bd' x Hbs).
    pose proof (Hrefs x) as Hx. unfold skewed.
    case_decide as Hxb; [rewrite Hxb in Hx |- *; rewrite Hnew in Hx|]; lia.
  - intros x bdx. rewrite Hbs, lookup_insert. case_decide.
    + intros [= <-]. lia.
    + apply Hrange.
  - intros heap hp x Hhp Hin. destruct (Hq heap hp x Hhp Hin) as [Hz Hlt].
    split; [|lia]. rewrite (ref_of_insert s s' b bd' x Hbs).
    case_decide; [lia|done].
  - intros h hd Hh. destruct (Hhb h hd Hh). lia.
  - intros x bdx. rewrite Hbs, lookup_insert. case_decide.
    + intros _. lia.
    + intros Hx. specialize (Hbb x bdx Hx). lia.
  - intros d x Hd. destruct (Hdb d x Hd). lia.
  - assert (handed_out s ≤ handed_out s') by (apply handed_out_mono; lia). lia.
Qed.

(** A buffer record released. *)
Lemma counted_discard skew s s' b :
  counted skew s →
  buffers s' = delete b (buffers s) →
  handles s' = handles s → dmabufs s' = dmabufs s → heaps s' = heaps s →
  brk s' = brk s →
  counted (λ x, skew x - skewed b (ref_of s b) x) s'.
Proof.
  intros Hc Hbs Hhs Hds Hps Hk.
  pose proof Hc as [Hrefs Hrange Hq Hhb Hbb Hdb Hroom].
  split; rewrite ?Hhs, ?Hds, ?Hps, ?Hk; try done.
  - intros x. rewrite (ref_of_delete s s' b x Hbs).
    pose proof (Hrefs x) as Hx. unfold skewed.
    case_decide as Hxb; [rewrite Hxb in Hx |- *|]; lia.
  - intros x bdx. rewrite Hbs, lookup_delete. case_decide; [done|]. apply Hrange.
  - intros heap hp x Hhp Hin. destruct (Hq heap hp x Hhp Hin) as [Hz Hlt].
    split; [|done]. rewrite (ref_of_delete s s' b x Hbs). by case_decide.
  - intros x bdx. rewrite Hbs, lookup_delete. case_decide; [done|]. apply Hbb.
  - unfold handed_out in *. by rewrite Hk.
Qed.

(** A buffer without a reference put on the free list of a heap. *)
Lemma counted_queue skew s s' b heap hp hp' :
  counted skew s → ref_of s b = 0 → b < brk s →
  heaps s !! heap = Some hp →
  hp_free_list hp' = b :: hp_free_list hp →
  heaps s' = <[heap := hp']> (heaps s) →
  handles s' = handles s → dmabufs s' = dmabufs s → buffers s' = buffers s →
  brk s' = brk s →
  counted skew s'.
Proof.
  intros Hc Href Hlt Hhp Hlist Hps Hhs Hds Hbs Hk.
  pose proof Hc as [Hrefs Hrange Hq Hhb Hbb Hdb Hroom].
  assert (Hsame : ∀ x, ref_of s' x = ref_of s x) by (intros x; unfold ref_of; by rewrite Hbs).
  split; rewrite ?Hhs, ?Hds, ?Hbs, ?Hk; try done.
  - intros x. rewrite Hsame. apply Hrefs.
  - intros heap0 hp0 x. rewrite Hps, lookup_insert, Hsame. case_decide.
    + intros [= <-]. rewrite Hlist. intros [->|Hin]%elem_of_cons; [done|].
      subst heap0. by apply (Hq heap hp).
    + apply Hq.
  - unfold handed_out in *. by rewrite Hk.
Qed.

(** A new handle on [h_buffer hd], before the reference is taken. *)
Lemma counted_new_handle skew s s' hd :
  counted skew s →
  0 < brk s → brk s + KMALLOC_MINALIGN < ADDRESS_END →
  brk s' = brk s + KMALLOC_MINALIGN →
  h_buffer hd < brk s →
  handles s' = <[brk s := hd]> (handles s) →
  dmabufs s' = dmabufs s → buffers s' = buffers s → heaps s' = heaps s →
  counted (λ x, skew x - skewed (h_buffer hd) 1 x) s'.
Proof.
  intros Hc Hlo Hhi Hk Hbelow Hhs Hds Hbs Hps.
  pose proof Hc as [Hrefs Hrange Hq Hhb Hbb Hdb Hroom].
  assert (Hfresh : handles s !! brk s = None).
  { destruct (handles s !! brk s) as [hd0|] eqn:Hh; [|done].
    destruct (Hhb _ _ Hh). lia. }
  assert (Hsame : ∀ x, ref_of s' x = ref_of s x) by (intros x; unfold ref_of; by rewrite Hbs).
  unfold KMALLOC_MINALIGN in *.
  split; rewrite ?Hds, ?Hbs, ?Hps; try done.
  - intros x. rewrite Hsame, Hhs, (attached_insert_fresh x _ _ _ Hfresh).
    pose proof (Hrefs x) as Hx. unfold skewed.
    repeat case_decide; try congruence; lia.
  - intros heap hp x Hhp Hin. rewrite Hsame.
    destruct (Hq heap hp x Hhp Hin). split; [done|lia].
  - intros h hd0. rewrite Hhs, lookup_insert. case_decide.
    + intros [= <-]. subst h. lia.
    + intros Hh. destruct (Hhb h hd0 Hh). lia.
  - intros x bdx Hx. specialize (Hbb x bdx Hx). lia.
  - intros d x Hd. destruct (Hdb d x Hd). lia.
  - rewrite Hhs, map_size_insert_None by done.
    rewrite (handed_out_grows s s') by (unfold KMALLOC_MINALIGN; lia).
    unfold KMALLOC_MINALIGN. lia.
Qed.

(** A handle released. *)
Lemma counted_delete_handle skew s s' h hd :
  counted skew s → handles s !! h = Some hd →
  handles s' = delete h (handles s) →
  dmabufs s' = dmabufs s → buffers s' = buffers s → heaps s' = heaps s →
  brk s' = brk s →
  counted (λ x, skew x + skewed (h_buffer hd) 1 x) s'.
Proof.
  intros Hc Hh Hhs Hds Hbs Hps Hk.
  pose proof Hc as [Hrefs Hrange Hq Hhb Hbb Hdb Hroom].
  assert (Hsame : ∀ x, ref_of s' x = ref_of s x) by (intros x; unfold ref_of; by rewrite Hbs).
  split; rewrite ?Hds, ?Hbs, ?Hps, ?Hk; try done.
  - intros x. rewrite Hsame, Hhs, (attached_delete x _ _ _ Hh).
    pose proof (Hrefs x) as Hx. unfold skewed.
    repeat case_decide; try congruence; lia.
  - intros heap hp x Hhp Hin. rewrite Hsame. by apply (Hq heap hp).
  - intros h0 hd0. rewrite Hhs, lookup_delete. case_decide; [done|]. apply Hhb.
  - rewrite Hhs.
    pose proof (map_subseteq_size _ _ (delete_subseteq (handles s) h)) as Hsize.
    unfold handed_out in *. rewrite Hk. unfold KMALLOC_MINALIGN in *. lia.
Qed.

(** A new dma-buf that exports [b]. *)
Lemma counted_new_dmabuf skew s s' dd b :
  counted skew s →
  0 < brk s → brk s + KMALLOC_MINALIGN < ADDRESS_END →
  brk s' = brk s + KMALLOC_MINALIGN →
  exported_buffer dd = Some b → b < brk s →
  dmabufs s' = <[brk s := dd]> (dmabufs s) →
  handles s' = handles s → buffers s' = buffers s → heaps s' = heaps s →
  counted (λ x, skew x - skewed b 1 x) s'.
Proof.
  intros Hc Hlo Hhi Hk Hdd Hbelow Hds Hhs Hbs Hps.
  pose proof Hc as [Hrefs Hrange Hq Hhb Hbb Hdb Hroom].
  assert (Hfresh : omap exported_buffer (dmabufs s) !! brk s = None).
  { destruct (omap exported_buffer (dmabufs s) !! brk s) as [b0|] eqn:Hd; [|done].
    destruct (Hdb _ _ Hd). lia. }
  assert (Hsame : ∀ x, ref_of s' x = ref_of s x) by (intros x; unfold ref_of; by rewrite Hbs).
  assert (Hmap : omap exported_buffer (dmabufs s')
                 = <[brk s := b]> (omap exported_buffer (dmabufs s))).
  { rewrite Hds. by apply omap_insert_Some. }
  unfold KMALLOC_MINALIGN in *.
  split; rewrite ?Hhs, ?Hbs, ?Hps; try done.
  - intros x. unfold exported. rewrite Hsame, Hmap, (pointing_insert_fresh x _ _ _ Hfresh).
    pose proof (Hrefs x) as Hx. unfold exported in Hx.
    unfold skewed. repeat case_decide; try congruence; lia.
  - intros heap hp x Hhp Hin. rewrite Hsame.
    destruct (Hq heap hp x Hhp Hin). split; [done|lia].
  - intros h hd0 Hh. destruct (Hhb h hd0 Hh). lia.
  - intros x bdx Hx. specialize (Hbb x bdx Hx). lia.
  - intros d x. rewrite Hmap, lookup_insert. case_decide.
    + intros [= <-]. subst d. lia.
    + intros Hd. destruct (Hdb d x Hd). lia.
  - rewrite Hmap, map_size_insert_None by done.
    rewrite (handed_out_grows s s') by (unfold KMALLOC_MINALIGN; lia).
    unfold KMALLOC_MINALIGN. lia.
Qed.

(** A dma-buf released. *)
Lemma counted_delete_dmabuf skew s s' d dd b :
  counted skew s → dmabufs s !! d = Some dd → exported_buffer dd = Some b →
  dmabufs s' = delete d (dmabufs s) →
  handles s' = handles s → buffers s' = buffers s → heaps s' = heaps s →
  brk s' = brk s →
  counted (λ x, skew x + skewed b 1 x) s'.
Proof.
  intros Hc Hd Hdd Hds Hhs Hbs Hps Hk.
  pose proof Hc as [Hrefs Hrange Hq Hhb Hbb Hdb Hroom].
  assert (Hsame : ∀ x, ref_of s' x = ref_of s x) by (intros x; unfold ref_of; by rewrite Hbs).
  assert (Hold : omap exported_buffer (dmabufs s) !! d = Some b)
    by (rewrite lookup_omap, Hd; done).
  assert (Hmap : omap exported_buffer (dmabufs s')
                 = delete d (omap exported_buffer (dmabufs s))).
  { rewrite Hds. apply omap_delete. }
  split; rewrite ?Hhs, ?Hbs, ?Hps, ?Hk; try done.
  - intros x. unfold exported. rewrite Hsame, Hmap, (pointing_delete x _ _ _ Hold).
    pose proof (Hrefs x) as Hx. unfold exported in Hx.
    unfold skewed. repeat case_decide; try congruence; lia.
  - intros heap hp x Hhp Hin. rewrite Hsame. by apply (Hq heap hp).
  - intros d0 x. rewrite Hmap, lookup_delete. case_decide; [done|]. apply Hdb.
  - rewrite Hmap.
    pose proof (map_subseteq_size _ _
                  (delete_subseteq (omap exported_buffer (dmabufs s)) d)) as Hsize.
    unfold handed_out in *. rewrite Hk. unfold KMALLOC_MINALIGN in *. lia.
Qed.

End Counting.

(** ** The operations keep the counts right *)

(** Proves [inert s0 x] for a state [x] built from [s0] by updates that
    [inert] allows. *)
Ltac inert_now :=
  lazymatch goal with
  | H : inert ?s0 ?s |- inert ?s0 ?s => exact H
  | |- inert ?s ?s => apply inert_refl
  | |- inert _ (set_trace _ ?x) =>
      apply (inert_trans _ x); [inert_now | inert_same_now]
  | |- inert _ (set_files _ ?x) =>
      apply (inert_trans _ x); [inert_now | inert_same_now]
  | |- inert _ (set_clients _ ?x) =>
      apply (inert_trans _ x); [inert_now | inert_same_now]
  | |- inert _ (set_dev_buffers _ ?x) =>
      apply (inert_trans _ x); [inert_now | inert_same_now]
  | |- inert _ (set_dev_heaps _ ?x) =>
      apply (inert_trans _ x); [inert_now | inert_same_now]
  | |- inert _ (set_dev_clients _ ?x) =>
      apply (inert_trans _ x); [inert_now | inert_same_now]
  | |- inert _ (set_brk _ ?x) =>
      apply (inert_trans _ x); [inert_now | inert_same_now]
  | |- inert _ (set_buffers (insert _ _) ?x) =>
      apply (inert_trans _ x);
      [inert_now | eapply inert_put_buffer; [lookup_now | done]]
  | |- inert _ (set_handles (insert _ _) ?x) =>
      apply (inert_trans _ x);
      [inert_now | eapply inert_put_handle; [lookup_now | done]]
  | |- inert _ (set_dmabufs (insert _ _) ?x) =>
      apply (inert_trans _ x);
      [inert_now | eapply inert_put_dmabuf; [lookup_now | done]]
  | |- inert _ (set_heaps (insert _ _) ?x) =>
      apply (inert_trans _ x);
      [inert_now
      | apply inert_put_heap; intros ? ?; eexists; split; [lookup_now | done]]
  end.

(** Drops an outermost update that [counted] does not see. *)
Ltac counted_peel :=
  lazymatch goal with
  | |- counted _ (?f ?x) => apply (counted_inert _ x); [|inert_same_now]
  end.

Section Keeping.
Context {P : Platform} {E : Environment}.

Lemma wp_conj {A} (m : M A) (Q1 Q2 : A → state → Prop) s :
  wp m Q1 s → wp m Q2 s → wp m (λ a s', Q1 a s' ∧ Q2 a s') s.
Proof. unfold wp. by destruct (m s). Qed.

Lemma wp_inertly {A} (m : M A) (Q : state → Prop) s :
  inertly m → (∀ s', inert s s' → Q s') → wp m (λ _ s', Q s') s.
Proof. intros Hm HQ. eapply wp_mono; [apply Hm|]. intros ? s'. apply HQ. Qed.

Lemma wp_inertly_counted {A} (m : M A) skew s :
  inertly m → counted skew s → wp m (λ _ s', counted skew s') s.
Proof. intros Hm Hc. apply wp_inertly; [done|]. intros s'. by apply counted_inert. Qed.

(** Tearing down a buffer that has no reference. *)
Lemma wp__ion_buffer_destroy buffer s :
  ref_of s buffer = 0 →
  wp (_ion_buffer_destroy buffer) (λ _ s', inert s s') s.
Proof.
  intros Href. unfold _ion_buffer_destroy. wp_run.
  all: match goal with
       | |- inert _ (set_buffers (delete _) ?x) =>
           apply (inert_trans _ x); [inert_now | apply inert_delete_buffer]
       end.
  all: exact Href.
Qed.

Lemma wp_drain_entries heap entries s :
  Forall (λ b, ref_of s b = 0) entries →
  wp (drain_entries heap entries) (λ _ s', inert s s') s.
Proof.
  revert s. induction entries as [|b entries IH]; intros s Hall; cbn [drain_entries].
  { apply wp_ret, inert_refl. }
  apply Forall_cons in Hall as [Hb Hall].
  apply wp_bind. eapply wp_mono; [apply inertly_list_del|]. intros ? s1 H1. cbv beta.
  apply wp_bind. eapply wp_mono.
  { apply wp__ion_buffer_destroy. by rewrite (inert_ref_of _ _ _ H1). }
  intros ? s2 H2. cbv beta.
  eapply wp_mono.
  { apply IH. eapply Forall_impl; [exact Hall|]. intros x Hx. cbn in Hx |- *.
    by rewrite (inert_ref_of _ _ _ H2), (inert_ref_of _ _ _ H1). }
  intros ? s3 H3. cbv beta.
  apply (inert_trans _ s1); [done|]. by apply (inert_trans _ s2).
Qed.

Lemma queue_unreferenced skew s heap hp :
  counted skew s → heaps s !! heap = Some hp →
  Forall (λ b, ref_of s b = 0) (hp_free_list hp).
Proof.
  intros Hc Hhp. apply Forall_forall. intros b Hb.
  by destruct (cnt_queued _ _ Hc heap hp b Hhp Hb).
Qed.

Lemma wp_ion_heap_drain_freelist skew heap s :
  counted skew s →
  wp (ion_heap_drain_freelist heap) (λ _ s', inert s s') s.
Proof.
  intros Hc. unfold ion_heap_drain_freelist, ion_heap_free_list_is_empty. wp_run.
  { apply inert_refl. }
  eapply wp_mono.
  { apply wp_drain_entries. by apply (queue_unreferenced skew s heap). }
  intros ? s1 H1. cbv beta. wp_run; done.
Qed.

Lemma wp_ion_heap_deferred_free_turn skew heap s :
  counted skew s →
  wp (ion_heap_deferred_free_turn heap) (λ _ s', counted skew s') s.
Proof.
  intros Hc. unfold ion_heap_deferred_free_turn. wp_run.
  destruct (hp_free_list x) as [|b rest] eqn:Hlist; [by apply wp_ret|].
  pose proof (queue_unreferenced skew s heap x Hc Hload) as Hall.
  rewrite Hlist in Hall. apply Forall_cons in Hall as [Hb _].
  apply wp_bind. eapply wp_mono; [apply inertly_list_del|]. intros ? s1 H1. cbv beta.
  apply wp_bind. eapply wp_mono.
  { apply wp__ion_buffer_destroy. by rewrite (inert_ref_of _ _ _ H1). }
  intros ? s2 H2. cbv beta. apply wp_ret.
  apply (counted_inert _ s1); [|done]. by apply (counted_inert _ s).
Qed.

(** [ion_buffer_destroy], called when the last reference is gone. *)
Lemma wp_ion_buffer_destroy skew buffer s :
  counted skew s → ref_of s buffer = 0 →
  wp (ion_buffer_destroy buffer) (λ _ s', counted skew s') s.
Proof.
  intros Hc Href. unfold ion_buffer_destroy. wp_run.
  - counted_peel.
    eapply (counted_queue skew (set_dev_buffers (rb_erase buffer) s));
      [ | | | lookup_now | | reflexivity..].
    + eapply counted_inert; [exact Hc|inert_now].
    + exact Href.
    + apply (cnt_buffers_below _ _ Hc buffer x Hload).
    + reflexivity.
  - eapply wp_mono.
    { apply wp__ion_buffer_destroy. exact Href. }
    intros ? s1 H1. cbv beta.
    apply (counted_inert _ (set_dev_buffers (rb_erase buffer) s)); [|done].
    eapply counted_inert; [exact Hc|inert_now].
Qed.

End Keeping.

Section KeepingReferences.
Context {P : Platform} {E : Environment}.

(** [ion_buffer_put] never touches handles or dma-bufs. *)
Lemma ion_buffer_put_untouched buffer s :
  wp (ion_buffer_put buffer)
     (λ _ s', handles s' = handles s ∧ dmabufs s' = dmabufs s) s.
Proof.
  unfold ion_buffer_put, ion_buffer_destroy, _ion_buffer_destroy. wp_run; done.
Qed.

(** Dropping a reference that is there. *)
Lemma wp_ion_buffer_put skew buffer s :
  counted skew s → 1 ≤ ref_of s buffer →
  wp (ion_buffer_put buffer)
     (λ _ s', counted (λ x, skew x - skewed buffer 1 x) s') s.
Proof.
  intros Hc Href. unfold ion_buffer_put. apply wp_bind. wp_load_step.
  rewrite (ref_of_lookup _ _ _ Hload) in Href.
  pose proof (cnt_range _ _ Hc _ _ Hload) as Hrange.
  assert (Hdec : atomic_dec (b_ref x) = b_ref x - 1).
  { unfold atomic_dec. apply wrap_small. lia. }
  rewrite Hdec.
  assert (Hc1 : counted (λ x0, skew x0 - skewed buffer 1 x0)
                  (set_buffers <[buffer := with_b_ref (b_ref x - 1) x]> s)).
  { eapply counted_ext;
      [|eapply (counted_set_ref skew s _ buffer x (with_b_ref (b_ref x - 1) x));
        try done; cbn; lia].
    intros b. cbn. unfold skewed. case_decide; lia. }
  unfold update_buffer. wp_run; [|done].
  apply wp_ion_buffer_destroy; [done|].
  unfold ref_of. cbn. rewrite lookup_insert_eq. cbn. lia.
Qed.

(** Taking a reference on a buffer that has one. *)
Lemma wp_ion_buffer_get skew buffer s :
  counted skew s → 1 ≤ ref_of s buffer → skew buffer ≤ 1 →
  wp (ion_buffer_get buffer)
     (λ _ s', counted (λ x, skew x + skewed buffer 1 x) s' ∧
              ref_of s' buffer = ref_of s buffer + 1) s.
Proof.
  intros Hc Href Hskew. unfold ion_buffer_get, update_buffer. wp_run.
  pose proof (counted_bound _ _ buffer Hc) as Hbound.
  rewrite (ref_of_lookup _ _ _ Hload) in Href, Hbound |- *.
  pose proof (cnt_range _ _ Hc _ _ Hload) as Hrange.
  assert (Hinc : atomic_inc (b_ref x) = b_ref x + 1).
  { unfold atomic_inc. apply wrap_small. lia. }
  rewrite Hinc. split.
  - eapply counted_ext;
      [|eapply (counted_set_ref skew s _ buffer x (with_b_ref (b_ref x + 1) x));
        try done; cbn; lia].
    intros b. cbn. unfold skewed. case_decide; lia.
  - unfold ref_of. cbn. by rewrite lookup_insert_eq.
Qed.

Lemma wp_kfree_handle skew handle hd s :
  counted skew s → handles s !! handle = Some hd →
  wp (kfree_handle handle)
     (λ _ s', counted (λ x, skew x + skewed (h_buffer hd) 1 x) s') s.
Proof.
  intros Hc Hh. unfold kfree_handle. wp_run.
  eapply (counted_delete_handle skew (set_trace (λ t, t ++ [EvKfree handle]) s));
    [ |exact Hh|reflexivity..].
  counted_peel. exact Hc.
Qed.

(** A new handle on a buffer that has a reference. *)
Lemma wp_ion_handle_create skew client buffer s :
  counted skew s → 1 ≤ ref_of s buffer → skew buffer ≤ 1 →
  wp (ion_handle_create client buffer)
     (λ _ s', counted skew s' ∧ 1 ≤ ref_of s' buffer) s.
Proof.
  intros Hc Href Hskew. unfold ion_handle_create, kzalloc. apply wp_bind.
  destruct (ref_of_live s buffer ltac:(lia)) as (bd & Hb & Hbd).
  apply wp_allocate_memory.
  { wp_run. split; [by counted_peel|done]. }
  intros Hlo Hhi. destruct (brk s =? 0) eqn:Hz; [lia|].
  apply wp_bind, wp_modify. cbv beta.
  match goal with |- wp _ _ ?st => set (s1 := st) end.
  assert (Hc1 : counted (λ x, skew x - skewed buffer 1 x) s1).
  { apply (counted_new_handle skew s s1 (IonHandle 1 client buffer false 0));
      try done. apply (cnt_buffers_below _ _ Hc _ _ Hb). }
  assert (Href1 : ref_of s1 buffer = ref_of s buffer) by done.
  apply wp_bind. eapply wp_mono.
  { apply (wp_ion_buffer_get _ buffer s1 Hc1); [lia|].
    unfold skewed. rewrite decide_True by done. lia. }
  intros ? s2 [Hc2 Href2]. cbv beta.
  apply wp_bind. eapply wp_mono; [apply inertly_ion_buffer_add_to_handle|].
  intros ? s3 H3. cbv beta. apply wp_ret. split.
  - apply (counted_inert _ s2); [|done].
    eapply counted_ext; [|exact Hc2]. intros b. cbn. unfold skewed. case_decide; lia.
  - rewrite (inert_ref_of _ _ _ H3). lia.
Qed.

End KeepingReferences.

(** After an inert call, go on from the state it leaves. *)
Ltac wp_inert lemma :=
  lazymatch goal with
  | |- wp (mbind _ _) _ _ => apply wp_bind
  | |- _ => idtac
  end;
  eapply wp_mono; [apply lemma|];
  let s' := fresh "s" in
  let H := fresh "Hinert" in
  intros ? s' H; cbv beta in H |- *.

Section KeepingHandles.
Context {P : Platform} {E : Environment}.

Lemma counted_handle_ref skew s h hd :
  counted skew s → handles s !! h = Some hd → 0 ≤ skew (h_buffer hd) →
  1 ≤ ref_of s (h_buffer hd).
Proof.
  intros Hc Hh Hskew. rewrite (cnt_refs _ _ Hc).
  pose proof (attached_some (h_buffer hd) (handles s) h hd Hh eq_refl).
  pose proof (exported_nonneg (h_buffer hd) (dmabufs s)). lia.
Qed.

Lemma counted_dmabuf_ref skew s d dd :
  counted skew s → dmabufs s !! d = Some dd → db_ops_ion dd = true →
  0 ≤ skew (db_priv dd) → 1 ≤ ref_of s (db_priv dd).
Proof.
  intros Hc Hd Hion Hskew. rewrite (cnt_refs _ _ Hc).
  pose proof (attached_nonneg (db_priv dd) (handles s)).
  pose proof (exported_some (db_priv dd) (dmabufs s) d dd Hd Hion eq_refl). lia.
Qed.

Lemma wp_ion_handle_destroy handle s :
  balanced s → wp (ion_handle_destroy handle) (λ _ s', balanced s') s.
Proof.
  unfold balanced. intros Hc. unfold ion_handle_destroy. wp_run.
  wp_inert inertly_handle_kmap_drain.
  apply wp_bind.
  apply (wp_mono _ (λ _ s', inert s s')).
  { destruct (h_linked x); [|by apply wp_ret].
    eapply wp_mono; [apply inertly_update_client|].
    intros ? s1 H1. by apply (inert_trans _ s0). }
  clear s0 Hinert. intros ? s1 H1. cbv beta.
  wp_inert inertly_ion_buffer_remove_from_handle.
  assert (H2 : inert s s0) by by apply (inert_trans _ s1).
  destruct (inert_handle _ _ _ _ H2 Hload) as (hd' & Hh' & Hbuf).
  assert (Hc2 : counted (λ _, 0) s0) by by apply (counted_inert _ s).
  apply wp_bind. eapply wp_mono.
  { apply wp_conj; [apply (wp_ion_buffer_put (λ _, 0) _ _ Hc2)|apply ion_buffer_put_untouched].
    rewrite <- Hbuf. by apply (counted_handle_ref (λ _, 0) s0 handle hd' Hc2 Hh'). }
  intros ? s3 [Hc3 [Hsame _]]. cbv beta.
  rewrite <- Hsame in Hh'.
  eapply wp_mono; [apply (wp_kfree_handle _ _ _ _ Hc3 Hh')|].
  intros ? s4 Hc4. cbv beta. eapply counted_ext; [|exact Hc4].
  intros b. cbn. rewrite Hbuf. unfold skewed. case_decide; lia.
Qed.

Lemma wp_ion_handle_put handle s :
  balanced s → wp (ion_handle_put handle) (λ _ s', balanced s') s.
Proof.
  unfold balanced. intros Hc. unfold ion_handle_put, update_handle. wp_run.
  - apply wp_ion_handle_destroy. eapply counted_inert; [exact Hc|inert_now].
  - eapply counted_inert; [exact Hc|inert_now].
Qed.

Lemma wp_ion_free client handle s :
  balanced s → wp (ion_free client handle) (λ _ s', balanced s') s.
Proof.
  unfold balanced. intros Hc. unfold ion_free. wp_run.
  wp_inert inertly_ion_handle_validate.
  assert (Hc0 : counted (λ _, 0) s0) by by apply (counted_inert _ s).
  wp_run.
  - by counted_peel.
  - eapply wp_mono; [by apply wp_ion_handle_put|]. intros ? s1 Hc1. by apply wp_ret.
Qed.

Lemma wp_client_drop_handles fuel client s :
  balanced s → wp (client_drop_handles fuel client) (λ _ s', balanced s') s.
Proof.
  unfold balanced. revert s.
  induction fuel as [|fuel IH]; intros s Hc; cbn [client_drop_handles].
  - wp_run. done.
  - wp_run. destruct (c_handles x) as [|handle rest]; [by apply wp_ret|].
    apply wp_bind. eapply wp_mono; [by apply wp_ion_handle_put|].
    intros ? s1 Hc1. cbv beta. by apply IH.
Qed.

Lemma wp_ion_client_destroy fuel client s :
  balanced s → wp (ion_client_destroy fuel client) (λ _ s', balanced s') s.
Proof.
  unfold balanced. intros Hc.
  unfold ion_client_destroy, ion_client_put, update_client. wp_run.
  - unfold _ion_client_destroy. wp_run.
    eapply wp_mono.
    { apply wp_client_drop_handles. eapply counted_inert; [exact Hc|inert_now]. }
    intros ? s1 Hc1. cbv beta. wp_run. by do 2 counted_peel.
  - eapply counted_inert; [exact Hc|inert_now].
Qed.

End KeepingHandles.

Section KeepingAllocation.
Context {P : Platform} {E : Environment}.
Hypothesis heaps_behave : allocate_returns_errno.

Lemma counted_abandon b s x :
  counted (skewed b 1) s → ref_of s b = 1 → inert s x →
  balanced (set_buffers (delete b) x).
Proof.
  intros Hc Href Hin. unfold balanced.
  eapply counted_ext;
    [|apply (counted_discard (skewed b 1) x _ b); [by apply (counted_inert _ s)|done..]].
  intros y. cbn. rewrite (inert_ref_of _ _ _ Hin), Href. lia.
Qed.

Lemma error_pointer e : - MAX_ERRNO ≤ e < 0 → IS_ERR_OR_NULL (ERR_PTR e) = true.
Proof.
  intros He. unfold IS_ERR_OR_NULL, IS_ERR, ERR_PTR.
  assert (Hend : wrap (- MAX_ERRNO) = 4294963201) by reflexivity. rewrite Hend.
  apply orb_true_iff. right. apply Z.leb_le.
  unfold wrap, BITS_PER_LONG, MAX_ERRNO in *.
  replace (e mod 2 ^ 32) with (e + 2 ^ 32); [lia|].
  apply (Z.mod_unique _ _ (-1)); lia.
Qed.

Lemma error_pointer_again t :
  0 ≤ t < 2 ^ 32 → IS_ERR_OR_NULL t = true → IS_ERR_OR_NULL (ERR_PTR (PTR_ERR t)) = true.
Proof.
  intros Ht Herr. replace (ERR_PTR (PTR_ERR t)) with t; [done|].
  unfold ERR_PTR, PTR_ERR, sint. rewrite (wrap_small t) by done.
  destruct (t <? 2 ^ 31); [by rewrite wrap_small|].
  unfold wrap, BITS_PER_LONG. apply (Z.mod_unique _ _ (-1)); lia.
Qed.

Lemma wp_ion_buffer_create_rest heap buffer len flags ret s :
  counted (skewed buffer 1) s → ref_of s buffer = 1 →
  IS_ERR_OR_NULL buffer = false →
  match ret with inl e => - MAX_ERRNO ≤ e < 0 | inr r => r = 0 end →
  wp (ion_buffer_create_rest heap buffer len flags ret) created s.
Proof.
  intros Hc Href Hvalid Hret. unfold ion_buffer_create_rest, vmalloc.
  destruct ret as [e|r].
  { wp_run. unfold created. rewrite (error_pointer e Hret).
    eapply counted_abandon; [exact Hc|exact Href|inert_now]. }
  subst r. wp_run.
  - unfold created. rewrite error_pointer_again by (done || apply wrap_range).
    eapply counted_abandon; [exact Hc|exact Href|inert_now].
  - apply wp_allocate_memory; [|intros Hlo Hhi]; wp_run.
    + unfold created. rewrite error_pointer by done.
      eapply counted_abandon; [exact Hc|exact Href|inert_now].
    + unfold created. rewrite error_pointer by done.
      eapply counted_abandon; [exact Hc|exact Href|inert_now].
    + wp_inert inertly_ion_buffer_add. apply wp_ret. unfold created. rewrite Hvalid.
      match type of Hinert with
      | inert ?x _ => assert (Hx : inert s x) by inert_now
      end.
      split.
      * apply (counted_inert _ s); [done|]. by eapply inert_trans.
      * by rewrite (inert_ref_of _ _ _ Hinert), (inert_ref_of _ _ _ Hx).
  - wp_inert inertly_ion_buffer_add. apply wp_ret. unfold created. rewrite Hvalid.
    match type of Hinert with
    | inert ?x _ => assert (Hx : inert s x) by inert_now
    end.
    split.
    + apply (counted_inert _ s); [done|]. by eapply inert_trans.
    + by rewrite (inert_ref_of _ _ _ Hinert), (inert_ref_of _ _ _ Hx).
Qed.

Lemma wp_ion_buffer_create heap len align flags s :
  balanced s → wp (ion_buffer_create heap len align flags) created s.
Proof.
  unfold balanced. intros Hc.
  rewrite ion_buffer_create_phases. unfold kzalloc. apply wp_bind.
  apply wp_allocate_memory.
  { wp_run. unfold created, balanced. mcalc. cbv iota. by counted_peel. }
  intros Hlo Hhi. destruct (brk s =? 0) eqn:Hz; [lia|].
  destruct (allocated_address_valid (λ _, false) s (conj eq_refl (conj Hlo Hhi)))
    as [_ Hvalid].
  apply wp_bind, wp_modify. cbv beta.
  match goal with |- wp _ _ ?st => set (s1 := st) end.
  assert (Hc1 : counted (skewed (brk s) 1) s1).
  { eapply counted_ext;
      [|apply (counted_new_buffer (λ _, 0) s s1 (brk s) (IonBuffer 1 heap flags 0 0 0 0 0 0));
        try done; cbn; unfold KMALLOC_MINALIGN; lia].
    intros b. cbn. lia. }
  assert (Href1 : ref_of s1 (brk s) = 1).
  { unfold ref_of, s1. cbn. by rewrite lookup_insert_eq. }
  clearbody s1. wp_run.
  - apply wp_ion_buffer_create_rest; try done; [by counted_peel|].
    by apply Z.eqb_eq.
  - apply wp_ion_buffer_create_rest; try done; [by counted_peel|].
    pose proof (heaps_behave (trace s1) heap (brk s) len align flags).
    apply Z.eqb_neq in Heqb. lia.
  - match goal with |- wp _ _ ?st => set (s2 := st) end.
    assert (H2 : inert s1 s2) by (unfold s2; inert_now).
    eapply wp_mono.
    { apply (wp_ion_heap_drain_freelist (skewed (brk s) 1)).
      by apply (counted_inert _ s1). }
    intros ? s3 H3. cbv beta.
    assert (Hc3 : counted (skewed (brk s) 1) s3).
    { apply (counted_inert _ s1); [done|]. by apply (inert_trans _ s2). }
    assert (Href3 : ref_of s3 (brk s) = 1).
    { by rewrite (inert_ref_of _ _ _ H3), (inert_ref_of _ _ _ H2). }
    clearbody s2. wp_run.
    + apply wp_ion_buffer_create_rest; try done; [by counted_peel|].
      by apply Z.eqb_eq.
    + apply wp_ion_buffer_create_rest; try done; [by counted_peel|].
      pose proof (heaps_behave (trace s3) heap (brk s) len align flags).
      apply Z.eqb_neq in Heqb1. lia.
Qed.

Lemma wp_ion_alloc_walk hs len align heap_id_mask flags buffer heap_used s :
  balanced s → IS_ERR_OR_NULL buffer = true →
  wp (ion_alloc_walk hs len align heap_id_mask flags buffer heap_used)
     (λ r s', created r.1 s') s.
Proof.
  revert buffer heap_used s.
  induction hs as [|heap hs IH]; intros buffer heap_used s Hc Hnull;
    cbn [ion_alloc_walk].
  { apply wp_ret. unfold created. cbn. by rewrite Hnull. }
  wp_run; [by apply IH|].
  eapply wp_mono; [by apply wp_ion_buffer_create|].
  intros r s1 Hr. cbv beta. unfold created in Hr.
  destruct (IS_ERR_OR_NULL r) eqn:Herr; cbn [negb].
  - by apply IH.
  - apply wp_ret. unfold created. cbn. by rewrite Herr.
Qed.

Lemma wp_ion_alloc client len align heap_id_mask flags s :
  balanced s →
  wp (ion_alloc client len align heap_id_mask flags) (λ _ s', balanced s') s.
Proof.
  intros Hc. unfold ion_alloc. wp_run.
  { unfold balanced in *. by counted_peel. }
  eapply wp_mono; [by apply wp_ion_alloc_walk|].
  intros [buffer heap_used] s1 Hr. cbn in Hr. cbv beta iota.
  apply wp_bind.
  apply (wp_mono _ (λ _ s', inert s1 s')).
  { destruct (buffer =? ERR_PTR (- ENOMEM)); [apply wp_ret, inert_refl|].
    destruct (negb (IS_ERR_OR_NULL buffer)); [|apply wp_ret, inert_refl].
    unfold update_heap. wp_run. inert_now. }
  intros ? s2 H2. cbv beta. unfold created in Hr.
  destruct (buffer =? 0) eqn:Hzero.
  { apply wp_ret. apply Z.eqb_eq in Hzero. subst buffer. cbn in Hr.
    by apply (counted_inert _ s1). }
  destruct (IS_ERR buffer) eqn:Herr.
  { apply wp_ret. unfold IS_ERR_OR_NULL in Hr. rewrite Hzero, Herr in Hr. cbn in Hr.
    by apply (counted_inert _ s1). }
  unfold IS_ERR_OR_NULL in Hr. rewrite Hzero, Herr in Hr. cbn in Hr.
  destruct Hr as [Hc1 Href1].
  apply wp_bind. eapply wp_mono.
  { apply (wp_ion_handle_create (skewed buffer 1) client buffer s2).
    - by apply (counted_inert _ s1).
    - rewrite (inert_ref_of _ _ _ H2). lia.
    - unfold skewed. rewrite decide_True by done. lia. }
  intros handle s3 [Hc3 Href3]. cbv beta.
  apply wp_bind. eapply wp_mono; [by apply (wp_ion_buffer_put (skewed buffer 1))|].
  intros ? s4 Hc4. cbv beta.
  assert (Hb4 : balanced s4).
  { eapply counted_ext; [|exact Hc4]. intros b. cbn. lia. }
  apply wp_bind.
  apply (wp_mono _ (λ _ s', inert s4 s')).
  { destruct (negb (IS_ERR handle)); [apply inertly_ion_handle_add|apply wp_ret, inert_refl]. }
  intros ? s5 H5. cbv beta. apply wp_ret. by apply (counted_inert _ s4).
Qed.

End KeepingAllocation.

Section KeepingDescriptors.
Context {P : Platform} {E : Environment}.

Lemma valid_address s :
  0 < brk s → brk s + KMALLOC_MINALIGN < ADDRESS_END →
  (brk s =? 0) = false ∧ IS_ERR (brk s) = false ∧ IS_ERR_OR_NULL (brk s) = false.
Proof.
  intros Hlo Hhi.
  destruct (allocated_address_valid (λ _, false) s (conj eq_refl (conj Hlo Hhi)))
    as [Hz Hvalid].
  split_and!; [done| |done].
  unfold IS_ERR_OR_NULL in Hvalid. by apply orb_false_elim in Hvalid as [_ ?].
Qed.

(** Exporting a buffer on which the caller has taken a reference: the
    new dma-buf takes the reference over. *)
Lemma wp_dma_buf_export skew buffer s :
  counted skew s → 1 ≤ ref_of s buffer →
  wp (dma_buf_export buffer)
     (λ r s', if IS_ERR r then counted skew s' ∧ ref_of s' buffer = ref_of s buffer
              else counted (λ x, skew x - skewed buffer 1 x) s') s.
Proof.
  intros Hc Href. unfold dma_buf_export, kzalloc. wp_run.
  { mcalc. done. }
  destruct (ref_of_live s buffer ltac:(lia)) as (bd & Hb & _).
  apply wp_allocate_memory.
  { wp_run. mcalc. cbv iota. split; [by counted_peel|done]. }
  intros Hlo Hhi. destruct (valid_address s Hlo Hhi) as (Hz & Herr & _).
  rewrite Hz. wp_run. rewrite Herr. counted_peel.
  eapply (counted_new_dmabuf skew s _ (DmaBuf true buffer 1) buffer);
    try done.
  apply (cnt_buffers_below _ _ Hc _ _ Hb).
Qed.

Lemma wp_kfree_dmabuf skew dmabuf dd s :
  counted skew s → dmabufs s !! dmabuf = Some dd →
  wp (kfree_dmabuf dmabuf)
     (λ _ s', counted (λ x, skew x + (if db_ops_ion dd
                                      then skewed (db_priv dd) 1 x else 0)) s') s.
Proof.
  intros Hc Hd. unfold kfree_dmabuf. wp_run.
  destruct (db_ops_ion dd) eqn:Hion.
  - eapply (counted_delete_dmabuf skew (set_trace (λ t, t ++ [EvKfree dmabuf]) s)
              _ dmabuf dd); [by counted_peel|exact Hd| |reflexivity..].
    unfold exported_buffer. by rewrite Hion.
  - eapply counted_ext; [|eapply counted_inert; [exact Hc|]].
    { intros b. cbn. lia. }
    apply (inert_trans _ (set_trace (λ t, t ++ [EvKfree dmabuf]) s));
      [inert_same_now|].
    apply inert_delete_dmabuf. cbn. rewrite lookup_omap, Hd. cbn.
    unfold exported_buffer. by rewrite Hion.
Qed.

Lemma wp_dma_buf_put dmabuf s :
  balanced s → wp (dma_buf_put dmabuf) (λ _ s', balanced s') s.
Proof.
  unfold balanced. intros Hc. unfold dma_buf_put, update_dmabuf. wp_run.
  - match goal with |- wp _ _ ?st => set (s1 := st) end.
    assert (Hc1 : counted (λ _, 0) s1)
      by (eapply counted_inert; [exact Hc|unfold s1; inert_now]).
    assert (Hd1 : dmabufs s1 !! dmabuf = Some (with_db_count (db_count x - 1) x)).
    { unfold s1. cbn. by rewrite lookup_insert_eq. }
    clearbody s1. unfold ion_dma_buf_release. wp_run.
    eapply wp_mono.
    { apply wp_conj;
        [apply (wp_ion_buffer_put (λ _, 0) _ _ Hc1)|apply ion_buffer_put_untouched].
      by apply (counted_dmabuf_ref (λ _, 0) s1 dmabuf _ Hc1 Hd1). }
    intros ? s2 [Hc2 [_ Hsame]]. cbv beta. apply wp_ret.
    rewrite <- Hsame in Hd1.
    eapply wp_mono; [apply (wp_kfree_dmabuf _ _ _ _ Hc2 Hd1)|].
    intros ? s3 Hc3. cbv beta. eapply counted_ext; [|exact Hc3].
    intros b. cbn. rewrite Heqb0. unfold skewed. case_decide; lia.
  - eapply counted_inert; [exact Hc|].
    match goal with
    | |- inert _ (set_dmabufs (delete _) ?x) =>
        apply (inert_trans _ x); [inert_now|apply inert_delete_dmabuf]
    end.
    cbn. rewrite lookup_omap, lookup_insert_eq. cbn.
    unfold exported_buffer. cbn. by rewrite Heqb0.
  - eapply counted_inert; [exact Hc|inert_now].
Qed.

Lemma wp_sys_close fd s :
  balanced s → wp (sys_close fd) (λ _ s', balanced s') s.
Proof.
  intros Hc. unfold sys_close. wp_run.
  destruct (files s !! fd) as [dmabuf|]; [|by apply wp_ret].
  wp_run. eapply wp_mono.
  { apply wp_dma_buf_put. unfold balanced in *. by counted_peel. }
  intros ? s1 Hc1. by apply wp_ret.
Qed.

Lemma wp_ion_share_dma_buf client handle s :
  balanced s →
  wp (ion_share_dma_buf client handle) (λ _ s', balanced s') s.
Proof.
  unfold balanced. intros Hc. unfold ion_share_dma_buf, ion_handle_validate. wp_run.
  { by counted_peel. }
  eapply wp_mono.
  { apply (wp_ion_buffer_get (λ _, 0) _ _ Hc); [|lia].
    by apply (counted_handle_ref (λ _, 0) s handle). }
  intros ? s1 [Hc1 Href1]. cbv beta.
  apply wp_bind. eapply wp_mono.
  { apply (wp_dma_buf_export _ _ _ Hc1). rewrite Href1.
    pose proof (counted_handle_ref (λ _, 0) s handle x0 Hc Hload0). lia. }
  intros dmabuf s2 Hc2. cbv beta in Hc2 |- *.
  destruct (IS_ERR dmabuf).
  - destruct Hc2 as [Hc2 Href2].
    apply wp_bind. eapply wp_mono.
    { apply (wp_ion_buffer_put _ _ _ Hc2). rewrite Href2, Href1.
      pose proof (counted_handle_ref (λ _, 0) s handle x0 Hc Hload0). lia. }
    intros ? s3 Hc3. cbv beta. apply wp_ret.
    eapply counted_ext; [|exact Hc3]. intros b. cbn. lia.
  - apply wp_ret. eapply counted_ext; [|exact Hc2]. intros b. cbn. lia.
Qed.

Lemma wp_ion_share_dma_buf_fd client handle s :
  balanced s →
  wp (ion_share_dma_buf_fd client handle) (λ _ s', balanced s') s.
Proof.
  intros Hc. unfold ion_share_dma_buf_fd. apply wp_bind.
  eapply wp_mono; [by apply wp_ion_share_dma_buf|].
  intros dmabuf s1 Hc1. cbv beta.
  destruct (IS_ERR dmabuf); [by apply wp_ret|].
  wp_inert inertly_dma_buf_fd.
  assert (Hc0 : balanced s0) by by apply (counted_inert _ s1).
  destruct (a <? 0); wp_run; [|done].
  eapply wp_mono; [by apply wp_dma_buf_put|]. intros ? s2 Hc2. by apply wp_ret.
Qed.

Lemma wp_ion_import_dma_buf client fd s :
  balanced s →
  wp (ion_import_dma_buf client fd) (λ _ s', balanced s') s.
Proof.
  intros Hc. unfold ion_import_dma_buf. wp_run.
  wp_inert inertly_dma_buf_get.
  assert (Hc0 : balanced s0) by by apply (counted_inert _ s).
  clear Hinert. wp_run; [done| |].
  { eapply wp_mono; [by apply wp_dma_buf_put|]. intros ? s1 Hc1. by apply wp_ret. }
  wp_inert inertly_ion_handle_lookup.
  assert (Hc1 : balanced s1) by by apply (counted_inert _ s0).
  assert (Href1 : 1 ≤ ref_of s1 (db_priv x0)).
  { rewrite (inert_ref_of _ _ _ Hinert).
    apply (counted_dmabuf_ref (λ _, 0) s0 a x0 Hc0 Hload0); [|done].
    by apply negb_false_iff in Heqb1. }
  apply wp_bind.
  apply (wp_mono _ (λ _ s', balanced s')).
  { destruct (negb (IS_ERR_OR_NULL a0)).
    - wp_inert inertly_ion_handle_get. apply wp_ret. by apply (counted_inert _ s1).
    - apply wp_bind. eapply wp_mono.
      { by apply (wp_ion_handle_create (λ _, 0) client (db_priv x0) s1 Hc1 Href1). }
      intros handle s2 [Hc2 _]. cbv beta.
      destruct (IS_ERR_OR_NULL handle); [by apply wp_ret|].
      wp_inert inertly_ion_handle_add. apply wp_ret. by apply (counted_inert _ s2). }
  intros handle s2 Hc2. cbv beta.
  apply wp_bind. eapply wp_mono; [by apply wp_dma_buf_put|].
  intros ? s3 Hc3. by apply wp_ret.
Qed.

End KeepingDescriptors.

Section Balance.
Context {P : Platform} {E : Environment}.
Hypothesis heaps_behave : allocate_returns_errno.

Lemma wp_inertly_balanced {A} (m : M A) s :
  inertly m → balanced s → wp m (λ _ s', balanced s') s.
Proof. apply wp_inertly_counted. Qed.

Lemma wp_discard_result {A} (m : M A) (Q : state → Prop) s :
  wp m (λ _ s', Q s') s → wp (m ;; mret ()) (λ _ s', Q s') s.
Proof. intros Hm. apply wp_bind. eapply wp_mono; [exact Hm|]. done. Qed.

Lemma wp_run_op o s : balanced s → wp (run_op o) (λ _ s', balanced s') s.
Proof.
  intros Hb. destruct o; cbn [run_op]; try apply wp_discard_result.
  - by apply wp_inertly_balanced; [apply inertly_ion_device_add_heap|].
  - by apply wp_inertly_balanced; [apply inertly_ion_client_create|].
  - by apply wp_inertly_balanced; [apply inertly_ion_client_get|].
  - by apply wp_ion_client_destroy.
  - by apply wp_ion_alloc.
  - by apply wp_ion_free.
  - by apply wp_inertly_balanced; [apply inertly_ion_phys|].
  - by apply wp_inertly_balanced; [apply inertly_ion_map_kernel|].
  - by apply wp_inertly_balanced; [apply inertly_ion_unmap_kernel|].
  - by apply wp_inertly_balanced; [apply inertly_ion_sg_table|].
  - by apply wp_ion_share_dma_buf.
  - by apply wp_ion_share_dma_buf_fd.
  - by apply wp_ion_import_dma_buf.
  - by apply wp_dma_buf_put.
  - by apply wp_inertly_balanced; [apply inertly_ion_dma_buf_begin_cpu_access|].
  - by apply wp_inertly_balanced; [apply inertly_ion_dma_buf_end_cpu_access|].
  - by apply wp_sys_close.
  - by apply wp_ion_heap_deferred_free_turn.
Qed.

Lemma fresh_balanced s : fresh s → balanced s.
Proof.
  intros ((Hh & Hb & Hc) & Hd & Hq).
  assert (Hnone : omap exported_buffer (dmabufs s) = ∅).
  { apply map_empty. intros d. rewrite lookup_omap.
    destruct (dmabufs s !! d) as [dd|] eqn:Hdd; [|done]. cbn.
    unfold exported_buffer. by rewrite (Hd d dd Hdd). }
  split.
  - intros b. unfold ref_of, exported. rewrite Hb, Hh, Hnone, lookup_empty. cbn.
    rewrite (attached_none b ∅), (pointing_none b ∅); [done| |];
      intros ? ?; by rewrite lookup_empty.
  - intros b bd. by rewrite Hb, lookup_empty.
  - intros heap hp b Hhp. rewrite (Hq heap hp Hhp). by intros ?%elem_of_nil.
  - intros h hd. by rewrite Hh, lookup_empty.
  - intros b bd. by rewrite Hb, lookup_empty.
  - intros d b. by rewrite Hnone, lookup_empty.
  - rewrite Hh, Hnone, !map_size_empty. unfold handed_out. lia.
Qed.

Lemma run_ops_balanced os s s' :
  balanced s → run_ops os s = Ok () s' → balanced s'.
Proof.
  revert s. induction os as [|o os IH]; intros s Hb; cbn [run_ops].
  - by intros [= <-].
  - unfold mbind, M_bind. destruct (run_op o s) as [[] s1|] eqn:Hrun; [|done].
    intros Hrest. apply (IH s1); [|done].
    pose proof (wp_run_op o s Hb) as Hwp. unfold wp in Hwp. by rewrite Hrun in Hwp.
Qed.

Lemma balanced_handle s h hd :
  balanced s → handles s !! h = Some hd →
  ∃ bd, buffers s !! h_buffer hd = Some bd ∧ 1 ≤ b_ref bd.
Proof.
  intros Hb Hh.
  pose proof (counted_handle_ref (λ _, 0) s h hd Hb Hh ltac:(done)) as Href.
  destruct (ref_of_live s (h_buffer hd) ltac:(lia)) as (bd & Hbd & Heq).
  exists bd. split; [done|lia].
Qed.

(** X22: the reference count of a buffer is exact.  On a device that
    has been driven from its fresh state by entry points that returned,
    over heaps whose [allocate] answers 0 or a negative errno, the count
    of every buffer is the number of handles attached to it plus the
    number of dma-bufs that export it; a buffer that waits on a free list
    has neither. *)
Theorem buffer_references_counted s0 os s :
  fresh s0 → run_ops os s0 = Ok () s →
  (∀ b bd, buffers s !! b = Some bd →
     b_ref bd = attached b (handles s) + exported b (dmabufs s)) ∧
  (∀ heap hp b, heaps s !! heap = Some hp → b ∈ hp_free_list hp →
     attached b (handles s) = 0 ∧ exported b (dmabufs s) = 0).
Proof.
  intros Hfresh Hrun.
  pose proof (run_ops_balanced os s0 s (fresh_balanced s0 Hfresh) Hrun) as Hb.
  split.
  - intros b bd Hbd. pose proof (cnt_refs _ _ Hb b) as Href.
    rewrite (ref_of_lookup _ _ _ Hbd) in Href. lia.
  - intros heap hp b Hhp Hin.
    destruct (cnt_queued _ _ Hb heap hp b Hhp Hin) as [Hz _].
    pose proof (cnt_refs _ _ Hb b) as Href. cbv beta in Href.
    pose proof (attached_nonneg b (handles s)).
    pose proof (exported_nonneg b (dmabufs s)). lia.
Qed.

(** X23: nothing dangles.  On such a device every handle points to a
    live buffer that holds at least one reference, and so does every
    dma-buf that ion exported; a handle found in a client's tree is live
    itself, so that [ion_sg_table] on it returns the table of its buffer
    and changes nothing. *)
Theorem handles_never_dangle s0 os s :
  fresh s0 → run_ops os s0 = Ok () s →
  (∀ handle hd, handles s !! handle = Some hd →
     ∃ bd, buffers s !! h_buffer hd = Some bd ∧ 1 ≤ b_ref bd) ∧
  (∀ dmabuf d, dmabufs s !! dmabuf = Some d → db_ops_ion d = true →
     ∃ bd, buffers s !! db_priv d = Some bd ∧ 1 ≤ b_ref bd) ∧
  (∀ client cl handle, clients s !! client = Some cl → handle ∈ c_handles cl →
     ∃ hd bd, handles s !! handle = Some hd ∧
       buffers s !! h_buffer hd = Some bd ∧
       ion_sg_table client handle s = Ok (b_sg_table bd) s).
Proof.
  intros Hfresh Hrun.
  pose proof (run_ops_balanced os s0 s (fresh_balanced s0 Hfresh) Hrun) as Hb.
  assert (Htidy : tidy s).
  { apply reachable_tidy, (run_ops_reachable os s0); [|done].
    apply reachable_pristine, Hfresh. }
  split_and!.
  - intros handle hd. by apply balanced_handle.
  - intros dmabuf d Hd Hion.
    pose proof (counted_dmabuf_ref (λ _, 0) s dmabuf d Hb Hd Hion ltac:(done)) as Href.
    destruct (ref_of_live s (db_priv d) ltac:(lia)) as (bd & Hbd & Heq).
    exists bd. split; [done|lia].
  - intros client cl handle Hcl Hin.
    destruct (cons_trees _ _ Htidy client cl handle Hcl Hin) as (hd & Hh & _).
    destruct (balanced_handle s handle hd Hb Hh) as (bd & Hbd & _).
    exists hd, bd. split_and!; [done..|].
    unfold ion_sg_table, ion_handle_validate. mrun.
    unfold rb_find. rewrite bool_decide_true by done. by mrun.
Qed.

End Balance.

(** ** The counts on a concrete device *)

Section BalanceExamples.
#[local] Existing Instance bcm_platform.
#[local] Existing Instance willing_env.

Lemma power_on_fresh : fresh power_on.
Proof.
  split_and!.
  - by repeat split.
  - intros d dd. change (dmabufs power_on) with (∅ : gmap Z dma_buf).
    by rewrite lookup_empty.
  - assert (Hall : map_Forall (λ _ hp, hp_free_list hp = []) (heaps power_on))
      by decide_now.
    intros heap hp. apply Hall.
Qed.

Lemma willing_env_behaves : allocate_returns_errno.
Proof. intros tr heap buffer len align flags. cbn. unfold MAX_ERRNO. by vm_compute. Qed.

Lemma buffer_references_counted_witness :
  allocate_returns_errno ∧ fresh power_on ∧
  run_ops one_buffer_shared_ops power_on = Ok () one_buffer_shared ∧
  buffers one_buffer_shared !! 4112 = Some (IonBuffer 2 16 0 4096 0 0 4116 0 1) ∧
  attached 4112 (handles one_buffer_shared) = 1 ∧
  exported 4112 (dmabufs one_buffer_shared) = 1 ∧
  b_ref (IonBuffer 2 16 0 4096 0 0 4116 0 1)
  = attached 4112 (handles one_buffer_shared)
    + exported 4112 (dmabufs one_buffer_shared).
Proof.
  assert (Hrun : run_ops one_buffer_shared_ops power_on = Ok () one_buffer_shared)
    by evaluate.
  assert (Hb : buffers one_buffer_shared !! 4112
               = Some (IonBuffer 2 16 0 4096 0 0 4116 0 1)) by evaluate.
  split_and!; [exact willing_env_behaves|exact power_on_fresh|exact Hrun|exact Hb
              |evaluate|evaluate|].
  exact (proj1 (buffer_references_counted willing_env_behaves power_on
                  one_buffer_shared_ops one_buffer_shared power_on_fresh Hrun)
           4112 _ Hb).
Defined.

Lemma handles_never_dangle_witness :
  allocate_returns_errno ∧ fresh power_on ∧
  run_ops one_buffer_shared_ops power_on = Ok () one_buffer_shared ∧
  handles one_buffer_shared !! 4120 = Some (IonHandle 1 4096 4112 true 0) ∧
  dmabufs one_buffer_shared !! 4128 = Some (DmaBuf true 4112 1) ∧
  clients one_buffer_shared !! 4096 = Some (IonClient [4120] 1 1024) ∧
  (∃ bd, buffers one_buffer_shared !! 4112 = Some bd ∧ 1 ≤ b_ref bd) ∧
  ∃ hd bd, handles one_buffer_shared !! 4120 = Some hd ∧
    buffers one_buffer_shared !! h_buffer hd = Some bd ∧
    ion_sg_table 4096 4120 one_buffer_shared = Ok (b_sg_table bd) one_buffer_shared.
Proof.
  assert (Hrun : run_ops one_buffer_shared_ops power_on = Ok () one_buffer_shared)
    by evaluate.
  assert (Hh : handles one_buffer_shared !! 4120 = Some (IonHandle 1 4096 4112 true 0))
    by evaluate.
  assert (Hd : dmabufs one_buffer_shared !! 4128 = Some (DmaBuf true 4112 1))
    by evaluate.
  assert (Hcl : clients one_buffer_shared !! 4096 = Some (IonClient [4120] 1 1024))
    by evaluate.
  assert (Hin : 4120 ∈ c_handles (IonClient [4120] 1 1024)) by decide_now.
  destruct (handles_never_dangle willing_env_behaves power_on one_buffer_shared_ops
              one_buffer_shared power_on_fresh Hrun) as (Hlive & Hexported & Htree).
  split_and!; [exact willing_env_behaves|exact power_on_fresh|exact Hrun|exact Hh
              |exact Hd|exact Hcl| |].
  - exact (Hexported 4128 _ Hd eq_refl).
  - exact (Htree 4096 _ 4120 Hcl Hin).
Defined.

End BalanceExamples.
